(* ===== verification/_CoqProject ===== *)
-Q . S2P
Prelude.v
Ring.v
Ipc.v
FdTable.v
FdSpec.v
FdRefine.v
FdLinks.v
FdStream.v
Engine.v
Exec.v
Service.v
Client.v
ClientReqs.v
EngineProps.v
SockProps.v
FdFindings.v
ClientProps.v
ClientApi.v
Sim.v
NetDevRing.v
RingWords.v
RingWeak.v
NetDevRegistry.v
RefDriver.v
OsalCv.v
Atomics.v
Bits.v
Tasks.v
EngineTasks.v
EngineInv.v
EngineMoves.v
EngineLaunch.v
EngineProc.v
TaskSim.v
Bsdsocket.v
BsdProps.v
BsdCalls.v
BsdLife.v
TestRuns.v
Stubs.v
OsalTimer.v
OsalTimedWait.v
OsalMemory.v
OsalThread.v
ThreadSim.v
OsalDiag.v
OsalTrace.v
BsdTables.v
KernStubs.v
OsalLock.v
SemSim.v
TimerTasks.v
TimerSafe.v
TimerSim.v
CvTasks.v
CvInv.v
CvSafe.v
CvExact.v
CvSim.v
TestCv.v
TestCvInv.v
TestCvSafe.v
TestCvLive.v
TestCvSim.v
ClientTasks.v
ClientFrame.v
ClientInv.v
ClientKeep.v
ClientDown.v
ClientLin.v
ClientLive.v
ClientSim.v
