(* ===== verification/Prelude.v ===== *)
(** * netstack-amigaos4: a verification development

    The program is a network stack for AmigaOS 4 in C.  A process of its own,
    [netstack.process], owns the sockets; programs reach it by messages, either
    through a client library that is linked to them or through a shared library
    with the BSD calls.  Below are a ring interface for network drivers and the
    adaptation layer (OSAL) on which a NetBSD rump kernel is to run.  This
    development models the parts that have behaviour and proves what each
    promises, alone and composed.

    ** Conventions

    A C integer is a [Z], with its conversions [u8] ... [u64], [s32] written where
    the language performs them.  Code over global variables is a program of the
    monad [M] below; [None] is undefined behaviour (an access outside an object,
    a signed overflow) or, where a comment says so, a task that is blocked for
    ever.  So a theorem that a program returns [Some] excludes both.  Code that
    runs at the same time as other code is a step function or relation that makes
    one access to shared state or one call into the system per step.  AmigaOS is
    not part of the repository: its calls are fields of classes over an abstract
    world ([Exec], [Tasks], [Sems],
    [TimerDev], [Vec], [ThreadOS], [Host], [Dos], [Debug]), its documented
    behaviour the laws of companion classes, and each class of laws has an
    instance, so that the theorems are not empty.

    ** Files

    - Prelude.v (this file): integers, the monad, arrays, [memcpy], big-endian
      words.  Ring.v: circular buffers of the socket table and of the condition
      variables.
    - Ipc.v: the message [struct NetstackReq] of netstack_ipc.h, its union as
      bytes.
    - FdTable.v: fdtable.c, the table of 128 sockets and its eight handlers.
      FdSpec.v: the abstract sockets they implement, with a queue for the backlog
      and a list for the bytes in flight.  FdRefine.v: each handler refines its
      operation.  FdLinks.v, FdStream.v: connections stay consistent, bytes are
      neither lost nor reordered.  SockProps.v: what a user relies on.
      FdFindings.v: runs in which the table does not do what it means to.
    - Engine.v: the dispatch of engine_main.c; EngineProps.v: batches of messages
      from boot.
    - Tasks.v: tasks, signals and ports.  EngineTasks.v: engine_process_main,
      NetstackEngine_Start and NetstackEngine_Stop as machines that interleave
      with each other and with clients at every call.  EngineInv.v, EngineMoves.v,
      EngineLaunch.v: the invariant and the phases of the handshake.
      EngineProc.v: its theorems.  TaskSim.v: a world, runs, witnesses.
    - Exec.v, Service.v: what the client library needs of exec and what the engine
      promises it.  Client.v: socket_ipc.c.  ClientReqs.v: what its requests mean.
      ClientProps.v: ports and semaphores.  ClientApi.v: every call is one
      operation of FdSpec.v.  Sim.v: a world in which the messages are served by
      Engine.v, which discharges Service.v, and the end-to-end theorem.
    - ClientTasks.v: netstack_ipc_call in any number of tasks at once, interleaved
      with the engine and its launcher at every call into the system.
      Also netstack_client_shutdown, when nobody calls.  ClientFrame.v, ClientInv.v,
      ClientKeep.v, ClientDown.v: what the system calls of one task leave alone, the
      invariant, its preservation, also by a shutdown.  ClientLin.v: the theorems.
      ClientLive.v: while nobody stops the engine its port stays the one they know.
      ClientSim.v: a world with ports and semaphores, runs, and what goes wrong
      outside the theorems' conditions.  SemSim.v: semaphores in a world.
    - Bsdsocket.v: bsdsocket_library.c.  BsdProps.v: addresses.  BsdCalls.v: the
      eight BSD calls.  BsdLife.v: open, close, expunge, the lazy start.
      BsdTables.v: the resident tag, the tags and the vector tables.
    - NetDevRing.v: netdev_ring.c, whole and with the two sides interleaved.
      RingWords.v: the same where a 64-bit access is two.  RingWeak.v: the same on
      a processor that reorders.  NetDevRegistry.v: netdev_registry.c.
      RefDriver.v: the interface of netdev.h and reference_driver.c.
    - OsalCv.v: the condition variables of osal_lock.c, one call after another.
      OsalTimedWait.v: the timed wait, with the naps of osal_timer.c.
      OsalLock.v: its mutexes and read-write locks, over semaphores.  CvTasks.v:
      any number of tasks that use any number of mutexes and condition variables,
      interleaved at every call.  CvInv.v, CvSafe.v, CvExact.v: what a step does,
      the invariant, and the sharper one without time-outs.  CvSim.v: the theorems,
      a world, runs.
    - TestCv.v: tests/phase1/test_cv.c, a bounded buffer with its producers and
      consumers, over CvTasks.v.  TestCvInv.v, TestCvSafe.v: its invariant, and that
      the buffer is a queue.  TestCvLive.v: no deadlock, and a measure.  TestCvSim.v:
      a world, a schedule.
    - Atomics.v, Bits.v: rump_atomics.c and the routines of rump_link_stubs.c.
      KernStubs.v: the constants, barriers and stubs of rump_link_stubs.c and
      rump_kern_globals.c.  OsalMemory.v, OsalTimer.v, OsalThread.v: osal_memory.c,
      osal_timer.c, osal_thread.c.  TimerTasks.v, TimerSafe.v, TimerSim.v: any number
      of tasks that sleep, interleaved at every call.  ThreadSim.v: a world with threads, runs, and
      what the threads do not keep.  OsalDiag.v, OsalTrace.v: osal_diag.c, its
      parameters, and its trace file, console and panic.
    - Stubs.v: the functions whose bodies are a constant for now (mbuf_pool.c,
      engine_init.c, sana2_bridge.c, bench_stub.c, the osal_timer_* functions).
    - TestRuns.v: the programs of tests/phase3 over the models, and that they pass.

    ** What is proved

    - The engine: from boot, any batch of messages is served without undefined
      behaviour as the socket specification says, errors change nothing, links
      stay symmetric while no client is closed that waits in a backlog, the stream
      of a connection to which nothing else refers stays intact whatever other
      clients do, and an end that is left behind drains ([EngineProps], [SockProps]).
    - The process: in every interleaving Start and Stop leave the two tasks, the
      signals and the port as they should, every call returns in a bounded number
      of steps of the two tasks, and the requests are answered one after another
      in the order of their arrival ([EngineProc]).
    - The client library and the BSD calls refine the same specification, from any
      task; reply ports are private and given back ([ClientApi], [ClientProps],
      [Sim], [BsdCalls]); the shared library goes exactly when nobody has it open
      ([BsdLife]).
    - With any number of tasks calling an initialised library at once, in every
      interleaving, the calls
      are those of one sequence of requests served one after another, each between
      its call and its return; no two tasks share a port or a section; a posted
      call returns; the bytes of a connection stay in order; and a task that shuts
      the library down leaves every slot free ([ClientLin]).  While nobody stops the
      engine every message is put to its live port and none is lost ([ClientLive]).
    - The device ring is a bounded queue.  Between one producer and one consumer it
      stays one, word by word, for 2^32 - 2 publishes ([RingWords]), and on a
      processor that reorders exactly if three barriers are real ([RingWeak]).  The
      registry is a finite map; the vectors of the reference driver answer
      constants and change nothing but the statistics they clear ([RefDriver]).
    - The OSAL: condition variables are first in, first out; when a timed wait
      ends and when it hangs in a nap is known exactly ([OsalTimedWait]); in
      every interleaving the mutex excludes, no wakeup is lost, and without
      time-outs each signal wakes the task that has waited longest ([CvSim]); the
      bounded buffer of test_cv.c ends with success under every schedule, and
      keeps the order of its items ([TestCvSafe], [TestCvLive]);
      atomics take effect at one instant; threads never touch freed memory and a
      join means that the function returned; timer slots are
      private in every interleaving of sleeping tasks from the start of the program,
      when the first sleep passes the initialisation alone ([TimerSafe]); every
      sequence of allocations and frees of the kernel keeps its blocks apart and
      gives back what was there ([OsalMemory]); parameters are answered from a table
      ([OsalDiag]); the memory routines of the stubs do what their names say, but
      for one error number ([Bits]); traces are appended and clipped,
      a panic never returns ([OsalTrace]).
    - The ping, echo and BSD tests report success in the models ([TestRuns]).

    ** Bounds and fuel

    Loops over fixed arrays run for the length of the array: 125 descriptors
    ([SCAN_LEN]), 16 reply or timer slots, 32 signal bits.  [cv_poll] takes fuel,
    and [OsalTimedWait.timedwait_outcome] gives the fuel that is enough for every
    time-out, so that no result there means that the wait hangs; the atomics take as fuel one more than the number of stores by
    others, and their theorems say that this is enough; the steps of Start and
    Stop are bounded by the measure of EngineProc.v, those of the bounded buffer by
    the one of TestCvLive.v.

    ** Limits

    In Client.v a call that reaches the engine is one step of the world
    ([Exchange]), and Service.v allows other clients to act before and after it;
    ClientTasks.v takes the call apart, and ClientLin.v shows that it may be seen
    as one step.  netstack_client_shutdown begins there when no task is in a call,
    and none begins one before it returns; [ClientSim.shutdown_under_call] is what
    happens otherwise.  The callers there ([ClientTasks.caller]) are the tasks other
    than the one that starts and stops the engine.  A message put to a port that is not live is undefined and no
    step of the relations ([ClientTasks.dangling]); [ClientSim.stale_engine_port] is a
    run with Stop that gets there, and [ClientLive.client_puts_live] says that none
    without Stop does.

    The C memory model is sequentially consistent, except in RingWeak.v: the other
    parts that run concurrently synchronise through system calls, or by load
    reserved and store conditional (Atomics.v).  In RingWeak.v a store waits in a
    buffer until it becomes visible, a load of a slot may run early or late, and
    what is last seen of the other side's number may be old; [head] and [tail] are
    loaded and stored whole there, while on the target each is two words, which is in
    RingWords.v.  Pointers to objects
    are addresses or indices, and strings of the system (names of ports and tasks)
    are not compared.  In CvTasks.v, TestCv.v and ClientTasks.v the section of code
    between obtaining and releasing a semaphore is one step where it makes no system
    call, which is justified by the theorems that at most one task is in such a
    section; nobody else uses the signal bit SIGB_SINGLE of a task that waits.  In
    TestCv.v all threads exist from the start, and a join waits until they have
    returned.  The traces
    that the modelled hypercalls of other files write are left out there; what a
    trace does is in OsalTrace.v.

    ** Not modelled

    - The console output of engine_main.c.
    - Objects of the kernel that are zero and that no code of the repository reads.
    - The headers of include/ that only declare functions, the tests of tests/ that
      are not in TestRuns.v or TestCv.v, and the vendored NetBSD sources. *)

From stdpp Require Export base functions tactics list list_numbers numbers option strings.
From stdpp Require Export fin_maps gmap relations.
From Stdlib Require Export Lia ZArith.

#[global] Open Scope Z_scope.

(** ** Machine integers

    The target is 32-bit big-endian PowerPC.  A C integer is a [Z]; the
    functions below are the conversions the language performs. *)

Definition u8  (x : Z) : Z := x mod 256.
Definition u16 (x : Z) : Z := x mod 65536.
Definition u32 (x : Z) : Z := x mod 4294967296.
Definition u64 (x : Z) : Z := x mod 18446744073709551616.
Definition s32 (x : Z) : Z := (x + 2147483648) mod 4294967296 - 2147483648.

Definition is_u8  (x : Z) : Prop := 0 <= x < 256.
Definition is_u16 (x : Z) : Prop := 0 <= x < 65536.
Definition is_u32 (x : Z) : Prop := 0 <= x < 4294967296.
Definition is_u64 (x : Z) : Prop := 0 <= x < 18446744073709551616.
Definition is_s32 (x : Z) : Prop := -2147483648 <= x < 2147483648.

(** [lia] with quotients and remainders by literals. *)
Ltac zlia := Z.to_euclidean_division_equations; lia.

(** Unfold the integer vocabulary and call [zlia]. *)
Ltac word :=
  unfold u8, u16, u32, u64, s32, is_u8, is_u16, is_u32, is_u64, is_s32 in *; zlia.

Lemma u8_id x : is_u8 x -> u8 x = x.
Proof. word. Qed.
Lemma u16_id x : is_u16 x -> u16 x = x.
Proof. word. Qed.
Lemma u32_id x : is_u32 x -> u32 x = x.
Proof. word. Qed.
Lemma u64_id x : is_u64 x -> u64 x = x.
Proof. word. Qed.
Lemma s32_id x : is_s32 x -> s32 x = x.
Proof. word. Qed.
Lemma s32_u32 x : s32 (u32 x) = s32 x.
Proof. word. Qed.
Lemma u32_s32 x : u32 (s32 x) = u32 x.
Proof. word. Qed.
Lemma is_u8_u8 x : is_u8 (u8 x).
Proof. word. Qed.
Lemma is_u16_u16 x : is_u16 (u16 x).
Proof. word. Qed.
Lemma is_u32_u32 x : is_u32 (u32 x).
Proof. word. Qed.
Lemma is_u64_u64 x : is_u64 (u64 x).
Proof. word. Qed.
Lemma is_s32_s32 x : is_s32 (s32 x).
Proof. word. Qed.

Create HintDb words.
#[export] Hint Resolve is_u8_u8 is_u16_u16 is_u32_u32 is_u64_u64 is_s32_s32 : words.
Create Rewrite HintDb wordid.
#[export] Hint Rewrite s32_u32 u32_s32 : wordid.

(** ** Booleans from the C conditions *)

Lemma Zltb_reflect x y : Bool.reflect (x < y) (x <? y).
Proof. apply Z.ltb_spec0. Qed.

(** Case split on the first C condition found in the goal. *)
Ltac case_cond :=
  match goal with
  | |- context [?x =? ?y] => destruct (Z.eqb_spec x y)
  | |- context [?x <? ?y] => destruct (Z.ltb_spec x y)
  | |- context [?x <=? ?y] => destruct (Z.leb_spec x y)
  end.

(** ** Programs over a global store

    C code that reads and writes file-scope variables is a function from
    the store to an optional result and store.  [None] is undefined
    behaviour: an array access out of bounds, a signed overflow, a
    [memcpy] that leaves its object. *)

Definition M (S A : Type) : Type := S -> option (A * S).

#[global] Instance M_ret S : MRet (M S) := fun A a s => Some (a, s).
#[global] Instance M_bind S : MBind (M S) := fun A B k m s =>
  match m s with
  | Some (a, s') => k a s'
  | None => None
  end.

Definition ub {S A} : M S A := fun _ => None.
Definition getM {S} : M S S := fun s => Some (s, s).
Definition putM {S} (s : S) : M S unit := fun _ => Some (tt, s).

(** Signed 32-bit arithmetic: a result outside the type is undefined. *)
Definition ckd {S} (x : Z) : M S Z :=
  if (-2147483648 <=? x) && (x <? 2147483648) then mret x else ub.

(** A C [if] without [else] around a void statement. *)
Definition whenM {S} (b : bool) (m : M S unit) : M S unit :=
  if b then m else mret tt.

Section monad.
Context {S : Type}.
Implicit Types (s : S).

Lemma bind_some {A B} (m : M S A) (k : A -> M S B) s a s' :
  m s = Some (a, s') -> (m ≫= k) s = k a s'.
Proof. intros H. unfold mbind, M_bind. by rewrite H. Qed.

Lemma bind_inv {A B} (m : M S A) (k : A -> M S B) s b s'' :
  (m ≫= k) s = Some (b, s'') ->
  exists a s', m s = Some (a, s') /\ k a s' = Some (b, s'').
Proof.
  unfold mbind, M_bind. destruct (m s) as [[a s']|]; [|done].
  intros H. by exists a, s'.
Qed.

Lemma ret_run {A} (a : A) s : (mret a : M S A) s = Some (a, s).
Proof. done. Qed.

Lemma ckd_run x s : is_s32 x -> ckd x s = Some (x, s).
Proof.
  intros [? ?]. unfold ckd.
  destruct (Z.leb_spec (-2147483648) x), (Z.ltb_spec x 2147483648); try lia.
  done.
Qed.

Lemma ckd_inv x s y s' : ckd x s = Some (y, s') -> y = x /\ s' = s /\ is_s32 x.
Proof.
  unfold ckd, is_s32.
  destruct (Z.leb_spec (-2147483648) x), (Z.ltb_spec x 2147483648);
    cbn; intros H'; simplify_eq H'; intros; subst; auto.
Qed.
End monad.

(** ** C arrays: lists indexed by a signed integer *)

Definition lookupZ {A} (l : list A) (i : Z) : option A :=
  if 0 <=? i then l !! Z.to_nat i else None.

Lemma lookupZ_nat {A} (l : list A) i :
  0 <= i -> lookupZ l i = l !! Z.to_nat i.
Proof. intros. unfold lookupZ. by destruct (Z.leb_spec 0 i); [|lia]. Qed.

Lemma lookupZ_is_Some {A} (l : list A) i :
  0 <= i < Z.of_nat (length l) -> exists x, lookupZ l i = Some x.
Proof.
  intros. rewrite lookupZ_nat by lia.
  apply lookup_lt_is_Some_2. lia.
Qed.

Lemma lookupZ_Some {A} (l : list A) i x :
  lookupZ l i = Some x ->
  0 <= i < Z.of_nat (length l) /\ l !! Z.to_nat i = Some x.
Proof.
  unfold lookupZ. destruct (Z.leb_spec 0 i); [|done].
  intros H'. split; [|done]. apply lookup_lt_Some in H'. lia.
Qed.

(** [l[i] = x], undefined outside the array. *)
Definition storeZ {A} (l : list A) (i : Z) (x : A) : option (list A) :=
  if (0 <=? i) && (i <? Z.of_nat (length l)) then Some (<[Z.to_nat i := x]> l) else None.

Lemma storeZ_run {A} (l : list A) i x :
  0 <= i < Z.of_nat (length l) -> storeZ l i x = Some (<[Z.to_nat i := x]> l).
Proof. intros. unfold storeZ. by repeat (case_cond; try lia). Qed.

(** ** Blocks of an array: what [memcpy] reads and writes *)

Definition block {A} (off n : nat) (l : list A) : list A := take n (drop off l).

Section blocks.
Context {A : Type}.
Implicit Types (l k : list A).

Lemma length_block off n l :
  (off + n <= length l)%nat -> length (block off n l) = n.
Proof. intros. unfold block. rewrite length_take, length_drop. lia. Qed.

Lemma lookup_block off n l i :
  (i < n)%nat -> block off n l !! i = l !! (off + i)%nat.
Proof.
  intros. unfold block. rewrite lookup_take_lt by lia.
  by rewrite lookup_drop.
Qed.

Lemma block_inserts_same off l k :
  (off + length k <= length l)%nat ->
  block off (length k) (list_inserts off k l) = k.
Proof.
  intros. apply list_eq_same_length with (length k); [done| |].
  { rewrite length_block; [done|]. by rewrite length_inserts. }
  intros i x y Hi. rewrite lookup_block by done.
  rewrite list_lookup_inserts by lia.
  replace (off + i - off)%nat with i by lia. naive_solver.
Qed.

Lemma block_inserts_disj off n off' l k :
  (off + n <= off' \/ off' + length k <= off)%nat ->
  (off + n <= length l)%nat ->
  block off n (list_inserts off' k l) = block off n l.
Proof.
  intros. apply list_eq_same_length with n.
  { by apply length_block. }
  { rewrite length_block; [done|]. by rewrite length_inserts. }
  intros i x y Hi. rewrite !lookup_block by done.
  destruct H as [|].
  - rewrite list_lookup_inserts_lt by lia. naive_solver.
  - rewrite list_lookup_inserts_ge by lia. naive_solver.
Qed.

Lemma block_app_split off n m l :
  block off (n + m) l = block off n l ++ block (off + n) m l.
Proof.
  unfold block. rewrite <- drop_drop, take_take_drop. done.
Qed.

Lemma Forall_block (P : A -> Prop) off n l :
  Forall P l -> Forall P (block off n l).
Proof. intros. unfold block. by apply Forall_take, Forall_drop. Qed.

Lemma Forall_inserts (P : A -> Prop) off l k :
  Forall P l -> Forall P k -> Forall P (list_inserts off k l).
Proof.
  revert off l. induction k as [|x k IH]; intros off l Hl Hk; simpl; [done|].
  inversion Hk; subst. apply Forall_insert; eauto.
Qed.

(** [take] of a block: reading fewer bytes from the same place. *)
Lemma block_take off n m l :
  (m <= n)%nat -> take m (block off n l) = block off m l.
Proof. intros. unfold block. rewrite take_take. f_equal. lia. Qed.

Lemma block_drop off n m l :
  (m <= n)%nat -> drop m (block off n l) = block (off + m) (n - m) l.
Proof.
  intros. unfold block. rewrite skipn_firstn_comm, drop_drop. done.
Qed.

Lemma block_0 off l : block off 0 l = [].
Proof. done. Qed.
End blocks.

Lemma block_inserts_prefix {A} off n (bs l : list A) :
  (length bs <= n)%nat -> (off + n <= length l)%nat ->
  block off n (list_inserts off bs l) =
  bs ++ block (off + length bs) (n - length bs) l.
Proof.
  intros Hn Hl. replace n with (length bs + (n - length bs))%nat at 1 by lia.
  rewrite block_app_split. f_equal.
  - apply block_inserts_same. lia.
  - apply block_inserts_disj; lia.
Qed.

Lemma block_replicate {A} off n m (x : A) :
  (off + n <= m)%nat -> block off n (replicate m x) = replicate n x.
Proof.
  intros. unfold block. rewrite drop_replicate, take_replicate. f_equal. lia.
Qed.

(** [memcpy]/[memmove] of [n] elements into one array from another; [None]
    when a range leaves its object (a negative length becomes a huge
    [size_t]). *)
Definition memcpy {A} (dst : list A) (doff : Z) (src : list A) (soff n : Z)
  : option (list A) :=
  if (0 <=? n) && (0 <=? doff) && (doff + n <=? Z.of_nat (length dst))
     && (0 <=? soff) && (soff + n <=? Z.of_nat (length src))
  then Some (list_inserts (Z.to_nat doff)
                          (block (Z.to_nat soff) (Z.to_nat n) src) dst)
  else None.

Lemma memcpy_run {A} (dst src : list A) doff soff n :
  0 <= n -> 0 <= doff -> doff + n <= Z.of_nat (length dst) ->
  0 <= soff -> soff + n <= Z.of_nat (length src) ->
  memcpy dst doff src soff n =
  Some (list_inserts (Z.to_nat doff) (block (Z.to_nat soff) (Z.to_nat n) src) dst).
Proof.
  intros. unfold memcpy. by repeat (case_cond; try lia).
Qed.

(** Lift an optional value (a pointer dereference) into the store monad. *)
Definition liftO {S A} (o : option A) : M S A :=
  fun s => match o with Some a => Some (a, s) | None => None end.

Lemma liftO_run {S A} (o : option A) a (s : S) :
  o = Some a -> liftO o s = Some (a, s).
Proof. by intros ->. Qed.

(** ** Big-endian words in memory *)

Definition be_decode (bs : list Z) : Z := foldl (fun acc b => acc * 256 + b) 0 bs.

Fixpoint be_encode (n : nat) (v : Z) : list Z :=
  match n with
  | O => []
  | S n' => be_encode n' (v / 256) ++ [v mod 256]
  end.

Lemma length_be_encode n v : length (be_encode n v) = n.
Proof.
  revert v. induction n as [|n IH]; intros v; [done|].
  cbn [be_encode]. rewrite length_app, IH. cbn [length]. lia.
Qed.

Lemma be_encode_bytes n v : Forall is_u8 (be_encode n v).
Proof.
  revert v. induction n as [|n IH]; intros v; cbn [be_encode]; [done|].
  apply Forall_app; split; [done|]. repeat constructor; word.
Qed.

Lemma be_decode_snoc bs b : be_decode (bs ++ [b]) = be_decode bs * 256 + b.
Proof. unfold be_decode. by rewrite foldl_app. Qed.

Lemma be_decode_encode n v :
  be_decode (be_encode n v) = v mod 256 ^ Z.of_nat n.
Proof.
  revert v. induction n as [|n IH]; intros v.
  { cbn. by rewrite Z.mod_1_r. }
  cbn [be_encode]. rewrite be_decode_snoc, IH.
  rewrite Nat2Z.inj_succ, Z.pow_succ_r by lia.
  rewrite Z.rem_mul_r by lia. lia.
Qed.

Lemma be_decode_bound bs :
  Forall is_u8 bs -> 0 <= be_decode bs < 256 ^ Z.of_nat (length bs).
Proof.
  induction bs as [|b bs IH] using rev_ind; intros Hb; [cbn; lia|].
  apply Forall_app in Hb as [Hbs Hb]. inversion Hb; subst.
  rewrite be_decode_snoc, length_app. cbn [length].
  rewrite Nat2Z.inj_add. cbn [Z.of_nat]. change (Z.of_nat 1) with 1.
  rewrite Z.pow_add_r by lia. specialize (IH Hbs).
  unfold is_u8 in *. nia.
Qed.

(** ** Runs that must reach a state *)

(** However the steps are scheduled, a state where [P] holds is reached. *)
Inductive must_reach {S : Type} (R : S -> S -> Prop) (P : S -> Prop) (s : S) : Prop :=
  | reach_now : P s -> must_reach R P s
  | reach_later : (exists s', R s s') -> (forall s', R s s' -> must_reach R P s') -> must_reach R P s.

Lemma must_reach_measure {S} (R : S -> S -> Prop) (P I : S -> Prop) (mu : S -> nat) :
  (forall s, P s \/ ~ P s) ->
  (forall s s', I s -> R s s' -> I s') ->
  (forall s, I s -> ~ P s -> exists s', R s s') ->
  (forall s s', I s -> ~ P s -> R s s' -> (mu s' < mu s)%nat) ->
  forall s, I s -> must_reach R P s.
Proof.
  intros Hdec Hinv Hprog Hdecr s. remember (mu s) as n eqn:Hn. revert s Hn.
  induction (lt_wf n) as [n _ IH]. intros s -> Hi.
  destruct (Hdec s) as [HP|HP]; [by apply reach_now|].
  apply reach_later; [by apply Hprog|]. intros s' Hs.
  apply (IH (mu s')); eauto.
Qed.

(** More may be said of the state that is reached, by an invariant. *)
Lemma must_reach_inv {S} (R : S -> S -> Prop) (P Q I : S -> Prop) s :
  (forall s s', I s -> R s s' -> I s') -> (forall s, I s -> P s -> Q s) ->
  I s -> must_reach R P s -> must_reach R Q s.
Proof.
  intros Hinv HPQ Hi Hr. induction Hr as [s HP|s Hex _ IH]; [by apply reach_now, HPQ|].
  apply reach_later; [done|]. intros s' Hs. apply IH; [done|]. by eapply Hinv.
Qed.
