(* ===== verification/Ring.v ===== *)
(** * Circular buffers as FIFO queues

    Three components keep a queue in a fixed array with indices taken
    modulo its length: the accept backlog of a listening socket
    (fdtable.c), the waiter list of a condition variable (osal_lock.c) and
    the NetDev descriptor ring (netdev_ring.c).  [ring_view] is the queue
    such an array represents; the lemmas say what a store at the tail, a
    load at the head, a store just before the head and a left shift of a
    segment do to that queue. *)

From S2P Require Import Prelude.

Section ring.
Context {A : Type} `{!Inhabited A}.
Implicit Types (slots : list A).

(** The [cnt] elements that follow index [start], in order. *)
Definition ring_view slots (start cnt : nat) : list A :=
  (fun k => slots !!! ((start + k) `mod` length slots)%nat) <$> seq 0 cnt.

Lemma length_ring_view slots start cnt :
  length (ring_view slots start cnt) = cnt.
Proof. unfold ring_view. by rewrite length_fmap, length_seq. Qed.

Lemma ring_view_0 slots start : ring_view slots start 0 = [].
Proof. done. Qed.

Lemma lookup_ring_view slots start cnt k :
  (k < cnt)%nat ->
  ring_view slots start cnt !! k =
  Some (slots !!! ((start + k) `mod` length slots)%nat).
Proof.
  intros. unfold ring_view. rewrite list_lookup_fmap, lookup_seq_lt by lia.
  done.
Qed.

(** Two views with the same cells are equal. *)
Lemma ring_view_ext slots slots' start start' cnt :
  (forall k, (k < cnt)%nat ->
    slots !!! ((start + k) `mod` length slots)%nat =
    slots' !!! ((start' + k) `mod` length slots')%nat) ->
  ring_view slots start cnt = ring_view slots' start' cnt.
Proof.
  intros Hk. apply list_eq_same_length with cnt; rewrite ?length_ring_view; [done..|].
  intros i x y Hi. rewrite !lookup_ring_view by lia. rewrite Hk by lia. naive_solver.
Qed.

Lemma ring_view_mod slots start cnt :
  ring_view slots (start `mod` length slots)%nat cnt = ring_view slots start cnt.
Proof.
  apply ring_view_ext. intros k _. by rewrite Nat.Div0.add_mod_idemp_l.
Qed.

(** Distinct offsets below the length are distinct cells. *)
Lemma ring_index_inj n start i j :
  (i < n)%nat -> (j < n)%nat ->
  ((start + i) `mod` n = (start + j) `mod` n)%nat -> i = j.
Proof.
  intros Hi Hj He.
  pose proof (Nat.div_mod_eq (start + i) n) as Ha.
  pose proof (Nat.div_mod_eq (start + j) n) as Hb.
  rewrite He in Ha.
  assert (((start + i) `div` n = (start + j) `div` n)%nat) by nia. nia.
Qed.

Lemma ring_view_snoc slots start cnt :
  ring_view slots start (S cnt) =
  ring_view slots start cnt ++ [slots !!! ((start + cnt) `mod` length slots)%nat].
Proof.
  unfold ring_view. rewrite seq_S, fmap_app. done.
Qed.

(** Load at the head and advance it. *)
Lemma ring_pop slots start cnt :
  ring_view slots start (S cnt) =
  slots !!! (start `mod` length slots)%nat ::
  ring_view slots ((start + 1) `mod` length slots)%nat cnt.
Proof.
  rewrite ring_view_mod. unfold ring_view. cbn [seq fmap list_fmap].
  rewrite Nat.add_0_r. f_equal. rewrite <- fmap_S_seq, <- list_fmap_compose.
  apply list_fmap_ext. intros i x _. cbn. f_equal. f_equal. lia.
Qed.

(** Writing a cell outside the view does not change it. *)
Lemma ring_view_insert_out slots start cnt i x :
  (forall k, (k < cnt)%nat -> ((start + k) `mod` length slots <> i)%nat) ->
  ring_view (<[i:=x]> slots) start cnt = ring_view slots start cnt.
Proof.
  intros Hi. apply ring_view_ext. intros k Hk. rewrite length_insert.
  apply list_lookup_total_insert_ne. specialize (Hi k Hk). lia.
Qed.

(** Store at the tail: the queue grows at its end. *)
Lemma ring_push slots start cnt x :
  (cnt < length slots)%nat ->
  ring_view (<[((start + cnt) `mod` length slots)%nat:=x]> slots) start (S cnt) =
  ring_view slots start cnt ++ [x].
Proof.
  intros Hc. rewrite ring_view_snoc, length_insert.
  rewrite list_lookup_total_insert_eq by (apply Nat.mod_upper_bound; lia).
  rewrite ring_view_insert_out; [done|].
  intros k Hk He. apply ring_index_inj in He; lia.
Qed.

(** Store just before the head: the queue grows at its front. *)
Lemma ring_unpop slots start cnt x :
  (cnt < length slots)%nat ->
  ring_view (<[((start + length slots - 1) `mod` length slots)%nat:=x]> slots)
            ((start + length slots - 1) `mod` length slots)%nat (S cnt) =
  x :: ring_view slots start cnt.
Proof.
  intros Hc. set (n := length slots) in *.
  set (p := ((start + n - 1) `mod` n)%nat).
  assert (Hp : (p < n)%nat) by (apply Nat.mod_upper_bound; lia).
  assert (Hq : ((p + 1) `mod` n = start `mod` n)%nat).
  { unfold p. rewrite Nat.Div0.add_mod_idemp_l.
    replace (start + n - 1 + 1)%nat with (start + 1 * n)%nat by lia.
    apply Nat.Div0.mod_add. }
  rewrite ring_pop, length_insert. fold n.
  rewrite (Nat.mod_small p n) by lia.
  rewrite list_lookup_total_insert_eq by (fold n; lia). f_equal.
  rewrite Hq. unfold n at 1. rewrite <- (length_insert slots p x), ring_view_mod.
  apply ring_view_insert_out. fold n. intros k Hk He.
  assert (Hs : ((start + k) `mod` n = (p + (k + 1)) `mod` n)%nat).
  { replace (p + (k + 1))%nat with (p + 1 + k)%nat by lia.
    rewrite <- (Nat.Div0.add_mod_idemp_l (p + 1)), Hq.
    by rewrite Nat.Div0.add_mod_idemp_l. }
  assert (Hp0 : ((p + 0) `mod` n = p)%nat)
    by (rewrite Nat.add_0_r; apply Nat.mod_small; lia).
  rewrite Hs in He. rewrite <- Hp0 in He at 2.
  destruct (decide (k + 1 < n)%nat) as [Hlt|Hge].
  - apply ring_index_inj in He; lia.
  - lia.
Qed.

(** Writing a cell of the view. *)
Lemma ring_view_set slots start cnt j x :
  (j < cnt)%nat -> (cnt <= length slots)%nat ->
  ring_view (<[((start + j) `mod` length slots)%nat:=x]> slots) start cnt =
  <[j:=x]> (ring_view slots start cnt).
Proof.
  intros Hj Hc. apply list_eq. intros k. destruct (decide (k < cnt)%nat) as [Hk|Hk]; cycle 1.
  { rewrite !lookup_ge_None_2; rewrite ?length_insert, ?length_ring_view; [done|lia|lia]. }
  rewrite lookup_ring_view by done. rewrite length_insert.
  destruct (decide (k = j)) as [->|Hne].
  - rewrite list_lookup_total_insert_eq by (apply Nat.mod_upper_bound; lia).
    rewrite list_lookup_insert_eq; [done|]. by rewrite length_ring_view.
  - rewrite list_lookup_insert_ne by done. rewrite lookup_ring_view by done. f_equal.
    apply list_lookup_total_insert_ne. intros He. apply ring_index_inj in He; lia.
Qed.

Lemma Forall_ring_view (P : A -> Prop) slots start cnt :
  (0 < length slots)%nat ->
  Forall P slots -> Forall P (ring_view slots start cnt).
Proof.
  intros Hn HP. apply Forall_lookup. intros i x Hx.
  pose proof (lookup_lt_Some _ _ _ Hx) as Hi. rewrite length_ring_view in Hi.
  rewrite lookup_ring_view in Hx by done. simplify_eq.
  rewrite Forall_lookup in HP. eapply HP.
  apply list_lookup_lookup_total_lt, Nat.mod_upper_bound. lia.
Qed.
End ring.
