(* ===== verification/Ipc.v ===== *)
(** * The request message (include/netstack/netstack_ipc.h)

    [struct NetstackReq] is the ABI between a client task and
    netstack.process.  Its anonymous union [u] is kept as the bytes of its
    largest member, [raw]: every other member is a set of offsets into the
    same bytes, so that a handler that reads a member the sender did not
    write sees what the C code would see.  Words are big-endian, as on the
    PowerPC target. *)

From S2P Require Import Prelude.

(** ** Operation and error codes *)

Definition NETSTACK_OP_PING     : Z := 0x0001.
Definition NETSTACK_OP_SHUTDOWN : Z := 0x0002.
Definition NETSTACK_OP_SOCKET   : Z := 0x0100.
Definition NETSTACK_OP_BIND     : Z := 0x0101.
Definition NETSTACK_OP_CONNECT  : Z := 0x0102.
Definition NETSTACK_OP_LISTEN   : Z := 0x0103.
Definition NETSTACK_OP_ACCEPT   : Z := 0x0104.
Definition NETSTACK_OP_SEND     : Z := 0x0105.
Definition NETSTACK_OP_RECV     : Z := 0x0106.
Definition NETSTACK_OP_CLOSE    : Z := 0x0107.

Definition NETSTACK_OK           : Z := 0.
Definition NETSTACK_ENOSYS       : Z := -38.
Definition NETSTACK_EBADF        : Z := -9.
Definition NETSTACK_EAGAIN       : Z := -11.
Definition NETSTACK_EINVAL       : Z := -22.
Definition NETSTACK_EADDRINUSE   : Z := -48.
Definition NETSTACK_ECONNREFUSED : Z := -61.
Definition NETSTACK_ENOTCONN     : Z := -57.
Definition NETSTACK_EMSGSIZE     : Z := -40.
(** [-24], written as a literal with the comment EMFILE in fdtable.c. *)
Definition NETSTACK_EMFILE       : Z := -24.

Definition NETSTACK_MAX_PAYLOAD : Z := 1024.

(** ** The message *)

(** [struct Message], reduced to the fields the program writes. *)
Record Message := mk_Message {
  ln_Type : Z;
  mn_Length : Z;
  mn_ReplyPort : Z
}.

(** [NT_MESSAGE] and [sizeof(struct Message)] come from the OS headers. *)
Record sdk := mk_sdk { NT_MESSAGE : Z; sizeof_Message : Z }.

Record NetstackReq := mk_NetstackReq {
  msg : Message;
  op : Z;
  pad0 : Z;
  err : Z;
  u : list Z
}.

#[export] Instance Message_eq_dec : EqDecision Message.
Proof. solve_decision. Defined.
#[export] Instance NetstackReq_eq_dec : EqDecision NetstackReq.
Proof. solve_decision. Defined.

(** [uint8 raw[NETSTACK_MAX_PAYLOAD + 64]], the size of the union. *)
Definition sizeof_u : nat := 1088.

(** [struct NetstackReq req = {0};] *)
Definition zero_req : NetstackReq :=
  mk_NetstackReq (mk_Message 0 0 0) 0 0 0 (replicate sizeof_u 0).

Definition set_op (v : Z) (r : NetstackReq) : NetstackReq :=
  mk_NetstackReq (msg r) v (pad0 r) (err r) (u r).
Definition set_err (v : Z) (r : NetstackReq) : NetstackReq :=
  mk_NetstackReq (msg r) (op r) (pad0 r) v (u r).
Definition set_msg (m : Message) (r : NetstackReq) : NetstackReq :=
  mk_NetstackReq m (op r) (pad0 r) (err r) (u r).

(** ** Loads and stores in the union *)

Definition store_u (off : nat) (bs : list Z) (r : NetstackReq) : NetstackReq :=
  mk_NetstackReq (msg r) (op r) (pad0 r) (err r) (list_inserts off bs (u r)).

Definition ld_s32 (off : nat) (r : NetstackReq) : Z := s32 (be_decode (block off 4 (u r))).
Definition ld_u32 (off : nat) (r : NetstackReq) : Z := be_decode (block off 4 (u r)).
Definition ld_u16 (off : nat) (r : NetstackReq) : Z := be_decode (block off 2 (u r)).
Definition st_32 (off : nat) (v : Z) (r : NetstackReq) : NetstackReq :=
  store_u off (be_encode 4 v) r.
Definition st_16 (off : nat) (v : Z) (r : NetstackReq) : NetstackReq :=
  store_u off (be_encode 2 v) r.

(** ** The members of the union *)

(** NETSTACK_OP_PING: [{ uint32 seq; uint32 payload; }] *)
Definition ping_seq := ld_u32 0.
Definition ping_payload := ld_u32 4.
Definition set_ping_seq := st_32 0.
Definition set_ping_payload := st_32 4.

(** NETSTACK_OP_SOCKET: [{ int32 domain, type, proto, sock; }] *)
Definition socket_domain := ld_s32 0.
Definition socket_type := ld_s32 4.
Definition socket_proto := ld_s32 8.
Definition socket_sock := ld_s32 12.
Definition set_socket_domain := st_32 0.
Definition set_socket_type := st_32 4.
Definition set_socket_proto := st_32 8.
Definition set_socket_sock := st_32 12.

(** NETSTACK_OP_CLOSE: [{ int32 sock; }] *)
Definition close_sock := ld_s32 0.
Definition set_close_sock := st_32 0.

(** NETSTACK_OP_BIND: [{ int32 sock; uint16 port, _pad; }] *)
Definition bind_sock := ld_s32 0.
Definition bind_port := ld_u16 4.
Definition set_bind_sock := st_32 0.
Definition set_bind_port := st_16 4.

(** NETSTACK_OP_LISTEN: [{ int32 sock, backlog; }] *)
Definition listen_sock := ld_s32 0.
Definition listen_backlog := ld_s32 4.
Definition set_listen_sock := st_32 0.
Definition set_listen_backlog := st_32 4.

(** NETSTACK_OP_CONNECT: [{ int32 sock; uint16 port, _pad; }] *)
Definition connect_sock := ld_s32 0.
Definition connect_port := ld_u16 4.
Definition set_connect_sock := st_32 0.
Definition set_connect_port := st_16 4.

(** NETSTACK_OP_ACCEPT: [{ int32 sock, new_sock; uint16 peer_port, _pad; }] *)
Definition accept_sock := ld_s32 0.
Definition accept_new_sock := ld_s32 4.
Definition accept_peer_port := ld_u16 8.
Definition set_accept_sock := st_32 0.
Definition set_accept_new_sock := st_32 4.
Definition set_accept_peer_port := st_16 8.

(** NETSTACK_OP_SEND: [{ int32 sock, len_in, len_out; uint8 data[1024]; }] *)
Definition send_sock := ld_s32 0.
Definition send_len_in := ld_s32 4.
Definition send_len_out := ld_s32 8.
Definition send_data (r : NetstackReq) : list Z := block 12 1024 (u r).
Definition set_send_sock := st_32 0.
Definition set_send_len_in := st_32 4.
Definition set_send_len_out := st_32 8.
Definition set_send_data := store_u 12.

(** NETSTACK_OP_RECV: the same shape as SEND. *)
Definition recv_sock := ld_s32 0.
Definition recv_len_in := ld_s32 4.
Definition recv_len_out := ld_s32 8.
Definition recv_data (r : NetstackReq) : list Z := block 12 1024 (u r).
Definition set_recv_sock := st_32 0.
Definition set_recv_len_in := st_32 4.
Definition set_recv_len_out := st_32 8.
Definition set_recv_data := store_u 12.

(** ** Well-formed messages *)

Record wf_req (r : NetstackReq) : Prop := {
  wf_u_len : length (u r) = sizeof_u;
  wf_u_bytes : Forall is_u8 (u r);
  wf_op : is_u16 (op r);
  wf_err : is_s32 (err r)
}.

(** ** Reading back what was stored *)

Section access.
Implicit Types (r : NetstackReq) (off : nat).

Lemma length_u_store off bs r : length (u (store_u off bs r)) = length (u r).
Proof. apply length_inserts. Qed.

Lemma block_store_same off bs r n :
  n = length bs -> (off + n <= length (u r))%nat ->
  block off n (u (store_u off bs r)) = bs.
Proof. intros -> ?. by apply block_inserts_same. Qed.

Lemma block_store_disj off n off' bs r :
  (off + n <= off' \/ off' + length bs <= off)%nat ->
  (off + n <= length (u r))%nat ->
  block off n (u (store_u off' bs r)) = block off n (u r).
Proof. apply block_inserts_disj. Qed.

Lemma ld_s32_st off v r :
  (off + 4 <= length (u r))%nat -> ld_s32 off (st_32 off v r) = s32 v.
Proof.
  intros. unfold ld_s32, st_32.
  rewrite block_store_same by (rewrite ?length_be_encode; lia).
  rewrite be_decode_encode. apply s32_u32.
Qed.

Lemma ld_u32_st off v r :
  (off + 4 <= length (u r))%nat -> ld_u32 off (st_32 off v r) = u32 v.
Proof.
  intros. unfold ld_u32, st_32.
  rewrite block_store_same by (rewrite ?length_be_encode; lia).
  by rewrite be_decode_encode.
Qed.

Lemma ld_u16_st off v r :
  (off + 2 <= length (u r))%nat -> ld_u16 off (st_16 off v r) = u16 v.
Proof.
  intros. unfold ld_u16, st_16.
  rewrite block_store_same by (rewrite ?length_be_encode; lia).
  by rewrite be_decode_encode.
Qed.

(** A store outside the word read leaves the load alone. *)
Lemma ld_s32_store_disj off off' bs r :
  (off + 4 <= off' \/ off' + length bs <= off)%nat ->
  (off + 4 <= length (u r))%nat ->
  ld_s32 off (store_u off' bs r) = ld_s32 off r.
Proof. intros. unfold ld_s32. by rewrite block_store_disj. Qed.

Lemma ld_u32_store_disj off off' bs r :
  (off + 4 <= off' \/ off' + length bs <= off)%nat ->
  (off + 4 <= length (u r))%nat ->
  ld_u32 off (store_u off' bs r) = ld_u32 off r.
Proof. intros. unfold ld_u32. by rewrite block_store_disj. Qed.

Lemma ld_u16_store_disj off off' bs r :
  (off + 2 <= off' \/ off' + length bs <= off)%nat ->
  (off + 2 <= length (u r))%nat ->
  ld_u16 off (store_u off' bs r) = ld_u16 off r.
Proof. intros. unfold ld_u16. by rewrite block_store_disj. Qed.

Lemma ld_s32_range off r : is_s32 (ld_s32 off r).
Proof. apply is_s32_s32. Qed.

Lemma ld_u16_range off r :
  wf_req r -> (off + 2 <= sizeof_u)%nat -> is_u16 (ld_u16 off r).
Proof.
  intros [Hl Hb _ _] Ho. unfold ld_u16, is_u16.
  pose proof (be_decode_bound _ (Forall_block _ off 2 _ Hb)) as Hd.
  rewrite length_block in Hd by lia. change (256 ^ Z.of_nat 2) with 65536 in Hd. lia.
Qed.

Lemma wf_store_u off bs r :
  wf_req r -> Forall is_u8 bs -> wf_req (store_u off bs r).
Proof.
  intros [] ?. split; cbn; auto.
  - by rewrite length_inserts.
  - by apply Forall_inserts.
Qed.

Lemma wf_st_32 off v r : wf_req r -> wf_req (st_32 off v r).
Proof. intros. apply wf_store_u; [done|]. apply be_encode_bytes. Qed.

Lemma wf_st_16 off v r : wf_req r -> wf_req (st_16 off v r).
Proof. intros. apply wf_store_u; [done|]. apply be_encode_bytes. Qed.

Lemma wf_set_err v r : wf_req r -> is_s32 v -> wf_req (set_err v r).
Proof. intros [] ?. by split. Qed.

Lemma wf_set_op v r : wf_req r -> is_u16 v -> wf_req (set_op v r).
Proof. intros [] ?. by split. Qed.

Lemma wf_set_msg m r : wf_req r -> wf_req (set_msg m r).
Proof. intros []. by split. Qed.

Lemma wf_zero_req : wf_req zero_req.
Proof.
  split; cbn [zero_req u op err].
  - apply length_replicate.
  - apply Forall_replicate. word.
  - word.
  - word.
Qed.

Lemma length_send_data r : wf_req r -> length (send_data r) = 1024%nat.
Proof. intros []. apply length_block. unfold sizeof_u in *. lia. Qed.
End access.

#[export] Hint Resolve wf_st_32 wf_st_16 wf_set_err wf_set_op wf_set_msg wf_zero_req
  ld_s32_range : words.

Ltac errcodes := unfold NETSTACK_EMFILE, NETSTACK_ENOSYS, NETSTACK_EBADF, NETSTACK_EAGAIN,
  NETSTACK_EINVAL, NETSTACK_EADDRINUSE, NETSTACK_ECONNREFUSED, NETSTACK_ENOTCONN,
  NETSTACK_EMSGSIZE, NETSTACK_OK in *.

#[export] Hint Extern 2 (is_s32 _) => solve [errcodes; word] : words.

(** Names of the operation codes. *)
Ltac opcodes := unfold NETSTACK_OP_PING, NETSTACK_OP_SHUTDOWN, NETSTACK_OP_SOCKET,
  NETSTACK_OP_BIND, NETSTACK_OP_CONNECT, NETSTACK_OP_LISTEN, NETSTACK_OP_ACCEPT,
  NETSTACK_OP_SEND, NETSTACK_OP_RECV, NETSTACK_OP_CLOSE in *.

#[export] Hint Extern 2 (is_u16 _) => solve [opcodes; word] : words.

(** Unfold the member names to loads and stores. *)
Ltac unfold_members :=
  unfold ping_seq, ping_payload, set_ping_seq, set_ping_payload,
    socket_domain, socket_type, socket_proto, socket_sock,
    set_socket_domain, set_socket_type, set_socket_proto, set_socket_sock,
    close_sock, set_close_sock, bind_sock, bind_port, set_bind_sock, set_bind_port,
    listen_sock, listen_backlog, set_listen_sock, set_listen_backlog,
    connect_sock, connect_port, set_connect_sock, set_connect_port,
    accept_sock, accept_new_sock, accept_peer_port,
    set_accept_sock, set_accept_new_sock, set_accept_peer_port,
    send_sock, send_len_in, send_len_out, send_data,
    set_send_sock, set_send_len_in, set_send_len_out, set_send_data,
    recv_sock, recv_len_in, recv_len_out, recv_data,
    set_recv_sock, set_recv_len_in, set_recv_len_out, set_recv_data in *.

(** Loads see through updates of the other parts of the message. *)
Lemma ld_s32_set_err off v r : ld_s32 off (set_err v r) = ld_s32 off r.
Proof. done. Qed.
Lemma ld_u32_set_err off v r : ld_u32 off (set_err v r) = ld_u32 off r.
Proof. done. Qed.
Lemma ld_u16_set_err off v r : ld_u16 off (set_err v r) = ld_u16 off r.
Proof. done. Qed.
Lemma ld_s32_set_op off v r : ld_s32 off (set_op v r) = ld_s32 off r.
Proof. done. Qed.
Lemma ld_u32_set_op off v r : ld_u32 off (set_op v r) = ld_u32 off r.
Proof. done. Qed.
Lemma ld_u16_set_op off v r : ld_u16 off (set_op v r) = ld_u16 off r.
Proof. done. Qed.
Lemma ld_s32_set_msg off v r : ld_s32 off (set_msg v r) = ld_s32 off r.
Proof. done. Qed.
Lemma ld_u32_set_msg off v r : ld_u32 off (set_msg v r) = ld_u32 off r.
Proof. done. Qed.
Lemma ld_u16_set_msg off v r : ld_u16 off (set_msg v r) = ld_u16 off r.
Proof. done. Qed.

Lemma u_set_err v r : u (set_err v r) = u r.
Proof. done. Qed.
Lemma u_set_op v r : u (set_op v r) = u r.
Proof. done. Qed.
Lemma u_set_msg v r : u (set_msg v r) = u r.
Proof. done. Qed.
Lemma length_u_st_32 off v r : length (u (st_32 off v r)) = length (u r).
Proof. apply length_u_store. Qed.
Lemma length_u_st_16 off v r : length (u (st_16 off v r)) = length (u r).
Proof. apply length_u_store. Qed.

(** Side conditions: offsets against the size of the union. *)
Ltac req_side :=
  rewrite ?length_be_encode, ?u_set_err, ?u_set_op, ?u_set_msg,
    ?length_u_st_32, ?length_u_st_16, ?length_u_store,
    ?u_set_err, ?u_set_op, ?u_set_msg, ?length_u_st_32, ?length_u_st_16,
    ?length_u_store, ?u_set_err, ?u_set_op, ?u_set_msg;
  repeat match goal with H : wf_req ?r |- _ => rewrite (wf_u_len r H) end;
  unfold sizeof_u in *; cbn [length]; lia.

Lemma ld_s32_st_disj off off' v r :
  (off + 4 <= off' \/ off' + 4 <= off)%nat -> (off + 4 <= length (u r))%nat ->
  ld_s32 off (st_32 off' v r) = ld_s32 off r.
Proof. intros. apply ld_s32_store_disj; [by rewrite length_be_encode|done]. Qed.
Lemma ld_s32_st16_disj off off' v r :
  (off + 4 <= off' \/ off' + 2 <= off)%nat -> (off + 4 <= length (u r))%nat ->
  ld_s32 off (st_16 off' v r) = ld_s32 off r.
Proof. intros. apply ld_s32_store_disj; [by rewrite length_be_encode|done]. Qed.
Lemma ld_u32_st_disj off off' v r :
  (off + 4 <= off' \/ off' + 4 <= off)%nat -> (off + 4 <= length (u r))%nat ->
  ld_u32 off (st_32 off' v r) = ld_u32 off r.
Proof. intros. apply ld_u32_store_disj; [by rewrite length_be_encode|done]. Qed.
Lemma ld_u16_st_disj off off' v r :
  (off + 2 <= off' \/ off' + 4 <= off)%nat -> (off + 2 <= length (u r))%nat ->
  ld_u16 off (st_32 off' v r) = ld_u16 off r.
Proof. intros. apply ld_u16_store_disj; [by rewrite length_be_encode|done]. Qed.
Lemma block_st_disj off n off' v r :
  (off + n <= off' \/ off' + 4 <= off)%nat -> (off + n <= length (u r))%nat ->
  block off n (u (st_32 off' v r)) = block off n (u r).
Proof. intros. apply block_store_disj; [by rewrite length_be_encode|done]. Qed.

(** Normalise every load in the goal. *)
Ltac req_simpl :=
  unfold_members;
  repeat first
    [ rewrite ld_s32_set_err | rewrite ld_u32_set_err | rewrite ld_u16_set_err
    | rewrite ld_s32_set_op | rewrite ld_u32_set_op | rewrite ld_u16_set_op
    | rewrite ld_s32_set_msg | rewrite ld_u32_set_msg | rewrite ld_u16_set_msg
    | rewrite u_set_err | rewrite u_set_op | rewrite u_set_msg
    | rewrite ld_s32_st by req_side | rewrite ld_u32_st by req_side
    | rewrite ld_u16_st by req_side
    | rewrite ld_s32_st_disj by req_side | rewrite ld_s32_st16_disj by req_side
    | rewrite ld_u32_st_disj by req_side | rewrite ld_u16_st_disj by req_side
    | rewrite ld_s32_store_disj by req_side
    | rewrite ld_u16_store_disj by req_side
    | rewrite block_st_disj by req_side
    | rewrite block_store_disj by req_side ].
