(* ===== verification/FdTable.v ===== *)
(** * The file-descriptor table (src/phase2_engine/fdtable.c)

    The engine's in-memory socket layer: a table of 128 entries, searched
    first-fit, and one handler per socket operation.  A handler is a
    program over the table ([M fdtable]) that takes the request by value
    and returns it with its output members filled in; every array access,
    copy and signed operation of the C code is checked, [None] being
    undefined behaviour. *)

From S2P Require Import Prelude Ring Ipc.

Definition FDTABLE_MAX : Z := 128.
Definition FD_FIRST : Z := 3.
Definition BACKLOG_MAX : Z := 4.
Definition RXBUF_SIZE : Z := 4096.

(** ** Data *)

Inductive fd_kind :=
  | FD_FREE
  | FD_SOCKET_UNBOUND
  | FD_SOCKET_LISTEN
  | FD_SOCKET_CONNECTED.

#[global] Instance fd_kind_eq_dec : EqDecision fd_kind.
Proof. solve_decision. Defined.

Record fd_entry := mk_fd_entry {
  kind : fd_kind;
  domain : Z;
  type : Z;
  proto : Z;
  local_port : Z;
  backlog : list Z;
  backlog_head : Z;
  backlog_tail : Z;
  backlog_count : Z;
  peer_fd : Z;
  peer_port : Z;
  rx : list Z;
  rx_head : Z;
  rx_tail : Z
}.

(** [memset(&e, 0, sizeof(e))] *)
Definition zero_entry : fd_entry :=
  mk_fd_entry FD_FREE 0 0 0 0 (replicate 4 0) 0 0 0 0 0 (replicate 4096 0) 0 0.

Abbreviation fdtable := (list fd_entry).

(** [static struct fd_entry g_fdtable[FDTABLE_MAX];] *)
Definition g_fdtable_init : fdtable := replicate 128 zero_entry.

Definition set_kind v e := mk_fd_entry v (domain e) (type e) (proto e) (local_port e)
  (backlog e) (backlog_head e) (backlog_tail e) (backlog_count e) (peer_fd e) (peer_port e)
  (rx e) (rx_head e) (rx_tail e).
Definition set_meta d ty p e := mk_fd_entry (kind e) d ty p (local_port e)
  (backlog e) (backlog_head e) (backlog_tail e) (backlog_count e) (peer_fd e) (peer_port e)
  (rx e) (rx_head e) (rx_tail e).
Definition set_local_port v e := mk_fd_entry (kind e) (domain e) (type e) (proto e) v
  (backlog e) (backlog_head e) (backlog_tail e) (backlog_count e) (peer_fd e) (peer_port e)
  (rx e) (rx_head e) (rx_tail e).
Definition set_backlog b h t c e := mk_fd_entry (kind e) (domain e) (type e) (proto e)
  (local_port e) b h t c (peer_fd e) (peer_port e) (rx e) (rx_head e) (rx_tail e).
Definition set_peer_fd v e := mk_fd_entry (kind e) (domain e) (type e) (proto e) (local_port e)
  (backlog e) (backlog_head e) (backlog_tail e) (backlog_count e) v (peer_port e)
  (rx e) (rx_head e) (rx_tail e).
Definition set_peer_port v e := mk_fd_entry (kind e) (domain e) (type e) (proto e) (local_port e)
  (backlog e) (backlog_head e) (backlog_tail e) (backlog_count e) (peer_fd e) v
  (rx e) (rx_head e) (rx_tail e).
Definition set_rx b h t e := mk_fd_entry (kind e) (domain e) (type e) (proto e) (local_port e)
  (backlog e) (backlog_head e) (backlog_tail e) (backlog_count e) (peer_fd e) (peer_port e)
  b h t.

Definition is_kind (k : fd_kind) (e : fd_entry) : bool := bool_decide (kind e = k).

(** ** Access to the global table *)

(** [g_fdtable[fd]] *)
Definition entry (fd : Z) : M fdtable fd_entry :=
  fun t => match lookupZ t fd with Some e => Some (e, t) | None => None end.

(** An assignment to [g_fdtable[fd]], whole or in part. *)
Definition modify (fd : Z) (f : fd_entry -> fd_entry) : M fdtable unit :=
  fun t => match lookupZ t fd with
           | Some e => Some (tt, <[Z.to_nat fd := f e]> t)
           | None => None
           end.

(** ** Helpers *)

(** The search loops of the file: [for (int i = FD_FIRST; i < FDTABLE_MAX;
    i++) if (p) return i; return -1;], with [n] iterations left. *)
Fixpoint scan (p : fd_entry -> bool) (n : nat) (i : Z) : M fdtable Z :=
  match n with
  | O => mret (-1)
  | S n' => e ← entry i; if p e then mret i else scan p n' (i + 1)
  end.

Definition SCAN_LEN : nat := 125.

(** A freshly reset slot: [memset] followed by [peer_fd = -1]. *)
Definition fresh_entry : fd_entry := set_peer_fd (-1) zero_entry.

Definition alloc_fd : M fdtable Z :=
  i ← scan (is_kind FD_FREE) SCAN_LEN FD_FIRST;
  if i <? 0 then mret (-1)
  else modify i (fun _ => fresh_entry);; mret i.

Definition fd_valid (fd : Z) : M fdtable bool :=
  if (FD_FIRST <=? fd) && (fd <? FDTABLE_MAX)
  then e ← entry fd; mret (negb (is_kind FD_FREE e))
  else mret false.

Definition is_listener (port : Z) (e : fd_entry) : bool :=
  is_kind FD_SOCKET_LISTEN e && (local_port e =? port).

Definition find_listener (port : Z) : M fdtable Z :=
  scan (is_listener port) SCAN_LEN FD_FIRST.

Definition holds_port (port : Z) (e : fd_entry) : bool :=
  (is_kind FD_SOCKET_LISTEN e || is_kind FD_SOCKET_CONNECTED e)
  && (local_port e =? port).

Definition port_in_use (port : Z) : M fdtable bool :=
  i ← scan (holds_port port) SCAN_LEN FD_FIRST;
  mret (negb (i <? 0)).

(** Shift the live bytes of [g_fdtable[fd].rx] to the front. *)
Definition rx_compact (fd : Z) : M fdtable unit :=
  e ← entry fd;
  if rx_head e =? 0 then mret tt else
  live ← ckd (rx_tail e - rx_head e);
  buf ← (if 0 <? live
         then liftO (memcpy (rx e) 0 (rx e) (rx_head e) live)
         else mret (rx e));
  modify fd (set_rx buf 0 live).

(** ** Handlers *)

Definition fdtable_dispatch_socket (r : NetstackReq) : M fdtable NetstackReq :=
  fd ← alloc_fd;
  if fd <? 0 then mret (set_socket_sock (-1) (set_err NETSTACK_EMFILE r)) else
  modify fd (fun e => set_meta (socket_domain r) (socket_type r) (socket_proto r)
                        (set_kind FD_SOCKET_UNBOUND e));;
  mret (set_err NETSTACK_OK (set_socket_sock fd r)).

Definition fdtable_dispatch_close (r : NetstackReq) : M fdtable NetstackReq :=
  let fd := close_sock r in
  ok ← fd_valid fd;
  if negb ok then mret (set_err NETSTACK_EBADF r) else
  e ← entry fd;
  whenM (is_kind FD_SOCKET_CONNECTED e)
    (let peer := peer_fd e in
     if 0 <=? peer
     then okp ← fd_valid peer;
          whenM okp (modify peer (set_peer_fd (-1)))
     else mret tt);;
  modify fd (fun _ => fresh_entry);;
  mret (set_err NETSTACK_OK r).

Definition fdtable_dispatch_bind (r : NetstackReq) : M fdtable NetstackReq :=
  let fd := bind_sock r in
  ok ← fd_valid fd;
  if negb ok then mret (set_err NETSTACK_EBADF r) else
  e ← entry fd;
  if negb (is_kind FD_SOCKET_UNBOUND e) then mret (set_err NETSTACK_EINVAL r) else
  used ← port_in_use (bind_port r);
  if (used : bool) then mret (set_err NETSTACK_EADDRINUSE r) else
  modify fd (set_local_port (bind_port r));;
  mret (set_err NETSTACK_OK r).

Definition fdtable_dispatch_listen (r : NetstackReq) : M fdtable NetstackReq :=
  let fd := listen_sock r in
  ok ← fd_valid fd;
  if negb ok then mret (set_err NETSTACK_EBADF r) else
  e ← entry fd;
  if negb (is_kind FD_SOCKET_UNBOUND e) || (local_port e =? 0)
  then mret (set_err NETSTACK_EINVAL r) else
  modify fd (fun e => set_backlog (backlog e) 0 0 0 (set_kind FD_SOCKET_LISTEN e));;
  mret (set_err NETSTACK_OK r).

Definition fdtable_dispatch_connect (r : NetstackReq) : M fdtable NetstackReq :=
  let fd := connect_sock r in
  ok ← fd_valid fd;
  if negb ok then mret (set_err NETSTACK_EBADF r) else
  e ← entry fd;
  if negb (is_kind FD_SOCKET_UNBOUND e) then mret (set_err NETSTACK_EINVAL r) else
  lfd ← find_listener (connect_port r);
  if lfd <? 0 then mret (set_err NETSTACK_ECONNREFUSED r) else
  lst ← entry lfd;
  if BACKLOG_MAX <=? backlog_count lst then mret (set_err NETSTACK_EAGAIN r) else
  modify fd (fun e => set_peer_port (connect_port r)
                        (set_peer_fd (-1) (set_kind FD_SOCKET_CONNECTED e)));;
  lst ← entry lfd;
  b ← liftO (storeZ (backlog lst) (backlog_tail lst) fd);
  tail ← ckd (backlog_tail lst + 1);
  count ← ckd (backlog_count lst + 1);
  modify lfd (set_backlog b (backlog_head lst) (Z.rem tail BACKLOG_MAX) count);;
  mret (set_err NETSTACK_OK r).

Definition fdtable_dispatch_accept (r : NetstackReq) : M fdtable NetstackReq :=
  let fd := accept_sock r in
  ok ← fd_valid fd;
  if negb ok then mret (set_err NETSTACK_EBADF r) else
  lst ← entry fd;
  if negb (is_kind FD_SOCKET_LISTEN lst) then mret (set_err NETSTACK_EINVAL r) else
  if backlog_count lst =? 0
  then mret (set_accept_new_sock (-1) (set_err NETSTACK_EAGAIN r)) else
  client_fd ← liftO (lookupZ (backlog lst) (backlog_head lst));
  head ← ckd (backlog_head lst + 1);
  count ← ckd (backlog_count lst - 1);
  modify fd (set_backlog (backlog lst) (Z.rem head BACKLOG_MAX) (backlog_tail lst) count);;
  new_fd ← alloc_fd;
  if new_fd <? 0 then
    lst ← entry fd;
    head ← ckd (backlog_head lst + BACKLOG_MAX - 1);
    b ← liftO (storeZ (backlog lst) (Z.rem head BACKLOG_MAX) client_fd);
    count ← ckd (backlog_count lst + 1);
    modify fd (set_backlog b (Z.rem head BACKLOG_MAX) (backlog_tail lst) count);;
    mret (set_accept_new_sock (-1) (set_err NETSTACK_EMFILE r))
  else
    lst ← entry fd;
    modify new_fd (fun e =>
      set_peer_port 0 (set_peer_fd client_fd (set_local_port (local_port lst)
        (set_meta (domain lst) (type lst) (proto lst)
          (set_kind FD_SOCKET_CONNECTED e)))));;
    modify client_fd (set_peer_fd new_fd);;
    lst ← entry fd;
    mret (set_err NETSTACK_OK (set_accept_peer_port (local_port lst)
            (set_accept_new_sock new_fd r))).

Definition fdtable_dispatch_send (r : NetstackReq) : M fdtable NetstackReq :=
  let fd := send_sock r in
  ok ← fd_valid fd;
  if negb ok then mret (set_err NETSTACK_EBADF r) else
  e ← entry fd;
  if negb (is_kind FD_SOCKET_CONNECTED e) || (peer_fd e <? 0)
  then mret (set_err NETSTACK_ENOTCONN r) else
  let peer := peer_fd e in
  okp ← fd_valid peer;
  if negb okp then mret (set_err NETSTACK_ENOTCONN r) else
  let len := send_len_in r in
  if (len <? 0) || (NETSTACK_MAX_PAYLOAD <? len)
  then mret (set_err NETSTACK_EMSGSIZE r) else
  rx_compact peer;;
  pe ← entry peer;
  room ← ckd (RXBUF_SIZE - rx_tail pe);
  if room <=? 0 then mret (set_send_len_out 0 (set_err NETSTACK_EAGAIN r)) else
  let to_write := if len <? room then len else room in
  buf ← liftO (memcpy (rx pe) (rx_tail pe) (send_data r) 0 to_write);
  tail ← ckd (rx_tail pe + to_write);
  modify peer (fun e => set_rx buf (rx_head e) tail e);;
  mret (set_err NETSTACK_OK (set_send_len_out to_write r)).

Definition fdtable_dispatch_recv (r : NetstackReq) : M fdtable NetstackReq :=
  let fd := recv_sock r in
  ok ← fd_valid fd;
  if negb ok then mret (set_err NETSTACK_EBADF r) else
  e ← entry fd;
  if negb (is_kind FD_SOCKET_CONNECTED e) then mret (set_err NETSTACK_ENOTCONN r) else
  avail ← ckd (rx_tail e - rx_head e);
  if avail <=? 0 then
    gone ← (if peer_fd e <? 0 then mret true
            else okp ← fd_valid (peer_fd e); mret (negb okp));
    if (gone : bool)
    then mret (set_err NETSTACK_OK (set_recv_len_out 0 r))
    else mret (set_recv_len_out 0 (set_err NETSTACK_EAGAIN r))
  else
  let want := recv_len_in r in
  let want := if want <? 0 then 0 else want in
  let want := if NETSTACK_MAX_PAYLOAD <? want then NETSTACK_MAX_PAYLOAD else want in
  let to_read := if avail <? want then avail else want in
  data ← liftO (memcpy (recv_data r) 0 (rx e) (rx_head e) to_read);
  head ← ckd (rx_head e + to_read);
  modify fd (fun e => if head =? rx_tail e then set_rx (rx e) 0 0 e
                      else set_rx (rx e) head (rx_tail e) e);;
  mret (set_err NETSTACK_OK (set_recv_len_out to_read (set_recv_data data r))).
