(* ===== verification/FdSpec.v ===== *)
(** * What the socket layer promises

    The abstract socket table: a socket has a mathematical queue of
    pending clients and a mathematical queue of received bytes instead of a
    ring and a linear buffer with two cursors.  [spec_step] is the
    promised effect and answer of every operation; FdRefine.v shows that
    the handlers of fdtable.c implement it. *)

From S2P Require Import Prelude Ipc FdTable.

Record asock := mk_asock {
  akind : fd_kind;
  ameta : Z * Z * Z;          (* domain, type, protocol *)
  aport : Z;                  (* local port, 0 when not bound *)
  aqueue : list Z;            (* clients waiting to be accepted *)
  apeer : Z;                  (* descriptor of the other end, or -1 *)
  apeer_port : Z;
  arx : list Z                (* bytes received and not yet read *)
}.

Abbreviation atable := (list asock).

#[global] Instance asock_inhabited : Inhabited asock :=
  populate (mk_asock FD_FREE (0, 0, 0) 0 [] 0 0 []).

Definition afresh : asock := mk_asock FD_FREE (0, 0, 0) 0 [] (-1) 0 [].

Definition a_set_peer (v : Z) (s : asock) : asock :=
  mk_asock (akind s) (ameta s) (aport s) (aqueue s) v (apeer_port s) (arx s).
Definition a_set_port (v : Z) (s : asock) : asock :=
  mk_asock (akind s) (ameta s) v (aqueue s) (apeer s) (apeer_port s) (arx s).
Definition a_set_queue (q : list Z) (s : asock) : asock :=
  mk_asock (akind s) (ameta s) (aport s) q (apeer s) (apeer_port s) (arx s).
Definition a_set_rx (bs : list Z) (s : asock) : asock :=
  mk_asock (akind s) (ameta s) (aport s) (aqueue s) (apeer s) (apeer_port s) bs.

Definition a_is_kind (k : fd_kind) (s : asock) : bool := bool_decide (akind s = k).

(** The socket a descriptor names, if it names one. *)
Definition live (a : atable) (fd : Z) : option asock :=
  if (FD_FIRST <=? fd) && (fd <? FDTABLE_MAX)
  then s ← a !! Z.to_nat fd; if a_is_kind FD_FREE s then None else Some s
  else None.

Definition upd (a : atable) (fd : Z) (s : asock) : atable := <[Z.to_nat fd := s]> a.

(** First descriptor, from [FD_FIRST] on, whose slot satisfies [p]. *)
Definition first_fd (p : asock -> bool) (a : atable) : option Z :=
  (fun '(i, _) => FD_FIRST + Z.of_nat i) <$> list_find (fun s => p s = true) (drop 3 a).

Definition free_slot : atable -> option Z := first_fd (a_is_kind FD_FREE).
Definition listener_on (port : Z) : atable -> option Z :=
  first_fd (fun s => a_is_kind FD_SOCKET_LISTEN s && (aport s =? port)).
Definition port_taken (port : Z) (a : atable) : bool :=
  bool_decide (is_Some (first_fd (fun s =>
    (a_is_kind FD_SOCKET_LISTEN s || a_is_kind FD_SOCKET_CONNECTED s)
    && (aport s =? port)) a)).

(** ** Operations and answers *)

Inductive sockop :=
  | OpSocket (d ty p : Z)
  | OpClose (fd : Z)
  | OpBind (fd port : Z)
  | OpListen (fd : Z)
  | OpConnect (fd port : Z)
  | OpAccept (fd : Z)
  | OpSend (fd len : Z) (data : list Z)
  | OpRecv (fd want : Z).

Inductive sockres :=
  | RErr (e : Z)
  | ROk
  | RSock (fd : Z)
  | RAccepted (fd port : Z)
  | RSent (n : Z)
  | RData (bs : list Z)
  | RMalformed.               (* a length outside the data area *)

(** ** The promised behaviour *)

Definition spec_socket (d ty p : Z) (a : atable) : sockres * atable :=
  match free_slot a with
  | None => (RErr NETSTACK_EMFILE, a)
  | Some fd => (RSock fd,
                upd a fd (mk_asock FD_SOCKET_UNBOUND (d, ty, p) 0 [] (-1) 0 []))
  end.

(** The other end of a connection learns that it lost its peer. *)
Definition disconnect (s : asock) (a : atable) : atable :=
  if a_is_kind FD_SOCKET_CONNECTED s then
    match live a (apeer s) with
    | Some p => upd a (apeer s) (a_set_peer (-1) p)
    | None => a
    end
  else a.

Definition spec_close (fd : Z) (a : atable) : sockres * atable :=
  match live a fd with
  | None => (RErr NETSTACK_EBADF, a)
  | Some s => (ROk, upd (disconnect s a) fd afresh)
  end.

Definition spec_bind (fd port : Z) (a : atable) : sockres * atable :=
  match live a fd with
  | None => (RErr NETSTACK_EBADF, a)
  | Some s =>
    if negb (a_is_kind FD_SOCKET_UNBOUND s) then (RErr NETSTACK_EINVAL, a)
    else if port_taken port a then (RErr NETSTACK_EADDRINUSE, a)
    else (ROk, upd a fd (a_set_port port s))
  end.

Definition spec_listen (fd : Z) (a : atable) : sockres * atable :=
  match live a fd with
  | None => (RErr NETSTACK_EBADF, a)
  | Some s =>
    if negb (a_is_kind FD_SOCKET_UNBOUND s) || (aport s =? 0)
    then (RErr NETSTACK_EINVAL, a)
    else (ROk, upd a fd (mk_asock FD_SOCKET_LISTEN (ameta s) (aport s) []
                           (apeer s) (apeer_port s) (arx s)))
  end.

Definition spec_connect (fd port : Z) (a : atable) : sockres * atable :=
  match live a fd with
  | None => (RErr NETSTACK_EBADF, a)
  | Some s =>
    if negb (a_is_kind FD_SOCKET_UNBOUND s) then (RErr NETSTACK_EINVAL, a)
    else match listener_on port a with
    | None => (RErr NETSTACK_ECONNREFUSED, a)
    | Some lfd =>
      let l := a !!! Z.to_nat lfd in
      if BACKLOG_MAX <=? Z.of_nat (length (aqueue l)) then (RErr NETSTACK_EAGAIN, a)
      else (ROk,
            upd (upd a fd (mk_asock FD_SOCKET_CONNECTED (ameta s) (aport s) (aqueue s)
                             (-1) port (arx s)))
                lfd (a_set_queue (aqueue l ++ [fd]) l))
    end
  end.

Definition spec_accept (fd : Z) (a : atable) : sockres * atable :=
  match live a fd with
  | None => (RErr NETSTACK_EBADF, a)
  | Some l =>
    if negb (a_is_kind FD_SOCKET_LISTEN l) then (RErr NETSTACK_EINVAL, a)
    else match aqueue l with
    | [] => (RErr NETSTACK_EAGAIN, a)
    | c :: q =>
      match free_slot a with
      | None => (RErr NETSTACK_EMFILE, a)
      | Some nfd =>
        let a1 := upd (upd a fd (a_set_queue q l)) nfd
                    (mk_asock FD_SOCKET_CONNECTED (ameta l) (aport l) [] c 0 []) in
        (RAccepted nfd (aport l), upd a1 c (a_set_peer nfd (a1 !!! Z.to_nat c)))
      end
    end
  end.

Definition spec_send (fd len : Z) (data : list Z) (a : atable) : sockres * atable :=
  match live a fd with
  | None => (RErr NETSTACK_EBADF, a)
  | Some s =>
    if negb (a_is_kind FD_SOCKET_CONNECTED s) then (RErr NETSTACK_ENOTCONN, a)
    else match live a (apeer s) with
    | None => (RErr NETSTACK_ENOTCONN, a)
    | Some p =>
      if (len <? 0) || (NETSTACK_MAX_PAYLOAD <? len) then (RErr NETSTACK_EMSGSIZE, a)
      else
        let room := RXBUF_SIZE - Z.of_nat (length (arx p)) in
        if room <=? 0 then (RErr NETSTACK_EAGAIN, a)
        else let n := Z.min len room in
             (RSent n, upd a (apeer s) (a_set_rx (arx p ++ take (Z.to_nat n) data) p))
    end
  end.

Definition spec_recv (fd want : Z) (a : atable) : sockres * atable :=
  match live a fd with
  | None => (RErr NETSTACK_EBADF, a)
  | Some s =>
    if negb (a_is_kind FD_SOCKET_CONNECTED s) then (RErr NETSTACK_ENOTCONN, a)
    else match arx s with
    | [] => match live a (apeer s) with
            | None => (RData [], a)
            | Some _ => (RErr NETSTACK_EAGAIN, a)
            end
    | _ => let n := Z.to_nat (Z.min (Z.max want 0) NETSTACK_MAX_PAYLOAD) in
           (RData (take n (arx s)), upd a fd (a_set_rx (drop n (arx s)) s))
    end
  end.

Definition spec_step (o : sockop) (a : atable) : sockres * atable :=
  match o with
  | OpSocket d ty p => spec_socket d ty p a
  | OpClose fd => spec_close fd a
  | OpBind fd port => spec_bind fd port a
  | OpListen fd => spec_listen fd a
  | OpConnect fd port => spec_connect fd port a
  | OpAccept fd => spec_accept fd a
  | OpSend fd len data => spec_send fd len data a
  | OpRecv fd want => spec_recv fd want a
  end.

(** A run of operations, with the answers in order. *)
Fixpoint spec_run (os : list sockop) (a : atable) : list sockres * atable :=
  match os with
  | [] => ([], a)
  | o :: os' =>
    let '(x, a1) := spec_step o a in
    let '(xs, a2) := spec_run os' a1 in
    (x :: xs, a2)
  end.

(** ** What a request asks and what its reply says *)

Definition decode_op (r : NetstackReq) : option sockop :=
  let c := op r in
  if c =? NETSTACK_OP_SOCKET then
    Some (OpSocket (socket_domain r) (socket_type r) (socket_proto r))
  else if c =? NETSTACK_OP_CLOSE then Some (OpClose (close_sock r))
  else if c =? NETSTACK_OP_BIND then Some (OpBind (bind_sock r) (bind_port r))
  else if c =? NETSTACK_OP_LISTEN then Some (OpListen (listen_sock r))
  else if c =? NETSTACK_OP_CONNECT then Some (OpConnect (connect_sock r) (connect_port r))
  else if c =? NETSTACK_OP_ACCEPT then Some (OpAccept (accept_sock r))
  else if c =? NETSTACK_OP_SEND then
    Some (OpSend (send_sock r) (send_len_in r) (send_data r))
  else if c =? NETSTACK_OP_RECV then Some (OpRecv (recv_sock r) (recv_len_in r))
  else None.

Definition decode_res (o : sockop) (r : NetstackReq) : sockres :=
  if negb (err r =? NETSTACK_OK) then RErr (err r)
  else match o with
  | OpSocket _ _ _ => RSock (socket_sock r)
  | OpAccept _ => RAccepted (accept_new_sock r) (accept_peer_port r)
  | OpSend _ _ _ => RSent (send_len_out r)
  | OpRecv _ _ =>
    let n := recv_len_out r in
    if (0 <=? n) && (n <=? NETSTACK_MAX_PAYLOAD)
    then RData (take (Z.to_nat n) (recv_data r)) else RMalformed
  | _ => ROk
  end.
