(* ===== verification/FdRefine.v ===== *)
(** * The handlers of fdtable.c implement the socket specification

    [wf] is the representation invariant of the table: ring indices inside
    the backlog array, cursors inside the receive buffer, queued
    descriptors inside the table.  From a well-formed table and request
    every handler runs to completion without undefined behaviour, leaves
    the table well-formed, and its effect, seen through the abstraction
    [abs], is the one [spec_step] promises. *)

From S2P Require Import Prelude Ring Ipc FdTable FdSpec.

(** ** Representation invariant and abstraction *)

Definition queue_of (e : fd_entry) : list Z :=
  ring_view (backlog e) (Z.to_nat (backlog_head e)) (Z.to_nat (backlog_count e)).

Definition rx_bytes (e : fd_entry) : list Z :=
  block (Z.to_nat (rx_head e)) (Z.to_nat (rx_tail e - rx_head e)) (rx e).

Definition is_fd (c : Z) : Prop := FD_FIRST <= c < FDTABLE_MAX.

Record wf_entry (e : fd_entry) : Prop := {
  wf_backlog_len : length (backlog e) = 4%nat;
  wf_head : 0 <= backlog_head e < BACKLOG_MAX;
  wf_count : 0 <= backlog_count e <= BACKLOG_MAX;
  wf_tail : backlog_tail e = (backlog_head e + backlog_count e) mod BACKLOG_MAX;
  wf_queue : Forall is_fd (queue_of e);
  wf_rx_len : length (rx e) = 4096%nat;
  wf_rx_bytes : Forall is_u8 (rx e);
  wf_cursors : 0 <= rx_head e <= rx_tail e /\ rx_tail e <= RXBUF_SIZE;
  wf_port : is_u16 (local_port e)
}.

Record wf (t : fdtable) : Prop := {
  wf_length : length t = 128%nat;
  wf_entries : Forall wf_entry t
}.

Definition abs_entry (e : fd_entry) : asock :=
  mk_asock (kind e) (domain e, type e, proto e) (local_port e) (queue_of e)
    (peer_fd e) (peer_port e) (rx_bytes e).

Definition abs (t : fdtable) : atable := abs_entry <$> t.

Ltac consts := unfold is_fd, FD_FIRST, FDTABLE_MAX, BACKLOG_MAX, RXBUF_SIZE,
  NETSTACK_MAX_PAYLOAD in *.

(** ** Facts about entries *)

Lemma length_queue_of e : length (queue_of e) = Z.to_nat (backlog_count e).
Proof. apply length_ring_view. Qed.

Lemma length_rx_bytes e :
  wf_entry e -> length (rx_bytes e) = Z.to_nat (rx_tail e - rx_head e).
Proof.
  intros []. unfold rx_bytes. consts. apply length_block. lia.
Qed.

Lemma wf_zero_entry : wf_entry zero_entry.
Proof.
  split; cbn [zero_entry backlog backlog_head backlog_count backlog_tail rx rx_head
    rx_tail local_port]; consts; try lia; try word; try (by apply length_replicate).
  - constructor.
  - apply Forall_replicate. word.
Qed.

Lemma abs_fresh_entry : abs_entry fresh_entry = afresh.
Proof. done. Qed.

(** An entry that keeps the ring and the buffer of a well-formed one. *)
Lemma wf_entry_same e e' :
  wf_entry e -> backlog e' = backlog e -> backlog_head e' = backlog_head e ->
  backlog_tail e' = backlog_tail e -> backlog_count e' = backlog_count e ->
  rx e' = rx e -> rx_head e' = rx_head e -> rx_tail e' = rx_tail e ->
  is_u16 (local_port e') -> wf_entry e'.
Proof.
  intros [] H1 H2 H3 H4 H5 H6 H7 H8.
  split; unfold queue_of in *; rewrite ?H1, ?H2, ?H3, ?H4, ?H5, ?H6, ?H7; auto.
Qed.

Ltac wf_same := eapply wf_entry_same; cbn; [eassumption | try reflexivity ..];
  try solve [eauto using wf_port | word].

Lemma wf_set_backlog e b h t c :
  wf_entry e -> length b = 4%nat -> 0 <= h < BACKLOG_MAX -> 0 <= c <= BACKLOG_MAX ->
  t = (h + c) mod BACKLOG_MAX ->
  Forall is_fd (ring_view b (Z.to_nat h) (Z.to_nat c)) ->
  wf_entry (set_backlog b h t c e).
Proof. intros [] **. split; cbn; auto. Qed.

Lemma wf_set_rx e b h t :
  wf_entry e -> length b = 4096%nat -> Forall is_u8 b ->
  0 <= h <= t -> t <= RXBUF_SIZE -> wf_entry (set_rx b h t e).
Proof. intros [] **. split; cbn; auto. Qed.

(** *** The backlog ring as a queue *)

Lemma to_nat_ring i : 0 <= i -> Z.to_nat (i mod 4) = (Z.to_nat i `mod` 4)%nat.
Proof. intros. by rewrite Z2Nat.inj_mod by lia. Qed.

Lemma rem_ring i : 0 <= i -> Z.rem i BACKLOG_MAX = i mod 4.
Proof. intros. consts. apply Z.rem_mod_nonneg; lia. Qed.

(** Appending at the tail. *)
Lemma backlog_push e x :
  wf_entry e -> backlog_count e < BACKLOG_MAX -> is_fd x ->
  exists b, storeZ (backlog e) (backlog_tail e) x = Some b /\
    let e' := set_backlog b (backlog_head e) (Z.rem (backlog_tail e + 1) BACKLOG_MAX)
                (backlog_count e + 1) e in
    wf_entry e' /\ queue_of e' = queue_of e ++ [x].
Proof.
  intros Hw Hc Hx. destruct Hw as [Hl Hh Hcn Ht Hq ? ? ? ?] eqn:Hweq. clear Hweq.
  assert (Hti : 0 <= backlog_tail e < 4) by (consts; zlia).
  eexists. split; [apply storeZ_run; rewrite Hl; lia|]. cbv zeta.
  assert (Hqe : queue_of (set_backlog (<[Z.to_nat (backlog_tail e):=x]> (backlog e))
      (backlog_head e) (Z.rem (backlog_tail e + 1) BACKLOG_MAX) (backlog_count e + 1) e)
      = queue_of e ++ [x]).
  { unfold queue_of. cbn [backlog backlog_head backlog_count set_backlog].
    rewrite <- ring_push by (rewrite Hl; consts; lia). rewrite Hl.
    replace (Z.to_nat (backlog_tail e))
      with ((Z.to_nat (backlog_head e) + Z.to_nat (backlog_count e)) `mod` 4)%nat.
    - f_equal. consts. lia.
    - rewrite Ht. consts. rewrite to_nat_ring by lia. f_equal. lia. }
  split; [|done]. apply wf_set_backlog; [by split|by rewrite length_insert|consts; zlia..| |].
  - rewrite rem_ring by lia. rewrite Ht. consts.
    rewrite Zplus_mod_idemp_l. f_equal. lia.
  - unfold queue_of in Hqe. cbn [backlog backlog_head backlog_count set_backlog] in Hqe.
    rewrite Hqe. apply Forall_app; auto.
Qed.

(** Taking from the head. *)
Lemma backlog_pop e :
  wf_entry e -> 0 < backlog_count e ->
  exists c, lookupZ (backlog e) (backlog_head e) = Some c /\ is_fd c /\
    let e' := set_backlog (backlog e) (Z.rem (backlog_head e + 1) BACKLOG_MAX)
                (backlog_tail e) (backlog_count e - 1) e in
    wf_entry e' /\ queue_of e = c :: queue_of e'.
Proof.
  intros Hw Hc. destruct Hw as [Hl Hh Hcn Ht Hq ? ? ? ?] eqn:Hweq. clear Hweq.
  destruct (lookupZ_is_Some (backlog e) (backlog_head e)) as [c Hcv];
    [rewrite Hl; consts; lia|].
  assert (Hqe : queue_of e = c :: queue_of (set_backlog (backlog e)
      (Z.rem (backlog_head e + 1) BACKLOG_MAX) (backlog_tail e) (backlog_count e - 1) e)).
  { unfold queue_of. cbn [backlog backlog_head backlog_count set_backlog].
    replace (Z.to_nat (backlog_count e)) with (S (Z.to_nat (backlog_count e - 1))) by lia.
    rewrite ring_pop, Hl. rewrite Nat.mod_small by (consts; lia). f_equal.
    - apply lookupZ_Some in Hcv as [_ Hcv]. by apply list_lookup_total_correct.
    - rewrite rem_ring by (consts; lia). rewrite to_nat_ring by (consts; lia).
      do 2 f_equal. consts. lia. }
  rewrite Hqe in Hq. inversion Hq as [|? ? Hcfd Hq']; subst.
  exists c. split; [done|]. split; [done|]. split; [|done].
  apply wf_set_backlog; [|done|consts..| |done].
  - split; try done. by rewrite Hqe.
  - rewrite rem_ring by lia. zlia.
  - lia.
  - rewrite rem_ring by (consts; lia). rewrite Ht. consts.
    rewrite Zplus_mod_idemp_l. f_equal. lia.
Qed.

(** Putting back in front of the head. *)
Lemma backlog_unpop e c :
  wf_entry e -> backlog_count e < BACKLOG_MAX -> is_fd c ->
  exists b, storeZ (backlog e) (Z.rem (backlog_head e + BACKLOG_MAX - 1) BACKLOG_MAX) c = Some b /\
    let e' := set_backlog b (Z.rem (backlog_head e + BACKLOG_MAX - 1) BACKLOG_MAX)
                (backlog_tail e) (backlog_count e + 1) e in
    wf_entry e' /\ queue_of e' = c :: queue_of e.
Proof.
  intros Hw Hc Hx. destruct Hw as [Hl Hh Hcn Ht Hq ? ? ? ?] eqn:Hweq. clear Hweq.
  rewrite rem_ring by (consts; lia).
  eexists. split; [apply storeZ_run; rewrite Hl; consts; zlia|]. cbv zeta.
  match goal with |- wf_entry ?e' /\ _ => assert (Hqe : queue_of e' = c :: queue_of e) end.
  { unfold queue_of. cbn [backlog backlog_head backlog_count set_backlog].
    rewrite <- ring_unpop by (rewrite Hl; consts; lia). rewrite Hl.
    rewrite to_nat_ring by (consts; lia).
    replace (Z.to_nat (backlog_head e + BACKLOG_MAX - 1))
      with (Z.to_nat (backlog_head e) + 4 - 1)%nat by (consts; lia).
    f_equal. consts. lia. }
  split; [|done]. apply wf_set_backlog; [by split|by rewrite length_insert|consts; zlia..| |].
  - rewrite Ht. consts. rewrite Zplus_mod_idemp_l.
    replace (backlog_head e + 4 - 1 + (backlog_count e + 1))
      with (backlog_head e + backlog_count e + 1 * 4) by lia.
    by rewrite Z_mod_plus_full.
  - unfold queue_of in Hqe. cbn [backlog backlog_head backlog_count set_backlog] in Hqe.
    rewrite Hqe. by constructor.
Qed.

(** ** Facts about tables *)

Lemma wf_lookup t i e : wf t -> t !! i = Some e -> wf_entry e.
Proof. intros [_ Hw] Hi. by eapply Forall_lookup_1. Qed.

Lemma wf_insert t i e : wf t -> wf_entry e -> wf (<[i:=e]> t).
Proof.
  intros [] ?. split; [by rewrite length_insert|]. by apply Forall_insert.
Qed.

Lemma wf_init : wf g_fdtable_init.
Proof.
  split; [apply length_replicate|]. apply Forall_replicate, wf_zero_entry.
Qed.

Lemma length_abs t : length (abs t) = length t.
Proof. apply length_fmap. Qed.

Lemma lookup_abs t i : abs t !! i = abs_entry <$> t !! i.
Proof. apply list_lookup_fmap. Qed.

Lemma abs_insert t i e : abs (<[i:=e]> t) = <[i:=abs_entry e]> (abs t).
Proof. apply list_fmap_insert. Qed.

Lemma abs_upd t fd e : abs (<[Z.to_nat fd:=e]> t) = upd (abs t) fd (abs_entry e).
Proof. apply abs_insert. Qed.

(** Slots exist for every descriptor in range. *)
Lemma slot_exists t fd :
  wf t -> is_fd fd -> exists e, lookupZ t fd = Some e /\ wf_entry e.
Proof.
  intros Hw Hf. destruct (lookupZ_is_Some t fd) as [e He].
  { rewrite (wf_length _ Hw). consts. lia. }
  exists e. split; [done|]. apply lookupZ_Some in He as [_ He]. by eapply wf_lookup.
Qed.

Lemma lookupZ_wf t fd e : wf t -> lookupZ t fd = Some e -> wf_entry e.
Proof. intros Hw He. apply lookupZ_Some in He as [_ He]. by eapply wf_lookup. Qed.

Lemma lookupZ_abs t fd e :
  lookupZ t fd = Some e -> abs t !! Z.to_nat fd = Some (abs_entry e).
Proof. intros He. apply lookupZ_Some in He as [_ He]. by rewrite lookup_abs, He. Qed.

Lemma lookupZ_insert_eq {A} (t : list A) fd e e' :
  lookupZ t fd = Some e -> lookupZ (<[Z.to_nat fd:=e']> t) fd = Some e'.
Proof.
  intros [? He]%lookupZ_Some. rewrite lookupZ_nat by lia.
  apply list_lookup_insert_eq. lia.
Qed.

Lemma lookupZ_insert_ne {A} (t : list A) fd fd' e :
  0 <= fd -> fd <> fd' -> lookupZ (<[Z.to_nat fd:=e]> t) fd' = lookupZ t fd'.
Proof.
  intros Hp Hne. unfold lookupZ. destruct (Z.leb_spec 0 fd'); [|done].
  apply list_lookup_insert_ne. lia.
Qed.

(** ** The helpers run *)

Lemma entry_run t fd e : lookupZ t fd = Some e -> entry fd t = Some (e, t).
Proof. intros He. unfold entry. by rewrite He. Qed.

Lemma modify_run t fd e f :
  lookupZ t fd = Some e -> modify fd f t = Some (tt, <[Z.to_nat fd:=f e]> t).
Proof. intros He. unfold modify. by rewrite He. Qed.

Lemma abs_is_kind k e : a_is_kind k (abs_entry e) = is_kind k e.
Proof. done. Qed.

Lemma live_Some t fd s :
  live (abs t) fd = Some s ->
  exists e, lookupZ t fd = Some e /\ s = abs_entry e /\ is_fd fd /\ kind e <> FD_FREE.
Proof.
  unfold live, is_fd. destruct (Z.leb_spec FD_FIRST fd), (Z.ltb_spec fd FDTABLE_MAX);
    cbn [andb]; try done.
  rewrite lookup_abs. destruct (t !! Z.to_nat fd) as [e|] eqn:He; cbn; [|done].
  unfold a_is_kind. case_bool_decide as Hk; cbn; [done|]. intros [= <-].
  exists e. rewrite lookupZ_nat by (consts; lia). auto.
Qed.

Lemma live_abs t fd e :
  is_fd fd -> lookupZ t fd = Some e -> kind e <> FD_FREE ->
  live (abs t) fd = Some (abs_entry e).
Proof.
  intros [? ?] He Hk. unfold live.
  destruct (Z.leb_spec FD_FIRST fd), (Z.ltb_spec fd FDTABLE_MAX); try lia. cbn [andb].
  rewrite (lookupZ_abs _ _ _ He). cbn. unfold a_is_kind. by case_bool_decide.
Qed.

Lemma fd_valid_run t fd :
  wf t -> fd_valid fd t = Some (bool_decide (is_Some (live (abs t) fd)), t).
Proof.
  intros Hw. unfold fd_valid, live.
  destruct (Z.leb_spec FD_FIRST fd), (Z.ltb_spec fd FDTABLE_MAX); cbn [andb]; try done.
  destruct (slot_exists t fd Hw) as (e & He & _); [by split|].
  rewrite (bind_some _ _ _ _ _ (entry_run _ _ _ He)), ret_run.
  rewrite (lookupZ_abs _ _ _ He). cbn. rewrite abs_is_kind. unfold is_kind.
  by case_bool_decide.
Qed.

(** ** The search loops find the first slot *)

Lemma scan_from t q p n i :
  (forall e, q e = p (abs_entry e)) -> (i + n = length t)%nat ->
  scan q n (Z.of_nat i) t =
  Some (match list_find (fun s => p s = true) (drop i (abs t)) with
        | Some (j, _) => Z.of_nat i + Z.of_nat j
        | None => -1
        end, t).
Proof.
  intros Hq. revert i. induction n as [|n IH]; intros i Hi.
  { rewrite drop_ge by (rewrite length_abs; lia). done. }
  cbn [scan]. destruct (lookup_lt_is_Some_2 t i) as [e He]; [lia|].
  rewrite (bind_some _ _ _ e t) by (apply entry_run; rewrite lookupZ_nat, Nat2Z.id by lia; done).
  erewrite drop_S by (rewrite lookup_abs, He; done).
  cbn [list_find]. rewrite Hq. destruct (decide (p (abs_entry e) = true)) as [->|Hne].
  { rewrite ret_run. do 2 f_equal. lia. }
  apply not_true_is_false in Hne. rewrite Hne.
  replace (Z.of_nat i + 1) with (Z.of_nat (S i)) by lia. rewrite IH by lia.
  destruct (list_find _ (drop (S i) _)) as [[j ?]|]; cbn; do 2 f_equal; lia.
Qed.

Definition fd_or_none (o : option Z) : Z := default (-1) o.

Lemma scan_run t q p :
  wf t -> (forall e, q e = p (abs_entry e)) ->
  scan q SCAN_LEN FD_FIRST t = Some (fd_or_none (first_fd p (abs t)), t).
Proof.
  intros Hw Hq. change FD_FIRST with (Z.of_nat 3).
  rewrite (scan_from t q p) by (rewrite ?(wf_length _ Hw); done).
  unfold first_fd. destruct (list_find _ _) as [[j ?]|]; done.
Qed.

Lemma first_fd_Some p a fd :
  length a = 128%nat -> first_fd p a = Some fd ->
  is_fd fd /\ exists s, a !! Z.to_nat fd = Some s /\ p s = true.
Proof.
  intros Hl. unfold first_fd, is_fd.
  destruct (list_find _ (drop 3 a)) as [[j s]|] eqn:Hj; cbn; [|done].
  intros [= <-]. apply list_find_Some in Hj as (Hj & Hp & _).
  rewrite lookup_drop in Hj. pose proof (lookup_lt_Some _ _ _ Hj).
  consts. split; [lia|]. exists s. split; [|done].
  by replace (Z.to_nat (3 + Z.of_nat j)) with (3 + j)%nat by lia.
Qed.

Lemma first_fd_abs p t fd :
  wf t -> first_fd p (abs t) = Some fd ->
  is_fd fd /\ exists e, lookupZ t fd = Some e /\ wf_entry e /\ p (abs_entry e) = true.
Proof.
  intros Hw Hf. apply first_fd_Some in Hf as (Hfd & s & Hs & Hp);
    [|rewrite length_abs; apply Hw].
  destruct (slot_exists t fd Hw Hfd) as (e & He & Hwe).
  rewrite (lookupZ_abs _ _ _ He) in Hs. simplify_eq. eauto 6.
Qed.

Lemma alloc_fd_run t :
  wf t ->
  alloc_fd t = match free_slot (abs t) with
               | Some fd => Some (fd, <[Z.to_nat fd := fresh_entry]> t)
               | None => Some (-1, t)
               end.
Proof.
  intros Hw. unfold alloc_fd.
  rewrite (bind_some _ _ _ _ _ (scan_run t (is_kind FD_FREE) (a_is_kind FD_FREE) Hw
             (fun _ => eq_refl))).
  unfold free_slot. destruct (first_fd _ _) as [fd|] eqn:Hf; cbn [fd_or_none default]; [|done].
  apply first_fd_abs in Hf as (Hfd & e & He & _); [|done].
  unfold fd_or_none, default, from_option, id.
  destruct (Z.ltb_spec fd 0); [consts; lia|].
  by rewrite (bind_some _ _ _ _ _ (modify_run _ _ _ _ He)).
Qed.

(** ** Refinement *)

(** The outcome [x] of a handler run on table [t] and request [r] is
    defined, keeps the invariants and is what the specification says for
    operation [o]. *)
Definition refines (o : sockop) (x : option (NetstackReq * fdtable)) (t : fdtable)
    (r : NetstackReq) : Prop :=
  exists r' t', x = Some (r', t') /\ wf t' /\ wf_req r' /\
    op r' = op r /\ msg r' = msg r /\
    spec_step o (abs t) = (decode_res o r', abs t').

Lemma decode_res_err o r e : err r = e -> e <> 0 -> decode_res o r = RErr e.
Proof.
  intros He Hn. unfold decode_res, NETSTACK_OK. rewrite He.
  destruct (Z.eqb_spec e 0); done.
Qed.

(** Decode a successful reply without opening its loads. *)
Ltac decode_ok := unfold decode_res; cbn [err set_err negb];
  change (negb (NETSTACK_OK =? NETSTACK_OK)) with false; cbv iota; req_simpl.

(** A normal return. *)
Lemma refines_ok o t r r' t' :
  wf t' -> wf_req r' -> op r' = op r -> msg r' = msg r ->
  spec_step o (abs t) = (decode_res o r', abs t') -> refines o (Some (r', t')) t r.
Proof. intros. by exists r', t'. Qed.

(** An early return with an error code and an untouched table. *)
Lemma refines_err o t r r' e :
  wf t -> wf_req r' -> op r' = op r -> msg r' = msg r ->
  err r' = e -> e <> 0 -> spec_step o (abs t) = (RErr e, abs t) ->
  refines o (Some (r', t)) t r.
Proof.
  intros Hw Hr Ho Hm He Hn Hs. apply refines_ok; try done.
  rewrite Hs. f_equal. symmetry. by apply decode_res_err.
Qed.

Ltac fail_with := eapply refines_err;
  [ assumption | solve [eauto 8 with words] | reflexivity | reflexivity
  | reflexivity | discriminate | ].

Ltac succeed := apply refines_ok;
  [ | solve [eauto 8 with words] | reflexivity | reflexivity | ].

(** Replace the head of a [bind] by its known result. *)
Ltac step H := rewrite (bind_some _ _ _ _ _ H); cbv beta.

Lemma fd_valid_true t fd s :
  wf t -> live (abs t) fd = Some s -> fd_valid fd t = Some (true, t).
Proof. intros Hw Hl. by rewrite fd_valid_run, Hl by done. Qed.

Lemma fd_valid_false t fd :
  wf t -> live (abs t) fd = None -> fd_valid fd t = Some (false, t).
Proof. intros Hw Hl. by rewrite fd_valid_run, Hl by done. Qed.

(** The opening of every handler: check the descriptor, fetch its entry. *)
Lemma guard_fd {B} t fd (bad : B) (k : fd_entry -> M fdtable B) :
  wf t ->
  (ok ← fd_valid fd; if negb ok then mret bad else e ← entry fd; k e) t =
  match live (abs t) fd with
  | None => Some (bad, t)
  | Some _ => match lookupZ t fd with Some e => k e t | None => None end
  end.
Proof.
  intros Hw. destruct (live (abs t) fd) as [s|] eqn:Hl.
  - step (fd_valid_true t fd s Hw Hl). apply live_Some in Hl as (e & He & _).
    cbn [negb]. step (entry_run _ _ _ He). by rewrite He.
  - by step (fd_valid_false t fd Hw Hl).
Qed.

Lemma upd_upd a fd s s' : upd (upd a fd s) fd s' = upd a fd s'.
Proof. apply list_insert_insert_eq. Qed.

(** *** socket *)

Lemma socket_refines t r :
  wf t -> wf_req r ->
  refines (OpSocket (socket_domain r) (socket_type r) (socket_proto r))
    (fdtable_dispatch_socket r t) t r.
Proof.
  intros Hw Hr. unfold fdtable_dispatch_socket.
  pose proof (alloc_fd_run t Hw) as Ha.
  destruct (free_slot (abs t)) as [fd|] eqn:Hf; step Ha.
  - destruct (first_fd_abs _ _ _ Hw Hf) as (Hfd & e & He & Hwe & Hk).
    destruct (Z.ltb_spec fd 0); [consts; lia|].
    rewrite (bind_some _ _ _ _ _ (modify_run _ _ _ _ (lookupZ_insert_eq _ _ _ _ He))).
    rewrite list_insert_insert_eq. succeed.
    + apply wf_insert; [done|]. eapply wf_entry_same; [apply wf_zero_entry|done..|].
      cbn. word.
    + cbn [spec_step]. unfold spec_socket. rewrite Hf, abs_upd. f_equal.
      decode_ok. rewrite s32_id; [done|]. consts. word.
  - fail_with. cbn [spec_step]. unfold spec_socket. by rewrite Hf.
Qed.

(** *** close *)

Lemma set_peer_wf e v : wf_entry e -> wf_entry (set_peer_fd v e).
Proof. intros. wf_same. Qed.

(** The notification of the peer in [fdtable_dispatch_close]. *)
Lemma disconnect_run t e :
  wf t ->
  exists t', whenM (is_kind FD_SOCKET_CONNECTED e)
    (let peer := peer_fd e in
     if 0 <=? peer
     then okp ← fd_valid peer; whenM okp (modify peer (set_peer_fd (-1)))
     else mret tt) t = Some (tt, t') /\
    wf t' /\ abs t' = disconnect (abs_entry e) (abs t).
Proof.
  intros Hw. unfold disconnect. rewrite abs_is_kind.
  destruct (is_kind FD_SOCKET_CONNECTED e); cbn [whenM]; [|by exists t].
  cbv zeta. cbn [apeer abs_entry].
  destruct (live (abs t) (peer_fd e)) as [s|] eqn:Hl.
  - pose proof (live_Some _ _ _ Hl) as (p & Hp & -> & Hfd & _).
    destruct (Z.leb_spec 0 (peer_fd e)); [|consts; lia].
    step (fd_valid_true t _ _ Hw Hl). cbn [whenM].
    eexists. split; [by apply modify_run|]. split.
    + apply wf_insert; [done|]. eauto using set_peer_wf, lookupZ_wf.
    + by rewrite abs_upd.
  - destruct (0 <=? peer_fd e); [|by exists t].
    step (fd_valid_false t _ Hw Hl). by exists t.
Qed.

Lemma close_refines t r :
  wf t -> wf_req r ->
  refines (OpClose (close_sock r)) (fdtable_dispatch_close r t) t r.
Proof.
  intros Hw Hr. unfold fdtable_dispatch_close. cbv zeta. rewrite guard_fd by done.
  destruct (live (abs t) (close_sock r)) as [s|] eqn:Hl.
  - pose proof (live_Some _ _ _ Hl) as (e & He & -> & Hfd & Hk). rewrite He.
    destruct (disconnect_run t e Hw) as (t1 & Hd & Hw1 & Ha1). cbv zeta in Hd. step Hd.
    destruct (slot_exists t1 (close_sock r) Hw1 Hfd) as (e1 & He1 & _).
    rewrite (bind_some _ _ _ _ _ (modify_run _ _ _ _ He1)). succeed.
    + apply wf_insert; [done|]. apply set_peer_wf, wf_zero_entry.
    + cbn [spec_step]. unfold spec_close. by rewrite Hl, abs_upd, Ha1.
  - fail_with. cbn [spec_step]. unfold spec_close. by rewrite Hl.
Qed.

(** *** bind and listen *)

Lemma port_in_use_run t port :
  wf t -> port_in_use port t = Some (port_taken port (abs t), t).
Proof.
  intros Hw. unfold port_in_use, port_taken.
  erewrite (bind_some _ _ _ _ _ (scan_run t _ (fun s =>
    (a_is_kind FD_SOCKET_LISTEN s || a_is_kind FD_SOCKET_CONNECTED s)
    && (aport s =? port)) Hw (fun _ => eq_refl))).
  destruct (first_fd _ _) as [fd|] eqn:Hf; [|done].
  apply first_fd_abs in Hf as [Hfd _]; [|done]. rewrite ret_run. do 2 f_equal.
  unfold fd_or_none, default, from_option, id.
  destruct (Z.ltb_spec fd 0); [consts; lia|done].
Qed.

Lemma bind_refines t r :
  wf t -> wf_req r ->
  refines (OpBind (bind_sock r) (bind_port r)) (fdtable_dispatch_bind r t) t r.
Proof.
  intros Hw Hr. unfold fdtable_dispatch_bind. cbv zeta. rewrite guard_fd by done.
  assert (Hs : forall x, spec_bind (bind_sock r) (bind_port r) (abs t) = x ->
    spec_step (OpBind (bind_sock r) (bind_port r)) (abs t) = x) by done.
  unfold spec_bind in Hs.
  destruct (live (abs t) (bind_sock r)) as [s|] eqn:Hl; [|by fail_with; apply Hs].
  pose proof (live_Some _ _ _ Hl) as (e & He & -> & Hfd & Hk). rewrite He.
  rewrite abs_is_kind in Hs.
  destruct (is_kind FD_SOCKET_UNBOUND e); cbn [negb] in *; [|by fail_with; apply Hs].
  step (port_in_use_run t (bind_port r) Hw).
  destruct (port_taken _ _); [by fail_with; apply Hs|].
  rewrite (bind_some _ _ _ _ _ (modify_run _ _ _ _ He)). succeed.
  - apply wf_insert; [done|]. pose proof (lookupZ_wf _ _ _ Hw He). wf_same.
    apply ld_u16_range; [done|]. unfold sizeof_u. lia.
  - apply Hs. by rewrite abs_upd.
Qed.

Lemma listen_refines t r :
  wf t -> wf_req r ->
  refines (OpListen (listen_sock r)) (fdtable_dispatch_listen r t) t r.
Proof.
  intros Hw Hr. unfold fdtable_dispatch_listen. cbv zeta. rewrite guard_fd by done.
  assert (Hs : forall x, spec_listen (listen_sock r) (abs t) = x ->
    spec_step (OpListen (listen_sock r)) (abs t) = x) by done.
  unfold spec_listen in Hs.
  destruct (live (abs t) (listen_sock r)) as [s|] eqn:Hl; [|by fail_with; apply Hs].
  pose proof (live_Some _ _ _ Hl) as (e & He & -> & Hfd & Hk). rewrite He.
  rewrite abs_is_kind in Hs. cbn [aport abs_entry] in Hs.
  destruct (negb (is_kind FD_SOCKET_UNBOUND e) || (local_port e =? 0));
    [by fail_with; apply Hs|].
  rewrite (bind_some _ _ _ _ _ (modify_run _ _ _ _ He)). succeed.
  - apply wf_insert; [done|]. pose proof (lookupZ_wf _ _ _ Hw He) as Hwe.
    apply wf_set_backlog; [wf_same|by apply wf_backlog_len|consts; lia..|done|constructor].
  - apply Hs. by rewrite abs_upd.
Qed.

(** *** connect *)

Lemma find_listener_run t port :
  wf t -> find_listener port t = Some (fd_or_none (listener_on port (abs t)), t).
Proof. intros Hw. by apply (scan_run t (is_listener port)). Qed.

Lemma listener_on_abs t port lfd :
  wf t -> listener_on port (abs t) = Some lfd ->
  is_fd lfd /\ exists l, lookupZ t lfd = Some l /\ wf_entry l /\
    kind l = FD_SOCKET_LISTEN /\ local_port l = port.
Proof.
  intros Hw Hf. apply first_fd_abs in Hf as (Hfd & l & Hl & Hwl & Hp); [|done].
  apply andb_true_iff in Hp as [Hk Hp]. apply Z.eqb_eq in Hp.
  rewrite abs_is_kind in Hk. unfold is_kind in Hk. apply bool_decide_eq_true in Hk.
  split; [done|]. by exists l.
Qed.

Lemma is_kind_true k e : is_kind k e = true <-> kind e = k.
Proof. apply bool_decide_eq_true. Qed.

Lemma connect_refines t r :
  wf t -> wf_req r ->
  refines (OpConnect (connect_sock r) (connect_port r)) (fdtable_dispatch_connect r t) t r.
Proof.
  intros Hw Hr. unfold fdtable_dispatch_connect. cbv zeta. rewrite guard_fd by done.
  set (fd := connect_sock r) in *. set (port := connect_port r) in *.
  assert (Hs : forall x, spec_connect fd port (abs t) = x ->
    spec_step (OpConnect fd port) (abs t) = x) by done.
  unfold spec_connect in Hs.
  destruct (live (abs t) fd) as [s|] eqn:Hl; [|by fail_with; apply Hs].
  pose proof (live_Some _ _ _ Hl) as (e & He & -> & Hfd & _). rewrite He.
  rewrite abs_is_kind in Hs.
  destruct (is_kind FD_SOCKET_UNBOUND e) eqn:Hk; cbn [negb] in *; [|by fail_with; apply Hs].
  apply is_kind_true in Hk.
  step (find_listener_run t port Hw).
  destruct (listener_on port (abs t)) as [lfd|] eqn:Hlf; [|by fail_with; apply Hs].
  destruct (listener_on_abs _ _ _ Hw Hlf) as (Hlfd & l & Hll & Hwl & Hlk & Hlp).
  unfold fd_or_none, default, from_option, id.
  destruct (Z.ltb_spec lfd 0); [consts; lia|].
  step (entry_run _ _ _ Hll). cbv zeta in Hs.
  rewrite (list_lookup_total_correct _ _ _ (lookupZ_abs _ _ _ Hll)) in Hs.
  cbn [aqueue abs_entry] in Hs. rewrite length_queue_of in Hs.
  rewrite Z2Nat.id in Hs by (apply Hwl).
  destruct (Z.leb_spec BACKLOG_MAX (backlog_count l)); [by fail_with; apply Hs|].
  rewrite (bind_some _ _ _ _ _ (modify_run _ _ _ _ He)).
  assert (Hne : fd <> lfd) by (intros ->; congruence).
  match goal with |- context [<[Z.to_nat fd := ?e']> t] => set (e1 := e') end.
  assert (Hwe1 : wf_entry e1) by (pose proof (lookupZ_wf _ _ _ Hw He); wf_same).
  assert (Hll1 : lookupZ (<[Z.to_nat fd:=e1]> t) lfd = Some l)
    by (rewrite lookupZ_insert_ne; [done|consts; lia|done]).
  step (entry_run _ _ _ Hll1).
  destruct (backlog_push l fd Hwl) as (b & Hb & Hwl' & Hq); [done..|]. cbv zeta in Hwl', Hq.
  step (liftO_run _ _ (<[Z.to_nat fd:=e1]> t) Hb).
  pose proof (wf_tail _ Hwl) as Htl. pose proof (wf_count _ Hwl).
  assert (0 <= backlog_tail l < 4) by (rewrite Htl; consts; zlia).
  rewrite (bind_some _ _ _ _ _ (ckd_run (backlog_tail l + 1) _ ltac:(word))).
  rewrite (bind_some _ _ _ _ _ (ckd_run (backlog_count l + 1) _ ltac:(consts; word))).
  rewrite (bind_some _ _ _ _ _ (modify_run _ _ _ _ Hll1)). succeed.
  - by repeat apply wf_insert.
  - apply Hs. rewrite !abs_upd. f_equal. f_equal.
    unfold a_set_queue. rewrite <- Hq. done.
Qed.

(** *** accept *)

Lemma list_find_insert_same {A} (p : A -> bool) (l : list A) i x y :
  l !! i = Some y -> p x = p y ->
  fst <$> list_find (fun s => p s = true) (<[i:=x]> l) =
  fst <$> list_find (fun s => p s = true) l.
Proof.
  revert i. induction l as [|z l IH]; intros i Hi Hp; [done|].
  destruct i as [|i]; cbn in Hi; simplify_eq; cbn.
  - rewrite Hp. destruct (decide _); [done|]. by destruct (list_find _ l) as [[]|].
  - destruct (decide _); [done|]. specialize (IH i Hi Hp).
    destruct (list_find _ (<[i:=x]> l)) as [[]|], (list_find _ l) as [[]|];
      cbn in *; by simplify_eq.
Qed.

(** A search does not see an update that keeps the searched property. *)
Lemma first_fd_upd p a fd s s' :
  0 <= fd -> a !! Z.to_nat fd = Some s -> p s' = p s ->
  first_fd p (upd a fd s') = first_fd p a.
Proof.
  intros Hfd Hs Hp. unfold first_fd, upd.
  assert (forall l : list asock,
    (fun '(i, _) => FD_FIRST + Z.of_nat i) <$> list_find (fun s => p s = true) l =
    (fun i => FD_FIRST + Z.of_nat i) <$> (fst <$> list_find (fun s => p s = true) l)) as Hf.
  { intros l. by destruct (list_find _ l) as [[]|]. }
  rewrite !Hf. f_equal. destruct (decide (Z.to_nat fd < 3)%nat).
  - by rewrite drop_insert_lt by lia.
  - rewrite drop_insert_ge by lia. apply (list_find_insert_same _ _ _ _ s); [|done].
    rewrite lookup_drop. by replace (3 + (Z.to_nat fd - 3))%nat with (Z.to_nat fd) by lia.
Qed.

(** The slot that [alloc_fd] picks is free. *)
Lemma free_slot_abs t nfd :
  wf t -> free_slot (abs t) = Some nfd ->
  is_fd nfd /\ exists e, lookupZ t nfd = Some e /\ kind e = FD_FREE.
Proof.
  intros Hw Hf. apply first_fd_abs in Hf as (Hfd & e & He & _ & Hk); [|done].
  split; [done|]. exists e. split; [done|]. by apply is_kind_true.
Qed.

Definition accepted_entry (l : fd_entry) (c : Z) : fd_entry :=
  set_peer_port 0 (set_peer_fd c (set_local_port (local_port l)
    (set_meta (domain l) (type l) (proto l) (set_kind FD_SOCKET_CONNECTED fresh_entry)))).

Lemma wf_accepted_entry l c : wf_entry l -> wf_entry (accepted_entry l c).
Proof.
  intros Hl. eapply wf_entry_same; [apply wf_zero_entry|done..|]. exact (wf_port l Hl).
Qed.

(** Both outcomes of [alloc_fd] after the client was taken off the backlog. *)
Lemma accept_full t r fd l c l1 :
  wf t -> wf_req r -> lookupZ t fd = Some l -> is_fd c -> l1 = set_backlog (backlog l)
    (Z.rem (backlog_head l + 1) BACKLOG_MAX) (backlog_tail l) (backlog_count l - 1) l ->
  wf_entry l1 -> queue_of l = c :: queue_of l1 ->
  exists t', (lst ← entry fd;
    head ← ckd (backlog_head lst + BACKLOG_MAX - 1);
    b ← liftO (storeZ (backlog lst) (Z.rem head BACKLOG_MAX) c);
    count ← ckd (backlog_count lst + 1);
    modify fd (set_backlog b (Z.rem head BACKLOG_MAX) (backlog_tail lst) count);;
    mret (set_accept_new_sock (-1) (set_err NETSTACK_EMFILE r))) (<[Z.to_nat fd:=l1]> t)
    = Some (set_accept_new_sock (-1) (set_err NETSTACK_EMFILE r), t') /\
    wf t' /\ abs t' = abs t.
Proof.
  intros Hw Hr Hl Hc -> Hwl1 Hq. set (l1 := set_backlog _ _ _ _ l) in *.
  pose proof (lookupZ_insert_eq _ _ _ l1 Hl) as Hl1. step (entry_run _ _ _ Hl1).
  pose proof (wf_head _ Hwl1). pose proof (wf_count _ Hwl1).
  rewrite (bind_some _ _ _ _ _ (ckd_run (backlog_head l1 + BACKLOG_MAX - 1) _ ltac:(consts; word))).
  assert (Hlen : (length (queue_of l) <= 4)%nat).
  { rewrite length_queue_of. pose proof (wf_count _ (lookupZ_wf _ _ _ Hw Hl)). consts. lia. }
  rewrite Hq in Hlen. cbn [length] in Hlen. rewrite length_queue_of in Hlen.
  destruct (backlog_unpop l1 c Hwl1) as (b & Hb & Hwl2 & Hq2); [consts; lia|done|].
  cbv zeta in Hwl2, Hq2. step (liftO_run _ _ (<[Z.to_nat fd:=l1]> t) Hb).
  rewrite (bind_some _ _ _ _ _ (ckd_run (backlog_count l1 + 1) _ ltac:(consts; word))).
  rewrite (bind_some _ _ _ _ _ (modify_run _ _ _ _ Hl1)), list_insert_insert_eq, ret_run.
  eexists. split; [reflexivity|]. split; [by apply wf_insert|].
  rewrite abs_insert. apply list_insert_id. rewrite (lookupZ_abs _ _ _ Hl). f_equal.
  unfold abs_entry. rewrite Hq2, <- Hq. done.
Qed.

Lemma accept_pair t r fd l c nfd :
  wf t -> wf_req r -> lookupZ t fd = Some l -> kind l = FD_SOCKET_LISTEN ->
  is_fd fd -> is_fd c -> is_fd nfd -> fd <> nfd -> is_Some (lookupZ t nfd) ->
  exists t', (lst ← entry fd;
    modify nfd (fun e =>
      set_peer_port 0 (set_peer_fd c (set_local_port (local_port lst)
        (set_meta (domain lst) (type lst) (proto lst)
          (set_kind FD_SOCKET_CONNECTED e)))));;
    modify c (set_peer_fd nfd);;
    lst ← entry fd;
    mret (set_err NETSTACK_OK (set_accept_peer_port (local_port lst)
            (set_accept_new_sock nfd r)))) (<[Z.to_nat nfd:=fresh_entry]> t)
    = Some (set_err NETSTACK_OK (set_accept_peer_port (local_port l)
              (set_accept_new_sock nfd r)), t') /\
    wf t' /\
    let a1 := upd (abs t) nfd (abs_entry (accepted_entry l c)) in
    abs t' = upd a1 c (a_set_peer nfd (a1 !!! Z.to_nat c)).
Proof.
  intros Hw Hr Hl Hlk Hfd Hc Hnfd Hne [en Hen].
  set (t1 := <[Z.to_nat nfd:=fresh_entry]> t).
  assert (Hl1 : lookupZ t1 fd = Some l)
    by (unfold t1; rewrite lookupZ_insert_ne; [done|consts; lia|done]).
  step (entry_run _ _ _ Hl1).
  rewrite (bind_some _ _ _ _ _ (modify_run _ _ _ _ (lookupZ_insert_eq _ _ _ fresh_entry Hen))).
  unfold t1. rewrite list_insert_insert_eq. fold (accepted_entry l c).
  set (t2 := <[Z.to_nat nfd:=accepted_entry l c]> t).
  assert (Hw2 : wf t2).
  { apply wf_insert; [done|]. apply wf_accepted_entry. by eapply lookupZ_wf. }
  destruct (slot_exists t2 c Hw2 Hc) as (ec & Hec & Hwec).
  rewrite (bind_some _ _ _ _ _ (modify_run _ _ _ _ Hec)).
  set (t3 := <[Z.to_nat c:=set_peer_fd nfd ec]> t2).
  assert (exists l', lookupZ t3 fd = Some l' /\ local_port l' = local_port l) as (l' & Hl' & Hp').
  { assert (Hl2 : lookupZ t2 fd = Some l)
      by (unfold t2; rewrite lookupZ_insert_ne; [done|consts; lia|done]).
    unfold t3. destruct (decide (c = fd)) as [->|Hcf].
    - eexists. split; [by eapply lookupZ_insert_eq|]. by simplify_eq.
    - exists l. rewrite lookupZ_insert_ne; [done|consts; lia|done]. }
  step (entry_run _ _ _ Hl'). rewrite Hp', ret_run.
  exists t3. split; [done|]. split.
  { apply wf_insert; [done|]. by apply set_peer_wf. }
  cbv zeta. unfold t3. rewrite abs_upd.
  unfold t2. rewrite abs_upd. f_equal.
  rewrite (list_lookup_total_correct _ _ (abs_entry ec)); [done|].
  rewrite <- abs_upd. by apply lookupZ_abs.
Qed.

Lemma accept_refines t r :
  wf t -> wf_req r ->
  refines (OpAccept (accept_sock r)) (fdtable_dispatch_accept r t) t r.
Proof.
  intros Hw Hr. unfold fdtable_dispatch_accept. cbv zeta. rewrite guard_fd by done.
  set (fd := accept_sock r) in *.
  assert (Hs : forall x, spec_accept fd (abs t) = x ->
    spec_step (OpAccept fd) (abs t) = x) by done.
  unfold spec_accept in Hs.
  destruct (live (abs t) fd) as [s|] eqn:Hl; [|by fail_with; apply Hs].
  pose proof (live_Some _ _ _ Hl) as (l & He & -> & Hfd & _). rewrite He.
  rewrite abs_is_kind in Hs. cbn [aqueue aport ameta abs_entry] in Hs.
  destruct (is_kind FD_SOCKET_LISTEN l) eqn:Hk; cbn [negb] in *; [|by fail_with; apply Hs].
  apply is_kind_true in Hk. pose proof (lookupZ_wf _ _ _ Hw He) as Hwl.
  pose proof (wf_count _ Hwl). pose proof (wf_head _ Hwl).
  destruct (Z.eqb_spec (backlog_count l) 0) as [Hz|Hz].
  { fail_with. apply Hs. unfold queue_of. by rewrite Hz. }
  destruct (backlog_pop l Hwl) as (c & Hc & Hcfd & Hwl1 & Hq); [lia|]. cbv zeta in Hwl1, Hq.
  rewrite Hq in Hs. step (liftO_run _ _ t Hc).
  rewrite (bind_some _ _ _ _ _ (ckd_run (backlog_head l + 1) _ ltac:(consts; word))).
  rewrite (bind_some _ _ _ _ _ (ckd_run (backlog_count l - 1) _ ltac:(consts; word))).
  rewrite (bind_some _ _ _ _ _ (modify_run _ _ _ _ He)).
  set (l1 := set_backlog _ _ _ _ l) in *. set (t1 := <[Z.to_nat fd:=l1]> t).
  assert (Hw1 : wf t1) by (by apply wf_insert).
  assert (Hfs : free_slot (abs t1) = free_slot (abs t)).
  { unfold t1. rewrite abs_upd. eapply first_fd_upd; [consts; lia|by apply lookupZ_abs|done]. }
  pose proof (alloc_fd_run t1 Hw1) as Ha. rewrite Hfs in Ha.
  destruct (free_slot (abs t)) as [nfd|] eqn:Hf; rewrite (bind_some _ _ _ _ _ Ha).
  - destruct (free_slot_abs t1 nfd Hw1) as (Hnfd & en & Hen & Hnk); [done|].
    destruct (Z.ltb_spec nfd 0); [consts; lia|].
    assert (Hl1 : lookupZ t1 fd = Some l1) by (by eapply lookupZ_insert_eq).
    assert (Hne : fd <> nfd).
    { intros Heq. rewrite <- Heq, Hl1 in Hen. injection Hen as <-.
      change (kind l = FD_FREE) in Hnk. congruence. }
    destruct (accept_pair t1 r fd l1 c nfd) as (t' & Hrun & Hw' & Ha'); try done.
    cbv zeta in Ha'. rewrite Hrun. succeed; [done|].
    apply Hs. rewrite Ha'. unfold t1. rewrite abs_upd. f_equal.
    decode_ok. rewrite s32_id, u16_id; [done| |consts; word].
    by apply wf_port.
  - destruct (accept_full t r fd l c l1) as (t' & Hrun & Hw' & Ha'); try done.
    change (-1 <? 0) with true. cbv iota. fold t1 in Hrun. rewrite Hrun.
    succeed; [done|]. rewrite Ha'. by apply Hs.
Qed.

(** *** The receive buffer as a byte queue *)

(** [rx_compact] moves bytes, not the queue. *)
Lemma rx_compact_run t fd e :
  wf t -> lookupZ t fd = Some e ->
  exists e', rx_compact fd t = Some (tt, <[Z.to_nat fd:=e']> t) /\ wf_entry e' /\
    abs_entry e' = abs_entry e /\ rx_head e' = 0 /\
    rx_tail e' = Z.of_nat (length (rx_bytes e)).
Proof.
  intros Hw He. unfold rx_compact. step (entry_run _ _ _ He).
  pose proof (lookupZ_wf _ _ _ Hw He) as Hwe. rewrite (length_rx_bytes e Hwe).
  pose proof (wf_cursors _ Hwe) as [Hc1 Hc2]. pose proof (wf_rx_len _ Hwe) as Hlen.
  destruct (Z.eqb_spec (rx_head e) 0) as [H0|H0].
  { exists e. rewrite list_insert_id by (by apply lookupZ_Some in He as [_ ?]).
    split; [done|]. split; [done|]. split; [done|]. lia. }
  rewrite (bind_some _ _ _ _ _ (ckd_run (rx_tail e - rx_head e) _ ltac:(consts; word))).
  set (n := rx_tail e - rx_head e) in *.
  assert (exists buf, (if 0 <? n then liftO (memcpy (rx e) 0 (rx e) (rx_head e) n)
      else mret (rx e)) t = Some (buf, t) /\ length buf = 4096%nat /\ Forall is_u8 buf /\
      block 0 (Z.to_nat n) buf = rx_bytes e) as (buf & Hb & Hbl & Hbb & Hbq).
  { destruct (Z.ltb_spec 0 n).
    - eexists. split; [apply liftO_run, memcpy_run; consts; lia|].
      split; [by rewrite length_inserts|]. split.
      + apply Forall_inserts; [apply Hwe|]. apply Forall_block, Hwe.
      + change (Z.to_nat 0) with 0%nat.
        change (rx_bytes e) with (block (Z.to_nat (rx_head e)) (Z.to_nat n) (rx e)).
        set (bs := block (Z.to_nat (rx_head e)) _ _).
        assert (Hbn : length bs = Z.to_nat n) by (apply length_block; consts; lia).
        rewrite <- Hbn. apply block_inserts_same. consts. lia.
    - exists (rx e). split; [done|]. split; [done|]. split; [apply Hwe|].
      unfold rx_bytes. fold n. replace (Z.to_nat n) with 0%nat by lia. done. }
  step Hb. rewrite (modify_run _ _ _ _ He).
  exists (set_rx buf 0 n e). split; [done|]. split.
  { apply wf_set_rx; [done..|lia|consts; lia]. }
  split; [|cbn; lia]. unfold abs_entry. cbn [kind domain type proto local_port peer_fd
    peer_port set_rx]. f_equal. rewrite <- Hbq. unfold rx_bytes.
  cbn [rx rx_head rx_tail set_rx]. by rewrite Z.sub_0_r.
Qed.

(** Copying behind the tail appends. *)
Lemma rx_append e d :
  wf_entry e -> rx_tail e + Z.of_nat (length d) <= RXBUF_SIZE -> Forall is_u8 d ->
  let e' := set_rx (list_inserts (Z.to_nat (rx_tail e)) d (rx e)) (rx_head e)
              (rx_tail e + Z.of_nat (length d)) e in
  wf_entry e' /\ rx_bytes e' = rx_bytes e ++ d.
Proof.
  intros Hwe Hd Hb. cbv zeta.
  pose proof (wf_cursors _ Hwe) as [Hc1 Hc2]. pose proof (wf_rx_len _ Hwe) as Hlen.
  split.
  { apply wf_set_rx; [done|by rewrite length_inserts| |lia|lia].
    apply Forall_inserts; [apply Hwe|done]. }
  unfold rx_bytes. cbn [rx rx_head rx_tail set_rx].
  replace (Z.to_nat (rx_tail e + Z.of_nat (length d) - rx_head e))
    with (Z.to_nat (rx_tail e - rx_head e) + length d)%nat by lia.
  rewrite block_app_split. consts. f_equal.
  - apply block_inserts_disj; lia.
  - replace (Z.to_nat (rx_head e) + Z.to_nat (rx_tail e - rx_head e))%nat
      with (Z.to_nat (rx_tail e)) by lia.
    apply block_inserts_same. lia.
Qed.

(** Advancing the head consumes. *)
Lemma rx_consume e n :
  wf_entry e -> 0 <= n <= rx_tail e - rx_head e ->
  let h := rx_head e + n in
  let e' := if h =? rx_tail e then set_rx (rx e) 0 0 e
            else set_rx (rx e) h (rx_tail e) e in
  wf_entry e' /\ abs_entry e' = a_set_rx (drop (Z.to_nat n) (rx_bytes e)) (abs_entry e) /\
  block (Z.to_nat (rx_head e)) (Z.to_nat n) (rx e) = take (Z.to_nat n) (rx_bytes e).
Proof.
  intros Hwe Hn. cbv zeta.
  pose proof (wf_cursors _ Hwe) as [Hc1 Hc2]. pose proof (wf_rx_len _ Hwe) as Hlen.
  assert (Hdrop : drop (Z.to_nat n) (rx_bytes e) =
    block (Z.to_nat (rx_head e + n)) (Z.to_nat (rx_tail e - (rx_head e + n))) (rx e)).
  { unfold rx_bytes. rewrite block_drop by lia. f_equal; lia. }
  assert (Htake : block (Z.to_nat (rx_head e)) (Z.to_nat n) (rx e) =
    take (Z.to_nat n) (rx_bytes e)) by (unfold rx_bytes; rewrite block_take by lia; done).
  destruct (Z.eqb_spec (rx_head e + n) (rx_tail e)) as [Heq|Hne].
  - split; [apply wf_set_rx; [done|done|apply Hwe|lia|consts; lia]|]. split; [|done].
    rewrite Hdrop. unfold abs_entry, a_set_rx. cbn. f_equal.
    unfold rx_bytes. cbn [rx rx_head rx_tail set_rx]. by rewrite Heq, !Z.sub_diag.
  - split; [apply wf_set_rx; [done|done|apply Hwe|lia|consts; lia]|]. split; [|done].
    rewrite Hdrop. done.
Qed.

(** The C idiom [a < b ? a : b]. *)
Lemma if_min a b : Z.min a b = if a <? b then a else b.
Proof. destruct (Z.ltb_spec a b); lia. Qed.

(** *** send *)

(** The data path of a send: copy behind the tail of the peer's buffer. *)
Lemma send_copy t r peer pe n :
  wf t -> wf_req r -> lookupZ t peer = Some pe ->
  0 <= n <= 1024 -> rx_tail pe + n <= RXBUF_SIZE ->
  exists r' t',
    (buf ← liftO (memcpy (rx pe) (rx_tail pe) (send_data r) 0 n);
     tail ← ckd (rx_tail pe + n);
     modify peer (fun e => set_rx buf (rx_head e) tail e);;
     mret (set_err NETSTACK_OK (set_send_len_out n r))) t = Some (r', t') /\
    wf t' /\ wf_req r' /\ op r' = op r /\ msg r' = msg r /\
    err r' = NETSTACK_OK /\ send_len_out r' = n /\
    abs t' = upd (abs t) peer
      (a_set_rx (rx_bytes pe ++ take (Z.to_nat n) (send_data r)) (abs_entry pe)).
Proof.
  intros Hw Hr Hp Hn Ht. pose proof (length_send_data r Hr) as Hsd.
  assert (Hsb : Forall is_u8 (send_data r)) by (apply Forall_block, Hr).
  pose proof (lookupZ_wf _ _ _ Hw Hp) as Hwp.
  pose proof (wf_cursors _ Hwp) as [Hc1 Hc2]. pose proof (wf_rx_len _ Hwp) as Hlen.
  assert (Hmc : memcpy (rx pe) (rx_tail pe) (send_data r) 0 n =
    Some (list_inserts (Z.to_nat (rx_tail pe)) (take (Z.to_nat n) (send_data r)) (rx pe))).
  { rewrite memcpy_run by (consts; lia). done. }
  step (liftO_run _ _ t Hmc).
  rewrite (bind_some _ _ _ _ _ (ckd_run (rx_tail pe + n) _ ltac:(consts; word))).
  rewrite (bind_some _ _ _ _ _ (modify_run _ _ _ _ Hp)).
  assert (Hdl : Z.of_nat (length (take (Z.to_nat n) (send_data r))) = n)
    by (rewrite length_take; lia).
  destruct (rx_append pe (take (Z.to_nat n) (send_data r)) Hwp) as [Hwe' Hrx'];
    [consts; lia|by apply Forall_take|]. rewrite Hdl in Hwe', Hrx'.
  eexists _, _. split; [reflexivity|]. split; [by apply wf_insert|].
  split; [eauto 8 with words|]. do 3 (split; [done|]).
  split; [req_simpl; apply s32_id; word|].
  rewrite abs_upd. f_equal. unfold abs_entry at 1. rewrite Hrx'. done.
Qed.

Lemma send_refines t r :
  wf t -> wf_req r ->
  refines (OpSend (send_sock r) (send_len_in r) (send_data r))
    (fdtable_dispatch_send r t) t r.
Proof.
  intros Hw Hr. unfold fdtable_dispatch_send. cbv zeta. rewrite guard_fd by done.
  set (fd := send_sock r) in *. set (len := send_len_in r) in *.
  assert (Hs : forall x, spec_send fd len (send_data r) (abs t) = x ->
    spec_step (OpSend fd len (send_data r)) (abs t) = x) by done.
  unfold spec_send in Hs.
  destruct (live (abs t) fd) as [s|] eqn:Hl; [|by fail_with; apply Hs].
  pose proof (live_Some _ _ _ Hl) as (e & He & -> & Hfd & _). rewrite He.
  rewrite abs_is_kind in Hs. cbn [apeer abs_entry] in Hs.
  destruct (is_kind FD_SOCKET_CONNECTED e) eqn:Hk; cbn [negb orb] in *; [|by fail_with; apply Hs].
  destruct (live (abs t) (peer_fd e)) as [p|] eqn:Hlp; cycle 1.
  { destruct (peer_fd e <? 0); [by fail_with; apply Hs|].
    step (fd_valid_false t _ Hw Hlp). by fail_with; apply Hs. }
  pose proof (live_Some _ _ _ Hlp) as (pe & Hp & -> & Hpfd & _).
  destruct (Z.ltb_spec (peer_fd e) 0); [consts; lia|].
  step (fd_valid_true t _ _ Hw Hlp). cbn [negb].
  destruct (Z.ltb_spec len 0), (Z.ltb_spec NETSTACK_MAX_PAYLOAD len); cbn [orb] in *;
    try (by fail_with; apply Hs).
  destruct (rx_compact_run t _ pe Hw Hp) as (pe1 & Hrc & Hwp & Hap & Hh & Ht).
  step Hrc. set (t1 := <[Z.to_nat (peer_fd e):=pe1]> t).
  assert (Hp1 : lookupZ t1 (peer_fd e) = Some pe1) by (by eapply lookupZ_insert_eq).
  assert (Hw1 : wf t1) by (by apply wf_insert).
  step (entry_run _ _ _ Hp1). pose proof (wf_cursors _ Hwp) as [Hc1 Hc2].
  rewrite (bind_some _ _ _ _ _ (ckd_run (RXBUF_SIZE - rx_tail pe1) _ ltac:(consts; word))).
  cbn [arx abs_entry] in Hs. rewrite <- Ht in Hs.
  assert (Ha1 : abs t1 = abs t).
  { unfold t1. rewrite abs_insert, Hap. apply list_insert_id. by apply lookupZ_abs. }
  destruct (Z.leb_spec (RXBUF_SIZE - rx_tail pe1) 0).
  { apply refines_ok; [done|by eauto 8 with words|done..|]. rewrite Ha1. by apply Hs. }
  rewrite <- if_min.
  destruct (send_copy t1 r (peer_fd e) pe1 (Z.min len (RXBUF_SIZE - rx_tail pe1)))
    as (r' & t' & Hrun & Hw' & Hr' & Hop & Hm & He' & Hn' & Ha'); [done..|consts; lia|lia|].
  exists r', t'. do 5 (split; [done|]). apply Hs. f_equal.
  - unfold decode_res. by rewrite He', Hn'.
  - rewrite Ha', Ha1, Hap. do 3 f_equal.
    change (rx_bytes pe) with (arx (abs_entry pe)). by rewrite <- Hap.
Qed.

(** *** recv *)

(** The data path of a receive: copy from the head and consume. *)
Lemma recv_copy t r fd e n :
  wf t -> wf_req r -> lookupZ t fd = Some e ->
  0 <= n <= 1024 -> n <= rx_tail e - rx_head e ->
  exists r' t',
    (data ← liftO (memcpy (recv_data r) 0 (rx e) (rx_head e) n);
     head ← ckd (rx_head e + n);
     modify fd (fun e => if head =? rx_tail e then set_rx (rx e) 0 0 e
                         else set_rx (rx e) head (rx_tail e) e);;
     mret (set_err NETSTACK_OK (set_recv_len_out n (set_recv_data data r)))) t
      = Some (r', t') /\
    wf t' /\ wf_req r' /\ op r' = op r /\ msg r' = msg r /\
    err r' = NETSTACK_OK /\ recv_len_out r' = n /\
    take (Z.to_nat n) (recv_data r') = take (Z.to_nat n) (rx_bytes e) /\
    abs t' = upd (abs t) fd (a_set_rx (drop (Z.to_nat n) (rx_bytes e)) (abs_entry e)).
Proof.
  intros Hw Hr He Hn Hav.
  assert (Hsd : length (recv_data r) = 1024%nat) by (apply length_send_data; done).
  pose proof (lookupZ_wf _ _ _ Hw He) as Hwe.
  pose proof (wf_cursors _ Hwe) as [Hc1 Hc2]. pose proof (wf_rx_len _ Hwe) as Hlen.
  set (bs := block (Z.to_nat (rx_head e)) (Z.to_nat n) (rx e)).
  assert (Hmc : memcpy (recv_data r) 0 (rx e) (rx_head e) n =
    Some (list_inserts 0 bs (recv_data r))) by (rewrite memcpy_run by (consts; lia); done).
  step (liftO_run _ _ t Hmc).
  rewrite (bind_some _ _ _ _ _ (ckd_run (rx_head e + n) _ ltac:(consts; word))).
  rewrite (bind_some _ _ _ _ _ (modify_run _ _ _ _ He)).
  destruct (rx_consume e n Hwe) as (Hwe' & Hae' & Hblk); [lia|]. cbv zeta in Hwe', Hae'.
  assert (Hbl : length bs = Z.to_nat n) by (apply length_block; consts; lia).
  eexists _, _. split; [reflexivity|]. split; [by apply wf_insert|]. split.
  { apply wf_set_err; [|errcodes; word]. apply wf_st_32, wf_store_u; [done|].
    apply Forall_inserts; [apply Forall_block, Hr|apply Forall_block, Hwe]. }
  do 3 (split; [done|]). split; [req_simpl; apply s32_id; word|].
  split; [|by rewrite abs_upd, Hae'].
  rewrite <- Hblk. fold bs. req_simpl.
  rewrite block_store_same; [|by rewrite length_inserts, Hsd|req_side].
  rewrite <- Hbl. change (take (length bs)) with (block (A := Z) 0 (length bs)).
  apply block_inserts_same. rewrite Hbl, Hsd. lia.
Qed.

(** Taking at most [w] bytes from a queue that holds [m]. *)
Lemma take_clamp {A} (l : list A) (m w : Z) :
  0 <= w -> Z.of_nat (length l) = m ->
  take (Z.to_nat w) l = take (Z.to_nat (Z.min m w)) l /\
  drop (Z.to_nat w) l = drop (Z.to_nat (Z.min m w)) l.
Proof.
  intros Hw Hm. destruct (decide (w <= m)).
  - by rewrite Z.min_r by lia.
  - rewrite Z.min_l by lia. rewrite !take_ge, !drop_ge by lia. done.
Qed.

Lemma recv_refines t r :
  wf t -> wf_req r ->
  refines (OpRecv (recv_sock r) (recv_len_in r)) (fdtable_dispatch_recv r t) t r.
Proof.
  intros Hw Hr. unfold fdtable_dispatch_recv. cbv zeta. rewrite guard_fd by done.
  set (fd := recv_sock r) in *. set (want := recv_len_in r) in *.
  assert (Hs : forall x, spec_recv fd want (abs t) = x ->
    spec_step (OpRecv fd want) (abs t) = x) by done.
  unfold spec_recv in Hs.
  destruct (live (abs t) fd) as [s|] eqn:Hl; [|by fail_with; apply Hs].
  pose proof (live_Some _ _ _ Hl) as (e & He & -> & Hfd & _). rewrite He.
  pose proof (lookupZ_wf _ _ _ Hw He) as Hwe.
  rewrite abs_is_kind in Hs. cbn [apeer arx abs_entry] in Hs.
  destruct (is_kind FD_SOCKET_CONNECTED e) eqn:Hk; cbn [negb] in *; [|by fail_with; apply Hs].
  pose proof (wf_cursors _ Hwe) as [Hc1 Hc2].
  rewrite (bind_some _ _ _ _ _ (ckd_run (rx_tail e - rx_head e) _ ltac:(consts; word))).
  pose proof (length_rx_bytes e Hwe) as Hrl.
  destruct (Z.leb_spec (rx_tail e - rx_head e) 0) as [Hav|Hav].
  { assert (Hnil : rx_bytes e = []) by (apply nil_length_inv; lia). rewrite Hnil in Hs.
    destruct (live (abs t) (peer_fd e)) as [p|] eqn:Hlp.
    - pose proof (live_Some _ _ _ Hlp) as (pe & _ & _ & Hpfd & _).
      destruct (Z.ltb_spec (peer_fd e) 0); [consts; lia|].
      rewrite (bind_some _ _ t false t) by (by step (fd_valid_true t _ _ Hw Hlp)).
      by fail_with; apply Hs.
    - rewrite (bind_some _ _ t true t)
        by (destruct (peer_fd e <? 0); [done|]; by step (fd_valid_false t _ Hw Hlp)).
      succeed; [done|]. decode_ok. by apply Hs. }
  set (w := if NETSTACK_MAX_PAYLOAD <? (if want <? 0 then 0 else want)
            then NETSTACK_MAX_PAYLOAD else (if want <? 0 then 0 else want)).
  assert (Hwv : w = Z.min (Z.max want 0) NETSTACK_MAX_PAYLOAD).
  { unfold w. destruct (Z.ltb_spec want 0); [by rewrite Z.max_r by lia|].
    rewrite Z.max_l by lia. destruct (Z.ltb_spec NETSTACK_MAX_PAYLOAD want); lia. }
  rewrite <- if_min.
  destruct (recv_copy t r fd e (Z.min (rx_tail e - rx_head e) w))
    as (r' & t' & Hrun & Hw' & Hr' & Hop & Hm & He' & Hn' & Hd' & Ha');
    [done..|consts; lia|lia|].
  exists r', t'. do 5 (split; [done|]). apply Hs. rewrite <- Hwv.
  destruct (take_clamp (rx_bytes e) (rx_tail e - rx_head e) w) as [Ht1 Ht2];
    [consts; lia|rewrite Hrl; lia|].
  destruct (rx_bytes e) as [|b bs'] eqn:Hrx; [cbn in Hrl; lia|].
  rewrite Ha', Ht1, Ht2. f_equal.
  unfold decode_res. rewrite He', Hn'. cbv zeta. cbn [negb Z.eqb NETSTACK_OK].
  rewrite (proj2 (Z.leb_le _ _)) by (consts; lia).
  rewrite (proj2 (Z.leb_le _ _)) by (consts; lia). cbn [andb]. by rewrite Hd'.
Qed.
