(* ===== verification/FdLinks.v ===== *)
(** * Connections in the socket table

    What the specification of FdSpec.v guarantees about the links between
    sockets: which descriptors wait in a backlog, which are paired, and
    which bytes they exchange.  [linked] is the invariant: pending clients
    are connected sockets without a peer, queued once; peers point at each
    other; sockets that are not connected hold no data.  Every operation
    preserves it except the close of a socket that still waits in a
    backlog, for which the invariant fails (see [stale_backlog] in
    FdFindings.v). *)

From S2P Require Import Prelude Ipc FdTable FdSpec FdRefine.

Definition slot (a : atable) (fd : Z) : option asock :=
  if (FD_FIRST <=? fd) && (fd <? FDTABLE_MAX) then a !! Z.to_nat fd else None.

Record linked (a : atable) : Prop := {
  lk_len : length a = 128%nat;
  lk_noqueue : forall i s, slot a i = Some s -> akind s <> FD_SOCKET_LISTEN -> aqueue s = [];
  lk_pending : forall i s c, slot a i = Some s -> c ∈ aqueue s ->
    exists sc, slot a c = Some sc /\ akind sc = FD_SOCKET_CONNECTED /\ apeer sc = -1;
  lk_nodup : forall i s, slot a i = Some s -> NoDup (aqueue s);
  lk_disj : forall i j s s' c, slot a i = Some s -> slot a j = Some s' ->
    c ∈ aqueue s -> c ∈ aqueue s' -> i = j;
  lk_sym : forall i s, slot a i = Some s -> akind s = FD_SOCKET_CONNECTED ->
    apeer s <> -1 ->
    apeer s <> i /\ exists p, slot a (apeer s) = Some p /\
      akind p = FD_SOCKET_CONNECTED /\ apeer p = i;
  lk_idle : forall i s, slot a i = Some s -> akind s <> FD_SOCKET_CONNECTED -> arx s = []
}.

(** [c] waits in the backlog of some listener. *)
Definition is_pending (a : atable) (c : Z) : Prop :=
  exists i s, slot a i = Some s /\ c ∈ aqueue s.

Lemma slot_fd a fd s : slot a fd = Some s -> is_fd fd.
Proof.
  unfold slot, is_fd. destruct (Z.leb_spec FD_FIRST fd), (Z.ltb_spec fd FDTABLE_MAX);
    cbn [andb]; try done.
Qed.

Lemma slot_exists_a a fd : length a = 128%nat -> is_fd fd -> exists s, slot a fd = Some s.
Proof.
  intros Hl [? ?]. unfold slot.
  destruct (Z.leb_spec FD_FIRST fd), (Z.ltb_spec fd FDTABLE_MAX); try lia. cbn [andb].
  apply lookup_lt_is_Some_2. consts. lia.
Qed.

Lemma slot_lookup a fd : is_fd fd -> slot a fd = a !! Z.to_nat fd.
Proof.
  intros [? ?]. unfold slot.
  destruct (Z.leb_spec FD_FIRST fd), (Z.ltb_spec fd FDTABLE_MAX); try lia. done.
Qed.

Lemma length_upd a fd s : length (upd a fd s) = length a.
Proof. apply length_insert. Qed.

Lemma slot_upd a fd s i :
  length a = 128%nat -> is_fd fd ->
  slot (upd a fd s) i = if decide (fd = i) then Some s else slot a i.
Proof.
  intros Hl Hfd. case_decide as Heq.
  - subst i. rewrite slot_lookup by done. unfold upd. apply list_lookup_insert_eq.
    consts. lia.
  - unfold slot. destruct (_ && _) eqn:Hb; [|done]. unfold upd.
    apply list_lookup_insert_ne. apply andb_true_iff in Hb as [Hb _].
    apply Z.leb_le in Hb. consts. lia.
Qed.

Lemma live_slot a fd s :
  live a fd = Some s <-> slot a fd = Some s /\ akind s <> FD_FREE.
Proof.
  unfold live, slot. destruct (_ && _); [|naive_solver].
  destruct (a !! Z.to_nat fd) as [s'|]; cbn; [|naive_solver].
  unfold a_is_kind. case_bool_decide; naive_solver.
Qed.

Lemma live_fd a fd s : live a fd = Some s -> is_fd fd.
Proof. intros [Hs _]%live_slot. by eapply slot_fd. Qed.

Lemma free_slot_slot a fd :
  length a = 128%nat -> free_slot a = Some fd ->
  is_fd fd /\ exists s, slot a fd = Some s /\ akind s = FD_FREE.
Proof.
  intros Hl Hf. apply first_fd_Some in Hf as (Hfd & s & Hs & Hk); [|done].
  split; [done|]. exists s. rewrite slot_lookup by done. split; [done|].
  by apply bool_decide_eq_true in Hk.
Qed.

Lemma listener_on_slot a port fd :
  length a = 128%nat -> listener_on port a = Some fd ->
  is_fd fd /\ exists s, slot a fd = Some s /\ a !!! Z.to_nat fd = s /\
    akind s = FD_SOCKET_LISTEN /\ aport s = port.
Proof.
  intros Hl Hf. apply first_fd_Some in Hf as (Hfd & s & Hs & Hk); [|done].
  split; [done|]. exists s. rewrite slot_lookup by done. split; [done|].
  apply andb_true_iff in Hk as [Hk Hp]. apply bool_decide_eq_true in Hk.
  apply Z.eqb_eq in Hp. split; [by apply list_lookup_total_correct|done].
Qed.

(** Read a slot of an updated table: split on which slot it is. *)
Ltac slot_in H := repeat (rewrite slot_upd in H by (rewrite ?length_upd; done));
  repeat match type of H with context [decide ?P] => destruct (decide P) end;
  simplify_eq.
(** The same in the goal, when the slots are known to differ or to agree. *)
Ltac slot_goal := repeat (rewrite slot_upd by (rewrite ?length_upd; done));
  repeat first [rewrite decide_True by done | rewrite decide_False by done].

Create HintDb links.

(** ** The empty table *)

Lemma slot_init fd s : slot (abs g_fdtable_init) fd = Some s -> s = abs_entry zero_entry.
Proof.
  unfold slot. destruct (_ && _); [|done]. unfold g_fdtable_init, abs.
  rewrite fmap_replicate. by intros [-> _]%lookup_replicate.
Qed.

Lemma linked_init : linked (abs g_fdtable_init).
Proof.
  split; intros; repeat match goal with
    | H : slot (abs g_fdtable_init) _ = Some _ |- _ => apply slot_init in H; subst
    end; try done; try (by cbn in *; constructor);
    match goal with H : _ ∈ aqueue _ |- _ => by apply not_elem_of_nil in H end.
Qed.

(** ** Every operation keeps the links *)

(** Replacing a socket nobody refers to by one with no links. *)
Lemma linked_replace a fd s0 s :
  linked a -> slot a fd = Some s0 -> ~ is_pending a fd ->
  (akind s0 = FD_SOCKET_CONNECTED -> apeer s0 = -1) ->
  aqueue s = [] ->
  (akind s = FD_SOCKET_CONNECTED -> apeer s = -1) ->
  (akind s <> FD_SOCKET_CONNECTED -> arx s = []) ->
  linked (upd a fd s).
Proof.
  intros [Hl H1 H2 H3 H4 H5 H6] Hs Hnp Hp0 Hq Hp Hr.
  pose proof (slot_fd _ _ _ Hs) as Hfd.
  split; [by rewrite length_upd|..].
  - intros i x Hx. slot_in Hx; eauto.
  - intros i x c Hx Hc. slot_in Hx; [rewrite Hq in Hc; by apply not_elem_of_nil in Hc|].
    destruct (decide (fd = c)) as [->|]; [exfalso; apply Hnp; by exists i, x|].
    destruct (H2 _ _ _ Hx Hc) as (sc & Hsc). exists sc. by slot_goal.
  - intros i x Hx. slot_in Hx; [rewrite Hq; constructor|eauto].
  - intros i j x y c Hx Hy Hcx Hcy. slot_in Hx; slot_in Hy; rewrite ?Hq in *;
      try (by apply not_elem_of_nil in Hcx); try (by apply not_elem_of_nil in Hcy).
    by eapply H4.
  - intros i x Hx Hk Hne. slot_in Hx; [by rewrite Hp in Hne|].
    destruct (H5 _ _ Hx Hk Hne) as (Hi & p & Hps & Hpk & Hpp). split; [done|].
    destruct (decide (fd = apeer x)) as [->|]; [|exists p; by slot_goal].
    exfalso. rewrite Hps in Hs. simplify_eq. rewrite Hp0 in * by done.
    apply slot_fd in Hx. consts. lia.
  - intros i x Hx Hk. slot_in Hx; eauto.
Qed.

(** Replacing a socket by one with the same links. *)
Lemma linked_same a fd s0 s :
  linked a -> slot a fd = Some s0 -> akind s = akind s0 -> aqueue s = aqueue s0 ->
  apeer s = apeer s0 -> (akind s <> FD_SOCKET_CONNECTED -> arx s = []) ->
  linked (upd a fd s).
Proof.
  intros [Hl H1 H2 H3 H4 H5 H6] Hs Hk Hq Hp Hr.
  pose proof (slot_fd _ _ _ Hs) as Hfd.
  assert (Hget : forall i x, slot (upd a fd s) i = Some x -> exists y, slot a i = Some y /\
    akind x = akind y /\ aqueue x = aqueue y /\ apeer x = apeer y).
  { intros i x Hx. slot_in Hx; eauto. }
  assert (Hput : forall i y, slot a i = Some y -> exists x, slot (upd a fd s) i = Some x /\
    akind x = akind y /\ aqueue x = aqueue y /\ apeer x = apeer y).
  { intros i y Hy. destruct (decide (fd = i)) as [->|].
    - exists s. slot_goal. simplify_eq. done.
    - exists y. slot_goal. done. }
  split; [by rewrite length_upd|..].
  - intros i x (y & Hy & Hyk & Hyq & Hyp)%Hget. rewrite Hyk, Hyq. eauto.
  - intros i x c (y & Hy & Hyk & Hyq & Hyp)%Hget Hc. rewrite Hyq in Hc.
    destruct (H2 _ _ _ Hy Hc) as (sc & Hsc & Hsk & Hsp).
    destruct (Hput _ _ Hsc) as (sc' & ? & ? & ? & ?). exists sc'. split; [done|].
    split; congruence.
  - intros i x (y & Hy & Hyk & Hyq & Hyp)%Hget. rewrite Hyq. eauto.
  - intros i j x x' c (y & Hy & Hyk & Hyq & Hyp)%Hget (y' & Hy' & Hyk' & Hyq' & Hyp')%Hget.
    rewrite Hyq, Hyq'. eauto.
  - intros i x (y & Hy & Hyk & Hyq & Hyp)%Hget. rewrite Hyk, Hyp. intros Hc Hne.
    destruct (H5 _ _ Hy Hc Hne) as (Hi & p & Hps & Hpk & Hpp).
    destruct (Hput _ _ Hps) as (p' & ? & ? & ? & ?). split; [done|].
    exists p'. split; [done|]. split; congruence.
  - intros i x Hx Hxk. slot_in Hx; eauto.
Qed.

(** A client joins a backlog. *)
Lemma linked_enqueue a lfd l fd s :
  linked a -> slot a lfd = Some l -> akind l = FD_SOCKET_LISTEN ->
  slot a fd = Some s -> akind s = FD_SOCKET_CONNECTED -> apeer s = -1 ->
  ~ is_pending a fd ->
  linked (upd a lfd (a_set_queue (aqueue l ++ [fd]) l)).
Proof.
  intros [Hl H1 H2 H3 H4 H5 H6] Hls Hlk Hs Hk Hp Hnp.
  pose proof (slot_fd _ _ _ Hls) as Hlfd.
  assert (Hne : lfd <> fd) by (intros ->; congruence).
  assert (Hq : forall c, c ∈ aqueue l ++ [fd] -> c ∈ aqueue l \/ c = fd) by set_solver.
  assert (Hkeep : forall c sc, slot a c = Some sc -> akind sc = FD_SOCKET_CONNECTED ->
    slot (upd a lfd (a_set_queue (aqueue l ++ [fd]) l)) c = Some sc).
  { intros c sc Hc Hck. rewrite slot_upd by done. rewrite decide_False; [done|]. congruence. }
  split; [by rewrite length_upd|..].
  - intros i x Hx. slot_in Hx; [|eauto]. cbn. congruence.
  - intros i x c Hx Hc. slot_in Hx.
    + apply Hq in Hc as [Hc| ->]; [|eauto 6].
      destruct (H2 _ _ _ Hls Hc) as (sc & ? & ? & ?). eauto 6.
    + destruct (H2 _ _ _ Hx Hc) as (sc & ? & ? & ?). eauto 6.
  - intros i x Hx. slot_in Hx; [|eauto]. cbn. apply NoDup_app.
    split; [eauto|]. split; [|by apply NoDup_singleton].
    intros c Hc ->%list_elem_of_singleton. apply Hnp. by exists i, l.
  - intros i j x y c Hx Hy Hcx Hcy. slot_in Hx; slot_in Hy; try done; cbn in *.
    + apply Hq in Hcx as [Hcx| ->]; [by eapply (H4 _ _ _ _ c Hls Hy)|].
      exfalso. apply Hnp. by exists j, y.
    + apply Hq in Hcy as [Hcy| ->]; [by eapply (H4 _ _ _ _ c Hx Hls)|].
      exfalso. apply Hnp. by exists i, x.
    + by eapply H4.
  - intros i x Hx Hxk Hxp. slot_in Hx; [cbn in Hxk; congruence|].
    destruct (H5 _ _ Hx Hxk Hxp) as (? & p & ? & ? & ?). eauto 8.
  - intros i x Hx Hxk. slot_in Hx; [cbn|]; eauto.
Qed.

(** The first client leaves a backlog. *)
Lemma linked_dequeue a lfd l c q :
  linked a -> slot a lfd = Some l -> aqueue l = c :: q ->
  linked (upd a lfd (a_set_queue q l)) /\
  ~ is_pending (upd a lfd (a_set_queue q l)) c /\ lfd <> c /\
  exists sc, slot a c = Some sc /\ akind sc = FD_SOCKET_CONNECTED /\ apeer sc = -1.
Proof.
  intros [Hl H1 H2 H3 H4 H5 H6] Hls Hq. pose proof (slot_fd _ _ _ Hls) as Hlfd.
  assert (Hlk : akind l = FD_SOCKET_LISTEN).
  { destruct (decide (akind l = FD_SOCKET_LISTEN)) as [|Hn]; [done|].
    rewrite (H1 _ _ Hls Hn) in Hq. done. }
  destruct (H2 _ _ c Hls ltac:(rewrite Hq; set_solver)) as (sc & Hsc & Hsk & Hsp).
  pose proof (H3 _ _ Hls) as Hnd. rewrite Hq in Hnd. apply NoDup_cons in Hnd as [Hcq Hnd].
  assert (Hsub : forall x, x ∈ q -> x ∈ aqueue l) by (rewrite Hq; set_solver).
  assert (Hkeep : forall d sd, slot a d = Some sd -> akind sd = FD_SOCKET_CONNECTED ->
    slot (upd a lfd (a_set_queue q l)) d = Some sd).
  { intros d sd Hd Hdk. rewrite slot_upd by done. rewrite decide_False; [done|]. congruence. }
  split; [split; [by rewrite length_upd|..]|split; [|split; [congruence|by exists sc]]].
  - intros i x Hx. slot_in Hx; [|eauto]. cbn. congruence.
  - intros i x d Hx Hd. slot_in Hx.
    + destruct (H2 _ _ d Hls) as (sd & ? & ? & ?); [by apply Hsub|]. eauto 6.
    + destruct (H2 _ _ d Hx Hd) as (sd & ? & ? & ?). eauto 6.
  - intros i x Hx. slot_in Hx; eauto.
  - intros i j x y d Hx Hy Hdx Hdy. slot_in Hx; slot_in Hy; try done; cbn in *; eauto.
  - intros i x Hx Hxk Hxp. slot_in Hx; [cbn in Hxk; congruence|].
    destruct (H5 _ _ Hx Hxk Hxp) as (? & p & ? & ? & ?). eauto 8.
  - intros i x Hx Hxk. slot_in Hx; [cbn|]; eauto.
  - intros (i & x & Hx & Hc). slot_in Hx; [done|].
    assert (i = lfd); [|done]. eapply (H4 _ _ _ _ c Hx Hls Hc). rewrite Hq. set_solver.
Qed.

(** A fresh socket is paired with a connected client that has no peer. *)
Lemma linked_pair a c sc nfd s0 sn :
  linked a -> slot a c = Some sc -> akind sc = FD_SOCKET_CONNECTED -> apeer sc = -1 ->
  ~ is_pending a c -> slot a nfd = Some s0 -> akind s0 = FD_FREE ->
  akind sn = FD_SOCKET_CONNECTED -> aqueue sn = [] -> apeer sn = c ->
  linked (upd (upd a nfd sn) c (a_set_peer nfd sc)).
Proof.
  intros [Hl H1 H2 H3 H4 H5 H6] Hc Hck Hcp Hnp Hn Hnk Hsk Hsq Hsp.
  pose proof (slot_fd _ _ _ Hn) as Hnfd. pose proof (slot_fd _ _ _ Hc) as Hcfd.
  assert (Hne : nfd <> c) by (intros ->; congruence).
  assert (Hcq : aqueue sc = []) by (apply (H1 _ _ Hc); congruence).
  assert (Hkeep : forall d sd, slot a d = Some sd -> akind sd = FD_SOCKET_CONNECTED ->
    d <> c -> slot (upd (upd a nfd sn) c (a_set_peer nfd sc)) d = Some sd).
  { intros d sd Hd Hdk Hdc. rewrite !slot_upd by (rewrite ?length_upd; done).
    rewrite !decide_False; [done|congruence|done]. }
  split; [by rewrite !length_upd|..].
  - intros i x Hx Hxk. slot_in Hx; cbn in *; [done|done|eauto].
  - intros i x d Hx Hd. slot_in Hx; cbn in Hd; rewrite ?Hcq, ?Hsq in Hd;
      try (by apply not_elem_of_nil in Hd).
    destruct (H2 _ _ d Hx Hd) as (sd & ? & ? & ?). exists sd. split; [|done].
    apply Hkeep; [done..|]. intros ->. apply Hnp. by exists i, x.
  - intros i x Hx. slot_in Hx; cbn; rewrite ?Hcq, ?Hsq; try constructor. eauto.
  - intros i j x y d Hx Hy Hdx Hdy. slot_in Hx; slot_in Hy; cbn in Hdx, Hdy;
      rewrite ?Hcq, ?Hsq in *;
      try (by apply not_elem_of_nil in Hdx); try (by apply not_elem_of_nil in Hdy).
    by eapply H4.
  - intros i x Hx Hxk Hxp. slot_in Hx.
    + split; [done|]. exists sn. slot_goal. done.
    + split; [done|]. eexists. slot_goal. done.
    + destruct (H5 _ _ Hx Hxk Hxp) as (? & p & Hps & Hpk & Hpp). split; [done|].
      exists p. split; [|done]. apply Hkeep; [done..|]. intros Heq.
      rewrite Heq in Hps. simplify_eq. apply slot_fd in Hx. consts. lia.
  - intros i x Hx Hxk. slot_in Hx; cbn in *; try done; eauto.
Qed.

(** One end of a connection goes away, the other learns it. *)
Lemma linked_unpair a fd s p sp :
  linked a -> slot a fd = Some s -> akind s = FD_SOCKET_CONNECTED -> apeer s = p ->
  slot a p = Some sp -> p <> -1 ->
  linked (upd (upd a p (a_set_peer (-1) sp)) fd afresh).
Proof.
  intros Hlk Hs Hk <- Hps Hp1.
  destruct (lk_sym _ Hlk _ _ Hs Hk Hp1) as (Hpf & sp' & Hsp' & Hpk & Hpp).
  rewrite Hps in Hsp'. injection Hsp' as <-.
  destruct Hlk as [Hl H1 H2 H3 H4 H5 H6].
  set (p := apeer s) in *.
  pose proof (slot_fd _ _ _ Hs) as Hfd. pose proof (slot_fd _ _ _ Hps) as Hpfd.
  assert (Hsq : aqueue s = []) by (apply (H1 _ _ Hs); congruence).
  assert (Hpq : aqueue sp = []) by (apply (H1 _ _ Hps); congruence).
  assert (Hkeep : forall d sd, slot a d = Some sd -> d <> fd -> d <> p ->
    slot (upd (upd a p (a_set_peer (-1) sp)) fd afresh) d = Some sd).
  { intros. rewrite !slot_upd by (rewrite ?length_upd; done). by rewrite !decide_False. }
  split; [by rewrite !length_upd|..].
  - intros i x Hx Hxk. slot_in Hx; cbn in *; [done|done|eauto].
  - intros i x d Hx Hd. slot_in Hx; cbn in Hd; rewrite ?Hpq in Hd;
      try (by apply not_elem_of_nil in Hd).
    destruct (H2 _ _ d Hx Hd) as (sd & Hsd & ? & ?). exists sd. split; [|done].
    apply Hkeep; [done|intros ->; unfold p in *; congruence|].
    intros ->. rewrite Hps in Hsd. injection Hsd as <-. consts. lia.
  - intros i x Hx. slot_in Hx; cbn; rewrite ?Hpq; try constructor. eauto.
  - intros i j x y d Hx Hy Hdx Hdy. slot_in Hx; slot_in Hy; cbn in Hdx, Hdy;
      rewrite ?Hpq in *;
      try (by apply not_elem_of_nil in Hdx); try (by apply not_elem_of_nil in Hdy).
    by eapply H4.
  - intros i x Hx Hxk Hxp. slot_in Hx; cbn in *; try done.
    destruct (H5 _ _ Hx Hxk Hxp) as (? & y & Hys & Hyk & Hyp). split; [done|].
    exists y. split; [|done].
    apply Hkeep; [done|..]; intros Heq; rewrite Heq in Hys; simplify_eq; unfold p in *; congruence.
  - intros i x Hx Hxk. slot_in Hx; cbn in *; try done; eauto.
Qed.

(** The close of a socket that still waits in a backlog. *)
Definition closes_pending (o : sockop) (a : atable) : Prop :=
  exists fd, o = OpClose fd /\ is_pending a fd.

Lemma not_connected_not_pending a fd s :
  linked a -> slot a fd = Some s -> akind s <> FD_SOCKET_CONNECTED -> ~ is_pending a fd.
Proof.
  intros Hlk Hs Hk (i & x & Hx & Hc).
  destruct (lk_pending _ Hlk _ _ _ Hx Hc) as (sc & ? & ? & _). congruence.
Qed.

Lemma a_is_kind_false k s : negb (a_is_kind k s) = false -> akind s = k.
Proof. intros H%negb_false_iff. by apply bool_decide_eq_true in H. Qed.

Lemma a_is_kind_eq k s : a_is_kind k s = true <-> akind s = k.
Proof. apply bool_decide_eq_true. Qed.

Lemma linked_socket a d ty p : linked a -> linked (snd (spec_socket d ty p a)).
Proof.
  intros Hlk. unfold spec_socket. destruct (free_slot a) as [fd|] eqn:Hf; [|done].
  destruct (free_slot_slot a fd (lk_len _ Hlk) Hf) as (Hfd & s & Hs & Hk).
  eapply linked_replace; try done; [|congruence].
  eapply not_connected_not_pending; [done..|]. congruence.
Qed.

Lemma linked_close a fd :
  linked a -> ~ is_pending a fd -> linked (snd (spec_close fd a)).
Proof.
  intros Hlk Hnp. unfold spec_close. destruct (live a fd) as [s|] eqn:Hl; [|done].
  apply live_slot in Hl as [Hs Hk]. cbn [snd]. unfold disconnect.
  destruct (a_is_kind FD_SOCKET_CONNECTED s) eqn:Hc.
  - apply a_is_kind_eq in Hc. destruct (live a (apeer s)) as [p|] eqn:Hp.
    + apply live_slot in Hp as [Hps _]. pose proof (slot_fd _ _ _ Hps).
      eapply linked_unpair; try done. consts. lia.
    + eapply linked_replace; try done. intros _.
      destruct (decide (apeer s = -1)) as [|Hne]; [done|].
      destruct (lk_sym _ Hlk _ _ Hs Hc Hne) as (_ & p & Hps & Hpk & _).
      assert (live a (apeer s) = Some p); [|congruence].
      apply live_slot. split; [done|]. congruence.
  - assert (akind s <> FD_SOCKET_CONNECTED) by (intros ?%a_is_kind_eq; congruence).
    eapply linked_replace; done.
Qed.

Lemma linked_bind a fd port : linked a -> linked (snd (spec_bind fd port a)).
Proof.
  intros Hlk. unfold spec_bind. destruct (live a fd) as [s|] eqn:Hl; [|done].
  apply live_slot in Hl as [Hs Hk].
  destruct (negb _) eqn:Hu; [done|]. apply a_is_kind_false in Hu.
  destruct (port_taken _ _); [done|]. cbn [snd].
  eapply linked_same; try done. cbn. intros. by eapply lk_idle.
Qed.

Lemma linked_listen a fd : linked a -> linked (snd (spec_listen fd a)).
Proof.
  intros Hlk. unfold spec_listen. destruct (live a fd) as [s|] eqn:Hl; [|done].
  apply live_slot in Hl as [Hs Hk].
  destruct (negb _) eqn:Hu; [done|]. apply a_is_kind_false in Hu.
  destruct (aport s =? 0); [done|]. cbn [orb snd].
  eapply linked_replace; try done; [|congruence|].
  - eapply not_connected_not_pending; [done..|]. congruence.
  - cbn. intros _. eapply lk_idle; [done..|]. congruence.
Qed.

Lemma linked_connect a fd port : linked a -> linked (snd (spec_connect fd port a)).
Proof.
  intros Hlk. unfold spec_connect. destruct (live a fd) as [s|] eqn:Hl; [|done].
  apply live_slot in Hl as [Hs Hk].
  destruct (negb _) eqn:Hu; [done|]. apply a_is_kind_false in Hu.
  destruct (listener_on port a) as [lfd|] eqn:Hf; [|done].
  destruct (listener_on_slot a port lfd (lk_len _ Hlk) Hf) as (Hlfd & l & Hls & -> & Hlk' & _).
  cbv zeta. destruct (_ <=? _); [done|]. cbn [snd].
  assert (Hne : fd <> lfd) by (intros ->; congruence).
  assert (Hnp : ~ is_pending a fd).
  { eapply not_connected_not_pending; [done..|]. congruence. }
  assert (Hsq : aqueue s = []) by (eapply lk_noqueue; [done..|congruence]).
  pose proof (slot_fd _ _ _ Hs) as Hfd. pose proof (lk_len _ Hlk) as Hlen.
  set (s1 := mk_asock _ _ _ _ _ _ _).
  assert (Hlk1 : linked (upd a fd s1)).
  { eapply linked_replace; try done. congruence. }
  eapply (linked_enqueue (upd a fd s1) lfd l fd s1); try done.
  - by slot_goal.
  - by slot_goal.
  - intros (i & x & Hx & Hc). slot_in Hx.
    + cbn in Hc. rewrite Hsq in Hc. by apply not_elem_of_nil in Hc.
    + apply Hnp. by exists i, x.
Qed.

Lemma linked_accept a fd : linked a -> linked (snd (spec_accept fd a)).
Proof.
  intros Hlk. unfold spec_accept. destruct (live a fd) as [l|] eqn:Hl; [|done].
  apply live_slot in Hl as [Hs Hk].
  destruct (negb _) eqn:Hu; [done|]. apply a_is_kind_false in Hu.
  destruct (aqueue l) as [|c q] eqn:Hq; [done|].
  destruct (free_slot a) as [nfd|] eqn:Hf; [|done]. cbv zeta. cbn [snd].
  destruct (free_slot_slot a nfd (lk_len _ Hlk) Hf) as (Hnfd & s0 & Hs0 & Hk0).
  destruct (linked_dequeue a fd l c q Hlk Hs Hq) as (Hlk1 & Hnp & Hne & sc & Hsc & Hsk & Hsp).
  pose proof (slot_fd _ _ _ Hs) as Hfd. pose proof (slot_fd _ _ _ Hsc) as Hcfd.
  pose proof (lk_len _ Hlk) as Hlen.
  assert (Hnf : fd <> nfd) by (intros ->; congruence).
  assert (Hnc : nfd <> c) by (intros ->; congruence).
  set (sn := mk_asock _ _ _ _ c 0 []).
  assert (Hc1 : upd (upd a fd (a_set_queue q l)) nfd sn !!! Z.to_nat c = sc).
  { apply list_lookup_total_correct. rewrite <- slot_lookup by done. by slot_goal. }
  rewrite Hc1. eapply (linked_pair _ c sc nfd s0 sn Hlk1); try done; slot_goal; done.
Qed.

Lemma linked_send a fd len data : linked a -> linked (snd (spec_send fd len data a)).
Proof.
  intros Hlk. unfold spec_send. destruct (live a fd) as [s|] eqn:Hl; [|done].
  apply live_slot in Hl as [Hs Hk].
  destruct (negb _) eqn:Hu; [done|]. apply a_is_kind_false in Hu.
  destruct (live a (apeer s)) as [p|] eqn:Hp; [|done].
  apply live_slot in Hp as [Hps _]. pose proof (slot_fd _ _ _ Hps).
  destruct (_ || _); [done|]. cbv zeta. destruct (_ <=? _); [done|]. cbn [snd].
  eapply linked_same; try done. cbn.
  destruct (lk_sym _ Hlk _ _ Hs Hu) as (_ & p' & Hps' & Hpk & _); [consts; lia|]. congruence.
Qed.

Lemma linked_recv a fd want : linked a -> linked (snd (spec_recv fd want a)).
Proof.
  intros Hlk. unfold spec_recv. destruct (live a fd) as [s|] eqn:Hl; [|done].
  apply live_slot in Hl as [Hs Hk].
  destruct (negb _) eqn:Hu; [done|]. apply a_is_kind_false in Hu.
  destruct (arx s); [by destruct (live a (apeer s))|]. cbv zeta. cbn [snd].
  by eapply linked_same.
Qed.

Lemma linked_step o a :
  linked a -> ~ closes_pending o a -> linked (snd (spec_step o a)).
Proof.
  intros Hlk Hc. destruct o; cbn [spec_step]; eauto using linked_socket, linked_bind,
    linked_listen, linked_connect, linked_accept, linked_send, linked_recv.
  apply linked_close; [done|]. intros Hp. apply Hc. by exists fd.
Qed.

#[export] Hint Resolve linked_init linked_step : links.
