(* ===== verification/FdStream.v ===== *)
(** * Byte streams between connected sockets

    What two paired sockets exchange while other clients use the table:
    nothing is lost, duplicated, reordered or delivered to a third party.
    The traces are arbitrary sequences of operations on the whole table.
    A [connection] is a pair of sockets that no backlog and no third socket
    refers to; it stays one until one of its ends is closed, whatever the
    others do.  Every pair of a table with consistent links is a connection,
    and the links stay consistent in a run that is [disciplined]: nobody
    closes a socket that still waits in a backlog. *)

From S2P Require Import Prelude Ipc FdTable FdSpec FdRefine FdLinks.

(** No step of the run closes a pending client. *)
Fixpoint disciplined (os : list sockop) (a : atable) : Prop :=
  match os with
  | [] => True
  | o :: os' => ~ closes_pending o a /\ disciplined os' (snd (spec_step o a))
  end.

(** Two descriptors are the two ends of one connection. *)
Definition paired (a : atable) (s p : Z) : Prop :=
  exists ss sp, slot a s = Some ss /\ slot a p = Some sp /\
    akind ss = FD_SOCKET_CONNECTED /\ akind sp = FD_SOCKET_CONNECTED /\
    apeer ss = p /\ apeer sp = s.

(** The bytes waiting to be read at a descriptor. *)
Definition inflight (a : atable) (fd : Z) : list Z :=
  match slot a fd with Some s => arx s | None => [] end.

(** The bytes that the sends on [fd] put into the connection. *)
Definition sent_step (fd : Z) (o : sockop) (x : sockres) : list Z :=
  match o, x with
  | OpSend f _ d, RSent n => if f =? fd then take (Z.to_nat n) d else []
  | _, _ => []
  end.

(** The bytes that the receives on [fd] handed out. *)
Definition recv_step (fd : Z) (o : sockop) (x : sockres) : list Z :=
  match o, x with
  | OpRecv f _, RData bs => if f =? fd then bs else []
  | _, _ => []
  end.

Fixpoint sent_bytes (fd : Z) (os : list sockop) (xs : list sockres) : list Z :=
  match os, xs with
  | o :: os', x :: xs' => sent_step fd o x ++ sent_bytes fd os' xs'
  | _, _ => []
  end.

Fixpoint recv_bytes (fd : Z) (os : list sockop) (xs : list sockres) : list Z :=
  match os, xs with
  | o :: os', x :: xs' => recv_step fd o x ++ recv_bytes fd os' xs'
  | _, _ => []
  end.

(** ** Sockets that nobody else refers to *)

(** No backlog names a socket of [P], and no socket outside [P] has one of them as
    its peer. *)
Record private (P : list Z) (a : atable) : Prop := {
  pv_len : length a = 128%nat;
  pv_on : forall x, x ∈ P -> exists s, slot a x = Some s /\ akind s = FD_SOCKET_CONNECTED;
  pv_queue : forall i s x, slot a i = Some s -> akind s = FD_SOCKET_LISTEN ->
    x ∈ aqueue s -> x ∉ P;
  pv_peer : forall i s, slot a i = Some s -> akind s = FD_SOCKET_CONNECTED -> i ∉ P ->
    apeer s ∉ P
}.

(** Two sockets paired with each other, and with nobody else. *)
Definition connection (a : atable) (s p : Z) : Prop :=
  s <> p /\ paired a s p /\ private [s; p] a.

(** The end of a connection whose other end was closed. *)
Definition orphan (a : atable) (p : Z) : Prop :=
  (exists sp, slot a p = Some sp /\ akind sp = FD_SOCKET_CONNECTED /\ apeer sp = -1) /\
  private [p] a.

Lemma slot_upd_ne a fd s i : fd <> i -> slot (upd a fd s) i = slot a i.
Proof.
  intros Hne. unfold slot. destruct (_ && _) eqn:Hb; [|done]. unfold upd.
  apply list_lookup_insert_ne. apply andb_true_iff in Hb as [Hb _].
  apply Z.leb_le in Hb. consts. lia.
Qed.

Lemma slot_upd_inv a fd s i t :
  slot (upd a fd s) i = Some t -> (i = fd /\ is_fd fd /\ t = s) \/ (i <> fd /\ slot a i = Some t).
Proof.
  intros Hs. destruct (decide (fd = i)) as [->|Hne]; [|right; by rewrite slot_upd_ne in Hs by done].
  left. pose proof (slot_fd _ _ _ Hs) as Hi. split; [done|]. split; [done|].
  rewrite slot_lookup in Hs by done. unfold upd in Hs.
  by apply list_lookup_insert_Some in Hs as [(_ & ? & _)|(? & _)].
Qed.

Definition is_transfer (o : sockop) : bool :=
  match o with OpSend _ _ _ | OpRecv _ _ => true | _ => false end.

Section private.
Context (P : list Z) (a : atable) (Hpv : private P a).

Let Hlen : length a = 128%nat := pv_len _ _ Hpv.

Lemma member_fd x : x ∈ P -> is_fd x.
Proof. intros Hx. destruct (pv_on _ _ Hpv x Hx) as (s & Hs & _). by eapply slot_fd. Qed.

Lemma no_member : -1 ∉ P.
Proof. intros Hx%member_fd. unfold is_fd in Hx. consts. lia. Qed.

Lemma not_member fd s : slot a fd = Some s -> akind s <> FD_SOCKET_CONNECTED -> fd ∉ P.
Proof. intros Hs Hk Hx. destruct (pv_on _ _ Hpv fd Hx) as (? & ? & ?). congruence. Qed.

(** What may be written to a slot outside [P]. *)
Definition harmless (s : asock) : Prop :=
  (akind s = FD_SOCKET_LISTEN -> forall x, x ∈ aqueue s -> x ∉ P) /\
  (akind s = FD_SOCKET_CONNECTED -> apeer s ∉ P).

(** The sockets of [P] are as they were, and still private. *)
Definition undisturbed (b : atable) : Prop :=
  private P b /\ forall x, x ∈ P -> slot b x = slot a x.

Lemma undisturbed_refl : undisturbed a.
Proof. done. Qed.

Lemma undisturbed_upd b fd s :
  undisturbed b -> fd ∉ P -> (is_fd fd -> harmless s) -> undisturbed (upd b fd s).
Proof.
  intros [[Hl H1 H2 H3] Hsame] Hfd Hs.
  assert (Hne : forall x, x ∈ P -> slot (upd b fd s) x = slot b x)
    by (intros x Hx; apply slot_upd_ne; congruence).
  split; [split; [by rewrite length_upd|..]|].
  - intros x Hx. rewrite Hne by done. by apply H1.
  - intros i t x [(-> & Hi & ->)|[_ Ht]]%slot_upd_inv Hk Hx;
      [by apply (proj1 (Hs Hi))|by eapply H2].
  - intros i t [(-> & Hi & ->)|[_ Ht]]%slot_upd_inv Hk Hi';
      [by apply (proj2 (Hs Hi))|by eapply H3].
  - intros x Hx. rewrite Hne by done. by apply Hsame.
Qed.

Lemma harmless_slot b fd s v :
  undisturbed b -> slot b fd = Some s -> v ∉ P -> harmless (a_set_peer v s).
Proof. intros [Hb _] Hs Hv. split; cbn; [|done]. intros Hk x. by eapply pv_queue. Qed.

Lemma private_socket d ty p : undisturbed (snd (spec_socket d ty p a)).
Proof.
  unfold spec_socket. destruct (free_slot a) as [fd|] eqn:Hf; [|apply undisturbed_refl]. cbn [snd].
  destruct (free_slot_slot a fd Hlen Hf) as (Hfd & s & Hs & Hsk).
  apply undisturbed_upd; [apply undisturbed_refl| |done].
  eapply not_member; [done|]. by rewrite Hsk.
Qed.

Lemma private_close fd : fd ∉ P -> undisturbed (snd (spec_close fd a)).
Proof.
  intros Hfd. unfold spec_close. destruct (live a fd) as [s|] eqn:Hl; [|apply undisturbed_refl].
  apply live_slot in Hl as [Hs _]. cbn [snd]. apply undisturbed_upd; [|done|done].
  unfold disconnect. destruct (a_is_kind _ s) eqn:Hc; [|apply undisturbed_refl].
  destruct (live a (apeer s)) as [p|] eqn:Hpl; [|apply undisturbed_refl].
  apply live_slot in Hpl as [Hps _]. apply a_is_kind_eq in Hc.
  apply undisturbed_upd; [apply undisturbed_refl|by eapply pv_peer|].
  intros _. by eapply harmless_slot; [apply undisturbed_refl|done|apply no_member].
Qed.

Lemma private_unbound fd s s' :
  live a fd = Some s -> negb (a_is_kind FD_SOCKET_UNBOUND s) = false -> harmless s' ->
  fd ∉ P /\ undisturbed (upd a fd s').
Proof.
  intros [Hs _]%live_slot Hu%a_is_kind_false Hs'.
  assert (fd ∉ P) by (eapply not_member; [done|by rewrite Hu]).
  split; [done|]. by apply undisturbed_upd; [apply undisturbed_refl|..].
Qed.

Lemma private_connect fd port : undisturbed (snd (spec_connect fd port a)).
Proof.
  unfold spec_connect. destruct (live a fd) as [s|] eqn:Hl; [|apply undisturbed_refl].
  destruct (negb _) eqn:Hu; [apply undisturbed_refl|].
  destruct (listener_on port a) as [lfd|] eqn:Hf; [|apply undisturbed_refl].
  destruct (listener_on_slot a port lfd Hlen Hf) as (Hlfd & l & Hls & -> & Hlk' & _).
  cbv zeta. destruct (_ <=? _); [apply undisturbed_refl|]. cbn [snd].
  destruct (private_unbound fd s (mk_asock FD_SOCKET_CONNECTED (ameta s) (aport s) (aqueue s)
    (-1) port (arx s)) Hl Hu) as [Hfd Hun]; [split; [done|by intros _; apply no_member]|].
  apply undisturbed_upd; [done|eapply not_member; [done|by rewrite Hlk']|].
  intros _. split; cbn; [|congruence]. intros _ x [Hx| ->%list_elem_of_singleton]%elem_of_app; [|done].
  by eapply pv_queue.
Qed.

Lemma private_accept fd : undisturbed (snd (spec_accept fd a)).
Proof.
  unfold spec_accept. destruct (live a fd) as [l|] eqn:Hl; [|apply undisturbed_refl].
  apply live_slot in Hl as [Hs _]. destruct (negb _) eqn:Hu; [apply undisturbed_refl|].
  apply a_is_kind_false in Hu.
  destruct (aqueue l) as [|c q] eqn:Hq; [apply undisturbed_refl|].
  destruct (free_slot a) as [nfd|] eqn:Hf; [|apply undisturbed_refl]. cbv zeta. cbn [snd].
  destruct (free_slot_slot a nfd Hlen Hf) as (Hnfd & s0 & Hs0 & Hk0).
  assert (Hqp : forall x, x ∈ c :: q -> x ∉ P) by (intros x; rewrite <- Hq; by eapply pv_queue).
  assert (Hc : c ∉ P) by (apply Hqp; constructor).
  assert (Hn : nfd ∉ P) by (eapply not_member; [done|by rewrite Hk0]).
  set (a1 := upd (upd a fd _) nfd _). assert (Ha1 : undisturbed a1).
  { apply undisturbed_upd; [|done|by intros _; split].
    apply undisturbed_upd; [apply undisturbed_refl|eapply not_member; [done|by rewrite Hu]|].
    intros _. split; cbn; [|congruence]. intros _ x Hx. apply Hqp. by constructor. }
  apply undisturbed_upd; [done..|]. intros Hcfd.
  destruct (slot_exists_a a1 c (pv_len _ _ (proj1 Ha1)) Hcfd) as (sc & Hsc).
  replace (a1 !!! Z.to_nat c) with sc; [by eapply harmless_slot|].
  symmetry. apply list_lookup_total_correct. by rewrite <- slot_lookup.
Qed.

(** Whatever others do other than to move bytes. *)
Lemma private_step o :
  is_transfer o = false -> (forall x, x ∈ P -> o <> OpClose x) ->
  undisturbed (snd (spec_step o a)).
Proof.
  intros Ht Hc. destruct o; cbn [spec_step] in *; try done.
  - apply private_socket.
  - apply private_close. intros Hx. by apply (Hc _ Hx).
  - unfold spec_bind. destruct (live a fd) as [s|] eqn:Hl; [|apply undisturbed_refl].
    destruct (negb _) eqn:Hu; [apply undisturbed_refl|].
    destruct (port_taken _ _); [apply undisturbed_refl|].
    eapply private_unbound; [done..|]. apply a_is_kind_false in Hu. split; cbn; congruence.
  - unfold spec_listen. destruct (live a fd) as [s|] eqn:Hl; [|apply undisturbed_refl].
    destruct (negb _) eqn:Hu; [apply undisturbed_refl|].
    destruct (aport s =? 0); [apply undisturbed_refl|].
    eapply private_unbound; [done..|]. split; cbn; [by intros _ x ?%elem_of_nil|done].
  - apply private_connect.
  - apply private_accept.
Qed.

(** A write of the bytes of a socket. *)
Lemma private_set_rx fd sf bs : slot a fd = Some sf -> private P (upd a fd (a_set_rx bs sf)).
Proof.
  intros Hf. pose proof Hpv as [_ H1 H2 H3]. split; [by rewrite length_upd|..].
  - intros x Hx. destruct (H1 x Hx) as (s & Hs & Hk). destruct (decide (fd = x)) as [->|].
    + eexists. rewrite slot_upd, decide_True by (try done; by eapply slot_fd). split; [done|].
      cbn. congruence.
    + exists s. by rewrite slot_upd_ne.
  - intros i t x [(-> & _ & ->)|[_ Ht]]%slot_upd_inv Hk Hx; cbn in *; by eapply H2.
  - intros i t [(-> & _ & ->)|[_ Ht]]%slot_upd_inv Hk Hout; cbn in *; by eapply H3.
Qed.
End private.

(** ** One step of a connection *)

(** The bytes that arrive at [p] are those that [s] sends. *)
Definition feeds (a : atable) (s p : Z) : Prop :=
  forall i si, slot a i = Some si -> akind si = FD_SOCKET_CONNECTED -> i = s <-> apeer si = p.

(** The links of a socket are as they were. *)
Definition same_link (a a' : atable) (x : Z) : Prop :=
  exists s s', slot a x = Some s /\ slot a' x = Some s' /\ akind s' = akind s /\ apeer s' = apeer s.

Lemma same_link_set_rx a fd sf bs x s :
  length a = 128%nat -> slot a fd = Some sf -> slot a x = Some s ->
  same_link a (upd a fd (a_set_rx bs sf)) x.
Proof.
  intros Hl Hf Hx. pose proof (slot_fd _ _ _ Hf) as Hfd. unfold same_link.
  rewrite slot_upd by done. case_decide as He; subst; eexists _, _; split_and!; try done; cbn; congruence.
Qed.

Lemma inflight_set_rx a fd sf bs p :
  length a = 128%nat -> slot a fd = Some sf ->
  inflight (upd a fd (a_set_rx bs sf)) p = if decide (fd = p) then bs else inflight a p.
Proof.
  intros Hl Hf. pose proof (slot_fd _ _ _ Hf) as Hfd.
  unfold inflight. rewrite slot_upd by done. by case_decide.
Qed.

Lemma inflight_slot a fd s : slot a fd = Some s -> inflight a fd = arx s.
Proof. intros Hs. unfold inflight. by rewrite Hs. Qed.

(** What one operation does to the sockets of [P] and to the stream into [p]. *)
Definition stream_step (P : list Z) (a : atable) (s p : Z) (o : sockop) : Prop :=
  let '(x, a') := spec_step o a in
  private P a' /\ (forall x, x ∈ P -> same_link a a' x) /\
  inflight a p ++ sent_step s o x = recv_step p o x ++ inflight a' p.

Section stream.
Context (P : list Z) (a : atable) (s p : Z).
Context (Hpv : private P a) (Hfeed : feeds a s p) (Hp : p ∈ P).

Let Hlen : length a = 128%nat := pv_len _ _ Hpv.

Lemma links_refl x : x ∈ P -> same_link a a x.
Proof. intros Hx. destruct (pv_on _ _ Hpv x Hx) as (sx & ? & ?). by exists sx, sx. Qed.

Lemma links_set_rx fd sf bs x :
  slot a fd = Some sf -> x ∈ P -> same_link a (upd a fd (a_set_rx bs sf)) x.
Proof.
  intros Hf Hx. destruct (pv_on _ _ Hpv x Hx) as (sx & ? & ?). by eapply same_link_set_rx.
Qed.

Lemma stream_send fd len data : stream_step P a s p (OpSend fd len data).
Proof.
  unfold stream_step. cbn [spec_step]. unfold spec_send.
  assert (Hnone : private P a /\ (forall x, x ∈ P -> same_link a a x) /\
    inflight a p ++ [] = [] ++ inflight a p)
    by (split; [done|]; split; [apply links_refl|apply app_nil_r]).
  destruct (live a fd) as [sf|] eqn:Hl; [|done]. apply live_slot in Hl as [Hs _].
  destruct (negb _) eqn:Hu; [done|]. apply a_is_kind_false in Hu.
  destruct (live a (apeer sf)) as [q|] eqn:Hq; [|done]. apply live_slot in Hq as [Hqs _].
  destruct (_ || _); [done|]. cbv zeta. destruct (_ <=? _); [done|].
  split; [by apply private_set_rx|]. split; [intros; by apply links_set_rx|].
  rewrite (inflight_set_rx _ _ _ _ _ Hlen Hqs). cbn [sent_step recv_step app].
  pose proof (Hfeed _ _ Hs Hu) as Hiff.
  destruct (decide (apeer sf = p)) as [Heq|Hne].
  - rewrite (proj2 Hiff Heq), Z.eqb_refl. rewrite Heq in Hqs. by rewrite (inflight_slot _ _ _ Hqs).
  - destruct (Z.eqb_spec fd s) as [Hf|]; [|apply app_nil_r]. by destruct Hne; apply Hiff.
Qed.

Lemma stream_recv fd want : stream_step P a s p (OpRecv fd want).
Proof.
  unfold stream_step. cbn [spec_step]. unfold spec_recv.
  assert (Hnone : private P a /\ (forall x, x ∈ P -> same_link a a x) /\
    inflight a p ++ [] = [] ++ inflight a p)
    by (split; [done|]; split; [apply links_refl|apply app_nil_r]).
  destruct (live a fd) as [sf|] eqn:Hl; [|done]. apply live_slot in Hl as [Hs _].
  destruct (negb _) eqn:Hu; [done|].
  destruct (arx sf) as [|b bs] eqn:Hrx.
  { destruct (live a (apeer sf)); [done|]. cbn [sent_step recv_step]. by destruct (fd =? p). }
  cbv zeta. set (n := Z.to_nat _). split; [by apply private_set_rx|].
  split; [intros; by apply links_set_rx|].
  rewrite (inflight_set_rx _ _ _ _ _ Hlen Hs), app_nil_r. cbn [recv_step].
  destruct (decide (fd = p)) as [->|Hne].
  - rewrite Z.eqb_refl, (inflight_slot _ _ _ Hs), Hrx. by rewrite take_drop.
  - destruct (Z.eqb_spec fd p); done.
Qed.

Lemma stream_step_ok o : (forall x, x ∈ P -> o <> OpClose x) -> stream_step P a s p o.
Proof.
  intros Hc. destruct (is_transfer o) eqn:Ht.
  { destruct o; try done; [apply stream_send|apply stream_recv]. }
  pose proof (private_step P a Hpv o Ht Hc) as [Hpv' Hsame]. unfold stream_step.
  destruct (spec_step o a) as [x a'] eqn:Ho. cbn [snd] in *. split; [done|]. split.
  - intros i Hi. destruct (pv_on _ _ Hpv i Hi) as (si & Hsi & _). exists si, si.
    by rewrite Hsame.
  - unfold inflight. rewrite Hsame by done. destruct o, x; cbn [sent_step recv_step]; try done;
      apply app_nil_r.
Qed.
End stream.

(** ** Connections and what is left of them *)

Lemma connection_feeds a s p : connection a s p -> feeds a s p.
Proof.
  intros (Hne & (ss & sp & Hs & Hp & _ & _ & Hsp & Hps) & Hpv) i si Hi Hk. split.
  - intros ->. congruence.
  - intros Heq. destruct (decide (i ∈ [s; p])) as [Hin|Hout].
    + apply elem_of_cons in Hin as [->|Hin%list_elem_of_singleton]; [done|]. congruence.
    + destruct (pv_peer _ _ Hpv i si Hi Hk Hout). rewrite Heq. set_solver.
Qed.

Lemma orphan_feeds a p : orphan a p -> feeds a (-1) p.
Proof.
  intros ((sp & Hp & Hk & Hpp) & Hpv) i si Hi Hki. split.
  - intros ->. apply slot_fd in Hi. unfold is_fd in Hi. consts. lia.
  - intros Heq. destruct (decide (i ∈ [p])) as [->%list_elem_of_singleton|Hout].
    + assert (si = sp) as -> by congruence. subst p. rewrite Hpp in Hp.
      apply slot_fd in Hp. unfold is_fd in Hp. consts. lia.
    + destruct (pv_peer _ _ Hpv i si Hi Hki Hout). rewrite Heq. set_solver.
Qed.

Lemma connection_links a a' s p :
  connection a s p -> private [s; p] a' -> (forall x, x ∈ [s; p] -> same_link a a' x) ->
  connection a' s p.
Proof.
  intros (Hne & (ss & sp & Hs & Hp & ? & ? & ? & ?) & _) Hpv Hl. split; [done|]. split; [|done].
  destruct (Hl s ltac:(set_solver)) as (x & x' & ? & ? & ? & ?).
  destruct (Hl p ltac:(set_solver)) as (y & y' & ? & ? & ? & ?).
  exists x', y'. simplify_eq. split_and!; congruence.
Qed.

Lemma orphan_links a a' p :
  orphan a p -> private [p] a' -> (forall x, x ∈ [p] -> same_link a a' x) -> orphan a' p.
Proof.
  intros ((sp & Hp & ? & ?) & _) Hpv Hl. split; [|done].
  destruct (Hl p ltac:(set_solver)) as (y & y' & ? & ? & ? & ?).
  exists y'. simplify_eq. split_and!; congruence.
Qed.

(** In a table with consistent links every pair is a connection. *)
Lemma linked_connection a s p : linked a -> paired a s p -> connection a s p.
Proof.
  intros Hlk Hpr. pose proof Hpr as (ss & sp & Hs & Hp & Hsk & Hpk & Hss & Hps).
  pose proof (slot_fd _ _ _ Hs) as Hsfd. pose proof (slot_fd _ _ _ Hp) as Hpfd.
  unfold is_fd in *. destruct (lk_sym _ Hlk _ _ Hs Hsk) as [Hne _]; [consts; lia|].
  split; [congruence|]. split; [done|]. split; [apply Hlk|..].
  - intros x [->| ->%list_elem_of_singleton]%elem_of_cons; eauto.
  - intros i t x Hi _ Hx Hin. destruct (lk_pending _ Hlk _ _ _ Hi Hx) as (sc & Hc & _ & Hcp).
    apply elem_of_cons in Hin as [->|Hin%list_elem_of_singleton]; [|subst x];
      simplify_eq; consts; lia.
  - intros i t Hi Hk Hout Hin. destruct (lk_sym _ Hlk _ _ Hi Hk) as (_ & q & Hq & _ & Hqp).
    { intros Heq. rewrite Heq in Hin. set_solver by (consts; lia). }
    apply Hout. apply elem_of_cons in Hin as [Hin|Hin%list_elem_of_singleton];
      rewrite Hin in Hq; simplify_eq; set_solver.
Qed.

(** Closing one end leaves the other an orphan, with its bytes. *)
Lemma close_orphans a s p :
  connection a s p ->
  exists a', spec_close s a = (ROk, a') /\ slot a' s = Some afresh /\ orphan a' p /\
    inflight a' p = inflight a p.
Proof.
  intros (Hne & (ss & sp & Hss & Hsp & Hks & Hkp & Hps & Hpp) & Hpv).
  pose proof (pv_len _ _ Hpv) as Hl.
  pose proof (slot_fd _ _ _ Hss) as Hs. pose proof (slot_fd _ _ _ Hsp) as Hp.
  assert (Hls : live a s = Some ss) by (apply live_slot; split; [done|by rewrite Hks]).
  assert (Hlp : live a p = Some sp) by (apply live_slot; split; [done|by rewrite Hkp]).
  unfold spec_close, disconnect. rewrite Hls, Hps, Hlp. unfold a_is_kind.
  rewrite bool_decide_eq_true_2 by done. eexists. split; [done|].
  assert (Hp' : slot (upd (upd a p (a_set_peer (-1) sp)) s afresh) p = Some (a_set_peer (-1) sp))
    by (by slot_goal).
  split; [by slot_goal|]. split; [|by rewrite (inflight_slot _ _ _ Hp'), (inflight_slot _ _ _ Hsp)].
  split; [by eexists|]. split; [by rewrite !length_upd|..].
  - intros x ->%list_elem_of_singleton. by eexists.
  - intros i t x [(-> & _ & ->)|[_ [(-> & _ & ->)|[_ Hi]]%slot_upd_inv]]%slot_upd_inv; cbn;
      [done|congruence|].
    intros Hk Hx. pose proof (pv_queue _ _ Hpv _ _ _ Hi Hk Hx). set_solver.
  - intros i t [(-> & _ & ->)|[Hns [(-> & _ & ->)|[Hnp Hi]]%slot_upd_inv]]%slot_upd_inv; cbn;
      [done|set_solver|].
    intros Hk _. pose proof (pv_peer _ _ Hpv _ _ Hi Hk). set_solver.
Qed.

(** ** Whole runs *)

(** A property of the table that every step not closing a socket of [P] keeps, with
    the stream it carries. *)
Lemma stream_runs (Q : atable -> Prop) P os a s p :
  p ∈ P ->
  (forall b, Q b -> private P b /\ feeds b s p) ->
  (forall b b', Q b -> private P b' -> (forall x, x ∈ P -> same_link b b' x) -> Q b') ->
  Q a -> Forall (fun o => forall x, x ∈ P -> o <> OpClose x) os ->
  let '(xs, a') := spec_run os a in
  Q a' /\ inflight a p ++ sent_bytes s os xs = recv_bytes p os xs ++ inflight a' p.
Proof.
  intros Hp HQ Hkeep. revert a. induction os as [|o os IH]; intros a Ha Hc.
  { cbn. by rewrite app_nil_r. }
  inversion Hc as [|? ? Hc1 Hc2]; subst. destruct (HQ a Ha) as [Hpv Hf].
  pose proof (stream_step_ok P a s p Hpv Hf Hp o Hc1) as Hst. unfold stream_step in Hst.
  cbn [spec_run]. destruct (spec_step o a) as [x a1]. destruct Hst as (Hpv1 & Hl1 & Heq).
  specialize (IH a1 (Hkeep _ _ Ha Hpv1 Hl1) Hc2).
  destruct (spec_run os a1) as [xs a2]. destruct IH as (Ha2 & IH).
  split; [done|]. cbn [sent_bytes recv_bytes].
  by rewrite app_assoc, Heq, <- app_assoc, IH, app_assoc.
Qed.

Lemma stream_run os a s p :
  connection a s p -> Forall (fun o => o <> OpClose s /\ o <> OpClose p) os ->
  let '(xs, a') := spec_run os a in
  connection a' s p /\
  inflight a p ++ sent_bytes s os xs = recv_bytes p os xs ++ inflight a' p.
Proof.
  intros Hcn Hc. apply (stream_runs (fun b => connection b s p) [s; p]); [set_solver|..|done|].
  - intros b Hb. split; [apply Hb|by apply connection_feeds].
  - intros b b' Hb. by apply connection_links.
  - eapply Forall_impl; [exact Hc|]. cbn. intros o [? ?] x Hx. set_solver.
Qed.

Lemma sent_bytes_no_fd os : forall a, sent_bytes (-1) os (fst (spec_run os a)) = [].
Proof.
  induction os as [|o os IH]; intros a; [done|]. cbn [spec_run].
  assert (Ho : sent_step (-1) o (fst (spec_step o a)) = []).
  { destruct o; cbn [spec_step sent_step]; try done. unfold spec_send.
    destruct (Z.eqb_spec fd (-1)) as [->|]; [done|]. by destruct (_ : sockres). }
  destruct (spec_step o a) as [x a1]. specialize (IH a1).
  destruct (spec_run os a1). cbn [fst sent_bytes] in *. by rewrite Ho, IH.
Qed.

(** Nothing more arrives at an orphan; it reads what it had. *)
Lemma orphan_run os a p :
  orphan a p -> Forall (fun o => o <> OpClose p) os ->
  let '(xs, a') := spec_run os a in
  orphan a' p /\ inflight a p = recv_bytes p os xs ++ inflight a' p.
Proof.
  intros Hor Hc. pose proof (sent_bytes_no_fd os a) as Hnone.
  pose proof (stream_runs (fun b => orphan b p) [p] os a (-1) p) as Hr.
  destruct (spec_run os a) as [xs a']. cbn [fst] in Hnone. rewrite Hnone, app_nil_r in Hr.
  apply Hr; [set_solver|..|done|].
  - intros b Hb. split; [apply Hb|by apply orphan_feeds].
  - intros b b' Hb. by apply orphan_links.
  - eapply Forall_impl; [exact Hc|]. cbn. intros o ? x Hx. set_solver.
Qed.
