(* ===== verification/Engine.v ===== *)
(** * Request dispatch (src/phase2_engine/engine_main.c)

    The globals of the launcher and of netstack.process, and
    [dispatch_request], the switch that serves one message.  The message
    loop and the start/stop handshake, which involve several tasks, are in
    EngineTasks.v. *)

From S2P Require Import Prelude Ipc FdTable FdSpec FdRefine FdLinks FdStream.

(** File-scope variables of engine_main.c, and the table of fdtable.c that
    lives in the same process.  A null pointer is [0]. *)
Record engine := mk_engine {
  g_fdtable : fdtable;
  g_engine_task : Z;
  g_launcher_task : Z;
  g_launcher_ready_mask : Z;
  g_launcher_stopped_mask : Z;
  g_engine_ready : bool;
  g_engine_shutdown : bool;
  g_request_port : Z
}.

Definition set_fds (t : fdtable) (g : engine) : engine :=
  mk_engine t (g_engine_task g) (g_launcher_task g) (g_launcher_ready_mask g)
    (g_launcher_stopped_mask g) (g_engine_ready g) (g_engine_shutdown g) (g_request_port g).

Definition set_shutdown (b : bool) (g : engine) : engine :=
  mk_engine (g_fdtable g) (g_engine_task g) (g_launcher_task g) (g_launcher_ready_mask g)
    (g_launcher_stopped_mask g) (g_engine_ready g) b (g_request_port g).

Definition engine_init : engine := mk_engine g_fdtable_init 0 0 0 0 false false 0.

(** A program over the table, run inside the engine's globals. *)
Definition on_fds {A} (m : M fdtable A) : M engine A := fun g =>
  match m (g_fdtable g) with
  | Some (a, t') => Some (a, set_fds t' g)
  | None => None
  end.

Definition dispatch_ping (r : NetstackReq) : M engine NetstackReq :=
  mret (set_err NETSTACK_OK (set_ping_payload (u32 (ping_payload r + 1)) r)).

Definition dispatch_shutdown (r : NetstackReq) : M engine NetstackReq :=
  let r := set_err NETSTACK_OK r in
  g ← getM; putM (set_shutdown true g);; mret r.

Definition dispatch_request (r : NetstackReq) : M engine NetstackReq :=
  let c := op r in
  if c =? NETSTACK_OP_PING then dispatch_ping r
  else if c =? NETSTACK_OP_SHUTDOWN then dispatch_shutdown r
  else if c =? NETSTACK_OP_SOCKET then on_fds (fdtable_dispatch_socket r)
  else if c =? NETSTACK_OP_CLOSE then on_fds (fdtable_dispatch_close r)
  else if c =? NETSTACK_OP_BIND then on_fds (fdtable_dispatch_bind r)
  else if c =? NETSTACK_OP_LISTEN then on_fds (fdtable_dispatch_listen r)
  else if c =? NETSTACK_OP_CONNECT then on_fds (fdtable_dispatch_connect r)
  else if c =? NETSTACK_OP_ACCEPT then on_fds (fdtable_dispatch_accept r)
  else if c =? NETSTACK_OP_SEND then on_fds (fdtable_dispatch_send r)
  else if c =? NETSTACK_OP_RECV then on_fds (fdtable_dispatch_recv r)
  else mret (set_err NETSTACK_ENOSYS r).

(** A batch of requests, served in order. *)
Fixpoint dispatch_all (rs : list NetstackReq) : M engine (list NetstackReq) :=
  match rs with
  | [] => mret []
  | r :: rs' => r' ← dispatch_request r; rs'' ← dispatch_all rs'; mret (r' :: rs'')
  end.

(** ** One request *)

(** What the engine promises for a request that is not a socket operation. *)
Definition plain_reply (r : NetstackReq) (g : engine) (r' : NetstackReq) (g' : engine) : Prop :=
  if op r =? NETSTACK_OP_PING then
    err r' = NETSTACK_OK /\ ping_seq r' = ping_seq r /\
    ping_payload r' = u32 (ping_payload r + 1) /\ g' = g
  else if op r =? NETSTACK_OP_SHUTDOWN then
    err r' = NETSTACK_OK /\ u r' = u r /\ g' = set_shutdown true g
  else err r' = NETSTACK_ENOSYS /\ u r' = u r /\ g' = g.

(** The promise for every request, socket operations included. *)
Definition serves (r : NetstackReq) (g : engine) (r' : NetstackReq) (g' : engine) : Prop :=
  wf (g_fdtable g') /\ wf_req r' /\ op r' = op r /\ msg r' = msg r /\
  match decode_op r with
  | Some o =>
    spec_step o (abs (g_fdtable g)) = (decode_res o r', abs (g_fdtable g')) /\
    g' = set_fds (g_fdtable g') g
  | None => plain_reply r g r' g'
  end.

Lemma set_fds_id g : set_fds (g_fdtable g) g = g.
Proof. by destruct g. Qed.

Lemma serves_socket r g o h :
  decode_op r = Some o -> refines o (h (g_fdtable g)) (g_fdtable g) r ->
  exists r' g', on_fds h g = Some (r', g') /\ serves r g r' g'.
Proof.
  intros Ho (r' & t' & Hh & Hw & Hr & Hop & Hm & Hs).
  exists r', (set_fds t' g). unfold on_fds. rewrite Hh. split; [done|].
  unfold serves. rewrite Ho. cbn [g_fdtable set_fds]. done.
Qed.

(** Simplify a chain of tests on a known operation code. *)
Ltac op_known Hop := rewrite ?Hop; opcodes; cbn [Z.eqb Pos.eqb].

Lemma ping_serves r g :
  wf (g_fdtable g) -> wf_req r -> op r = NETSTACK_OP_PING ->
  exists r' g', dispatch_ping r g = Some (r', g') /\ serves r g r' g'.
Proof.
  intros Hw Hr Hop. eexists _, _. split; [reflexivity|].
  split; [done|]. split; [eauto 8 with words|]. split; [done|]. split; [done|].
  unfold decode_op, plain_reply. cbv zeta. op_known Hop.
  split; [done|]. req_simpl. split; [done|]. split; [|done].
  rewrite u32_id; [done|]. apply is_u32_u32.
Qed.

Lemma serve_request r g :
  wf (g_fdtable g) -> wf_req r ->
  exists r' g', dispatch_request r g = Some (r', g') /\ serves r g r' g'.
Proof.
  intros Hw Hr. unfold dispatch_request. cbv zeta.
  destruct (Z.eqb_spec (op r) NETSTACK_OP_PING) as [Hop|Hn1]; [by apply ping_serves|].
  destruct (Z.eqb_spec (op r) NETSTACK_OP_SHUTDOWN) as [Hop|Hn2].
  { eexists _, _. split; [reflexivity|]. split; [done|].
    split; [eauto 8 with words|]. split; [done|]. split; [done|].
    unfold decode_op, plain_reply. cbv zeta. op_known Hop. done. }
  repeat match goal with
  | |- context [if op r =? ?c then _ else _] =>
      destruct (Z.eqb_spec (op r) c) as [Hop|?];
      [ eapply serves_socket;
        [ unfold decode_op; cbv zeta; op_known Hop; reflexivity | ] | ]
  end; eauto using socket_refines, close_refines, bind_refines, listen_refines,
    connect_refines, accept_refines, send_refines, recv_refines.
  eexists _, _. split; [reflexivity|]. split; [done|]. split; [eauto 8 with words|].
  split; [done|]. split; [done|].
  assert (Hd : decode_op r = None).
  { unfold decode_op. cbv zeta. by rewrite !(proj2 (Z.eqb_neq _ _)) by done. }
  rewrite Hd. unfold plain_reply. by rewrite !(proj2 (Z.eqb_neq _ _)) by done.
Qed.

(** ** Batches *)

(** The socket operations of a batch, in order. *)
Definition sockops (rs : list NetstackReq) : list sockop := omap decode_op rs.

(** The answers to them, read from the replies. *)
Fixpoint answers (rs rs' : list NetstackReq) : list sockres :=
  match rs, rs' with
  | r :: rs1, r' :: rs1' =>
    match decode_op r with
    | Some o => decode_res o r' :: answers rs1 rs1'
    | None => answers rs1 rs1'
    end
  | _, _ => []
  end.

Lemma plain_reply_fds r g r' g' : plain_reply r g r' g' -> g_fdtable g' = g_fdtable g.
Proof.
  unfold plain_reply. destruct (_ =? _); [naive_solver|]. destruct (_ =? _); naive_solver.
Qed.

Lemma serve_all rs g :
  wf (g_fdtable g) -> Forall wf_req rs ->
  exists rs' g', dispatch_all rs g = Some (rs', g') /\ wf (g_fdtable g') /\
    Forall2 (fun r r' => wf_req r' /\ op r' = op r /\ msg r' = msg r) rs rs' /\
    spec_run (sockops rs) (abs (g_fdtable g)) = (answers rs rs', abs (g_fdtable g')).
Proof.
  revert g. induction rs as [|r rs IH]; intros g Hw Hr.
  { exists [], g. split; [done|]. split; [done|]. split; [constructor|done]. }
  inversion Hr as [|? ? Hr1 Hr2]; subst.
  destruct (serve_request r g Hw Hr1) as (r' & g1 & Hrun & Hw1 & Hr' & Hop & Hm & Hs).
  destruct (IH g1 Hw1 Hr2) as (rs' & g' & Hrun' & Hw' & Hall & Hsp).
  exists (r' :: rs'), g'. split.
  { cbn [dispatch_all]. rewrite (bind_some _ _ _ _ _ Hrun). cbv beta.
    by rewrite (bind_some _ _ _ _ _ Hrun'). }
  split; [done|]. split; [by constructor|]. cbn [sockops omap list_omap answers].
  change (list_omap NetstackReq sockop decode_op rs) with (sockops rs).
  destruct (decode_op r) as [o|].
  - destruct Hs as [Hs _]. cbn [spec_run]. rewrite Hs.
    unfold sockops in Hsp. by rewrite Hsp.
  - rewrite <- (plain_reply_fds _ _ _ _ Hs). done.
Qed.
