(* ===== verification/Exec.v ===== *)
(** * What the program uses of ExecSG

    The operating system is not part of the repository: the calls the
    program makes through [IExec] are the fields of the class [Exec] over
    an abstract world, and what the code relies on is stated by the
    classes of laws.  The laws are the documented behaviour of the calls:
    a port that was allocated is not one that is already allocated, a
    semaphore nests, [FindTask(NULL)] names the running task.  A null
    pointer is [0]. *)

From S2P Require Import Prelude Ipc.

Class Exec (W : Type) := {
  (** [FindTask(NULL)] *)
  FindTask : W -> Z;
  InitSemaphore : Z -> W -> W;
  ObtainSemaphore : Z -> W -> W;
  ReleaseSemaphore : Z -> W -> W;
  (** [FindPort(NETSTACK_REQUEST_PORT_NAME)] *)
  FindPort : W -> Z;
  (** [AllocSysObjectTags(ASOT_PORT, ASOPORT_AllocSig, TRUE, TAG_END)] *)
  AllocPort : W -> Z * W;
  (** [FreeSysObject(ASOT_PORT, p)] *)
  FreePort : Z -> W -> W;
  (** [PutMsg(engine, &req->msg); WaitPort(reply); GetMsg(reply)]: the
      request is lent to the owner of the port and the call returns when it
      was replied; the result is what [*req] then holds. *)
  Exchange : Z -> Z -> NetstackReq -> W -> NetstackReq * W
}.

(** Views of the world the laws speak about. *)
Class ExecViews (W : Type) := {
  (** nesting count of a semaphore held by the running task *)
  sem_nest : W -> Z -> Z;
  (** message ports allocated through [AllocPort] and not freed *)
  ports : W -> gset Z
}.

(** The calls that concern only the caller: all but [Exchange]. *)
Inductive local_call {W} `{Exec W} : (W -> W) -> Prop :=
  | lc_init s : local_call (InitSemaphore s)
  | lc_obtain s : local_call (ObtainSemaphore s)
  | lc_release s : local_call (ReleaseSemaphore s)
  | lc_alloc : local_call (fun w => snd (AllocPort w))
  | lc_free p : local_call (FreePort p).

#[export] Hint Constructors local_call : exec.

Class ExecLaws (W : Type) `{Exec W, ExecViews W} := {
  find_task_nonnull : forall w, FindTask w <> 0;
  (** semaphores nest *)
  init_nest : forall s w s', sem_nest (InitSemaphore s w) s' =
    if decide (s = s') then 0 else sem_nest w s';
  obtain_nest : forall s w s', sem_nest (ObtainSemaphore s w) s' =
    if decide (s = s') then sem_nest w s' + 1 else sem_nest w s';
  release_nest : forall s w s', sem_nest (ReleaseSemaphore s w) s' =
    if decide (s = s') then sem_nest w s' - 1 else sem_nest w s';
  alloc_nest : forall w s, sem_nest (snd (AllocPort w)) s = sem_nest w s;
  free_nest : forall p w s, sem_nest (FreePort p w) s = sem_nest w s;
  exchange_nest : forall e p r w s, sem_nest (snd (Exchange e p r w)) s = sem_nest w s;
  (** ports are owned until they are freed *)
  init_ports : forall s w, ports (InitSemaphore s w) = ports w;
  obtain_ports : forall s w, ports (ObtainSemaphore s w) = ports w;
  release_ports : forall s w, ports (ReleaseSemaphore s w) = ports w;
  alloc_fresh : forall w, fst (AllocPort w) <> 0 ->
    fst (AllocPort w) ∉ ports w /\
    ports (snd (AllocPort w)) = {[fst (AllocPort w)]} ∪ ports w;
  alloc_null : forall w, fst (AllocPort w) = 0 -> ports (snd (AllocPort w)) = ports w;
  free_port : forall p w, ports (FreePort p w) = ports w ∖ {[p]};
  exchange_ports : forall e p r w, ports (snd (Exchange e p r w)) = ports w;
  (** the running task and the registered port do not depend on them *)
  local_task : forall f w, local_call f -> FindTask (f w) = FindTask w;
  local_find_port : forall f w, local_call f -> FindPort (f w) = FindPort w;
  exchange_task : forall e p r w, FindTask (snd (Exchange e p r w)) = FindTask w
}.
