(* ===== verification/Service.v ===== *)
(** * What the engine promises to its clients

    The interface between the client library and the engine.  A world in
    which [Exchange] reaches the engine offers a table of sockets, and an
    exchange has the effect of one operation of the socket specification
    at some moment between the call and its return; [interferes] is what
    other tasks may do to the table in the meantime.  The client's theorems
    are proved against this class; Sim.v discharges it with the engine of
    Engine.v. *)

From S2P Require Import Prelude Ipc FdTable FdSpec Exec.

Class Service (W : Type) := {
  (** the engine process runs and its state is sound *)
  up : W -> Prop;
  sockets : W -> atable;
  interferes : atable -> atable -> Prop
}.

(** Operation [o] took effect, with answer [x], while the table went from that of
    [w] to that of [w']. *)
Definition served {W} `{Service W} (o : sockop) (w w' : W) (x : sockres) : Prop :=
  exists a a', interferes (sockets w) a /\ spec_step o a = (x, a') /\
    interferes a' (sockets w').

(** The reply to a PING. *)
Definition pinged (r r' : NetstackReq) : Prop :=
  err r' = NETSTACK_OK /\ ping_seq r' = ping_seq r /\
  ping_payload r' = u32 (ping_payload r + 1).

Class ServiceLaws (W : Type) `{Exec W, Service W} := {
  local_up : forall f w, local_call f -> up w -> up (f w);
  local_sockets : forall f w, local_call f -> sockets (f w) = sockets w;
  interferes_refl : forall a, interferes a a;
  exchange_serves : forall e p r w,
    up w -> e = FindPort w -> e <> 0 -> p <> 0 -> wf_req r -> op r <> NETSTACK_OP_SHUTDOWN ->
    let '(r', w') := Exchange e p r w in
    up w' /\ FindPort w' = FindPort w /\ wf_req r' /\
    match decode_op r with
    | Some o => served o w w' (decode_res o r')
    | None => interferes (sockets w) (sockets w') /\
              (op r = NETSTACK_OP_PING -> pinged r r')
    end
}.
