(* ===== verification/Client.v ===== *)
(** * The client library (src/phase3_bsdsocket/socket_ipc.c)

    Every call of the client API fills a request, exchanges it with the
    engine over a cached engine port and a reply port of its own task, and
    unpacks the answer.  The file's globals are [client]; the calls into
    the operating system are those of the class [Exec]. *)

From S2P Require Import Prelude Ipc Exec.

Definition REPLY_SLOT_MAX : Z := 16.

Record reply_slot := mk_reply_slot { owner : Z; port : Z }.

Record client := mk_client {
  g_engine_port_sem_init : bool;
  g_engine_port : Z;
  g_reply_sem_init : bool;
  g_reply_slots : list reply_slot
}.

Definition client_init : client := mk_client false 0 false (replicate 16 (mk_reply_slot 0 0)).

(** Names of the two semaphores. *)
Definition g_engine_port_sem : Z := 1.
Definition g_reply_sem : Z := 2.

Section client.
Context {W : Type} `{!Exec W} (os : sdk).

(** Programs over the client's globals and the world. *)
Notation P := (M (client * W)).

Definition os_do (f : W -> W) : P unit := fun '(c, w) => Some (tt, (c, f w)).
Definition os_ask {A} (f : W -> A) : P A := fun '(c, w) => Some (f w, (c, w)).
Definition os_run {A} (f : W -> A * W) : P A :=
  fun '(c, w) => let '(a, w') := f w in Some (a, (c, w')).
Definition get_c : P client := fun '(c, w) => Some (c, (c, w)).
Definition put_c (c : client) : P unit := fun '(_, w) => Some (tt, (c, w)).

Definition set_engine_port (p : Z) (c : client) : client :=
  mk_client (g_engine_port_sem_init c) p (g_reply_sem_init c) (g_reply_slots c).
Definition set_slots (l : list reply_slot) (c : client) : client :=
  mk_client (g_engine_port_sem_init c) (g_engine_port c) (g_reply_sem_init c) l.

(** [if (!g_engine_port_sem_init) { InitSemaphore(...); ... = 1; }] *)
Definition init_engine_sem : P unit :=
  c ← get_c;
  if g_engine_port_sem_init c then mret tt else
  os_do (InitSemaphore g_engine_port_sem);;
  put_c (mk_client true (g_engine_port c) (g_reply_sem_init c) (g_reply_slots c)).

Definition init_reply_sem : P unit :=
  c ← get_c;
  if g_reply_sem_init c then mret tt else
  os_do (InitSemaphore g_reply_sem);;
  put_c (mk_client (g_engine_port_sem_init c) (g_engine_port c) true (g_reply_slots c)).

Definition ensure_engine_port : P Z :=
  init_engine_sem;;
  os_do (ObtainSemaphore g_engine_port_sem);;
  c ← get_c;
  (if g_engine_port c =? 0
   then p ← os_ask FindPort; put_c (set_engine_port p c)
   else mret tt);;
  c ← get_c;
  let p := g_engine_port c in
  os_do (ReleaseSemaphore g_engine_port_sem);;
  mret p.

(** Index of the first slot with the given owner, the two loops of
    [ensure_reply_port]; [n] iterations left. *)
Fixpoint find_owner (o : Z) (n : nat) (i : Z) : P Z :=
  match n with
  | O => mret (-1)
  | S n' =>
    c ← get_c;
    s ← liftO (lookupZ (g_reply_slots c) i);
    if owner s =? o then mret i else find_owner o n' (i + 1)
  end.

(** The second loop's body for the free slot [j], the semaphore held. *)
Definition claim_slot (me j : Z) : P Z :=
  p ← os_run AllocPort;
  if p =? 0 then os_do (ReleaseSemaphore g_reply_sem);; mret 0 else
  c ← get_c;
  l ← liftO (storeZ (g_reply_slots c) j (mk_reply_slot me p));
  put_c (set_slots l c);;
  os_do (ReleaseSemaphore g_reply_sem);;
  mret p.

Definition ensure_reply_port : P Z :=
  me ← os_ask FindTask;
  init_reply_sem;;
  os_do (ObtainSemaphore g_reply_sem);;
  i ← find_owner me 16 0;
  if 0 <=? i then
    c ← get_c;
    s ← liftO (lookupZ (g_reply_slots c) i);
    os_do (ReleaseSemaphore g_reply_sem);;
    mret (port s)
  else
    j ← find_owner 0 16 0;
    if 0 <=? j then
      claim_slot me j
    else
      os_do (ReleaseSemaphore g_reply_sem);;
      mret 0.

(** 0 and the reply, or -1 when the engine cannot be reached. *)
Definition netstack_ipc_call (req : NetstackReq) : P (Z * NetstackReq) :=
  engine ← ensure_engine_port;
  if engine =? 0 then mret (-1, req) else
  reply ← ensure_reply_port;
  if reply =? 0 then mret (-1, req) else
  let req := set_msg (mk_Message (NT_MESSAGE os)
               (sizeof_Message os + 8 + Z.of_nat sizeof_u) reply) req in
  req ← os_run (Exchange engine reply req);
  mret (0, req).

Definition netstack_client_init : P Z :=
  init_engine_sem;;
  init_reply_sem;;
  p ← ensure_engine_port;
  mret (if p =? 0 then -1 else 0).

(** The loop of [netstack_client_shutdown] over the slots from [i] on. *)
Fixpoint free_slots (n : nat) (i : Z) : P unit :=
  match n with
  | O => mret tt
  | S n' =>
    c ← get_c;
    s ← liftO (lookupZ (g_reply_slots c) i);
    (if port s =? 0 then mret tt else
     os_do (FreePort (port s));;
     l ← liftO (storeZ (g_reply_slots c) i (mk_reply_slot 0 0));
     put_c (set_slots l c));;
    free_slots n' (i + 1)
  end.

Definition netstack_client_shutdown : P unit :=
  c ← get_c;
  if negb (g_reply_sem_init c) then mret tt else
  os_do (ObtainSemaphore g_reply_sem);;
  free_slots 16 0;;
  os_do (ReleaseSemaphore g_reply_sem);;
  c ← get_c;
  put_c (set_engine_port 0 c).

(** ** The requests *)

Definition ping_req (seq payload : Z) : NetstackReq :=
  set_ping_payload payload (set_ping_seq seq (set_op NETSTACK_OP_PING zero_req)).
Definition socket_req (d ty p : Z) : NetstackReq :=
  set_socket_proto p (set_socket_type ty (set_socket_domain d
    (set_op NETSTACK_OP_SOCKET zero_req))).
Definition close_req (sock : Z) : NetstackReq :=
  set_close_sock sock (set_op NETSTACK_OP_CLOSE zero_req).
Definition bind_req (sock port : Z) : NetstackReq :=
  set_bind_port port (set_bind_sock sock (set_op NETSTACK_OP_BIND zero_req)).
Definition listen_req (sock backlog : Z) : NetstackReq :=
  set_listen_backlog backlog (set_listen_sock sock (set_op NETSTACK_OP_LISTEN zero_req)).
Definition connect_req (sock port : Z) : NetstackReq :=
  set_connect_port port (set_connect_sock sock (set_op NETSTACK_OP_CONNECT zero_req)).
Definition accept_req (sock : Z) : NetstackReq :=
  set_accept_sock sock (set_op NETSTACK_OP_ACCEPT zero_req).
Definition send_req (sock len : Z) (bytes : list Z) : NetstackReq :=
  set_send_data bytes (set_send_len_in len (set_send_sock sock
    (set_op NETSTACK_OP_SEND zero_req))).
Definition recv_req (sock max : Z) : NetstackReq :=
  set_recv_len_in max (set_recv_sock sock (set_op NETSTACK_OP_RECV zero_req)).

(** ** The API

    An output pointer is a flag, whether it is non-null, and the value
    written through it comes back beside the return value. *)

Definition out (nonnull : bool) (v : Z) : option Z := if nonnull then Some v else None.

Definition netstack_ping (seq payload : Z) (out_payload : bool) : P (Z * option Z) :=
  '(rc, req) ← netstack_ipc_call (ping_req seq payload);
  if negb (rc =? 0) then mret (-1, None)
  else mret (err req, out out_payload (ping_payload req)).

Definition netstack_socket (domain type proto : Z) (out_sock : bool) : P (Z * option Z) :=
  '(rc, req) ← netstack_ipc_call (socket_req domain type proto);
  if negb (rc =? 0) then mret (-1, None)
  else mret (err req, out out_sock (socket_sock req)).

Definition netstack_close (sock : Z) : P Z :=
  '(rc, req) ← netstack_ipc_call (close_req sock);
  mret (if negb (rc =? 0) then -1 else err req).

Definition netstack_bind (sock port : Z) : P Z :=
  '(rc, req) ← netstack_ipc_call (bind_req sock port);
  mret (if negb (rc =? 0) then -1 else err req).

Definition netstack_listen (sock backlog : Z) : P Z :=
  '(rc, req) ← netstack_ipc_call (listen_req sock backlog);
  mret (if negb (rc =? 0) then -1 else err req).

Definition netstack_connect (sock port : Z) : P Z :=
  '(rc, req) ← netstack_ipc_call (connect_req sock port);
  mret (if negb (rc =? 0) then -1 else err req).

Definition netstack_accept (sock : Z) (out_new_sock out_peer_port : bool)
  : P (Z * option Z * option Z) :=
  '(rc, req) ← netstack_ipc_call (accept_req sock);
  if negb (rc =? 0) then mret (-1, None, None)
  else mret (err req, out out_new_sock (accept_new_sock req),
             out out_peer_port (accept_peer_port req)).

(** [buf] is the memory the pointer designates: reading past it is
    undefined. *)
Definition netstack_send (sock : Z) (buf : list Z) (len : Z) : P Z :=
  if (len <? 0) || (NETSTACK_MAX_PAYLOAD <? len) then mret NETSTACK_EMSGSIZE else
  bytes ← (if Z.of_nat (length buf) <? len then ub else mret (take (Z.to_nat len) buf));
  '(rc, req) ← netstack_ipc_call (send_req sock len bytes);
  mret (if negb (rc =? 0) then -1
        else if negb (err req =? NETSTACK_OK) then err req
        else send_len_out req).

(** [buf] is [None] for a null pointer; the returned buffer is the
    caller's memory after the call. *)
Definition netstack_recv (sock : Z) (buf : option (list Z)) (max : Z)
  : P (Z * option (list Z)) :=
  if max <? 0 then mret (NETSTACK_EMSGSIZE, buf) else
  let max := if NETSTACK_MAX_PAYLOAD <? max then NETSTACK_MAX_PAYLOAD else max in
  '(rc, req) ← netstack_ipc_call (recv_req sock max);
  if negb (rc =? 0) then mret (-1, buf) else
  if negb (err req =? NETSTACK_OK) then mret (err req, buf) else
  let n := recv_len_out req in
  match buf with
  | Some b =>
    if 0 <? n then
      b' ← liftO (memcpy b 0 (recv_data req) 0 n);
      mret (n, Some b')
    else mret (n, Some b)
  | None => mret (n, None)
  end.
End client.

(** ** What the requests ask *)

Lemma wf_ping_req s p : wf_req (ping_req s p).
Proof. unfold ping_req. eauto 8 with words. Qed.
Lemma wf_socket_req d ty p : wf_req (socket_req d ty p).
Proof. unfold socket_req. eauto 8 with words. Qed.
Lemma wf_close_req s : wf_req (close_req s).
Proof. unfold close_req. eauto 8 with words. Qed.
Lemma wf_bind_req s p : wf_req (bind_req s p).
Proof. unfold bind_req. eauto 8 with words. Qed.
Lemma wf_listen_req s b : wf_req (listen_req s b).
Proof. unfold listen_req. eauto 8 with words. Qed.
Lemma wf_connect_req s p : wf_req (connect_req s p).
Proof. unfold connect_req. eauto 8 with words. Qed.
Lemma wf_accept_req s : wf_req (accept_req s).
Proof. unfold accept_req. eauto 8 with words. Qed.
Lemma wf_send_req s n bs : Forall is_u8 bs -> wf_req (send_req s n bs).
Proof. intros. unfold send_req. apply wf_store_u; [eauto 8 with words|done]. Qed.
Lemma wf_recv_req s n : wf_req (recv_req s n).
Proof. unfold recv_req. eauto 8 with words. Qed.

#[export] Hint Resolve wf_ping_req wf_socket_req wf_close_req wf_bind_req wf_listen_req
  wf_connect_req wf_accept_req wf_send_req wf_recv_req : words.
