(* ===== verification/ClientReqs.v ===== *)
(** * The requests of the client library

    The request each API call builds is well-formed and asks the engine
    for exactly the operation of the call, with its arguments at the
    widths of the message's fields. *)

From S2P Require Import Prelude Ipc FdTable FdSpec Exec Client.

(** Read the operation code and the members of a request just built. *)
Ltac decode_built := unfold decode_op; cbv zeta; cbn [op set_op st_32 st_16 store_u
  set_bind_port set_bind_sock set_listen_backlog set_listen_sock set_connect_port
  set_connect_sock set_accept_sock set_send_data set_send_len_in set_send_sock
  set_recv_len_in set_recv_sock set_socket_proto set_socket_type set_socket_domain
  set_close_sock]; cbn [Z.eqb Pos.eqb]; repeat f_equal; pose proof wf_zero_req; req_simpl;
  try done.

Lemma decode_socket_req d ty p :
  decode_op (socket_req d ty p) = Some (OpSocket (s32 d) (s32 ty) (s32 p)).
Proof. unfold socket_req. decode_built. Qed.

Lemma decode_close_req s : decode_op (close_req s) = Some (OpClose (s32 s)).
Proof. unfold close_req. decode_built. Qed.

Lemma decode_bind_req s p : decode_op (bind_req s p) = Some (OpBind (s32 s) (u16 p)).
Proof. unfold bind_req. decode_built. Qed.

Lemma decode_listen_req s b : decode_op (listen_req s b) = Some (OpListen (s32 s)).
Proof. unfold listen_req. decode_built. Qed.

Lemma decode_connect_req s p :
  decode_op (connect_req s p) = Some (OpConnect (s32 s) (u16 p)).
Proof. unfold connect_req. decode_built. Qed.

Lemma decode_accept_req s : decode_op (accept_req s) = Some (OpAccept (s32 s)).
Proof. unfold accept_req. decode_built. Qed.

Lemma decode_recv_req s n : decode_op (recv_req s n) = Some (OpRecv (s32 s) (s32 n)).
Proof. unfold recv_req. decode_built. Qed.

Lemma decode_ping_req s p : decode_op (ping_req s p) = None.
Proof. done. Qed.

(** The data area of a send: the caller's bytes, then zeros. *)
Definition padded (bs : list Z) : list Z := bs ++ replicate (1024 - length bs) 0.

Lemma decode_send_req s n bs :
  (length bs <= 1024)%nat ->
  decode_op (send_req s n bs) = Some (OpSend (s32 s) (s32 n) (padded bs)).
Proof.
  intros Hb. unfold send_req. decode_built.
  cbn [u store_u]. rewrite block_inserts_prefix.
  - unfold padded. f_equal. 
    change (block (12 + length bs) (1024 - length bs)
      (u (st_32 4 n (st_32 0 s (set_op NETSTACK_OP_SEND zero_req)))) =
      replicate (1024 - length bs) 0).
    req_simpl. cbn [u zero_req]. apply block_replicate. unfold sizeof_u. lia.
  - done.
  - req_side.
Qed.
