(* ===== verification/EngineProps.v ===== *)
(** * What the engine guarantees to its clients

    The theorems about the socket engine as a whole, stated on
    [dispatch_request] and [dispatch_all] of Engine.v and on the handlers
    of FdTable.v, from the state the process boots in or from any state
    that satisfies the invariants. *)

From S2P Require Import Prelude Ring Ipc FdTable FdSpec FdRefine FdLinks FdStream.
From S2P Require Import Engine Exec Client ClientReqs.

(** ** Shared lemmas *)

(** The abstract table after a batch that was served from boot. *)
Definition booted (rs : list NetstackReq) : atable :=
  snd (spec_run (sockops rs) (abs g_fdtable_init)).

Lemma linked_run os a :
  linked a -> disciplined os a -> linked (snd (spec_run os a)).
Proof.
  revert a. induction os as [|o os IH]; intros a Hl Hd; [done|].
  destruct Hd as [Hd1 Hd2]. cbn [spec_run].
  pose proof (linked_step o a Hl Hd1) as Hl1.
  destruct (spec_step o a) as [x a1]. cbn [snd] in *.
  specialize (IH a1 Hl1 Hd2). by destruct (spec_run os a1).
Qed.

Lemma disciplined_app os1 os2 a :
  disciplined (os1 ++ os2) a <->
  disciplined os1 a /\ disciplined os2 (snd (spec_run os1 a)).
Proof.
  revert a. induction os1 as [|o os1 IH]; intros a; cbn [app disciplined spec_run].
  - cbn [snd]. tauto.
  - rewrite IH. destruct (spec_step o a) as [x a1]. cbn [snd].
    destruct (spec_run os1 a1). cbn [snd]. tauto.
Qed.

(** A run in which nothing is closed is disciplined. *)
Lemma disciplined_no_close os a :
  Forall (fun o => forall fd, o <> OpClose fd) os -> disciplined os a.
Proof.
  revert a. induction os as [|o os IH]; intros a H; [done|].
  inversion H as [|? ? H1 H2]; subst. split; [|by apply IH].
  intros (fd & -> & _). by apply (H1 fd).
Qed.

Lemma sockops_app rs1 rs2 : sockops (rs1 ++ rs2) = sockops rs1 ++ sockops rs2.
Proof. apply omap_app. Qed.

(** From boot, a batch is served and reaches [booted]. *)
Lemma boot_run rs :
  Forall wf_req rs ->
  exists rs' g, dispatch_all rs engine_init = Some (rs', g) /\ wf (g_fdtable g) /\
    abs (g_fdtable g) = booted rs.
Proof.
  intros Hr. destruct (serve_all rs engine_init) as (rs' & g & Hd & Hw & _ & Hs);
    [apply wf_init|done|].
  exists rs', g. split; [done|]. split; [done|].
  unfold booted. change g_fdtable_init with (g_fdtable engine_init). by rewrite Hs.
Qed.

Lemma linked_booted rs :
  disciplined (sockops rs) (abs g_fdtable_init) -> linked (booted rs).
Proof. intros. by apply linked_run; [apply linked_init|]. Qed.

(** A refused operation has no effect. *)
Lemma spec_error o a e a' : spec_step o a = (RErr e, a') -> a' = a.
Proof.
  destruct o; cbn [spec_step]; unfold spec_socket, spec_close, spec_bind, spec_listen,
    spec_connect, spec_accept, spec_send, spec_recv; cbv zeta; intros H;
  repeat match type of H with
  | match ?x with _ => _ end = _ => destruct x
  | (_, _) = _ => injection H as ? ?
  end; congruence.
Qed.

(** Requests of a client are well-formed. *)
Ltac wf_requests := cbn [app]; repeat (apply Forall_cons; split);
  try apply Forall_nil_2; try apply wf_send_req; eauto with words;
  repeat (apply Forall_cons; split); try apply Forall_nil_2; word.

(** C1. The engine serves every batch of well-formed messages from boot without
    undefined behaviour: each reply goes back on its own message with its
    operation code, the table stays well-formed, and the answers and the final
    table are those of the socket specification run on the socket operations of
    the batch. *)
Theorem engine_batch_refines rs :
  Forall wf_req rs ->
  exists rs' g, dispatch_all rs engine_init = Some (rs', g) /\
    wf (g_fdtable g) /\
    Forall2 (fun r r' => wf_req r' /\ op r' = op r /\ msg r' = msg r) rs rs' /\
    spec_run (sockops rs) (abs g_fdtable_init) = (answers rs rs', abs (g_fdtable g)).
Proof. intros. by apply serve_all; [apply wf_init|]. Qed.

(** A session: a listener on port 80, a client, the connection, one transfer. *)
Definition setup : list NetstackReq :=
  [socket_req 2 1 0; bind_req 3 80; listen_req 3 5; socket_req 2 1 0;
   connect_req 4 80; accept_req 3].
Definition transfer : list NetstackReq :=
  [send_req 4 3 [1; 2; 3]; ping_req 7 8; recv_req 5 2; socket_req 2 2 17;
   send_req 4 2 [4; 5]; recv_req 5 100].

Lemma wf_setup : Forall wf_req setup.
Proof. unfold setup. wf_requests. Qed.
Lemma wf_session : Forall wf_req (setup ++ transfer).
Proof. apply Forall_app. split; [exact wf_setup|]. unfold transfer. wf_requests. Qed.

Lemma engine_batch_refines_witness :
  exists rs' g, dispatch_all (setup ++ transfer) engine_init = Some (rs', g) /\
    answers (setup ++ transfer) rs' =
    [RSock 3; ROk; ROk; RSock 4; ROk; RAccepted 5 80; RSent 3; RData [1; 2]; RSock 6;
     RSent 2; RData [3; 4; 5]].
Proof.
  destruct (engine_batch_refines (setup ++ transfer)) as (rs' & g & Hd & _ & _ & Hs).
  { exact wf_session. }
  exists rs', g. split; [exact Hd|].
  apply (f_equal fst) in Hs. cbn [fst] in Hs. rewrite <- Hs. vm_compute. reflexivity.
Defined.

(** C4. One message, whatever its operation code and whatever the state of the
    engine: [dispatch_request] answers PING with the payload plus one modulo
    2^32, sets the shutdown flag on SHUTDOWN, answers ENOSYS to an unknown code,
    and has the specified effect and answer for each socket operation; nothing
    else of the engine changes. *)
Theorem dispatch_serves r g :
  wf (g_fdtable g) -> wf_req r ->
  exists r' g', dispatch_request r g = Some (r', g') /\ serves r g r' g'.
Proof. apply serve_request. Qed.

Lemma dispatch_serves_witness :
  exists r' g', dispatch_request (ping_req 5 4294967295) engine_init = Some (r', g') /\
    err r' = NETSTACK_OK /\ ping_seq r' = 5 /\ ping_payload r' = 0 /\ g' = engine_init.
Proof.
  destruct (dispatch_serves (ping_req 5 4294967295) engine_init)
    as (r' & g' & Hd & _ & _ & _ & _ & Hs); [apply wf_init|apply wf_ping_req|].
  exists r', g'. split; [exact Hd|].
  rewrite decode_ping_req in Hs. destruct Hs as (He & Hq & Hp & Hg).
  split; [exact He|]. split; [rewrite Hq; vm_compute; reflexivity|].
  split; [rewrite Hp; vm_compute; reflexivity|exact Hg].
Defined.

(** C5. A request that is refused, with any error code, leaves every socket
    as it was. *)
Theorem error_changes_nothing r g r' g' :
  wf (g_fdtable g) -> wf_req r -> dispatch_request r g = Some (r', g') ->
  err r' <> NETSTACK_OK -> abs (g_fdtable g') = abs (g_fdtable g).
Proof.
  intros Hw Hr Hd He.
  destruct (serve_request r g Hw Hr) as (r1 & g1 & Hd1 & _ & _ & _ & _ & Hs).
  rewrite Hd in Hd1. injection Hd1 as <- <-.
  destruct (decode_op r) as [o|].
  - destruct Hs as [Hs _]. rewrite (decode_res_err o r' (err r')) in Hs by done.
    by apply spec_error in Hs.
  - by apply plain_reply_fds in Hs as ->.
Qed.

Lemma error_changes_nothing_witness :
  exists r' g', dispatch_request (recv_req 9 1) engine_init = Some (r', g') /\
    err r' = NETSTACK_EBADF /\ abs (g_fdtable g') = abs g_fdtable_init.
Proof.
  destruct (serve_request (recv_req 9 1) engine_init) as (r' & g' & Hd & _);
    [apply wf_init|apply wf_recv_req|].
  assert (He : err r' = NETSTACK_EBADF).
  { apply (f_equal (fmap (fun x => err (fst x)))) in Hd. cbn [fmap option_fmap option_map fst] in Hd.
    assert (Hc : (fun x => err (fst x)) <$> dispatch_request (recv_req 9 1) engine_init
      = Some NETSTACK_EBADF) by (vm_compute; reflexivity).
    rewrite Hc in Hd. injection Hd as <-. reflexivity. }
  exists r', g'. split; [exact Hd|]. split; [exact He|].
  apply (error_changes_nothing (recv_req 9 1) engine_init r' g');
    [apply wf_init|apply wf_recv_req|exact Hd|rewrite He; discriminate].
Defined.

(** C3. Connections of the whole system stay consistent: in every batch served
    from boot in which no client closes a socket that still waits in a backlog,
    each socket waits in at most one backlog, once, and as a connected socket
    without a peer; the peer relation is symmetric and never reflexive; sockets
    that are not connected hold no data. *)
Theorem engine_links rs :
  Forall wf_req rs -> disciplined (sockops rs) (abs g_fdtable_init) ->
  exists rs' g, dispatch_all rs engine_init = Some (rs', g) /\ linked (abs (g_fdtable g)).
Proof.
  intros Hr Hd. destruct (boot_run rs Hr) as (rs' & g & Hrun & _ & Ha).
  exists rs', g. split; [done|]. rewrite Ha. by apply linked_booted.
Qed.

(** The operations of the session close nothing. *)
Definition is_close (o : sockop) : bool := match o with OpClose _ => true | _ => false end.

Lemma no_close_Forall os :
  forallb (fun o => negb (is_close o)) os = true ->
  Forall (fun o => forall fd, o <> OpClose fd) os.
Proof.
  intros Hb. apply Forall_forall. intros o Ho fd ->.
  apply list_elem_of_In in Ho. rewrite forallb_forall in Hb. by apply Hb in Ho.
Qed.

Lemma session_disciplined : disciplined (sockops (setup ++ transfer)) (abs g_fdtable_init).
Proof. apply disciplined_no_close, no_close_Forall. vm_compute. reflexivity. Qed.

Lemma session_open s p :
  Forall (fun o => o <> OpClose s /\ o <> OpClose p) (sockops transfer).
Proof.
  eapply Forall_impl; [apply no_close_Forall; vm_compute; reflexivity|].
  intros o Ho. by split; apply Ho.
Qed.

Lemma engine_links_witness :
  exists rs' g, dispatch_all (setup ++ transfer) engine_init = Some (rs', g) /\
    linked (abs (g_fdtable g)).
Proof.
  apply engine_links; [exact wf_session|exact session_disciplined].
Defined.

(** A pair of a run from boot in which nobody closed a socket that waits in a backlog
    is a connection. *)
Lemma connection_booted rs s p :
  disciplined (sockops rs) (abs g_fdtable_init) -> paired (booted rs) s p ->
  connection (booted rs) s p.
Proof. intros Hd. by apply linked_connection, linked_booted. Qed.

(** C2. Stream integrity across the whole system: from any well-formed table in which
    two sockets are a connection (paired, with no backlog and no third socket that
    refers to them), whatever all clients ask of the engine, closing those two
    sockets excepted, the bytes accepted by the sends on one
    end, appended to those in flight, are exactly the bytes handed out at the
    other end followed by those still in flight: nothing is lost, duplicated,
    reordered or mixed with another connection, and they stay a connection.  Every
    pair that accept makes is one ([connection_booted]) unless a client was closed
    while it waited in a backlog: then a listener may still take over one of the two
    sockets ([FdFindings.stale_backlog_steals]). *)
Theorem engine_stream rs g s p :
  wf (g_fdtable g) -> connection (abs (g_fdtable g)) s p -> Forall wf_req rs ->
  Forall (fun o => o <> OpClose s /\ o <> OpClose p) (sockops rs) ->
  exists rs' g', dispatch_all rs g = Some (rs', g') /\ wf (g_fdtable g') /\
    connection (abs (g_fdtable g')) s p /\
    inflight (abs (g_fdtable g)) p ++ sent_bytes s (sockops rs) (answers rs rs') =
    recv_bytes p (sockops rs) (answers rs rs') ++ inflight (abs (g_fdtable g')) p.
Proof.
  intros Hw Hcn Hr Hnc. destruct (serve_all rs g Hw Hr) as (rs' & g' & Hd & Hw' & _ & Hs).
  pose proof (stream_run (sockops rs) (abs (g_fdtable g)) s p Hcn Hnc) as Hst.
  rewrite Hs in Hst. by exists rs', g'.
Qed.

(** In the session the client [4] and the accepted socket [5] are paired. *)
Lemma setup_paired : paired (booted setup) 4 5.
Proof.
  exists (mk_asock FD_SOCKET_CONNECTED (2, 1, 0) 0 [] 5 80 []),
         (mk_asock FD_SOCKET_CONNECTED (2, 1, 0) 80 [] 4 0 []).
  split; [vm_compute; reflexivity|]. split; [vm_compute; reflexivity|].
  repeat split.
Qed.

Lemma setup_disciplined : disciplined (sockops setup) (abs g_fdtable_init).
Proof. apply disciplined_no_close, no_close_Forall. vm_compute. reflexivity. Qed.

Lemma engine_stream_witness :
  exists rs1' g1 rs2' g2, dispatch_all setup engine_init = Some (rs1', g1) /\
    dispatch_all transfer g1 = Some (rs2', g2) /\
    sent_bytes 4 (sockops transfer) (answers transfer rs2') =
    recv_bytes 5 (sockops transfer) (answers transfer rs2') ++
    inflight (abs (g_fdtable g2)) 5.
Proof.
  destruct (boot_run setup) as (rs1' & g1 & Hd1 & Hw & Ha).
  { exact wf_setup. }
  destruct (engine_stream transfer g1 4 5) as (rs2' & g2 & Hd2 & _ & _ & Hb).
  - exact Hw.
  - rewrite Ha. apply connection_booted; [exact setup_disciplined|exact setup_paired].
  - unfold transfer. wf_requests.
  - apply session_open.
  - exists rs1', g1, rs2', g2. split; [exact Hd1|]. split; [exact Hd2|].
    assert (Hi : inflight (booted setup) 5 = []) by (vm_compute; reflexivity).
    rewrite Ha, Hi in Hb. exact Hb.
Defined.
