(* ===== verification/SockProps.v ===== *)
(** * What each socket operation guarantees

    Consequences of the refinement that a client of the engine relies on:
    which descriptor a new socket gets, whom an accept pairs, how much a
    send takes, what is left after the peer closes, and that a reader can
    drain its socket.  Stated on the handlers of FdTable.v and on
    [dispatch_request]/[dispatch_all]. *)

From S2P Require Import Prelude Ring Ipc FdTable FdSpec FdRefine FdLinks FdStream.
From S2P Require Import Engine Exec Client ClientReqs EngineProps.

(** ** Reading a reply *)

Lemma decode_res_RErr o r e : decode_res o r = RErr e -> err r = e.
Proof.
  unfold decode_res. destruct (Z.eqb_spec (err r) NETSTACK_OK); cbn [negb]; [|congruence].
  destruct o; try done. cbv zeta. by destruct (_ && _).
Qed.

Lemma decode_res_RSock d ty p r fd :
  decode_res (OpSocket d ty p) r = RSock fd -> err r = NETSTACK_OK /\ socket_sock r = fd.
Proof.
  unfold decode_res. destruct (Z.eqb_spec (err r) NETSTACK_OK); cbn [negb]; naive_solver.
Qed.

Lemma decode_res_RAccepted fd r nfd port :
  decode_res (OpAccept fd) r = RAccepted nfd port ->
  err r = NETSTACK_OK /\ accept_new_sock r = nfd /\ accept_peer_port r = port.
Proof.
  unfold decode_res. destruct (Z.eqb_spec (err r) NETSTACK_OK); cbn [negb]; naive_solver.
Qed.

Lemma decode_res_RSent fd n d r k :
  decode_res (OpSend fd n d) r = RSent k -> err r = NETSTACK_OK /\ send_len_out r = k.
Proof.
  unfold decode_res. destruct (Z.eqb_spec (err r) NETSTACK_OK); cbn [negb]; naive_solver.
Qed.

Lemma decode_res_RData fd n r bs :
  decode_res (OpRecv fd n) r = RData bs ->
  err r = NETSTACK_OK /\ 0 <= recv_len_out r <= NETSTACK_MAX_PAYLOAD /\
  take (Z.to_nat (recv_len_out r)) (recv_data r) = bs.
Proof.
  unfold decode_res. destruct (Z.eqb_spec (err r) NETSTACK_OK); cbn [negb]; [|done].
  cbv zeta. destruct (Z.leb_spec 0 (recv_len_out r)); [|done].
  destruct (Z.leb_spec (recv_len_out r) NETSTACK_MAX_PAYLOAD); [|done].
  cbn [andb]. by intros [= <-].
Qed.

Lemma refines_inv o x t r r' t' :
  refines o x t r -> x = Some (r', t') ->
  wf t' /\ spec_step o (abs t) = (decode_res o r', abs t').
Proof. intros (r1 & t1 & -> & Hw & _ & _ & _ & Hs) [= -> ->]. done. Qed.

(** A request that asks for a socket operation gets it. *)
Lemma serve_op r o g :
  wf (g_fdtable g) -> wf_req r -> decode_op r = Some o ->
  exists r' g', dispatch_request r g = Some (r', g') /\ wf (g_fdtable g') /\ wf_req r' /\
    spec_step o (abs (g_fdtable g)) = (decode_res o r', abs (g_fdtable g')).
Proof.
  intros Hw Hr Ho.
  destruct (serve_request r g Hw Hr) as (r' & g' & Hd & Hw' & Hr' & _ & _ & Hs).
  rewrite Ho in Hs. destruct Hs as [Hs _]. eauto 6.
Qed.

(** ** Allocation *)

Lemma free_slot_least a fd i :
  length a = 128%nat -> free_slot a = Some fd -> FD_FIRST <= i < fd ->
  exists s, slot a i = Some s /\ akind s <> FD_FREE.
Proof.
  intros Hl Hf Hi. destruct (free_slot_slot a fd Hl Hf) as [Hfd _].
  destruct (slot_exists_a a i Hl) as [s Hs]; [consts; lia|].
  exists s. split; [done|]. intros Hk. revert Hf. unfold free_slot, first_fd.
  destruct (list_find _ _) as [[j x]|] eqn:Hj; [|done]. intros [= Hjf].
  apply list_find_Some in Hj as (_ & _ & Hmin).
  rewrite slot_lookup in Hs by (consts; lia).
  apply (Hmin (Z.to_nat (i - 3)) s); [|consts; lia|unfold a_is_kind; by apply bool_decide_eq_true].
  rewrite lookup_drop. replace (3 + Z.to_nat (i - 3))%nat with (Z.to_nat i) by (consts; lia).
  done.
Qed.

Lemma free_slot_None a i :
  length a = 128%nat -> free_slot a = None -> is_fd i ->
  exists s, slot a i = Some s /\ akind s <> FD_FREE.
Proof.
  intros Hl Hf Hi. destruct (slot_exists_a a i Hl Hi) as [s Hs].
  exists s. split; [done|]. intros Hk. revert Hf. unfold free_slot, first_fd.
  destruct (list_find _ _) as [[j x]|] eqn:Hj; [done|]. intros _.
  apply list_find_None in Hj. rewrite Forall_forall in Hj.
  apply (Hj s); [|unfold a_is_kind; by apply bool_decide_eq_true].
  rewrite slot_lookup in Hs by done. apply (list_elem_of_lookup_2 _ (Z.to_nat (i - 3))).
  rewrite lookup_drop. replace (3 + Z.to_nat (i - 3))%nat with (Z.to_nat i) by (consts; lia).
  done.
Qed.

(** A descriptor in use. *)
Definition in_use (t : fdtable) (i : Z) : Prop :=
  exists s, slot (abs t) i = Some s /\ akind s <> FD_FREE.

(** A new socket gets the lowest free descriptor from 3 on, starts unbound
    with no port, no peer, an empty backlog and an empty receive buffer even when
    the slot was used before, and changes no other socket; EMFILE is answered
    exactly when all 125 descriptors are in use. *)
Theorem socket_lowest_free t r r' t' :
  wf t -> wf_req r -> fdtable_dispatch_socket r t = Some (r', t') ->
  let fd := socket_sock r' in
  (err r' = NETSTACK_OK /\ is_fd fd /\ ~ in_use t fd /\
   (forall i, FD_FIRST <= i < fd -> in_use t i) /\
   slot (abs t') fd = Some (mk_asock FD_SOCKET_UNBOUND
     (socket_domain r, socket_type r, socket_proto r) 0 [] (-1) 0 []) /\
   (forall i, i <> fd -> slot (abs t') i = slot (abs t) i)) \/
  (err r' = NETSTACK_EMFILE /\ t' = t /\ forall i, is_fd i -> in_use t i).
Proof.
  intros Hw Hr Hd. cbv zeta.
  assert (Hl : length (abs t) = 128%nat) by (rewrite length_abs; apply Hw).
  destruct (refines_inv _ _ _ _ _ _ (socket_refines t r Hw Hr) Hd) as [_ Hs].
  cbn [spec_step] in Hs. unfold spec_socket in Hs.
  destruct (free_slot (abs t)) as [fd|] eqn:Hf.
  - injection Hs as Hres Ha. symmetry in Hres. apply decode_res_RSock in Hres as [He ->].
    destruct (free_slot_slot _ _ Hl Hf) as (Hfd & s & Hs & Hk). left.
    split; [done|]. split; [done|]. split; [intros (s' & Hs' & Hk'); congruence|].
    split; [intros; by eapply free_slot_least|]. rewrite <- Ha.
    split; [by rewrite slot_upd, decide_True by done|].
    intros i Hi. by rewrite slot_upd, decide_False by done.
  - injection Hs as Hres Ha. symmetry in Hres. apply decode_res_RErr in Hres. right.
    split; [done|]. split; [|intros; by apply free_slot_None].
    pose proof (alloc_fd_run t Hw) as Hal. rewrite Hf in Hal.
    unfold fdtable_dispatch_socket in Hd. rewrite (bind_some _ _ _ _ _ Hal) in Hd.
    by injection Hd.
Qed.

(** Observe the outcome of a handler without its buffers. *)
Lemma run_observe {S A B} (m : option (A * S)) (f : A * S -> B) (v : B) :
  f <$> m = Some v -> exists a s, m = Some (a, s) /\ f (a, s) = v.
Proof. destruct m as [[a s]|]; cbn; [|done]. intros [= <-]. eauto. Qed.

Lemma socket_lowest_free_witness :
  exists r' t', fdtable_dispatch_socket (socket_req 2 1 0) g_fdtable_init = Some (r', t') /\
    err r' = NETSTACK_OK /\ socket_sock r' = 3 /\ ~ in_use g_fdtable_init 3.
Proof.
  destruct (run_observe (fdtable_dispatch_socket (socket_req 2 1 0) g_fdtable_init)
    (fun x => (err x.1, socket_sock x.1)) (NETSTACK_OK, 3)) as (r' & t' & Hd & [= He Hs]);
    [vm_compute; reflexivity|].
  exists r', t'. split; [exact Hd|]. split; [exact He|]. split; [exact Hs|].
  rewrite <- Hs.
  destruct (socket_lowest_free _ _ r' t' wf_init (wf_socket_req 2 1 0) Hd)
    as [(_ & _ & Hn & _)|(He' & _)]; [exact Hn|].
  rewrite He in He'. discriminate.
Defined.

(** ** Accept *)

Lemma spec_accept_pairs a fd nfd port a' :
  length a = 128%nat -> spec_accept fd a = (RAccepted nfd port, a') ->
  exists l c q, slot a fd = Some l /\ akind l = FD_SOCKET_LISTEN /\ aqueue l = c :: q /\
    aport l = port /\ free_slot a = Some nfd /\
    (forall i, i <> fd -> i <> c -> i <> nfd -> slot a' i = slot a i) /\
    (c <> fd -> slot a' fd = Some (a_set_queue q l)) /\
    (forall sc, slot a c = Some sc -> akind sc = FD_SOCKET_CONNECTED ->
      paired a' c nfd /\ slot a' c = Some (a_set_peer nfd sc)).
Proof.
  intros Hlen. unfold spec_accept. destruct (live a fd) as [l|] eqn:Hl; [|done].
  apply live_slot in Hl as [Hs _]. pose proof (slot_fd _ _ _ Hs) as Hfd.
  destruct (negb _) eqn:Hu; [done|]. apply a_is_kind_false in Hu.
  destruct (aqueue l) as [|c q] eqn:Hq; [done|].
  destruct (free_slot a) as [n|] eqn:Hf; [|done]. cbv zeta. intros [= -> <- <-].
  destruct (free_slot_slot a nfd Hlen Hf) as (Hnfd & s0 & Hs0 & Hk0).
  assert (Hfn : fd <> nfd) by (intros ->; congruence).
  set (a1 := upd (upd a fd _) nfd _).
  assert (Hl1 : length a1 = 128%nat) by (unfold a1; by rewrite !length_upd).
  exists l, c, q. do 5 (split; [done|]). split; [|split].
  - intros i H1 H2 H3. unfold a1. by rewrite !slot_upd_ne.
  - intros Hcf. rewrite slot_upd_ne by done. unfold a1. by slot_goal.
  - intros sc Hsc Hkc. pose proof (slot_fd _ _ _ Hsc) as Hcfd.
    assert (Hcn : c <> nfd) by (intros ->; congruence).
    assert (Hcf : c <> fd) by (intros ->; congruence).
    assert (Hc1 : slot a1 c = Some sc) by (unfold a1; by slot_goal).
    rewrite slot_lookup in Hc1 by done. apply list_lookup_total_correct in Hc1. rewrite Hc1.
    assert (Hc2 : slot (upd a1 c (a_set_peer nfd sc)) c = Some (a_set_peer nfd sc))
      by (by slot_goal).
    split; [|done]. eexists _, _. split; [done|]. split; [unfold a1; by slot_goal|]. done.
Qed.

(** C9. A successful accept takes the first client of the listener's backlog,
    reports the listener's port, and changes no socket but the listener, that client
    and the new descriptor, which was free.  The rest of the backlog stays in order.
    When the client is a connected socket it is paired with the new descriptor in both
    directions, and nothing else of it changes.  In a table with consistent links it always is
    one, and has no peer yet; the table loses that when a client is closed while it
    waits ([FdFindings.stale_backlog_self], where the number is free and accept
    pairs the new descriptor with itself). *)
Theorem accept_pairs_oldest t r r' t' :
  wf t -> wf_req r ->
  fdtable_dispatch_accept r t = Some (r', t') -> err r' = NETSTACK_OK ->
  let fd := accept_sock r in let nfd := accept_new_sock r' in
  exists l c q, slot (abs t) fd = Some l /\ akind l = FD_SOCKET_LISTEN /\
    aqueue l = c :: q /\ accept_peer_port r' = aport l /\ ~ in_use t nfd /\
    (forall i, i <> fd -> i <> c -> i <> nfd -> slot (abs t') i = slot (abs t) i) /\
    (c <> fd -> slot (abs t') fd = Some (a_set_queue q l)) /\
    (forall sc, slot (abs t) c = Some sc -> akind sc = FD_SOCKET_CONNECTED ->
      paired (abs t') c nfd /\ slot (abs t') c = Some (a_set_peer nfd sc)) /\
    (linked (abs t) ->
      exists sc, slot (abs t) c = Some sc /\ akind sc = FD_SOCKET_CONNECTED /\ apeer sc = -1).
Proof.
  intros Hw Hr Hd He. cbv zeta.
  assert (Hl : length (abs t) = 128%nat) by (rewrite length_abs; apply Hw).
  destruct (refines_inv _ _ _ _ _ _ (accept_refines t r Hw Hr) Hd) as [_ Hs].
  assert (Hres : decode_res (OpAccept (accept_sock r)) r' =
    RAccepted (accept_new_sock r') (accept_peer_port r'))
    by (unfold decode_res; by rewrite He).
  rewrite Hres in Hs. cbn [spec_step] in Hs.
  destruct (spec_accept_pairs _ _ _ _ _ Hl Hs) as (l & c & q & H1 & H2 & H3 & H4 & H5 & H6 & H7 & H8).
  exists l, c, q. do 4 (split; [done|]). split; [|do 3 (split; [done|])].
  - apply free_slot_slot in H5 as (_ & s & Hs' & Hk); [|done].
    intros (s' & ? & ?). congruence.
  - intros Hlk. apply (lk_pending _ Hlk _ _ c H1). rewrite H3. apply list_elem_of_here.
Qed.

(** The session up to the accept. *)
Definition pending_setup : list NetstackReq := take 5 setup.

Lemma pending_disciplined : disciplined (sockops pending_setup) (abs g_fdtable_init).
Proof. apply disciplined_no_close, no_close_Forall. vm_compute. reflexivity. Qed.

Lemma accept_pairs_oldest_witness :
  exists t r' t', fdtable_dispatch_accept (accept_req 3) t = Some (r', t') /\
    err r' = NETSTACK_OK /\
    exists c, paired (abs t') c (accept_new_sock r') /\ accept_peer_port r' = 80.
Proof.
  destruct (boot_run pending_setup) as (rs1 & g & _ & Hw & Ha).
  { apply Forall_take. exact wf_setup. }
  set (t := g_fdtable g) in *.
  destruct (accept_refines t (accept_req 3) Hw (wf_accept_req 3))
    as (r' & t' & Hd & _ & _ & _ & _ & Hs).
  assert (Hres : decode_res (OpAccept (accept_sock (accept_req 3))) r' = RAccepted 5 80).
  { rewrite Ha in Hs. apply (f_equal fst) in Hs. cbn [fst] in Hs. rewrite <- Hs.
    vm_compute. reflexivity. }
  apply decode_res_RAccepted in Hres as (He & Hn & Hp).
  assert (Hlk : linked (abs t)) by (rewrite Ha; apply linked_booted, pending_disciplined).
  destruct (accept_pairs_oldest t (accept_req 3) r' t' Hw (wf_accept_req 3) Hd He)
    as (l & c & q & _ & _ & _ & _ & _ & _ & _ & Hpr & Hc).
  destruct (Hc Hlk) as (sc & Hsc & Hk & _).
  exists t, r', t'. split; [exact Hd|]. split; [exact He|]. exists c.
  split; [apply (Hpr sc Hsc Hk)|exact Hp].
Defined.

(** ** Send *)

(** C10. Back-pressure of a send on a connected pair with a legal length: the
    engine takes as many bytes as fit in the 4096-byte buffer of the peer, says
    how many, appends exactly those bytes, in order, to what the peer has not
    read, and never holds more than 4096; EAGAIN is answered exactly when the
    buffer is full. *)
Theorem send_backpressure t r r' t' ss sp :
  wf t -> wf_req r -> fdtable_dispatch_send r t = Some (r', t') ->
  live (abs t) (send_sock r) = Some ss -> akind ss = FD_SOCKET_CONNECTED ->
  live (abs t) (apeer ss) = Some sp ->
  0 <= send_len_in r <= NETSTACK_MAX_PAYLOAD ->
  let queued := Z.of_nat (length (arx sp)) in
  (queued = RXBUF_SIZE /\ err r' = NETSTACK_EAGAIN /\ abs t' = abs t) \/
  (queued < RXBUF_SIZE /\ err r' = NETSTACK_OK /\
   send_len_out r' = Z.min (send_len_in r) (RXBUF_SIZE - queued) /\
   slot (abs t') (apeer ss) =
     Some (a_set_rx (arx sp ++ take (Z.to_nat (send_len_out r')) (send_data r)) sp) /\
   (forall i, i <> apeer ss -> slot (abs t') i = slot (abs t) i)).
Proof.
  intros Hw Hr Hd Hs Hk Hp Hn. cbv zeta.
  destruct (refines_inv _ _ _ _ _ _ (send_refines t r Hw Hr) Hd) as [_ Hsp].
  assert (Hq : Z.of_nat (length (arx sp)) <= RXBUF_SIZE).
  { apply live_Some in Hp as (e & He & -> & _).
    cbn [abs_entry arx]. pose proof (lookupZ_wf _ _ _ Hw He) as Hwe.
    rewrite length_rx_bytes by done. destruct Hwe. lia. }
  cbn [spec_step] in Hsp. unfold spec_send in Hsp. rewrite Hs, Hp in Hsp.
  unfold a_is_kind in Hsp. rewrite bool_decide_eq_true_2 in Hsp by done. cbn [negb] in Hsp.
  destruct (Z.ltb_spec (send_len_in r) 0); [lia|].
  destruct (Z.ltb_spec NETSTACK_MAX_PAYLOAD (send_len_in r)); [lia|]. cbn [orb] in Hsp.
  cbv zeta in Hsp. destruct (Z.leb_spec (RXBUF_SIZE - Z.of_nat (length (arx sp))) 0).
  - left. injection Hsp as Hres Ha. symmetry in Hres. apply decode_res_RErr in Hres.
    split; [lia|done].
  - right. injection Hsp as Hres Ha. symmetry in Hres. apply decode_res_RSent in Hres as [He Hlo].
    apply live_fd in Hp as Hpfd.
    assert (Hl : length (abs t) = 128%nat) by (rewrite length_abs; apply Hw).
    split; [lia|]. split; [done|]. split; [done|]. rewrite <- Ha, Hlo.
    split; [by slot_goal|]. intros i Hi. by slot_goal.
Qed.

(** A table in which sockets 4 and 5 are paired. *)
Lemma paired_table :
  exists t, wf t /\ abs t = booted setup.
Proof.
  destruct (boot_run setup wf_setup) as (? & g & _ & Hw & Ha). eauto.
Qed.

Lemma send_backpressure_witness :
  exists t r' t', fdtable_dispatch_send (send_req 4 3 [1; 2; 3]) t = Some (r', t') /\
    err r' = NETSTACK_OK /\ send_len_out r' = 3.
Proof.
  destruct paired_table as (t & Hw & Ha).
  assert (Hr : wf_req (send_req 4 3 [1; 2; 3])) by (apply wf_send_req; repeat constructor; word).
  destruct (send_refines t _ Hw Hr) as (r' & t' & Hd & _).
  exists t, r', t'. split; [exact Hd|].
  destruct (send_backpressure t _ r' t'
    (mk_asock FD_SOCKET_CONNECTED (2, 1, 0) 0 [] 5 80 [])
    (mk_asock FD_SOCKET_CONNECTED (2, 1, 0) 80 [] 4 0 []) Hw Hr Hd) as [(Hq & _)|(_ & He & Hl & _)].
  - rewrite Ha. vm_compute. reflexivity.
  - reflexivity.
  - rewrite Ha. vm_compute. reflexivity.
  - vm_compute. split; discriminate.
  - cbn [arx length] in Hq. discriminate Hq.
  - split; [exact He|]. rewrite Hl. vm_compute. reflexivity.
Defined.

(** ** Draining *)

Section drain.
Context (fd want : Z) (Hfd : is_fd fd) (Hwant : 1 <= want <= NETSTACK_MAX_PAYLOAD).

(** One receive takes the next [want] bytes, or what is left. *)
Lemma recv_once a s :
  length a = 128%nat -> slot a fd = Some s -> akind s = FD_SOCKET_CONNECTED ->
  let '(x, a') := spec_recv fd want a in
  recv_step fd (OpRecv fd want) x = take (Z.to_nat want) (arx s) /\
  length a' = 128%nat /\
  slot a' fd = Some (a_set_rx (drop (Z.to_nat want) (arx s)) s).
Proof.
  intros Hl Hs Hk.
  assert (Hlive : live a fd = Some s) by (apply live_slot; split; [done|by rewrite Hk]).
  unfold spec_recv. rewrite Hlive. unfold a_is_kind.
  rewrite bool_decide_eq_true_2 by done. cbn [negb].
  replace (Z.min (Z.max want 0) NETSTACK_MAX_PAYLOAD) with want by lia.
  destruct (arx s) as [|b bs] eqn:Hrx.
  - rewrite take_nil, drop_nil.
    assert (Hid : a_set_rx [] s = s) by (destruct s; cbn in *; by subst).
    rewrite Hid. destruct (live a (apeer s)); cbn [recv_step]; [done|].
    by rewrite Z.eqb_refl.
  - cbv zeta. cbn [recv_step]. rewrite Z.eqb_refl, length_upd. by slot_goal.
Qed.

Lemma recv_many n a s :
  length a = 128%nat -> slot a fd = Some s -> akind s = FD_SOCKET_CONNECTED ->
  let '(xs, a') := spec_run (replicate n (OpRecv fd want)) a in
  recv_bytes fd (replicate n (OpRecv fd want)) xs = take (n * Z.to_nat want) (arx s) /\
  inflight a' fd = drop (n * Z.to_nat want) (arx s).
Proof.
  revert a s. induction n as [|n IH]; intros a s Hl Hs Hk.
  { cbn. split; [done|]. by apply inflight_slot. }
  cbn [replicate spec_run spec_step]. pose proof (recv_once a s Hl Hs Hk) as H1.
  destruct (spec_recv fd want a) as [x a1]. destruct H1 as (Hx & Hl1 & Hs1).
  specialize (IH a1 _ Hl1 Hs1 Hk).
  destruct (spec_run (replicate n (OpRecv fd want)) a1) as [xs a2].
  destruct IH as [IH1 IH2]. cbn [recv_bytes a_set_rx arx] in *. rewrite Hx, IH1, IH2.
  rewrite drop_drop. replace (S n * Z.to_nat want)%nat
    with (Z.to_nat want + n * Z.to_nat want)%nat by lia.
  split; [|done]. by rewrite take_take_drop.
Qed.
End drain.

(** A reader drains its socket: [n] receives of [want] bytes hand out the
    first [n * want] bytes that were waiting, in order, and leave the rest; so
    whatever waits is read after enough receives. *)
Theorem recv_drains n want fd g s :
  wf (g_fdtable g) -> slot (abs (g_fdtable g)) fd = Some s ->
  akind s = FD_SOCKET_CONNECTED -> 1 <= want <= NETSTACK_MAX_PAYLOAD ->
  let rs := replicate n (recv_req fd want) in
  exists rs' g', dispatch_all rs g = Some (rs', g') /\
    recv_bytes fd (sockops rs) (answers rs rs') = take (n * Z.to_nat want) (arx s) /\
    inflight (abs (g_fdtable g')) fd = drop (n * Z.to_nat want) (arx s).
Proof.
  intros Hw Hs Hk Hwant. cbv zeta. pose proof (slot_fd _ _ _ Hs) as Hfd.
  assert (Hops : sockops (replicate n (recv_req fd want)) = replicate n (OpRecv fd want)).
  { assert (Hd : decode_op (recv_req fd want) = Some (OpRecv fd want)).
    { rewrite decode_recv_req, !s32_id; [done|consts; word|consts; word]. }
    induction n as [|n IH]; [done|]. unfold sockops in *. cbn [replicate omap list_omap].
    rewrite Hd. by f_equal. }
  destruct (serve_all (replicate n (recv_req fd want)) g Hw) as (rs' & g' & Hd & _ & _ & Hsp).
  { apply Forall_replicate, wf_recv_req. }
  rewrite Hops in *. exists rs', g'. split; [done|].
  pose proof (recv_many fd want Hfd Hwant n _ s ltac:(rewrite length_abs; apply Hw) Hs Hk) as Hm.
  by rewrite Hsp in Hm.
Qed.

Lemma recv_drains_witness :
  exists g rs' g', dispatch_all (replicate 2 (recv_req 5 2)) g = Some (rs', g') /\
    recv_bytes 5 (sockops (replicate 2 (recv_req 5 2)))
      (answers (replicate 2 (recv_req 5 2)) rs') = [1; 2; 3] /\
    inflight (abs (g_fdtable g')) 5 = [].
Proof.
  destruct (boot_run (setup ++ take 1 transfer)) as (? & g & _ & Hw & Ha).
  { apply Forall_app. split; [exact wf_setup|]. unfold transfer. wf_requests. }
  destruct (recv_drains 2 2 5 g (mk_asock FD_SOCKET_CONNECTED (2, 1, 0) 80 [] 4 0 [1; 2; 3]) Hw)
    as (rs' & g' & Hd & Hr & Hi).
  - rewrite Ha. vm_compute. reflexivity.
  - reflexivity.
  - vm_compute. split; discriminate.
  - exists g, rs', g'. split; [exact Hd|]. split; [exact Hr|exact Hi].
Defined.

(** ** The end of a connection *)

(** A connected socket whose peer is gone. *)
Section orphan.
Context (g : engine) (p : Z).
Context (Hw : wf (g_fdtable g)) (Hor : orphan (abs (g_fdtable g)) p).

Let Hp : is_fd p := member_fd _ _ (proj2 Hor) p (list_elem_of_here p []).

Let Hp32 : s32 p = p.
Proof. apply s32_id. pose proof Hp. unfold is_fd in *. consts. word. Qed.

Lemma orphan_live :
  exists sp, live (abs (g_fdtable g)) p = Some sp /\ akind sp = FD_SOCKET_CONNECTED /\
    apeer sp = -1 /\ inflight (abs (g_fdtable g)) p = arx sp.
Proof.
  pose proof Hor as [(sp & Hs & Hk & Hpp) _]. exists sp.
  split; [apply live_slot; split; [done|by rewrite Hk]|]. split_and!; try done.
  by apply inflight_slot.
Qed.

Lemma orphan_send n bs :
  (length bs <= 1024)%nat -> Forall is_u8 bs ->
  exists r1 g1, dispatch_request (send_req p n bs) g = Some (r1, g1) /\
    err r1 = NETSTACK_ENOTCONN.
Proof.
  intros Hb Hbs. destruct orphan_live as (sp & Hlp & Hk & Hpp & _).
  destruct (serve_op (send_req p n bs) (OpSend p (s32 n) (padded bs)) g Hw) as
    (r1 & g1 & Hd1 & _ & _ & Hs); [by apply wf_send_req|by rewrite decode_send_req, Hp32|].
  exists r1, g1. split; [done|]. cbn [spec_step] in Hs. unfold spec_send, a_is_kind in Hs.
  rewrite Hlp, Hpp, bool_decide_eq_true_2 in Hs by done. cbn in Hs.
  injection Hs as Hr1 _. symmetry in Hr1. by apply decode_res_RErr in Hr1.
Qed.

(** A receive hands out what is left, as far as it was asked for. *)
Lemma orphan_recv n :
  is_s32 n ->
  let k := Z.to_nat (Z.min (Z.max n 0) NETSTACK_MAX_PAYLOAD) in
  let left := inflight (abs (g_fdtable g)) p in
  exists r1 g1, dispatch_request (recv_req p n) g = Some (r1, g1) /\ err r1 = NETSTACK_OK /\
    recv_len_out r1 = Z.of_nat (length (take k left)) /\
    take (Z.to_nat (recv_len_out r1)) (recv_data r1) = take k left.
Proof.
  intros Hn. cbv zeta. destruct orphan_live as (sp & Hlp & Hk & Hpp & ->).
  destruct (serve_op (recv_req p n) (OpRecv p n) g Hw (wf_recv_req p n)) as
    (r1 & g1 & Hd1 & _ & Hwr & Hs); [by rewrite decode_recv_req, Hp32, s32_id|].
  exists r1, g1. split; [done|]. cbn [spec_step] in Hs. unfold spec_recv, a_is_kind in Hs.
  rewrite Hlp, Hpp, bool_decide_eq_true_2 in Hs by done. cbn [negb] in Hs.
  assert (Hr : decode_res (OpRecv p n) r1 =
    RData (take (Z.to_nat (Z.min (Z.max n 0) NETSTACK_MAX_PAYLOAD)) (arx sp))).
  { destruct (arx sp); [rewrite take_nil|]; cbv zeta in Hs; cbn in Hs; by injection Hs. }
  apply decode_res_RData in Hr as (He & Hl & Htk). split; [done|]. split; [|done].
  rewrite <- Htk, length_take. change (recv_data r1) with (send_data r1).
  rewrite length_send_data by done. consts. lia.
Qed.
End orphan.

(** C11. When one end of a connection (two paired sockets to which nothing else
    refers) is closed, its descriptor is free again and the other end keeps the bytes in flight.  From then on, whatever all clients ask of
    the engine, closing that other end excepted, nothing more arrives there: it has
    been handed out the bytes that were in flight, in order, up to those that are left; a
    send on it answers ENOTCONN; a receive succeeds with what is left, as far as it was asked
    for, so with zero bytes, end of file, once all is read; and enough receives of a
    positive size read all. *)
Theorem close_then_eof g s p :
  wf (g_fdtable g) -> connection (abs (g_fdtable g)) s p ->
  exists r' g', dispatch_request (close_req s) g = Some (r', g') /\
    err r' = NETSTACK_OK /\ ~ in_use (g_fdtable g') s /\
    inflight (abs (g_fdtable g')) p = inflight (abs (g_fdtable g)) p /\
    forall rs, Forall wf_req rs -> Forall (fun o => o <> OpClose p) (sockops rs) ->
    exists rs' g2, dispatch_all rs g' = Some (rs', g2) /\
      let left := inflight (abs (g_fdtable g2)) p in
      inflight (abs (g_fdtable g)) p = recv_bytes p (sockops rs) (answers rs rs') ++ left /\
      (forall n bs, (length bs <= 1024)%nat -> Forall is_u8 bs ->
        exists r3 g3, dispatch_request (send_req p n bs) g2 = Some (r3, g3) /\
          err r3 = NETSTACK_ENOTCONN) /\
      (forall n, is_s32 n ->
        let k := Z.to_nat (Z.min (Z.max n 0) NETSTACK_MAX_PAYLOAD) in
        exists r3 g3, dispatch_request (recv_req p n) g2 = Some (r3, g3) /\
          err r3 = NETSTACK_OK /\ recv_len_out r3 = Z.of_nat (length (take k left)) /\
          take (Z.to_nat (recv_len_out r3)) (recv_data r3) = take k left) /\
      (forall n k, 1 <= n <= NETSTACK_MAX_PAYLOAD -> (length left <= k * Z.to_nat n)%nat ->
        let qs := replicate k (recv_req p n) in
        exists qs' g3, dispatch_all qs g2 = Some (qs', g3) /\
          recv_bytes p (sockops qs) (answers qs qs') = left /\
          inflight (abs (g_fdtable g3)) p = []).
Proof.
  intros Hw Hcn. destruct (close_orphans _ s p Hcn) as (a' & Hc & Hss & Hor & Hin).
  assert (Hs : is_fd s) by (apply (member_fd _ _ (proj2 (proj2 Hcn))); set_solver).
  assert (Hs32 : s32 s = s) by (apply s32_id; unfold is_fd in *; consts; word).
  destruct (serve_op (close_req s) (OpClose s) g Hw (wf_close_req s))
    as (r' & g' & Hd & Hw' & _ & Hspec); [by rewrite decode_close_req, Hs32|].
  cbn [spec_step] in Hspec. rewrite Hc in Hspec. injection Hspec as Hres ->.
  exists r', g'. split; [done|]. split.
  { revert Hres. unfold decode_res. by destruct (Z.eqb_spec (err r') NETSTACK_OK). }
  split. { unfold in_use. rewrite Hss. intros (x & [= <-] & Hx). done. }
  split; [done|]. intros rs Hr Hnc.
  destruct (serve_all rs g' Hw' Hr) as (rs' & g2 & Hd2 & Hw2 & _ & Hs2).
  pose proof (orphan_run (sockops rs) _ p Hor Hnc) as Hrun. rewrite Hs2 in Hrun.
  destruct Hrun as [Hor2 Hb]. exists rs', g2. split; [done|]. cbv zeta.
  split; [by rewrite <- Hin|]. split; [intros; by apply orphan_send|].
  split; [intros; by apply orphan_recv|].
  intros n k Hn Hk. destruct (orphan_live g2 p Hor2) as (sp & Hl & Hkd & _ & Hi).
  apply live_slot in Hl as [Hsp _]. rewrite Hi in *.
  destruct (recv_drains k n p g2 sp Hw2 Hsp Hkd Hn) as (qs' & g3 & Hd3 & Hrb & Hleft).
  exists qs', g3. split; [done|]. by rewrite Hrb, Hleft, take_ge, drop_ge.
Qed.

(** Three bytes are in flight when 4 is closed; another client opens a socket, and a
    receive of ten bytes gets the three. *)
Lemma close_then_eof_witness :
  exists g r' g' rs' g2 r1 g1, dispatch_request (close_req 4) g = Some (r', g') /\
    err r' = NETSTACK_OK /\ dispatch_all [socket_req 2 1 0] g' = Some (rs', g2) /\
    dispatch_request (recv_req 5 10) g2 = Some (r1, g1) /\
    err r1 = NETSTACK_OK /\ take (Z.to_nat (recv_len_out r1)) (recv_data r1) = [1; 2; 3].
Proof.
  set (rs0 := setup ++ take 1 transfer).
  assert (Hw0 : Forall wf_req rs0).
  { apply Forall_app. split; [exact wf_setup|]. unfold transfer. wf_requests. }
  destruct (boot_run rs0 Hw0) as (rs0' & g & _ & Hw & Ha).
  destruct (close_then_eof g 4 5) as (r' & g' & Hd & He & _ & _ & Hr).
  - exact Hw.
  - rewrite Ha. apply connection_booted.
    + apply disciplined_no_close, no_close_Forall. vm_compute. reflexivity.
    + exists (mk_asock FD_SOCKET_CONNECTED (2, 1, 0) 0 [] 5 80 []),
        (mk_asock FD_SOCKET_CONNECTED (2, 1, 0) 80 [] 4 0 [1; 2; 3]).
      split; [vm_compute; reflexivity|]. split; [vm_compute; reflexivity|]. repeat split.
  - destruct (Hr [socket_req 2 1 0]) as (rs' & g2 & Hd2 & Hb & _ & Hrecv & _).
    + wf_requests.
    + change (Forall (fun o => o <> OpClose 5) [OpSocket 2 1 0]). constructor; [discriminate|constructor].
    + destruct (Hrecv 10) as (r1 & g1 & Hd1 & He1 & _ & Hn); [unfold is_s32; lia|].
      exists g, r', g', rs', g2, r1, g1. split; [exact Hd|]. split; [exact He|]. split; [exact Hd2|].
      split; [exact Hd1|]. split; [exact He1|]. rewrite Hn.
      assert (Hi : inflight (abs (g_fdtable g)) 5 = [1; 2; 3]) by (rewrite Ha; vm_compute; reflexivity).
      rewrite Hi in Hb. destruct rs' as [|x xs]; cbn in Hb; rewrite <- Hb; reflexivity.
Defined.

