(* ===== verification/FdFindings.v ===== *)
(** * Traces in which the socket table does not do what it means to

    Concrete runs of the engine from boot, each the smallest that shows
    the behaviour.  They delimit the hypotheses of the theorems of
    EngineProps.v: [stale_backlog_self] is why the connection invariant
    excludes the close of a pending client, and [stale_backlog_steals] why a stream
    is one between two sockets that no backlog names. *)

From S2P Require Import Prelude Ring Ipc FdTable FdSpec FdRefine FdLinks FdStream.
From S2P Require Import Engine Exec Client ClientReqs EngineProps.

(** What the clients see when the engine serves a batch from boot. *)
Lemma observed rs xs :
  Forall wf_req rs -> fst (spec_run (sockops rs) (abs g_fdtable_init)) = xs ->
  exists rs' g, dispatch_all rs engine_init = Some (rs', g) /\ answers rs rs' = xs.
Proof.
  intros Hr Hx. destruct (serve_all rs engine_init wf_init Hr) as (rs' & g & Hd & _ & _ & Hs).
  exists rs', g. split; [done|]. change g_fdtable_init with (g_fdtable engine_init) in Hx.
  rewrite Hs in Hx. done.
Qed.

Ltac observe := apply observed; [wf_requests|vm_compute; reflexivity].

(** A listener 3 on port 80 and a client 4 that waits in its backlog. *)
Definition listen_and_connect : list NetstackReq :=
  [socket_req 2 1 0; bind_req 3 80; listen_req 3 5; socket_req 2 1 0; connect_req 4 80].

(** The close of a pending client leaves its descriptor in the backlog.  The next
    accept allocates that very descriptor for the server's end and makes it its
    own peer: what the server sends it receives itself. *)
Theorem stale_backlog_self :
  let rs := listen_and_connect ++
    [close_req 4; accept_req 3; send_req 4 2 [7; 8]; recv_req 4 10] in
  exists rs' g, dispatch_all rs engine_init = Some (rs', g) /\
    answers rs rs' = [RSock 3; ROk; ROk; RSock 4; ROk; ROk; RAccepted 4 80; RSent 2;
                      RData [7; 8]].
Proof. cbv zeta. unfold listen_and_connect. observe. Qed.

(** If the descriptor was given to an unrelated socket in between, the accept
    pairs the server's end with that socket, which never asked to connect: the
    server's send succeeds and the owner of the socket cannot read the data. *)
Theorem stale_backlog_crosstalk :
  let rs := listen_and_connect ++
    [close_req 4; socket_req 2 2 17; accept_req 3; send_req 5 2 [7; 8]; recv_req 4 10] in
  exists rs' g, dispatch_all rs engine_init = Some (rs', g) /\
    answers rs rs' = [RSock 3; ROk; ROk; RSock 4; ROk; ROk; RSock 4; RAccepted 5 80; RSent 2;
                      RErr NETSTACK_ENOTCONN].
Proof. cbv zeta. unfold listen_and_connect. observe. Qed.

(** The socket may by then be one end of a connection with somebody else: the accept
    takes it over.  Client 4 waits at the listener 3 and is closed; the next socket
    gets the same number, connects to the listener 5, is accepted as 6 and sends it a
    byte; then the first listener accepts.  What the socket sends arrives at
    7, which never was its peer, and 6 can go on sending to it. *)
Theorem stale_backlog_steals :
  let rs := listen_and_connect ++
    [close_req 4; socket_req 2 1 0; socket_req 2 1 0; bind_req 5 81; listen_req 5 5; connect_req 4 81;
     accept_req 5; send_req 4 1 [1]; recv_req 6 10;
     accept_req 3; send_req 4 2 [7; 8]; recv_req 6 10; recv_req 7 10; send_req 6 1 [9]; recv_req 4 10] in
  exists rs' g, dispatch_all rs engine_init = Some (rs', g) /\
    answers rs rs' = [RSock 3; ROk; ROk; RSock 4; ROk; ROk; RSock 4; RSock 5; ROk; ROk; ROk;
                      RAccepted 6 81; RSent 1; RData [1];
                      RAccepted 7 80; RSent 2; RErr NETSTACK_EAGAIN; RData [7; 8]; RSent 1; RData [9]].
Proof. cbv zeta. unfold listen_and_connect. observe. Qed.

(** Two sockets bind the same port and both listen on it: [port_in_use] does
    not look at sockets that are bound and not yet listening. *)
Theorem port_bound_twice :
  let rs := [socket_req 2 1 0; socket_req 2 1 0; bind_req 3 80; bind_req 4 80;
             listen_req 3 5; listen_req 4 5] in
  exists rs' g, dispatch_all rs engine_init = Some (rs', g) /\
    answers rs rs' = [RSock 3; RSock 4; ROk; ROk; ROk; ROk].
Proof. cbv zeta. observe. Qed.

(** A client that connected and was not accepted yet reads end of file. *)
Theorem eof_before_accept :
  let rs := listen_and_connect ++ [recv_req 4 10; accept_req 3; send_req 5 1 [9]; recv_req 4 10] in
  exists rs' g, dispatch_all rs engine_init = Some (rs', g) /\
    answers rs rs' = [RSock 3; ROk; ROk; RSock 4; ROk; RData []; RAccepted 5 80; RSent 1;
                      RData [9]].
Proof. cbv zeta. unfold listen_and_connect. observe. Qed.

(** Port 0, which no socket can hold, is reported in use as soon as a client
    connected without binding. *)
Theorem port_zero_in_use :
  let rs := listen_and_connect ++ [socket_req 2 1 0; bind_req 5 0] in
  exists rs' g, dispatch_all rs engine_init = Some (rs', g) /\
    answers rs rs' = [RSock 3; ROk; ROk; RSock 4; ROk; RSock 5; RErr NETSTACK_EADDRINUSE].
Proof. cbv zeta. unfold listen_and_connect. observe. Qed.
