(* ===== verification/ClientProps.v ===== *)
(** * The client library keeps its promises

    Proved for every world that satisfies the laws of Exec.v and, for the
    calls that reach the engine, of Service.v: semaphores are released on
    every path, each task has one reply port of its own and keeps it, and
    an API call has the effect and the result of its socket operation. *)

From S2P Require Import Prelude Ipc FdTable FdSpec Exec Service Client ClientReqs.

(** ** Invariant of the file's globals *)

Record wf_client {W} `{Exec W, ExecViews W} (c : client) (w : W) : Prop := {
  wc_len : length (g_reply_slots c) = 16%nat;
  wc_pair : forall i s, g_reply_slots c !! i = Some s -> owner s = 0 <-> port s = 0;
  wc_owner : forall i j s s', g_reply_slots c !! i = Some s -> g_reply_slots c !! j = Some s' ->
    owner s = owner s' -> owner s <> 0 -> i = j;
  wc_port : forall i j s s', g_reply_slots c !! i = Some s -> g_reply_slots c !! j = Some s' ->
    port s = port s' -> port s <> 0 -> i = j;
  wc_live : forall i s, g_reply_slots c !! i = Some s -> port s <> 0 -> port s ∈ ports w;
  wc_cache : g_engine_port c = 0 \/ g_engine_port c = FindPort w;
  wc_sem1 : g_engine_port_sem_init c = true -> sem_nest w g_engine_port_sem = 0;
  wc_sem2 : g_reply_sem_init c = true -> sem_nest w g_reply_sem = 0
}.

Section run.
Context {W : Type} `{!Exec W, !ExecViews W, !ExecLaws W}.
Implicit Types (c : client) (w : W).

(** Only calls that concern the caller were made. *)
Definition local : W -> W -> Prop := rtc (fun w w' => exists f, local_call f /\ w' = f w).

Lemma local_1 f w : local_call f -> local w (f w).
Proof. intros. apply rtc_once. eauto. Qed.

Lemma local_r f w w' : local w w' -> local_call f -> local w (f w').
Proof. intros. eapply rtc_r; [done|]. eauto. Qed.

Lemma local_trans w1 w2 w3 : local w1 w2 -> local w2 w3 -> local w1 w3.
Proof. unfold local. intros. by etrans. Qed.

Lemma local_FindTask w w' : local w w' -> FindTask w' = FindTask w.
Proof. induction 1 as [|? ? ? (f & Hf & ->) _ IH]; [done|]. by rewrite IH, local_task. Qed.

Lemma local_FindPort w w' : local w w' -> FindPort w' = FindPort w.
Proof.
  induction 1 as [|? ? ? (f & Hf & ->) _ IH]; [done|]. by rewrite IH, local_find_port.
Qed.

(** A world that differs in nothing the invariant speaks about. *)
Lemma wf_client_world c w w' :
  wf_client c w -> ports w ⊆ ports w' -> FindPort w' = FindPort w ->
  (forall s, sem_nest w' s = sem_nest w s) -> wf_client c w'.
Proof.
  intros [] Hp Hf Hs. split; try done.
  - intros i s Hi Hn. apply Hp. eauto.
  - by rewrite Hf.
  - rewrite Hs. done.
  - rewrite Hs. done.
Qed.

Lemma init_engine_sem_run c w :
  wf_client c w ->
  exists w', init_engine_sem (c, w) =
      Some (tt, (mk_client true (g_engine_port c) (g_reply_sem_init c) (g_reply_slots c), w')) /\
    wf_client (mk_client true (g_engine_port c) (g_reply_sem_init c) (g_reply_slots c)) w' /\
    local w w' /\ ports w' = ports w.
Proof.
  intros Hw. unfold init_engine_sem, mbind, M_bind, get_c.
  destruct (g_engine_port_sem_init c) eqn:Hi.
  - exists w. split; [destruct c; cbn in *; by subst|].
    split; [destruct c; cbn in *; by subst|]. split; [apply rtc_refl|done].
  - eexists. split; [reflexivity|]. split; [|split; [eauto using local_1 with exec|apply init_ports]].
    destruct Hw. split; cbn [g_reply_slots g_engine_port g_engine_port_sem_init g_reply_sem_init];
      try done.
    + intros i s. rewrite init_ports. eauto.
    + by rewrite local_find_port by eauto with exec.
    + intros _. rewrite init_nest. by rewrite decide_True.
    + intros. rewrite init_nest. rewrite decide_False by done. auto.
Qed.

Lemma init_reply_sem_run c w :
  wf_client c w ->
  exists w', init_reply_sem (c, w) =
      Some (tt, (mk_client (g_engine_port_sem_init c) (g_engine_port c) true (g_reply_slots c), w')) /\
    wf_client (mk_client (g_engine_port_sem_init c) (g_engine_port c) true (g_reply_slots c)) w' /\
    local w w' /\ ports w' = ports w.
Proof.
  intros Hw. unfold init_reply_sem, mbind, M_bind, get_c.
  destruct (g_reply_sem_init c) eqn:Hi.
  - exists w. split; [destruct c; cbn in *; by subst|].
    split; [destruct c; cbn in *; by subst|]. split; [apply rtc_refl|done].
  - eexists. split; [reflexivity|]. split; [|split; [eauto using local_1 with exec|apply init_ports]].
    destruct Hw. split; cbn [g_reply_slots g_engine_port g_engine_port_sem_init g_reply_sem_init];
      try done.
    + intros i s. rewrite init_ports. eauto.
    + by rewrite local_find_port by eauto with exec.
    + intros. rewrite init_nest. rewrite decide_False by done. auto.
    + intros _. rewrite init_nest. by rewrite decide_True.
Qed.

(** Obtain and release of one semaphore around local work cancel. *)
Lemma sem_balanced s w w' :
  (forall s', sem_nest w' s' = sem_nest (ObtainSemaphore s w) s') ->
  forall s', sem_nest (ReleaseSemaphore s w') s' = sem_nest w s'.
Proof.
  intros Hw s'. rewrite release_nest, Hw, obtain_nest. case_decide; lia.
Qed.

(** ** The engine port *)

(** The port [ensure_engine_port] answers. *)
Definition engine_port_of c w : Z :=
  if g_engine_port c =? 0 then FindPort w else g_engine_port c.

Lemma engine_port_of_current c w :
  wf_client c w -> engine_port_of c w = FindPort w.
Proof.
  intros Hw. unfold engine_port_of. destruct (Z.eqb_spec (g_engine_port c) 0); [done|].
  by destruct (wc_cache _ _ Hw).
Qed.

Lemma ensure_engine_port_run c w :
  wf_client c w ->
  exists c' w', ensure_engine_port (c, w) = Some (FindPort w, (c', w')) /\
    wf_client c' w' /\ local w w' /\ ports w' = ports w /\
    g_reply_slots c' = g_reply_slots c /\ g_reply_sem_init c' = g_reply_sem_init c /\
    g_engine_port c' = FindPort w.
Proof.
  intros Hw. unfold ensure_engine_port.
  destruct (init_engine_sem_run c w Hw) as (w1 & Hi & Hw1 & Hl1 & Hp1).
  rewrite (bind_some _ _ _ _ _ Hi).
  pose proof (engine_port_of_current c w Hw) as Hep.
  pose proof (local_FindPort _ _ Hl1) as Hf1.
  assert (Hfo : FindPort (ObtainSemaphore g_engine_port_sem w1) = FindPort w)
    by (rewrite local_find_port by eauto with exec; done).
  set (w2 := ReleaseSemaphore g_engine_port_sem (ObtainSemaphore g_engine_port_sem w1)).
  exists (mk_client true (FindPort w) (g_reply_sem_init c) (g_reply_slots c)), w2.
  split.
  { unfold mbind, M_bind, os_do, get_c, put_c, os_ask, mret, M_ret.
    cbn [g_engine_port]. unfold engine_port_of in Hep.
    destruct (Z.eqb_spec (g_engine_port c) 0) as [H0|H0]; cbn.
    - unfold set_engine_port. cbn. rewrite Hfo. done.
    - by rewrite Hep. }
  assert (Hw2 : wf_client (mk_client true (g_engine_port c) (g_reply_sem_init c) (g_reply_slots c)) w2).
  { eapply wf_client_world; [done|unfold w2; by rewrite release_ports, obtain_ports| |].
    - unfold w2. by rewrite !local_find_port by eauto with exec.
    - by apply sem_balanced. }
  split.
  { destruct Hw2. split; cbn in *; try done. right. unfold w2.
    by rewrite !local_find_port by eauto with exec. }
  split; [unfold w2; eauto using local_r with exec|].
  split; [unfold w2; by rewrite release_ports, obtain_ports|]. done.
Qed.

(** ** The reply port *)

(** Index of the slot of an owner. *)
Definition slot_of (o : Z) (l : list reply_slot) : option nat :=
  fst <$> list_find (fun s => owner s = o) l.

Lemma find_owner_run o c w : forall n i,
  (i + n = length (g_reply_slots c))%nat ->
  find_owner o n (Z.of_nat i) (c, w) =
  Some (match slot_of o (drop i (g_reply_slots c)) with
        | Some j => Z.of_nat (i + j) | None => -1 end, (c, w)).
Proof.
  induction n as [|n IH]; intros i Hi.
  { rewrite drop_ge by lia. done. }
  destruct (lookup_lt_is_Some_2 (g_reply_slots c) i ltac:(lia)) as [s Hs].
  cbn [find_owner]. unfold mbind at 1, M_bind at 1, get_c.
  assert (Hlk : liftO (lookupZ (g_reply_slots c) (Z.of_nat i)) (c, w) = Some (s, (c, w))).
  { apply liftO_run. by rewrite lookupZ_nat, Nat2Z.id by lia. }
  rewrite (bind_some _ _ _ _ _ Hlk). rewrite (drop_S _ s) by done.
  unfold slot_of. cbn [list_find].
  destruct (Z.eqb_spec (owner s) o) as [Ho|Ho].
  - rewrite decide_True by done. cbn. by rewrite Nat.add_0_r.
  - rewrite decide_False by done. replace (Z.of_nat i + 1) with (Z.of_nat (S i)) by lia.
    rewrite IH by lia. unfold slot_of.
    destruct (list_find _ (drop (S i) _)) as [[j x]|]; cbn; [|done]. do 3 f_equal. lia.
Qed.

Lemma slot_of_Some o l j :
  slot_of o l = Some j -> exists s, l !! j = Some s /\ owner s = o.
Proof.
  unfold slot_of. destruct (list_find _ _) as [[j' s]|] eqn:Hf; [|done].
  intros [= <-]. apply list_find_Some in Hf as (Hj & Ho & _). eauto.
Qed.

Lemma slot_of_None o l j s : slot_of o l = None -> l !! j = Some s -> owner s <> o.
Proof.
  unfold slot_of. destruct (list_find _ _) as [|] eqn:Hf; [done|]. intros _ Hj.
  apply list_find_None in Hf. rewrite Forall_lookup in Hf. eauto.
Qed.

(** A new reply port in a free slot. *)
Lemma wf_client_new_slot c w j me p s0 :
  wf_client c w -> g_reply_slots c !! j = Some s0 -> owner s0 = 0 ->
  slot_of me (g_reply_slots c) = None -> me <> 0 -> p <> 0 -> p ∉ ports w ->
  forall w', ports w' = {[p]} ∪ ports w -> FindPort w' = FindPort w ->
  (forall s, sem_nest w' s = sem_nest w s) ->
  wf_client (set_slots (<[j := mk_reply_slot me p]> (g_reply_slots c)) c) w'.
Proof.
  intros Hw Hj H0 Hme Hnz Hp Hfresh w' Hps Hf Hs.
  pose proof (lookup_lt_Some _ _ _ Hj) as Hjl.
  assert (Hget : forall i s, <[j := mk_reply_slot me p]> (g_reply_slots c) !! i = Some s ->
    (i = j /\ s = mk_reply_slot me p) \/ (i <> j /\ g_reply_slots c !! i = Some s)).
  { intros i s Hi. destruct (decide (j = i)) as [->|].
    - rewrite list_lookup_insert_eq in Hi by done. left. naive_solver.
    - rewrite list_lookup_insert_ne in Hi by done. naive_solver. }
  destruct Hw as [Hl H1 H2 H3 H4 H5 H6 H7]. split; cbn [set_slots g_reply_slots g_engine_port
    g_engine_port_sem_init g_reply_sem_init].
  - by rewrite length_insert.
  - intros i s [[-> ->]|[_ Hi]]%Hget; [cbn; split; congruence|eauto].
  - intros i k s s' [[-> ->]|[Hij Hi]]%Hget [[-> ->]|[Hkj Hk]]%Hget Heq Hn; cbn in *;
      [done| | |eauto].
    + symmetry in Heq. by destruct (slot_of_None _ _ _ _ Hme Hk).
    + by destruct (slot_of_None _ _ _ _ Hme Hi).
  - intros i k s s' [[-> ->]|[Hij Hi]]%Hget [[-> ->]|[Hkj Hk]]%Hget Heq Hn; cbn in *;
      [done| | |eauto].
    + exfalso. apply Hfresh. rewrite Heq. apply (H4 k s' Hk). congruence.
    + exfalso. apply Hfresh. rewrite <- Heq. apply (H4 i s Hi). congruence.
  - intros i s [[-> ->]|[_ Hi]]%Hget Hn; rewrite Hps; cbn.
    + apply elem_of_union_l. by apply elem_of_singleton.
    + apply elem_of_union_r. eauto.
  - by rewrite Hf.
  - rewrite Hs. done.
  - rewrite Hs. done.
Qed.

(** The reply port of the running task. *)
Definition reply_port_spec (me : Z) (old : gset Z) (l : list reply_slot)
    (p : Z) (l' : list reply_slot) : Prop :=
  match slot_of me l with
  | Some j => (exists s, l !! j = Some s /\ p = port s /\ p <> 0) /\ l' = l
  | None =>
    match slot_of 0 l with
    | None => p = 0 /\ l' = l
    | Some j => (p = 0 /\ l' = l) \/
                (p <> 0 /\ p ∉ old /\ l' = <[j := mk_reply_slot me p]> l)
    end
  end.

Lemma find_owner_start o c w :
  length (g_reply_slots c) = 16%nat ->
  find_owner o 16 0 (c, w) =
  Some (match slot_of o (g_reply_slots c) with
        | Some j => Z.of_nat j | None => -1 end, (c, w)).
Proof. intros Hl. change 0 with (Z.of_nat 0). rewrite find_owner_run by lia. done. Qed.

Lemma reply_slot_read j c w s :
  g_reply_slots c !! j = Some s ->
  liftO (lookupZ (g_reply_slots c) (Z.of_nat j)) (c, w) = Some (s, (c, w)).
Proof. intros Hs. apply liftO_run. by rewrite lookupZ_nat, Nat2Z.id by lia. Qed.

Lemma claim_slot_run c w j me s0 :
  wf_client c w -> g_reply_slots c !! j = Some s0 -> owner s0 = 0 ->
  slot_of me (g_reply_slots c) = None -> me <> 0 ->
  exists p c' w', claim_slot me (Z.of_nat j) (c, ObtainSemaphore g_reply_sem w) =
      Some (p, (c', w')) /\
    wf_client c' w' /\ local w w' /\ g_engine_port c' = g_engine_port c /\
    ((p = 0 /\ g_reply_slots c' = g_reply_slots c) \/
     (p <> 0 /\ p ∉ ports w /\
      g_reply_slots c' = <[j := mk_reply_slot me p]> (g_reply_slots c))).
Proof.
  intros Hw Hj H0 Hme Hnz. unfold claim_slot. unfold mbind at 1, M_bind at 1, os_run.
  set (w2 := ObtainSemaphore g_reply_sem w).
  assert (Hpo : ports w2 = ports w) by (unfold w2; by rewrite obtain_ports).
  pose proof (alloc_fresh w2) as Hfr. pose proof (alloc_null w2) as Hnl.
  pose proof (alloc_nest w2) as Hns.
  pose proof (local_find_port _ w2 lc_alloc) as Hfp.
  pose proof (local_r _ _ _ (local_1 _ w (lc_obtain g_reply_sem)) lc_alloc) as Hla.
  cbv beta in Hfp, Hla. fold w2 in Hla.
  destruct (AllocPort w2) as [p w3]. cbn [fst snd] in *.
  assert (Hpo3 : FindPort (ReleaseSemaphore g_reply_sem w3) = FindPort w).
  { rewrite local_find_port by eauto with exec. rewrite Hfp. unfold w2.
    by rewrite local_find_port by eauto with exec. }
  assert (Hlr3 : local w (ReleaseSemaphore g_reply_sem w3)) by eauto using local_r with exec.
  assert (Hs3 : forall s', sem_nest (ReleaseSemaphore g_reply_sem w3) s' = sem_nest w s')
    by (by apply sem_balanced).
  destruct (Z.eqb_spec p 0) as [Hp|Hp].
  { exists 0, c, (ReleaseSemaphore g_reply_sem w3). split; [done|]. split; [|by auto].
    eapply wf_client_world; [exact Hw| |done|done]. by rewrite release_ports, Hnl, Hpo. }
  destruct (Hfr Hp) as [Hf1 Hf2]. rewrite Hpo in Hf1, Hf2.
  unfold mbind at 1, M_bind at 1, get_c.
  assert (Hst : liftO (storeZ (g_reply_slots c) (Z.of_nat j) (mk_reply_slot me p))
    (c, w3) = Some (<[j := mk_reply_slot me p]> (g_reply_slots c), (c, w3))).
  { apply liftO_run. pose proof (lookup_lt_Some _ _ _ Hj).
    rewrite storeZ_run by lia. by rewrite Nat2Z.id. }
  rewrite (bind_some _ _ _ _ _ Hst).
  exists p, (set_slots (<[j := mk_reply_slot me p]> (g_reply_slots c)) c),
    (ReleaseSemaphore g_reply_sem w3). split; [done|]. split.
  { eapply wf_client_new_slot; eauto. by rewrite release_ports, Hf2. }
  split; [done|]. split; [done|]. by right.
Qed.

Lemma ensure_reply_port_run c w :
  wf_client c w ->
  exists p c' w', ensure_reply_port (c, w) = Some (p, (c', w')) /\
    wf_client c' w' /\ local w w' /\ g_engine_port c' = g_engine_port c /\
    reply_port_spec (FindTask w) (ports w) (g_reply_slots c) p (g_reply_slots c').
Proof.
  intros Hw. unfold ensure_reply_port. unfold mbind at 1, M_bind at 1, os_ask.
  destruct (init_reply_sem_run c w Hw) as (w1 & Hi & Hw1 & Hl1 & Hp1).
  rewrite (bind_some _ _ _ _ _ Hi). clear Hi.
  set (c1 := mk_client _ _ true _) in *.
  unfold mbind at 1, M_bind at 1, os_do at 1. set (w2 := ObtainSemaphore g_reply_sem w1).
  assert (Hl2 : local w w2) by (unfold w2; eauto using local_r with exec).
  assert (Hrel : wf_client c1 (ReleaseSemaphore g_reply_sem w2)).
  { eapply wf_client_world; [done|unfold w2; by rewrite release_ports, obtain_ports| |].
    - unfold w2. by rewrite !local_find_port by eauto with exec.
    - by apply sem_balanced. }
  assert (Hlr : local w (ReleaseSemaphore g_reply_sem w2)) by eauto using local_r with exec.
  rewrite (bind_some _ _ _ _ _ (find_owner_start _ c1 w2 (wc_len _ _ Hw1))).
  unfold reply_port_spec. change (g_reply_slots c1) with (g_reply_slots c).
  destruct (slot_of (FindTask w) (g_reply_slots c)) as [j|] eqn:Hme.
  { destruct (slot_of_Some _ _ _ Hme) as (s & Hs & Ho).
    rewrite (proj2 (Z.leb_le _ _)) by lia. unfold mbind at 1, M_bind at 1, get_c.
    rewrite (bind_some _ _ _ _ _ (reply_slot_read j c1 w2 s Hs)).
    exists (port s), c1, (ReleaseSemaphore g_reply_sem w2). split; [done|].
    do 3 (split; [done|]). split; [|done]. exists s. split; [done|]. split; [done|].
    rewrite <- (wc_pair _ _ Hw _ _ Hs), Ho. apply find_task_nonnull. }
  cbn [Z.leb Z.compare].
  rewrite (bind_some _ _ _ _ _ (find_owner_start 0 c1 w2 (wc_len _ _ Hw1))).
  change (g_reply_slots c1) with (g_reply_slots c).
  destruct (slot_of 0 (g_reply_slots c)) as [j|] eqn:H0; cycle 1.
  { cbn [Z.leb Z.compare]. exists 0, c1, (ReleaseSemaphore g_reply_sem w2). done. }
  rewrite (proj2 (Z.leb_le _ _)) by lia.
  destruct (slot_of_Some _ _ _ H0) as (s & Hs & Ho).
  destruct (claim_slot_run c1 w1 j (FindTask w) s) as (p & c' & w' & Hc & Hw' & Hl' & He & Hsp);
    [done..|apply find_task_nonnull|].
  exists p, c', w'. split; [exact Hc|]. split; [done|].
  split; [exact (local_trans _ _ _ Hl1 Hl')|]. split; [done|]. by rewrite Hp1 in Hsp.
Qed.

(** ** Shutdown *)

Definition clear_slot (s : reply_slot) : reply_slot :=
  if port s =? 0 then s else mk_reply_slot 0 0.

(** The body of the shutdown loop on the slot [i]. *)
Lemma free_slot_step n i c w s :
  g_reply_slots c !! i = Some s ->
  free_slots (S n) (Z.of_nat i) (c, w) =
  free_slots n (Z.of_nat (S i))
    (set_slots (<[i := clear_slot s]> (g_reply_slots c)) c,
     if port s =? 0 then w else FreePort (port s) w).
Proof.
  intros Hs. pose proof (lookup_lt_Some _ _ _ Hs) as Hi. cbn [free_slots].
  unfold mbind at 1, M_bind at 1, get_c.
  rewrite (bind_some _ _ _ _ _ (reply_slot_read i c w s Hs)).
  replace (Z.of_nat i + 1) with (Z.of_nat (S i)) by lia.
  unfold clear_slot. destruct (port s =? 0).
  - unfold mbind at 1, M_bind at 1. cbn [mret M_ret]. unfold mret, M_ret.
    rewrite list_insert_id by done. by destruct c.
  - unfold mbind, M_bind, os_do, put_c, liftO.
    rewrite storeZ_run by lia. by rewrite Nat2Z.id.
Qed.

Lemma free_slots_run : forall n i c w,
  (i + n = length (g_reply_slots c))%nat ->
  exists w', free_slots n (Z.of_nat i) (c, w) =
      Some (tt, (set_slots (take i (g_reply_slots c) ++
                            (clear_slot <$> drop i (g_reply_slots c))) c, w')) /\
    local w w' /\ (forall s, sem_nest w' s = sem_nest w s) /\
    forall p, p ∈ ports w' <->
      p ∈ ports w /\ ~ (p <> 0 /\ p ∈ port <$> drop i (g_reply_slots c)).
Proof.
  induction n as [|n IH]; intros i c w Hi.
  { exists w. rewrite drop_ge, take_ge by lia. cbn. rewrite app_nil_r.
    split; [by destruct c|]. split; [apply rtc_refl|]. split; [done|].
    intros p. rewrite elem_of_nil. tauto. }
  destruct (lookup_lt_is_Some_2 (g_reply_slots c) i ltac:(lia)) as [s Hs].
  rewrite (free_slot_step n i c w s Hs).
  set (w1 := if port s =? 0 then w else FreePort (port s) w).
  assert (Hl1 : local w w1) by (unfold w1; destruct (port s =? 0);
    [apply rtc_refl|eauto using local_1 with exec]).
  assert (Hn1 : forall s', sem_nest w1 s' = sem_nest w s')
    by (intros s'; unfold w1; destruct (port s =? 0); [done|apply free_nest]).
  assert (Hp1 : forall p, p ∈ ports w1 <-> p ∈ ports w /\ ~ (p <> 0 /\ p = port s)).
  { intros p. unfold w1. destruct (Z.eqb_spec (port s) 0) as [H0|H0].
    - split; [|tauto]. intros Hp. split; [done|]. intros [Hp0 ->]. done.
    - rewrite free_port, elem_of_difference, elem_of_singleton.
      split; [tauto|]. intros [Hp Hn]. split; [done|]. intros ->. by apply Hn. }
  destruct (IH (S i) (set_slots (<[i := clear_slot s]> (g_reply_slots c)) c) w1)
    as (w' & Hr & Hl & Hn & Hp); [cbn; rewrite length_insert; lia|].
  cbn [set_slots g_reply_slots] in *. pose proof (lookup_lt_Some _ _ _ Hs) as Hil.
  exists w'. split.
  { rewrite Hr. do 3 f_equal. unfold set_slots. cbn. f_equal.
    rewrite (take_S_r _ _ (clear_slot s)) by (by apply list_lookup_insert_eq).
    rewrite take_insert_ge, drop_insert_lt by lia. rewrite (drop_S _ s i) by done.
    cbn. by rewrite <- app_assoc. }
  split; [exact (local_trans _ _ _ Hl1 Hl)|]. split; [intros; by rewrite Hn, Hn1|].
  intros p. rewrite Hp, Hp1, drop_insert_lt, (drop_S _ s i) by (done || lia).
  cbn. rewrite elem_of_cons. tauto.
Qed.

(** The task owns the slot that holds its reply port. *)
Lemma reply_port_owned me old l p l' :
  reply_port_spec me old l p l' -> p <> 0 ->
  exists j, slot_of me l' = Some j /\ l' !! j = Some (mk_reply_slot me p).
Proof.
  unfold reply_port_spec. destruct (slot_of me l) as [j|] eqn:Hme.
  - intros [(s & Hs & -> & _) ->] _. exists j. split; [done|].
    destruct (slot_of_Some _ _ _ Hme) as (s' & Hs' & Ho).
    rewrite Hs in Hs'. injection Hs' as <-. rewrite Hs, <- Ho. by destruct s.
  - destruct (slot_of 0 l) as [j|] eqn:H0; [|tauto]. intros [[-> _]|(_ & _ & ->)]; [done|].
    intros Hp. destruct (slot_of_Some _ _ _ H0) as (s & Hs & _).
    pose proof (lookup_lt_Some _ _ _ Hs) as Hj. exists j.
    split; [|by apply list_lookup_insert_eq].
    unfold slot_of. rewrite (proj2 (list_find_Some _ _ j (mk_reply_slot me p))); [done|].
    split; [by apply list_lookup_insert_eq|]. split; [done|]. intros i x Hi Hij Hx.
    rewrite list_lookup_insert_ne in Hi by lia. by apply (slot_of_None _ _ _ _ Hme Hi).
Qed.

Lemma reply_port_again me old old' l p l' p2 l2 :
  reply_port_spec me old l p l' -> p <> 0 -> reply_port_spec me old' l' p2 l2 ->
  p2 = p /\ l2 = l'.
Proof.
  intros H1 Hp H2. destruct (reply_port_owned _ _ _ _ _ H1 Hp) as (j & Hj & Hl).
  unfold reply_port_spec in H2. rewrite Hj in H2. destruct H2 as [(s & Hs & -> & _) ->].
  by simplify_eq.
Qed.
End run.

(** Every task gets a reply port of its own: [ensure_reply_port] always
    returns with both semaphores released; a task that has a port gets the same
    one again; a new one is a fresh port in a free slot; NULL means that all 16
    slots belong to other tasks or that the port could not be allocated; and no
    other task's slot holds the port. *)
Theorem reply_port_private {W} `{ExecLaws W} (c : client) (w : W) :
  wf_client c w ->
  exists p c' w', ensure_reply_port (c, w) = Some (p, (c', w')) /\ wf_client c' w' /\
    reply_port_spec (FindTask w) (ports w) (g_reply_slots c) p (g_reply_slots c') /\
    (p <> 0 ->
     (forall i s, g_reply_slots c' !! i = Some s -> port s = p -> owner s = FindTask w) /\
     exists c2 w2, ensure_reply_port (c', w') = Some (p, (c2, w2)) /\
       g_reply_slots c2 = g_reply_slots c').
Proof.
  intros Hw. destruct (ensure_reply_port_run c w Hw) as (p & c' & w' & Hr & Hw' & Hl & _ & Hs).
  exists p, c', w'. split; [done|]. split; [done|]. split; [done|]. intros Hp. split.
  - intros i s Hi Hps. destruct (reply_port_owned _ _ _ _ _ Hs Hp) as (j & _ & Hj).
    assert (i = j) as -> by (by apply (wc_port _ _ Hw' i j s _ Hi Hj); rewrite Hps).
    rewrite Hj in Hi. by injection Hi as <-.
  - destruct (ensure_reply_port_run c' w' Hw') as (p2 & c2 & w2 & Hr2 & _ & _ & _ & Hs2).
    rewrite (local_FindTask _ _ Hl) in Hs2.
    destruct (reply_port_again _ _ _ _ _ _ _ _ Hs Hp Hs2) as [-> Heq]. eauto.
Qed.

Lemma client_shutdown_run {W} `{ExecLaws W} (c : client) (w : W) :
  wf_client c w ->
  exists c' w', netstack_client_shutdown (c, w) = Some (tt, (c', w')) /\ wf_client c' w' /\
    if g_reply_sem_init c then
      g_reply_slots c' = replicate 16 (mk_reply_slot 0 0) /\ g_engine_port c' = 0 /\
      forall p, p ∈ ports w' <->
        p ∈ ports w /\ ~ (p <> 0 /\ p ∈ port <$> g_reply_slots c)
    else c' = c /\ w' = w.
Proof.
  intros Hw. unfold netstack_client_shutdown. unfold mbind at 1, M_bind at 1, get_c.
  destruct (g_reply_sem_init c) eqn:Hi; cbn [negb]; [|by exists c, w].
  unfold mbind at 1, M_bind at 1, os_do at 1.
  set (w1 := ObtainSemaphore g_reply_sem w).
  destruct (free_slots_run 16 0 c w1) as (w2 & Hr & Hl & Hn & Hp).
  { by rewrite (wc_len _ _ Hw). }
  change (Z.of_nat 0) with 0 in Hr. rewrite (bind_some _ _ _ _ _ Hr).
  rewrite drop_0 in Hp, Hr |- *.
  assert (Hsl : take 0 (g_reply_slots c) ++ (clear_slot <$> g_reply_slots c) =
    replicate 16 (mk_reply_slot 0 0)).
  { symmetry. apply replicate_as_Forall. split; [rewrite length_app, length_fmap, (wc_len _ _ Hw); done|].
    cbn. apply Forall_fmap, Forall_lookup. intros i s Hs. unfold compose, clear_slot.
    destruct (Z.eqb_spec (port s) 0) as [Hz|]; [|done].
    pose proof (proj2 (wc_pair _ _ Hw i s Hs) Hz). destruct s; cbn in *; by subst. }
  rewrite Hsl. eexists _, (ReleaseSemaphore g_reply_sem w2). split; [reflexivity|].
  assert (Hf : FindPort (ReleaseSemaphore g_reply_sem w2) = FindPort w).
  { rewrite local_find_port by eauto with exec. rewrite (local_FindPort _ _ Hl). unfold w1.
    by rewrite local_find_port by eauto with exec. }
  assert (Hs : forall s, sem_nest (ReleaseSemaphore g_reply_sem w2) s = sem_nest w s)
    by (by apply sem_balanced).
  split.
  { destruct Hw. split; cbn [set_slots set_engine_port g_reply_slots g_engine_port
      g_engine_port_sem_init g_reply_sem_init]; rewrite ?Hs; try done; try (by left).
    - intros i s Hj. apply lookup_replicate in Hj as [-> _]. done.
    - intros i j s s' Hj. apply lookup_replicate in Hj as [-> _]. done.
    - intros i j s s' Hj. apply lookup_replicate in Hj as [-> _]. done.
    - intros i s Hj. apply lookup_replicate in Hj as [-> _]. done. }
  split; [done|]. split; [done|]. intros p. rewrite release_ports, Hp. unfold w1.
  by rewrite obtain_ports.
Qed.

(** [netstack_client_shutdown] gives back exactly the reply ports of the
    table, each once, empties the table, forgets the engine port and leaves the
    semaphores as they were; before the first call of the library it does
    nothing. *)
Theorem client_shutdown_frees {W} `{ExecLaws W} (c : client) (w : W) :
  wf_client c w ->
  exists c' w', netstack_client_shutdown (c, w) = Some (tt, (c', w')) /\ wf_client c' w' /\
    if g_reply_sem_init c then
      g_reply_slots c' = replicate 16 (mk_reply_slot 0 0) /\ g_engine_port c' = 0 /\
      forall p, p ∈ ports w' <->
        p ∈ ports w /\ ~ (p <> 0 /\ p ∈ port <$> g_reply_slots c)
    else c' = c /\ w' = w.
Proof. apply client_shutdown_run. Qed.
