(* ===== verification/ClientApi.v ===== *)
(** * API calls refine the socket specification

    The calls of socket_ipc.c as one family, and the theorem that each has
    the effect and the result of one operation of the socket specification
    whenever the engine can be reached, in every world that satisfies the
    interfaces of Exec.v and Service.v. *)

From S2P Require Import Prelude Ipc FdTable FdSpec Exec Service Client ClientReqs ClientProps.

(** ** Calling the engine *)

Section call.
Context {W : Type} `{!Exec W, !ExecViews W, !Service W, !ExecLaws W, !ServiceLaws W}.
Context (os : sdk).
Implicit Types (c : client) (w : W).

Lemma local_service w w' : local w w' -> up w -> up w' /\ sockets w' = sockets w.
Proof.
  induction 1 as [|w1 w2 w3 (f & Hf & ->) _ IH]; [done|]. intros Hu.
  destruct IH as [Hu' Hs]; [by apply local_up|]. by rewrite Hs, local_sockets.
Qed.

Lemma served_from o w1 w w' x :
  sockets w1 = sockets w -> served o w1 w' x -> served o w w' x.
Proof. unfold served. by intros ->. Qed.

(** The task owns a reply port. *)
Definition has_port c w : Prop := is_Some (slot_of (FindTask w) (g_reply_slots c)).

(** What a request that reached the engine brings back. *)
Definition replied (r : NetstackReq) w (r' : NetstackReq) w' : Prop :=
  wf_req r' /\
  match decode_op r with
  | Some o => served o w w' (decode_res o r')
  | None => interferes (sockets w) (sockets w') /\ (op r = NETSTACK_OP_PING -> pinged r r')
  end.

Lemma ipc_call_run r c w :
  wf_client c w -> up w -> wf_req r -> op r <> NETSTACK_OP_SHUTDOWN ->
  exists rc r' c' w', netstack_ipc_call os r (c, w) = Some ((rc, r'), (c', w')) /\
    wf_client c' w' /\ up w' /\ FindPort w' = FindPort w /\ FindTask w' = FindTask w /\
    (FindPort w <> 0 -> has_port c w -> rc = 0) /\
    ((rc = -1 /\ sockets w' = sockets w) \/
     (rc = 0 /\ has_port c' w' /\ replied r w r' w')).
Proof.
  intros Hw Hu Hr Hop. unfold netstack_ipc_call.
  destruct (ensure_engine_port_run c w Hw) as (c1 & w1 & H1 & Hw1 & Hl1 & Hp1 & Hs1 & _ & He1).
  rewrite (bind_some _ _ _ _ _ H1). destruct (local_service _ _ Hl1 Hu) as [Hu1 Hk1].
  pose proof (local_FindTask _ _ Hl1) as Ht1. pose proof (local_FindPort _ _ Hl1) as Hf1.
  destruct (Z.eqb_spec (FindPort w) 0) as [H0|H0].
  { exists (-1), r, c1, w1. split; [done|]. do 4 (split; [done|]). split; [done|]. by left. }
  destruct (ensure_reply_port_run c1 w1 Hw1) as (p & c2 & w2 & H2 & Hw2 & Hl2 & He2 & Hsp).
  rewrite (bind_some _ _ _ _ _ H2). destruct (local_service _ _ Hl2 Hu1) as [Hu2 Hk2].
  pose proof (local_FindTask _ _ Hl2) as Ht2. pose proof (local_FindPort _ _ Hl2) as Hf2.
  assert (Hhas : has_port c w -> p <> 0).
  { unfold has_port. intros [j Hj]. unfold reply_port_spec in Hsp.
    rewrite Hs1, Ht1, Hj in Hsp. naive_solver. }
  destruct (Z.eqb_spec p 0) as [Hp|Hp].
  { exists (-1), r, c2, w2. split; [done|]. do 2 (split; [done|]). split; [congruence|].
    split; [congruence|]. split; [tauto|]. left. split; [done|congruence]. }
  set (r1 := set_msg _ r). unfold mbind, M_bind, os_run.
  pose proof (exchange_serves (FindPort w) p r1 w2 Hu2) as Hx.
  pose proof (exchange_nest (FindPort w) p r1 w2) as Hxn.
  pose proof (exchange_ports (FindPort w) p r1 w2) as Hxp.
  pose proof (exchange_task (FindPort w) p r1 w2) as Hxt.
  destruct (Exchange (FindPort w) p r1 w2) as [r' w'] eqn:Hex. cbn [snd] in *.
  destruct Hx as (Hu' & Hf' & Hr' & Hrep); [congruence|done|done|by apply wf_set_msg|done|].
  exists 0, r', c2, w'. split; [done|]. split.
  { eapply wf_client_world; [exact Hw2|by rewrite Hxp|done|done]. }
  split; [done|]. split; [congruence|]. split; [congruence|]. split; [done|]. right.
  split; [done|]. split.
  { unfold has_port. rewrite Hxt, Ht2.
    destruct (reply_port_owned _ _ _ _ _ Hsp Hp) as (j & Hj & _). eauto. }
  split; [done|]. change (decode_op r1) with (decode_op r) in Hrep.
  destruct (decode_op r) as [o|]; [|by rewrite Hk2, Hk1 in Hrep].
  eapply served_from; [|exact Hrep]. congruence.
Qed.

(** ** The calls *)

Inductive apicall :=
  | ASocket (domain type proto : Z)
  | AClose (sock : Z)
  | ABind (sock port : Z)
  | AListen (sock backlog : Z)
  | AConnect (sock port : Z)
  | AAccept (sock : Z)
  | ASend (sock : Z) (buf : list Z) (len : Z)
  | ARecv (sock : Z) (buf : list Z) (max : Z).

(** The return value, and what the output pointers and the buffer hold. *)
Definition run_api (call : apicall) : M (client * W) (Z * list Z) :=
  match call with
  | ASocket d ty p => '(rc, o) ← netstack_socket os d ty p true; mret (rc, option_list o)
  | AClose s => rc ← netstack_close os s; mret (rc, [])
  | ABind s p => rc ← netstack_bind os s p; mret (rc, [])
  | AListen s b => rc ← netstack_listen os s b; mret (rc, [])
  | AConnect s p => rc ← netstack_connect os s p; mret (rc, [])
  | AAccept s => '(rc, o1, o2) ← netstack_accept os s true true;
                 mret (rc, option_list o1 ++ option_list o2)
  | ASend s buf len => rc ← netstack_send os s buf len; mret (rc, [])
  | ARecv s buf max => '(rc, b) ← netstack_recv os s (Some buf) max;
                       mret (rc, default [] b)
  end.

(** The operation of the specification a call asks for. *)
Definition op_of (call : apicall) : sockop :=
  match call with
  | ASocket d ty p => OpSocket d ty p
  | AClose s => OpClose s
  | ABind s p => OpBind s p
  | AListen s _ => OpListen s
  | AConnect s p => OpConnect s p
  | AAccept s => OpAccept s
  | ASend s buf len => OpSend s len (take (Z.to_nat len) buf)
  | ARecv s _ max => OpRecv s (Z.min max NETSTACK_MAX_PAYLOAD)
  end.

(** Arguments of the C types, and buffers that hold what is announced. *)
Definition args_ok (call : apicall) : Prop :=
  match call with
  | ASocket d ty p => is_s32 d /\ is_s32 ty /\ is_s32 p
  | AClose s | AListen s _ | AAccept s => is_s32 s
  | ABind s p | AConnect s p => is_s32 s /\ is_u16 p
  | ASend s buf len => is_s32 s /\ Forall is_u8 buf /\ len <= Z.of_nat (length buf)
  | ARecv s buf max => is_s32 s /\ max <= Z.of_nat (length buf)
  end.

(** Lengths the library rejects without asking the engine. *)
Definition bad_length (call : apicall) : bool :=
  match call with
  | ASend _ _ len => (len <? 0) || (NETSTACK_MAX_PAYLOAD <? len)
  | ARecv _ _ max => max <? 0
  | _ => false
  end.

(** The result of a call whose operation was answered [x]. *)
Definition result_is (call : apicall) (x : sockres) (v : Z * list Z) : Prop :=
  match x with
  | RErr e => fst v = e
  | RSock fd => v = (NETSTACK_OK, [fd])
  | RAccepted fd p => v = (NETSTACK_OK, [fd; p])
  | ROk => v = (NETSTACK_OK, [])
  | RSent n => v = (n, [])
  | RData bs =>
    match call with
    | ARecv _ buf _ => v = (Z.of_nat (length bs), bs ++ drop (length bs) buf)
    | _ => False
    end
  | RMalformed => False
  end.

(** ** Each call is one operation *)

(** What every call ends with: the invariants, and either the engine could not be
    reached and no socket was touched, or the operation was served. *)
Definition api_done (call : apicall) c w : Prop :=
  exists v c' w', run_api call (c, w) = Some (v, (c', w')) /\
    wf_client c' w' /\ up w' /\ FindPort w' = FindPort w /\ FindTask w' = FindTask w /\
    ((fst v = -1 /\ sockets w' = sockets w /\ ~ (FindPort w <> 0 /\ has_port c w)) \/
     (has_port c' w' /\ exists x, served (op_of call) w w' x /\ result_is call x v)).

Lemma decode_op_shutdown r o : decode_op r = Some o -> op r <> NETSTACK_OP_SHUTDOWN.
Proof. intros Hd Heq. unfold decode_op in Hd. by rewrite Heq in Hd. Qed.

Lemma api_step call r (post : Z -> NetstackReq -> M (client * W) (Z * list Z)) c w o :
  wf_client c w -> up w -> wf_req r -> decode_op r = Some o ->
  (forall a, spec_step o a = spec_step (op_of call) a) ->
  (forall st, run_api call st = ('(rc, r') ← netstack_ipc_call os r; post rc r') st) ->
  (forall r' st, exists out, post (-1) r' st = Some ((-1, out), st)) ->
  (forall a a' r' st, wf_req r' -> spec_step o a = (decode_res o r', a') ->
     exists v, post 0 r' st = Some (v, st) /\ result_is call (decode_res o r') v) ->
  api_done call c w.
Proof.
  intros Hw Hu Hr Hd Heq Hrun Hfail Hok.
  destruct (ipc_call_run r c w Hw Hu Hr (decode_op_shutdown _ _ Hd))
    as (rc & r' & c' & w' & Hc & Hw' & Hu' & Hf & Ht & Hreach & Hcase).
  unfold api_done. rewrite Hrun, (bind_some _ _ _ _ _ Hc).
  destruct Hcase as [[-> Hs]|(-> & Hhas & Hr' & Hrep)].
  - destruct (Hfail r' (c', w')) as (out & Hp). exists (-1, out), c', w'.
    do 5 (split; [done|]). left. split; [done|]. split; [done|].
    intros [H1 H2]. by specialize (Hreach H1 H2).
  - rewrite Hd in Hrep. destruct Hrep as (a & a' & Hi & Hs & Hi').
    destruct (Hok a a' r' (c', w') Hr' Hs) as (v & Hp & Hv).
    exists v, c', w'. do 5 (split; [done|]). right. split; [done|].
    exists (decode_res o r'). split; [|done]. exists a, a'. by rewrite <- Heq.
Qed.

(** Calls that return the engine's verdict and nothing else. *)
Lemma api_step_plain call r c w o :
  wf_client c w -> up w -> wf_req r -> decode_op r = Some o -> op_of call = o ->
  (forall r', decode_res o r' = if negb (err r' =? NETSTACK_OK) then RErr (err r') else ROk) ->
  (forall st, run_api call st = ('(rc, r') ← netstack_ipc_call os r;
     mret (if negb (rc =? 0) then -1 else err r', [])) st) ->
  api_done call c w.
Proof.
  intros Hw Hu Hr Hd Ho Hdec Hrun. subst o.
  eapply api_step; [done..|exact Hrun|by eexists|].
  intros a a' r' st Hr' Hs. eexists. split; [reflexivity|]. rewrite Hdec.
  by destruct (Z.eqb_spec (err r') NETSTACK_OK) as [->|].
Qed.

(** A program that only post-processes another one. *)
Lemma bind_assoc_run {A B C} (m : M (client * W) A) (k : A -> M (client * W) B)
    (h : B -> M (client * W) C) st :
  ((m ≫= k) ≫= h) st = (m ≫= fun a => k a ≫= h) st.
Proof. unfold mbind, M_bind. by destruct (m st) as [[? ?]|]. Qed.

Lemma bind_ext_run {A B} (m : M (client * W) A) (k k' : A -> M (client * W) B) st :
  (forall a st, k a st = k' a st) -> (m ≫= k) st = (m ≫= k') st.
Proof. intros Hk. unfold mbind, M_bind. destruct (m st) as [[? ?]|]; [apply Hk|done]. Qed.

Ltac assoc_calls := intros st; cbn [run_api]; unfold netstack_socket, netstack_close,
  netstack_bind, netstack_listen, netstack_connect, netstack_accept; rewrite bind_assoc_run; apply bind_ext_run;
  intros [rc r'] st'; unfold mbind, M_bind, mret, M_ret; try reflexivity;
  by destruct (negb (rc =? 0)).

Lemma socket_done c w d ty p :
  wf_client c w -> up w -> args_ok (ASocket d ty p) -> api_done (ASocket d ty p) c w.
Proof.
  intros Hw Hu (H1 & H2 & H3).
  eapply (api_step _ (socket_req d ty p) (fun rc r' => if negb (rc =? 0) then mret (-1, [])
    else mret (err r', [socket_sock r']))); [done|done|apply wf_socket_req| |done|..].
  - by rewrite decode_socket_req, !s32_id.
  - assoc_calls.
  - by eexists.
  - intros a a' r' st Hr' _. eexists. split; [reflexivity|]. unfold decode_res.
    by destruct (Z.eqb_spec (err r') NETSTACK_OK) as [->|].
Qed.

Lemma accept_done c w s :
  wf_client c w -> up w -> args_ok (AAccept s) -> api_done (AAccept s) c w.
Proof.
  intros Hw Hu H1.
  eapply (api_step _ (accept_req s) (fun rc r' => if negb (rc =? 0) then mret (-1, [])
    else mret (err r', [accept_new_sock r'; accept_peer_port r'])));
    [done|done|apply wf_accept_req| |done|..].
  - by rewrite decode_accept_req, !s32_id.
  - assoc_calls.
  - by eexists.
  - intros a a' r' st Hr' _. eexists. split; [reflexivity|]. unfold decode_res.
    by destruct (Z.eqb_spec (err r') NETSTACK_OK) as [->|].
Qed.

Lemma verdict_done c w call :
  wf_client c w -> up w -> args_ok call ->
  match call with AClose _ | ABind _ _ | AListen _ _ | AConnect _ _ => True | _ => False end ->
  api_done call c w.
Proof.
  intros Hw Hu Ha Hc. destruct call; try done; cbn [args_ok] in Ha.
  - apply (api_step_plain _ (close_req sock) c w (OpClose sock));
      [done|done|apply wf_close_req|by rewrite decode_close_req, s32_id|done|done|assoc_calls].
  - destruct Ha as [H1 H2]. apply (api_step_plain _ (bind_req sock port) c w (OpBind sock port));
      [done|done|apply wf_bind_req|by rewrite decode_bind_req, s32_id, u16_id|done|done|assoc_calls].
  - apply (api_step_plain _ (listen_req sock backlog) c w (OpListen sock));
      [done|done|apply wf_listen_req|by rewrite decode_listen_req, s32_id|done|done|assoc_calls].
  - destruct Ha as [H1 H2].
    apply (api_step_plain _ (connect_req sock port) c w (OpConnect sock port));
      [done|done|apply wf_connect_req|by rewrite decode_connect_req, s32_id, u16_id|done|done|
       assoc_calls].
Qed.

(** The zeros behind the announced length are never read. *)
Lemma spec_send_padded fd len bs a :
  length bs = Z.to_nat len -> spec_send fd len (padded bs) a = spec_send fd len bs a.
Proof.
  intros Hl. unfold spec_send. destruct (live a fd) as [s|]; [|done].
  destruct (negb _); [done|]. destruct (live a (apeer s)) as [p|]; [|done].
  destruct (_ || _); [done|]. cbv zeta. destruct (_ <=? _); [done|].
  unfold padded. rewrite take_app_le by lia. done.
Qed.

Lemma send_done c w s buf len :
  wf_client c w -> up w -> args_ok (ASend s buf len) -> bad_length (ASend s buf len) = false ->
  api_done (ASend s buf len) c w.
Proof.
  intros Hw Hu (H1 & H2 & H3) Hb. cbn [bad_length] in Hb.
  destruct (Z.ltb_spec len 0), (Z.ltb_spec NETSTACK_MAX_PAYLOAD len); try done.
  assert (Hlen : length (take (Z.to_nat len) buf) = Z.to_nat len) by (rewrite length_take; lia).
  unfold NETSTACK_MAX_PAYLOAD in *.
  eapply (api_step _ (send_req s len (take (Z.to_nat len) buf))
    (fun rc r' => if negb (rc =? 0) then mret (-1, [])
       else if negb (err r' =? NETSTACK_OK) then mret (err r', [])
       else mret (send_len_out r', []))).
  - done.
  - done.
  - apply wf_send_req. by apply Forall_take.
  - rewrite decode_send_req by lia. rewrite !s32_id by (done || word). done.
  - intros a. cbn [spec_step op_of]. by apply spec_send_padded.
  - intros st. cbn [run_api]. unfold netstack_send, NETSTACK_MAX_PAYLOAD.
    rewrite !(proj2 (Z.ltb_ge _ _)) by lia. cbn [orb]. rewrite !bind_assoc_run.
    unfold mbind at 1, M_bind at 1. unfold mret at 1, M_ret at 1.
    rewrite bind_assoc_run. apply bind_ext_run. intros [rc r'] st'.
    unfold mbind, M_bind, mret, M_ret. by repeat destruct (negb _).
  - by eexists.
  - intros a a' r' st Hr' _. unfold decode_res. cbn [Z.eqb negb].
    destruct (Z.eqb_spec (err r') NETSTACK_OK) as [->|]; eexists; (split; [reflexivity|]); done.
Qed.

Lemma spec_recv_answer fd want a x a' :
  spec_recv fd want a = (x, a') ->
  match x with
  | RData bs => Z.of_nat (length bs) <= Z.max want 0
  | RErr _ => True
  | _ => False
  end.
Proof.
  unfold spec_recv. destruct (live a fd) as [s|]; [|by intros [= <- _]].
  destruct (negb _); [by intros [= <- _]|]. destruct (arx s) as [|b bs].
  - destruct (live a (apeer s)); intros [= <- _]; [done|]. cbn. lia.
  - cbv zeta. intros [= <- _]. rewrite length_take. lia.
Qed.

(** The copy of the answer into the caller's buffer. *)
Lemma recv_into buf n r :
  wf_req r -> 0 <= n <= NETSTACK_MAX_PAYLOAD -> n <= Z.of_nat (length buf) ->
  memcpy buf 0 (recv_data r) 0 n =
  Some (take (Z.to_nat n) (recv_data r) ++ drop (Z.to_nat n) buf).
Proof.
  intros Hr Hn Hb. unfold NETSTACK_MAX_PAYLOAD in *.
  assert (Hl : length (recv_data r) = 1024%nat) by (by apply length_send_data).
  rewrite memcpy_run by lia. f_equal. unfold block. rewrite drop_0.
  change (Z.to_nat 0) with 0%nat.
  set (bs := take (Z.to_nat n) (recv_data r)).
  assert (Hbs : length bs = Z.to_nat n) by (unfold bs; rewrite length_take; lia).
  rewrite <- Hbs. clearbody bs. apply list_eq. intros i.
  destruct (decide (i < length bs)%nat).
  - rewrite list_lookup_inserts by lia. rewrite lookup_app_l by lia. f_equal. lia.
  - rewrite list_lookup_inserts_ge by lia. rewrite lookup_app_r, lookup_drop by lia.
    f_equal. lia.
Qed.

Lemma recv_done c w s buf max :
  wf_client c w -> up w -> args_ok (ARecv s buf max) -> bad_length (ARecv s buf max) = false ->
  api_done (ARecv s buf max) c w.
Proof.
  intros Hw Hu (H1 & H2) Hb. cbn [bad_length] in Hb.
  destruct (Z.ltb_spec max 0); [done|].
  set (m := if NETSTACK_MAX_PAYLOAD <? max then NETSTACK_MAX_PAYLOAD else max).
  assert (Hm : m = Z.min max NETSTACK_MAX_PAYLOAD)
    by (unfold m; destruct (Z.ltb_spec NETSTACK_MAX_PAYLOAD max); lia).
  assert (Hmr : 0 <= m <= 1024) by (unfold NETSTACK_MAX_PAYLOAD in *; lia).
  eapply (api_step _ (recv_req s m)
    (fun rc r' => if negb (rc =? 0) then mret (-1, buf)
       else if negb (err r' =? NETSTACK_OK) then mret (err r', buf)
       else if 0 <? recv_len_out r' then
         b' ← liftO (memcpy buf 0 (recv_data r') 0 (recv_len_out r'));
         mret (recv_len_out r', b')
       else mret (recv_len_out r', buf)) c w (OpRecv s m)).
  - done.
  - done.
  - apply wf_recv_req.
  - rewrite decode_recv_req, !s32_id by (done || word). done.
  - intros a. cbn [op_of]. by rewrite Hm.
  - intros st. cbn [run_api]. unfold netstack_recv. rewrite (proj2 (Z.ltb_ge _ _)) by lia.
    fold m. rewrite bind_assoc_run. apply bind_ext_run. intros [rc r'] st'.
    unfold mbind, M_bind, mret, M_ret, liftO. destruct (negb (rc =? 0)); [done|].
    destruct (negb _); [done|]. destruct (0 <? _); [|done]. by destruct (memcpy _ _ _ _ _).
  - by eexists.
  - intros a a' r' st Hr' Hs. pose proof (spec_recv_answer _ _ _ _ _ Hs) as Hans.
    unfold decode_res in *. cbn [Z.eqb negb].
    destruct (Z.eqb_spec (err r') NETSTACK_OK) as [He|He]; cbn [negb] in *;
      [|by eexists]. cbv zeta in *.
    destruct (Z.leb_spec 0 (recv_len_out r')); [|done].
    destruct (Z.leb_spec (recv_len_out r') NETSTACK_MAX_PAYLOAD); [|done]. cbn [andb] in *.
    assert (Hl : length (recv_data r') = 1024%nat) by (by apply length_send_data).
    assert (Hlen : Z.of_nat (length (take (Z.to_nat (recv_len_out r')) (recv_data r'))) =
      recv_len_out r') by (rewrite length_take; unfold NETSTACK_MAX_PAYLOAD in *; lia).
    rewrite Hlen in Hans. cbn [result_is]. rewrite Hlen.
    replace (length (take (Z.to_nat (recv_len_out r')) (recv_data r')))
      with (Z.to_nat (recv_len_out r')) by lia.
    destruct (Z.ltb_spec 0 (recv_len_out r')).
    + eexists. split; [|reflexivity].
      rewrite (bind_some _ _ _ _ _ (liftO_run _ _ _ (recv_into buf (recv_len_out r') r' Hr'
        ltac:(lia) ltac:(lia)))).
      done.
    + eexists. split; [reflexivity|]. by replace (recv_len_out r') with 0 by lia.
Qed.

Lemma call_done call c w :
  wf_client c w -> up w -> args_ok call -> bad_length call = false -> api_done call c w.
Proof.
  intros. destruct call; eauto using socket_done, accept_done, send_done, recv_done;
    by apply verdict_done.
Qed.
End call.

(** C16. Every call of the client API is one operation of the socket
    specification.  From a sound client state and an engine that is up, the call
    returns, the semaphores are free again, and: a length the library rejects is
    answered EMSGSIZE and nothing happens; or the engine could not be reached,
    -1 is returned and no socket changed, which is impossible while the engine's
    port is registered and the task has its reply port; or the operation took
    effect exactly once and the return value, the output pointers and the
    caller's buffer are those of its answer. *)
Theorem api_refines {W} `{ExecLaws W, Service W, !ServiceLaws W} (os : sdk)
    (call : apicall) (c : client) (w : W) :
  wf_client c w -> up w -> args_ok call ->
  if bad_length call
  then exists v, run_api os call (c, w) = Some (v, (c, w)) /\ fst v = NETSTACK_EMSGSIZE
  else api_done os call c w.
Proof.
  intros Hw Hu Ha. destruct (bad_length call) eqn:Hb.
  - destruct call; try done; cbn [bad_length] in Hb; cbn [run_api];
      unfold netstack_send, netstack_recv; rewrite Hb; by eexists.
  - by apply call_done.
Qed.

(** A ping that reaches the engine comes back with the payload plus one
    modulo 2^32 and touches no socket. *)
Theorem ping_echo {W} `{ExecLaws W, Service W, !ServiceLaws W} (os : sdk)
    (seq payload : Z) (c : client) (w : W) :
  wf_client c w -> up w -> is_u32 payload ->
  exists rc out c' w', netstack_ping os seq payload true (c, w) = Some ((rc, out), (c', w')) /\
    wf_client c' w' /\ up w' /\
    (FindPort w <> 0 -> has_port c w -> rc = NETSTACK_OK) /\
    ((rc = -1 /\ out = None /\ sockets w' = sockets w) \/
     (rc = NETSTACK_OK /\ out = Some (u32 (payload + 1)) /\
      interferes (sockets w) (sockets w'))).
Proof.
  intros Hw Hu Hp. unfold netstack_ping.
  destruct (ipc_call_run os (ping_req seq payload) c w Hw Hu (wf_ping_req _ _) ltac:(done))
    as (rc & r' & c' & w' & Hc & Hw' & Hu' & _ & _ & Hreach & Hcase).
  rewrite (bind_some _ _ _ _ _ Hc).
  destruct Hcase as [[-> Hs]|(-> & _ & _ & Hrep)].
  - exists (-1), None, c', w'. split; [done|]. split; [done|]. split; [done|].
    split; [|by left]. intros H1' H2'. by specialize (Hreach H1' H2').
  - rewrite decode_ping_req in Hrep. destruct Hrep as [Hi Hpg].
    destruct (Hpg eq_refl) as (He & _ & Hpp). cbn [Z.eqb negb].
    exists (err r'), (Some (ping_payload r')), c', w'. rewrite He. do 4 (split; [done|]).
    right. split; [done|]. split; [|done]. rewrite Hpp. do 2 f_equal.
    unfold ping_req. pose proof wf_zero_req. req_simpl. rewrite u32_id by done. done.
Qed.
