(* ===== verification/Sim.v ===== *)
(** * Client library and engine together

    A world in which [Exchange] hands the request to the engine of Engine.v:
    it satisfies the interfaces of Exec.v and Service.v, so the theorems on
    the client library hold of the two components composed. *)

From S2P Require Import Prelude Ring Ipc FdTable FdSpec FdRefine FdLinks FdStream Engine.
From S2P Require Import Exec Service Client ClientReqs ClientProps ClientApi.
From S2P Require Import EngineProps SockProps.

Record sim := mk_sim {
  s_engine : engine;
  s_registered : Z;            (* the port FindPort answers *)
  s_ports : gset Z;
  s_nest : Z -> Z;
  s_task : positive
}.

Definition set_engine (g : engine) (w : sim) : sim :=
  mk_sim g (s_registered w) (s_ports w) (s_nest w) (s_task w).
Definition set_ports (ps : gset Z) (w : sim) : sim :=
  mk_sim (s_engine w) (s_registered w) ps (s_nest w) (s_task w).
Definition nest_upd (s : Z) (f : Z -> Z) (w : sim) : sim :=
  mk_sim (s_engine w) (s_registered w) (s_ports w)
    (fun s' => if decide (s = s') then f (s_nest w s') else s_nest w s') (s_task w).

(** A port address not in use and not null. *)
Definition new_port (ps : gset Z) : Z := fresh ({[0]} ∪ ps).

#[global] Instance sim_exec : Exec sim := {
  FindTask w := Zpos (s_task w);
  InitSemaphore s := nest_upd s (fun _ => 0);
  ObtainSemaphore s := nest_upd s (fun n => n + 1);
  ReleaseSemaphore s := nest_upd s (fun n => n - 1);
  FindPort := s_registered;
  AllocPort w := let p := new_port (s_ports w) in (p, set_ports ({[p]} ∪ s_ports w) w);
  FreePort p w := set_ports (s_ports w ∖ {[p]}) w;
  Exchange _ _ r w :=
    match dispatch_request r (s_engine w) with
    | Some (r', g') => (r', set_engine g' w)
    | None => (r, w)
    end
}.

#[global] Instance sim_views : ExecViews sim := { sem_nest := s_nest; ports := s_ports }.

#[global] Instance sim_service : Service sim := {
  up w := wf (g_fdtable (s_engine w));
  sockets w := abs (g_fdtable (s_engine w));
  interferes a a' := a = a'
}.

Lemma new_port_fresh ps : new_port ps <> 0 /\ new_port ps ∉ ps.
Proof.
  unfold new_port. pose proof (is_fresh ({[0]} ∪ ps)) as Hf.
  rewrite not_elem_of_union, elem_of_singleton in Hf. done.
Qed.

#[global] Instance sim_exec_laws : ExecLaws sim.
Proof.
  split; try done; cbn.
  - intros e p r w s. by destruct (dispatch_request r (s_engine w)) as [[? ?]|].
  - intros w _. split; [apply new_port_fresh|done].
  - intros w Hw. by destruct (new_port_fresh (s_ports w)).
  - intros e p r w. by destruct (dispatch_request r (s_engine w)) as [[? ?]|].
  - intros f w []; done.
  - intros f w []; done.
  - intros e p r w. by destruct (dispatch_request r (s_engine w)) as [[? ?]|].
Qed.

#[global] Instance sim_service_laws : ServiceLaws sim.
Proof.
  split; cbn.
  - intros f w []; done.
  - intros f w []; done.
  - done.
  - intros e p r w Hu _ _ _ Hr _.
    destruct (serve_request r (s_engine w) Hu Hr) as (r' & g' & Hd & Hw' & Hr' & _ & _ & Hs).
    rewrite Hd. cbn. split; [done|]. split; [done|]. split; [done|].
    destruct (decode_op r) as [o|].
    + destruct Hs as [Hs _]. eexists _, _. done.
    + split; [by rewrite (plain_reply_fds _ _ _ _ Hs)|]. intros Hop.
      unfold plain_reply in Hs. rewrite Hop in Hs. destruct Hs as (H1 & H2 & H3 & _). done.
Qed.

(** The engine just booted, its port registered, the client not used yet. *)
Definition sim_boot : sim := mk_sim engine_init 100 {[100]} (fun _ => 0) 7.

Lemma wf_client_init (w : sim) : wf_client client_init w.
Proof.
  split; cbn [client_init g_reply_slots g_engine_port g_engine_port_sem_init g_reply_sem_init];
    try done; try (by left).
  all: intros; repeat match goal with
    | H : replicate _ _ !! _ = Some _ |- _ => apply lookup_replicate in H as [-> _]
    end; done.
Qed.

Lemma up_boot : up sim_boot.
Proof. exact wf_init. Qed.

(** Nobody interferes: an operation acts on the table the caller left. *)
Lemma sim_served o (w w' : sim) x :
  served o w w' x -> spec_step o (sockets w) = (x, sockets w').
Proof. intros (a & a' & <- & Hs & <-). exact Hs. Qed.

Definition sim_sdk : sdk := mk_sdk 5 20.

Lemma reply_port_private_witness :
  exists p c' w', ensure_reply_port (client_init, sim_boot) = Some (p, (c', w')) /\
    wf_client c' w' /\
    reply_port_spec 7 {[100]} (g_reply_slots client_init) p (g_reply_slots c').
Proof.
  destruct (reply_port_private client_init sim_boot (wf_client_init _))
    as (p & c' & w' & Hr & Hw & Hs & _).
  exists p, c', w'. split; [exact Hr|]. split; [exact Hw|exact Hs].
Defined.

Lemma client_shutdown_frees_witness :
  exists c w c' w', netstack_client_shutdown (c, w) = Some (tt, (c', w')) /\
    g_reply_slots c' = replicate 16 (mk_reply_slot 0 0) /\
    (forall p : Z, p ∈ ports w' <-> p ∈ ports w /\ ~ (p <> 0 /\ p ∈ port <$> g_reply_slots c)).
Proof.
  destruct (ensure_reply_port_run client_init sim_boot (wf_client_init _))
    as (p & c & w & Hr & Hw & _).
  destruct (client_shutdown_frees c w Hw) as (c' & w' & Hs & _ & Hc).
  assert (Hi : g_reply_sem_init c = true).
  { assert (Hf : (fun x => g_reply_sem_init (fst (snd x))) <$>
      ensure_reply_port (client_init, sim_boot) = Some true) by (vm_compute; reflexivity).
    rewrite Hr in Hf. cbn in Hf. by injection Hf. }
  rewrite Hi in Hc. destruct Hc as (H1 & _ & H3).
  exists c, w, c', w'. split; [exact Hs|]. split; [exact H1|exact H3].
Defined.

Lemma api_refines_witness :
  exists v c' w', run_api sim_sdk (ASocket 2 1 0) (client_init, sim_boot) = Some (v, (c', w')) /\
    v = (NETSTACK_OK, [3]) /\ sockets w' = snd (spec_socket 2 1 0 (abs g_fdtable_init)).
Proof.
  pose proof (api_refines sim_sdk (ASocket 2 1 0) client_init sim_boot (wf_client_init _)
    up_boot) as Hx. cbn [bad_length] in Hx.
  destruct Hx as (v & c' & w' & Hr & _ & _ & _ & _ & Hc).
  { split; [word|]. split; word. }
  exists v, c', w'. split; [exact Hr|].
  assert (Hv : fst <$> run_api sim_sdk (ASocket 2 1 0) (client_init, sim_boot)
    = Some (NETSTACK_OK, [3])) by (vm_compute; reflexivity).
  rewrite Hr in Hv. cbn in Hv. injection Hv as ->. split; [reflexivity|].
  destruct Hc as [[Hc _]|(_ & x & Hs & _)]; [discriminate Hc|].
  apply sim_served, (f_equal snd) in Hs. symmetry. exact Hs.
Defined.

Lemma ping_echo_witness :
  exists c' w', netstack_ping sim_sdk 1 41 true (client_init, sim_boot) =
    Some ((NETSTACK_OK, Some 42), (c', w')) /\ sockets w' = abs g_fdtable_init.
Proof.
  destruct (ping_echo sim_sdk 1 41 client_init sim_boot (wf_client_init _) up_boot ltac:(word))
    as (rc & out & c' & w' & Hr & _ & _ & _ & Hc).
  assert (Hv : fst <$> netstack_ping sim_sdk 1 41 true (client_init, sim_boot)
    = Some (NETSTACK_OK, Some 42)) by (vm_compute; reflexivity).
  rewrite Hr in Hv. cbn in Hv. injection Hv as -> ->.
  exists c', w'. split; [exact Hr|].
  destruct Hc as [[Hc _]|(_ & _ & Hi)]; [discriminate Hc|]. symmetry. exact Hi.
Defined.

(** ** End to end *)

Lemma paired_live a s p :
  paired a s p -> exists ss sp, live a s = Some ss /\ live a p = Some sp /\
    akind ss = FD_SOCKET_CONNECTED /\ akind sp = FD_SOCKET_CONNECTED /\
    apeer ss = p /\ apeer sp = s /\ slot a p = Some sp.
Proof.
  intros (ss & sp & H1 & H2 & H3 & H4 & H5 & H6). exists ss, sp.
  split; [apply live_slot; split; [done|by rewrite H3]|].
  split; [apply live_slot; split; [done|by rewrite H4]|]. done.
Qed.

(** The two halves of a transfer on an idle connection. *)
Lemma spec_transfer a s p bs len :
  length a = 128%nat -> paired a s p -> inflight a p = [] ->
  len = Z.of_nat (length bs) -> 1 <= len <= NETSTACK_MAX_PAYLOAD ->
  exists a1, spec_step (OpSend s len bs) a = (RSent len, a1) /\
    fst (spec_step (OpRecv p NETSTACK_MAX_PAYLOAD) a1) = RData bs.
Proof.
  intros Hl Hpr Hi Hlen Hn. destruct (paired_live _ _ _ Hpr) as
    (ss & sp & Hs & Hp & Hks & Hkp & Hps & _ & Hsl).
  rewrite (inflight_slot _ _ _ Hsl) in Hi. consts.
  cbn [spec_step]. unfold spec_send, a_is_kind. rewrite Hs, Hps, Hp, Hi.
  rewrite bool_decide_eq_true_2 by done. cbn [negb length]. consts.
  rewrite !(proj2 (Z.ltb_ge _ _)) by lia. cbn [orb].
  change (4096 - Z.of_nat 0) with 4096. cbn [Z.leb Z.compare].
  rewrite Z.min_l by lia. eexists. split; [reflexivity|].
  assert (Hlive : live (upd a p (a_set_rx ([] ++ take (Z.to_nat len) bs) sp)) p =
    Some (a_set_rx bs sp)).
  { apply live_slot. split; [|cbn; by rewrite Hkp]. pose proof (slot_fd _ _ _ Hsl).
    rewrite slot_upd, decide_True by done. cbn. by rewrite take_ge by lia. }
  unfold spec_recv, a_is_kind. rewrite Hlive. cbn [a_set_rx akind arx].
  rewrite bool_decide_eq_true_2 by done. cbn [negb].
  destruct bs as [|b bs]; [cbn in Hlen; lia|]. cbn [fst]. f_equal. apply take_ge. consts. lia.
Qed.

(** C17. End to end through both components: what one task sends on a connected
    socket with [netstack_send] is what [netstack_recv] puts into the buffer of
    the reader at the other end, byte for byte, and both calls return the number
    of bytes. *)
Theorem send_recv_roundtrip (os : sdk) (c : client) (w : sim) s p bs buf :
  wf_client c w -> up w -> FindPort w <> 0 -> has_port c w ->
  paired (sockets w) s p -> inflight (sockets w) p = [] ->
  (1 <= length bs <= 1024)%nat -> Forall is_u8 bs -> (1024 <= length buf)%nat ->
  let n := Z.of_nat (length bs) in
  exists c1 w1 c2 w2,
    netstack_send os s bs n (c, w) = Some (n, (c1, w1)) /\
    netstack_recv os p (Some buf) 1024 (c1, w1) =
      Some ((n, Some (bs ++ drop (length bs) buf)), (c2, w2)) /\
    wf_client c2 w2 /\ up w2.
Proof.
  intros Hw Hu Hf Hh Hpr Hi Hlen Hb Hbuf. cbv zeta. set (n := Z.of_nat (length bs)).
  assert (Hl : length (sockets w) = 128%nat) by (cbn; rewrite length_abs; apply Hu).
  assert (Hs32 : is_s32 s /\ is_s32 p).
  { destruct Hpr as (? & ? & Hs%slot_fd & Hp%slot_fd & _). consts. split; word. }
  destruct (spec_transfer _ s p bs n Hl Hpr Hi eq_refl) as (a1 & Ht1 & Ht2); [consts; lia|].
  destruct (send_done os c w s bs n Hw Hu) as (v & c1 & w1 & Hr1 & Hw1 & Hu1 & Hf1 & _ & Hc1).
  { split; [apply Hs32|]. split; [done|lia]. }
  { cbn [bad_length]. unfold NETSTACK_MAX_PAYLOAD. rewrite !(proj2 (Z.ltb_ge _ _)) by lia. done. }
  destruct Hc1 as [(_ & _ & Hno)|(Hh1 & x & Hsv & Hx)]; [tauto|].
  apply sim_served in Hsv. cbn [op_of] in Hsv. 
  rewrite (take_ge bs) in Hsv by lia. rewrite Ht1 in Hsv. injection Hsv as <- ->.
  cbn [result_is] in Hx. subst v.
  destruct (recv_done os c1 w1 p buf 1024 Hw1 Hu1) as
    (v & c2 & w2 & Hr2 & Hw2 & Hu2 & _ & _ & Hc2); [split; [apply Hs32|lia]|done|].
  destruct Hc2 as [(_ & _ & Hno)|(_ & x & Hsv & Hx)]; [rewrite Hf1 in Hno; tauto|].
  apply sim_served in Hsv. apply (f_equal fst) in Hsv. cbn [op_of fst] in Hsv.
  change (Z.min 1024 NETSTACK_MAX_PAYLOAD) with NETSTACK_MAX_PAYLOAD in Hsv.
  pose proof (eq_trans (eq_sym Hsv) Ht2) as ->. cbn [result_is] in Hx. subst v.
  exists c1, w1, c2, w2. cbn [run_api] in Hr1, Hr2.
  apply bind_inv in Hr1 as (v1 & st1 & Hm1 & [= -> ->]).
  apply bind_inv in Hr2 as ([v2 b2] & st2 & Hm2 & Hret2).
  split; [exact Hm1|]. split; [|done]. rewrite Hm2. injection Hret2 as -> Hb2 ->.
  destruct b2 as [b2|]; cbn in Hb2; [by subst b2|].
  destruct bs; [cbn in Hlen; lia|done].
Qed.

(** A world in which task 7 set up the connection of sockets 4 and 5. *)
Definition sim_session : list apicall :=
  [ASocket 2 1 0; ABind 3 80; AListen 3 5; ASocket 2 1 0; AConnect 4 80; AAccept 3].

Fixpoint run_calls (os : sdk) (calls : list apicall) : M (client * sim) unit :=
  match calls with
  | [] => mret tt
  | call :: calls' => run_api os call;; run_calls os calls'
  end.

Lemma run_calls_ok (os : sdk) calls : forall c w,
  wf_client c w -> up w -> FindPort w <> 0 ->
  Forall (fun x => args_ok x /\ bad_length x = false) calls ->
  exists c' w', run_calls os calls (c, w) = Some (tt, (c', w')) /\
    wf_client c' w' /\ up w' /\ FindPort w' = FindPort w /\
    (has_port c w -> has_port c' w' /\
      sockets w' = snd (spec_run (op_of <$> calls) (sockets w))).
Proof.
  induction calls as [|call calls IH]; intros c w Hw Hu Hf Hall.
  { by exists c, w. }
  inversion Hall as [|? ? [Ha Hb] Hall']; subst.
  destruct (call_done os call c w Hw Hu Ha Hb) as (v & c1 & w1 & Hr & Hw1 & Hu1 & Hf1 & _ & Hc).
  destruct (IH c1 w1 Hw1 Hu1 ltac:(congruence) Hall') as (c' & w' & Hr' & Hw' & Hu' & Hf' & Hs).
  exists c', w'. split; [cbn [run_calls]; by rewrite (bind_some _ _ _ _ _ Hr)|].
  split; [done|]. split; [done|]. split; [congruence|]. intros Hh.
  destruct Hc as [(_ & _ & Hno)|(Hh1 & x & Hsv & _)]; [tauto|].
  destruct (Hs Hh1) as [Hh' ->]. split; [done|]. apply sim_served in Hsv.
  cbn [fmap list_fmap spec_run]. rewrite Hsv. by destruct (spec_run _ _).
Qed.

Lemma session_table : paired (snd (spec_run (op_of <$> sim_session) (abs g_fdtable_init))) 4 5 /\
  inflight (snd (spec_run (op_of <$> sim_session) (abs g_fdtable_init))) 5 = [].
Proof.
  split; [|vm_compute; reflexivity].
  exists (mk_asock FD_SOCKET_CONNECTED (2, 1, 0) 0 [] 5 80 []),
         (mk_asock FD_SOCKET_CONNECTED (2, 1, 0) 80 [] 4 0 []).
  split; [vm_compute; reflexivity|]. split; [vm_compute; reflexivity|]. done.
Qed.

(** The session reaches a world in which 4 and 5 are connected and idle. *)
Lemma session_world :
  exists c w, wf_client c (w : sim) /\ up w /\ FindPort w <> 0 /\ has_port c w /\
    paired (sockets w) 4 5 /\ inflight (sockets w) 5 = [].
Proof.
  destruct (ipc_call_run sim_sdk (ping_req 1 1) client_init sim_boot (wf_client_init _) up_boot
    (wf_ping_req 1 1) ltac:(done)) as (rc & r' & c & w & Hc & Hw & Hu & Hf & _ & _ & Hcase).
  assert (Hrc : rc = 0).
  { assert (Hv : (fun x => fst (fst x)) <$> netstack_ipc_call sim_sdk (ping_req 1 1)
      (client_init, sim_boot) = Some 0) by (vm_compute; reflexivity).
    rewrite Hc in Hv. cbn in Hv. by injection Hv. }
  destruct Hcase as [[-> _]|(_ & Hh & _ & Hi & _)]; [done|].
  assert (Hf' : FindPort w <> 0) by (by rewrite Hf).
  destruct (run_calls_ok sim_sdk sim_session c w Hw Hu Hf') as
    (c' & w' & _ & Hw' & Hu' & Hfw & Hs).
  { repeat (apply Forall_cons; split); try apply Forall_nil_2; (split; [|done]);
      cbn [args_ok]; repeat split; unfold is_s32, is_u16; lia. }
  destruct (Hs Hh) as [Hh' Heq]. exists c', w'. split; [done|]. split; [done|].
  split; [congruence|]. split; [done|]. rewrite Heq. pose proof session_table as Ht.
  replace (sockets w) with (abs g_fdtable_init) by exact Hi. exact Ht.
Qed.

Lemma send_recv_roundtrip_witness :
  exists c w c1 w1 c2 w2,
    netstack_send sim_sdk 4 [1; 2; 3] 3 (c, w) = Some (3, (c1, w1)) /\
    netstack_recv sim_sdk 5 (Some (replicate 1024 0)) 1024 (c1, w1) =
      Some ((3, Some ([1; 2; 3] ++ drop 3 (replicate 1024 0))), (c2, w2)).
Proof.
  destruct session_world as (c & w & Hw & Hu & Hf & Hh & Hp & Hi).
  destruct (send_recv_roundtrip sim_sdk c w 4 5 [1; 2; 3] (replicate 1024 0))
    as (c1 & w1 & c2 & w2 & H1 & H2 & _).
  - exact Hw.
  - exact Hu.
  - exact Hf.
  - exact Hh.
  - exact Hp.
  - exact Hi.
  - cbn. lia.
  - repeat constructor; word.
  - rewrite length_replicate. lia.
  - exists c, w, c1, w1, c2, w2. split; [exact H1|exact H2].
Defined.
