(* ===== verification/NetDevRing.v ===== *)
(** * The NetDev descriptor ring (src/phase4_netdev/netdev_ring.c)

    A single-producer single-consumer ring of buffer pointers with 64-bit
    sequence numbers.  [publish] and [consume] are the two entry points;
    the queue they implement does not depend on the sequence numbers
    wrapping around, because the size is a power of two.  The second half
    runs the two sides concurrently, one shared access per step. *)

From S2P Require Import Prelude Ring.

(** [struct NetDevRing]; [slots] is [None] for a null pointer, a buffer is its
    address. *)
Record NetDevRing := mk_NetDevRing {
  slots : option (list Z);
  ring_size : Z;
  head : Z;
  tail : Z
}.

Definition set_ring_slots (l : list Z) (r : NetDevRing) : NetDevRing :=
  mk_NetDevRing (Some l) (ring_size r) (head r) (tail r).
Definition set_head (v : Z) (r : NetDevRing) : NetDevRing :=
  mk_NetDevRing (slots r) (ring_size r) v (tail r).
Definition set_tail (v : Z) (r : NetDevRing) : NetDevRing :=
  mk_NetDevRing (slots r) (ring_size r) (head r) v.

(** [seq % ring_size] on unsigned operands; undefined for a zero divisor. *)
Definition seq_index (s : Z) (r : NetDevRing) : option Z :=
  if ring_size r =? 0 then None else Some (s mod ring_size r).

Definition netdev_ring_publish (b : Z) : M NetDevRing Z :=
  r ← getM;
  let h := head r in
  let t := tail r in
  if ring_size r <=? u64 (h - t) then mret (-1) else
  i ← liftO (seq_index h r);
  l ← liftO (slots r);
  l' ← liftO (storeZ l i b);
  putM (set_head (u64 (h + 1)) (set_ring_slots l' r));;
  mret 0.

(** The return value and what is written through [out]. *)
Definition netdev_ring_consume : M NetDevRing (Z * option Z) :=
  r ← getM;
  let t := tail r in
  let h := head r in
  if t =? h then mret (-1, None) else
  i ← liftO (seq_index t r);
  l ← liftO (slots r);
  b ← liftO (lookupZ l i);
  putM (set_tail (u64 (t + 1)) r);;
  mret (0, Some b).

(** Size of a pointer to a buffer, on a 32-bit machine. *)
Definition sizeof_ptr : Z := 4.

(** [osal_malloc] answers with a block of cells or fails. *)
Definition netdev_ring_init (osal_malloc : Z -> Z -> option (list Z)) (size : Z)
  : M NetDevRing Z :=
  if (size =? 0) || negb (Z.land size (u32 (size - 1)) =? 0) then mret (-1) else
  r ← getM;
  match osal_malloc (u32 (sizeof_ptr * size)) 64 with
  | None => putM (mk_NetDevRing None (ring_size r) (head r) (tail r));; mret (-1)
  | Some l => putM (mk_NetDevRing (Some l) size 0 0);; mret 0
  end.

(** The pointer handed to [osal_free], if any. *)
Definition netdev_ring_destroy : M NetDevRing (option (list Z)) :=
  r ← getM;
  putM (mk_NetDevRing None (ring_size r) (head r) (tail r));;
  mret (slots r).

(** ** Representation *)

Definition is_pow2 (n : Z) : Prop := exists k, 0 <= k < 32 /\ n = 2 ^ k.

(** Entries between the two sequence numbers. *)
Definition ring_count (r : NetDevRing) : Z := u64 (head r - tail r).

Record wf_ring (r : NetDevRing) : Prop := {
  wr_pow2 : is_pow2 (ring_size r);
  wr_slots : exists l, slots r = Some l /\ Z.of_nat (length l) = ring_size r;
  wr_head : is_u64 (head r);
  wr_tail : is_u64 (tail r);
  wr_count : ring_count r <= ring_size r
}.

(** The buffers in the ring, oldest first. *)
Definition ring_queue (r : NetDevRing) : list Z :=
  match slots r with
  | Some l => ring_view l (Z.to_nat (tail r mod ring_size r)) (Z.to_nat (ring_count r))
  | None => []
  end.

Lemma pow2_pos n : is_pow2 n -> 0 < n < 4294967296.
Proof.
  intros (k & Hk & ->). split; [apply Z.pow_pos_nonneg; lia|].
  change 4294967296 with (2 ^ 32). apply Z.pow_lt_mono_r; lia.
Qed.

(** A power of two below 2^64 divides it: reducing a sequence number modulo 2^64
    keeps its index. *)
Lemma u64_mod n x : is_pow2 n -> u64 x mod n = x mod n.
Proof.
  intros Hp. pose proof (pow2_pos n Hp). destruct Hp as (k & Hk & ->). unfold u64.
  symmetry. apply Znumtheory.Zmod_div_mod; [lia|lia|].
  exists (2 ^ (64 - k)). rewrite <- Z.pow_add_r by lia.
  by replace (64 - k + k) with 64 by lia.
Qed.

Lemma head_index r :
  wf_ring r ->
  head r mod ring_size r = (tail r + ring_count r) mod ring_size r.
Proof.
  intros [Hp _ Hh Ht _]. unfold ring_count.
  rewrite <- (u64_mod _ (tail r + _)) by done.
  f_equal. unfold u64, is_u64 in *. zlia.
Qed.

(** ** One operation *)

Lemma length_ring_queue r :
  wf_ring r -> Z.of_nat (length (ring_queue r)) = ring_count r.
Proof.
  intros [_ (l & Hl & _) _ _ _]. unfold ring_queue. rewrite Hl, length_ring_view.
  unfold ring_count, u64. zlia.
Qed.

Lemma index_nat r (l : list Z) x :
  Z.of_nat (length l) = ring_size r -> 0 < ring_size r -> 0 <= x ->
  Z.to_nat (x mod ring_size r) = (Z.to_nat x `mod` length l)%nat.
Proof. intros Hl Hp Hx. rewrite Z2Nat.inj_mod by lia. by rewrite <- Hl, Nat2Z.id. Qed.

(** The view depends on the start only modulo the size. *)
Lemma ring_view_start (l : list Z) a b n :
  0 < Z.of_nat (length l) -> 0 <= a -> 0 <= b ->
  a mod Z.of_nat (length l) = b mod Z.of_nat (length l) ->
  ring_view l (Z.to_nat a) n = ring_view l (Z.to_nat b) n.
Proof.
  intros Hl Ha Hb He. rewrite <- (ring_view_mod l (Z.to_nat a)), <- (ring_view_mod l (Z.to_nat b)).
  f_equal. apply (f_equal Z.to_nat) in He. rewrite !Z2Nat.inj_mod in He by lia.
  by rewrite Nat2Z.id in He.
Qed.

Lemma ring_queue_view r l :
  slots r = Some l -> Z.of_nat (length l) = ring_size r -> 0 < ring_size r -> 0 <= tail r ->
  ring_queue r = ring_view l (Z.to_nat (tail r)) (Z.to_nat (ring_count r)).
Proof.
  intros Hl Hlen Hp Ht. unfold ring_queue. rewrite Hl, <- Hlen.
  apply ring_view_start; [lia|zlia|lia|]. apply Z.mod_mod. lia.
Qed.

(** The cell at [head] is outside the queue while there is room. *)
Lemma store_at_head r l b :
  wf_ring r -> slots r = Some l -> ring_count r < ring_size r ->
  let i := Z.to_nat (head r mod ring_size r) in
  let r' := set_ring_slots (<[i := b]> l) r in
  (i < length l)%nat /\ wf_ring r' /\ ring_queue r' = ring_queue r /\
  <[i := b]> l !! i = Some b.
Proof.
  intros Hw Hl Hc. cbv zeta. pose proof (pow2_pos _ (wr_pow2 _ Hw)) as Hp.
  destruct (wr_slots _ Hw) as (l' & Hl' & Hlen). rewrite Hl in Hl'. injection Hl' as <-.
  pose proof (wr_tail _ Hw) as Ht. unfold is_u64 in Ht.
  assert (Hb : 0 <= head r mod ring_size r < ring_size r) by (apply Z.mod_pos_bound; lia).
  assert (Hi : (Z.to_nat (head r mod ring_size r) < length l)%nat) by lia.
  split; [done|]. split.
  { split; try apply Hw. eexists. split; [done|]. by rewrite length_insert. }
  split; [|by apply list_lookup_insert_eq].
  rewrite (ring_queue_view _ (<[Z.to_nat (head r mod ring_size r):=b]> l));
    [|done|cbn; by rewrite length_insert|cbn; lia|cbn; lia].
  rewrite (ring_queue_view r l) by (done || lia). apply ring_view_insert_out.
  intros k Hk. rewrite (head_index r Hw), (index_nat r l) by (unfold ring_count, u64; zlia).
  assert (Hn : 0 <= ring_count r) by (unfold ring_count, u64; zlia).
  rewrite Z2Nat.inj_add by (cbn; lia). intros He. change (ring_count (set_ring_slots
    (<[Z.to_nat (head r mod ring_size r):=b]> l) r)) with (ring_count r) in Hk.
  apply ring_index_inj in He; [lia|lia|lia].
Qed.

(** Advancing [head] makes the cell the last element. *)
Lemma advance_head r l b :
  wf_ring r -> slots r = Some l -> ring_count r < ring_size r ->
  l !! Z.to_nat (head r mod ring_size r) = Some b ->
  let r' := set_head (u64 (head r + 1)) r in
  wf_ring r' /\ ring_count r' = ring_count r + 1 /\ ring_queue r' = ring_queue r ++ [b].
Proof.
  intros Hw Hl Hlt Hb. cbv zeta. pose proof (pow2_pos _ (wr_pow2 _ Hw)) as Hp.
  destruct (wr_slots _ Hw) as (l' & Hl' & Hlen). rewrite Hl in Hl'. injection Hl' as <-.
  pose proof (wr_head _ Hw) as Hh. pose proof (wr_tail _ Hw) as Ht. unfold is_u64 in Hh, Ht.
  assert (Hn : 0 <= ring_count r) by (unfold ring_count, u64; zlia).
  assert (Hc : ring_count (set_head (u64 (head r + 1)) r) = ring_count r + 1).
  { unfold ring_count in *. cbn. unfold u64 in *. zlia. }
  split.
  { split; try apply Hw; [apply is_u64_u64|]. rewrite Hc. cbn. lia. }
  split; [done|]. rewrite (ring_queue_view _ l); [|done|done|cbn; lia|cbn; lia].
  rewrite Hc, (ring_queue_view r l) by (done || lia). cbn [set_head tail].
  replace (Z.to_nat (ring_count r + 1)) with (S (Z.to_nat (ring_count r))) by lia.
  rewrite ring_view_snoc. f_equal. f_equal. apply list_lookup_total_correct.
  rewrite (head_index r Hw), (index_nat r l), Z2Nat.inj_add in Hb by lia. done.
Qed.

(** Advancing [tail] removes the first element. *)
Lemma advance_tail r l :
  wf_ring r -> slots r = Some l -> 0 < ring_count r ->
  let r' := set_tail (u64 (tail r + 1)) r in
  wf_ring r' /\ ring_count r' = ring_count r - 1 /\
  exists b, l !! Z.to_nat (tail r mod ring_size r) = Some b /\ ring_queue r = b :: ring_queue r'.
Proof.
  intros Hw Hl Hlt. cbv zeta. pose proof (pow2_pos _ (wr_pow2 _ Hw)) as Hp.
  destruct (wr_slots _ Hw) as (l' & Hl' & Hlen). rewrite Hl in Hl'. injection Hl' as <-.
  pose proof (wr_head _ Hw) as Hh. pose proof (wr_tail _ Hw) as Ht. unfold is_u64 in Hh, Ht.
  assert (Hc : ring_count (set_tail (u64 (tail r + 1)) r) = ring_count r - 1).
  { unfold ring_count in *. cbn. unfold u64 in *. zlia. }
  split.
  { split; try apply Hw; [apply is_u64_u64|]. rewrite Hc. cbn. pose proof (wr_count _ Hw). lia. }
  split; [done|]. exists (l !!! (Z.to_nat (tail r) `mod` length l)%nat). split.
  { rewrite (index_nat r l) by lia.
    apply list_lookup_lookup_total_lt, Nat.mod_upper_bound. lia. }
  rewrite (ring_queue_view r l) by (done || lia).
  rewrite (ring_queue_view _ l); [|done|done|cbn; lia|cbn; unfold u64; zlia].
  rewrite Hc. cbn [set_tail tail].
  replace (Z.to_nat (ring_count r)) with (S (Z.to_nat (ring_count r - 1))) by lia.
  rewrite ring_pop. f_equal. rewrite ring_view_mod.
  replace (Z.to_nat (tail r) + 1)%nat with (Z.to_nat (tail r + 1)) by lia.
  apply ring_view_start; [lia|lia|unfold u64; zlia|]. rewrite Hlen.
  symmetry. apply u64_mod, Hw.
Qed.

Lemma seq_index_run r s : wf_ring r -> seq_index s r = Some (s mod ring_size r).
Proof.
  intros Hw. pose proof (pow2_pos _ (wr_pow2 _ Hw)). unfold seq_index.
  by rewrite (proj2 (Z.eqb_neq _ _)) by lia.
Qed.

Lemma publish_run r b :
  wf_ring r ->
  exists r', netdev_ring_publish b r =
      Some (if ring_size r <=? ring_count r then -1 else 0, r') /\
    wf_ring r' /\ ring_size r' = ring_size r /\
    ring_queue r' = (if ring_size r <=? ring_count r then ring_queue r else ring_queue r ++ [b]).
Proof.
  intros Hw. pose proof (pow2_pos _ (wr_pow2 _ Hw)) as Hp.
  destruct (wr_slots _ Hw) as (l & Hl & Hlen).
  unfold netdev_ring_publish, mbind, M_bind, getM, liftO. fold (ring_count r).
  destruct (Z.leb_spec (ring_size r) (ring_count r)) as [Hf|Hf]; [by exists r|].
  rewrite (seq_index_run r _ Hw), Hl.
  destruct (store_at_head r l b Hw Hl Hf) as (Hi & Hw1 & Hq1 & Hb1).
  rewrite storeZ_run by (split; [apply Z.mod_pos_bound; lia|lia]).
  destruct (advance_head _ _ b Hw1 eq_refl) as (Hw2 & _ & Hq2); [done|done|].
  eexists. split; [reflexivity|]. split; [done|]. split; [done|].
  cbn [set_ring_slots head] in Hq2. by rewrite Hq2, Hq1.
Qed.

Lemma consume_run r :
  wf_ring r ->
  exists r', netdev_ring_consume r =
      Some (match ring_queue r with [] => (-1, None) | b :: _ => (0, Some b) end, r') /\
    wf_ring r' /\ ring_size r' = ring_size r /\ ring_queue r' = tl (ring_queue r).
Proof.
  intros Hw. pose proof (pow2_pos _ (wr_pow2 _ Hw)) as Hp.
  destruct (wr_slots _ Hw) as (l & Hl & Hlen). pose proof (length_ring_queue r Hw) as Hq.
  pose proof (wr_head _ Hw) as Hh. pose proof (wr_tail _ Hw) as Ht. unfold is_u64 in *.
  unfold netdev_ring_consume, mbind, M_bind, getM, liftO.
  destruct (Z.eqb_spec (tail r) (head r)) as [He|He].
  { assert (Hz : ring_count r = 0) by (unfold ring_count, u64; rewrite He; zlia).
    rewrite Hz in Hq. destruct (ring_queue r) eqn:Hqe; [|done]. exists r. by rewrite Hqe. }
  assert (Hc0 : 0 < ring_count r) by (unfold ring_count, u64; zlia).
  destruct (advance_tail r l Hw Hl Hc0) as (Hw1 & _ & b & Hb & Hq1).
  rewrite (seq_index_run r _ Hw), Hl, lookupZ_nat by (apply Z.mod_pos_bound; lia).
  rewrite Hb, Hq1. eexists. split; [reflexivity|]. done.
Qed.

(** ** Sequences of operations *)

Inductive ring_op := Publish (b : Z) | Consume.

Definition ring_step (o : ring_op) : M NetDevRing (Z * option Z) :=
  match o with
  | Publish b => rc ← netdev_ring_publish b; mret (rc, None)
  | Consume => netdev_ring_consume
  end.

Fixpoint ring_run (os : list ring_op) : M NetDevRing (list (Z * option Z)) :=
  match os with
  | [] => mret []
  | o :: os' => x ← ring_step o; xs ← ring_run os'; mret (x :: xs)
  end.

(** A queue of bounded length. *)
Definition queue_step (cap : Z) (o : ring_op) (q : list Z) : (Z * option Z) * list Z :=
  match o with
  | Publish b => if cap <=? Z.of_nat (length q) then ((-1, None), q) else ((0, None), q ++ [b])
  | Consume => match q with [] => ((-1, None), []) | b :: q' => ((0, Some b), q') end
  end.

Fixpoint queue_run (cap : Z) (os : list ring_op) (q : list Z) : list (Z * option Z) * list Z :=
  match os with
  | [] => ([], q)
  | o :: os' => let '(x, q1) := queue_step cap o q in
                let '(xs, q2) := queue_run cap os' q1 in (x :: xs, q2)
  end.

Lemma ring_step_run o r :
  wf_ring r ->
  exists x r', ring_step o r = Some (x, r') /\ wf_ring r' /\ ring_size r' = ring_size r /\
    queue_step (ring_size r) o (ring_queue r) = (x, ring_queue r').
Proof.
  intros Hw. destruct o as [b|]; cbn [ring_step queue_step].
  - destruct (publish_run r b Hw) as (r' & Hr & Hw' & Hs & Hq).
    rewrite (bind_some _ _ _ _ _ Hr), (length_ring_queue r Hw).
    eexists _, r'. split; [reflexivity|]. rewrite Hq. by destruct (_ <=? _).
  - destruct (consume_run r Hw) as (r' & Hr & Hw' & Hs & Hq). rewrite Hr.
    eexists _, r'. split; [reflexivity|]. rewrite Hq. by destruct (ring_queue r).
Qed.

(** C28. The descriptor ring is a bounded FIFO queue: every sequence of publish
    and consume calls, of any length, returns what a list of at most [ring_size]
    elements would return, also when the 64-bit sequence numbers wrap around, and
    no call reads or writes outside the slots. *)
Theorem ring_refines_queue os r :
  wf_ring r ->
  exists xs r', ring_run os r = Some (xs, r') /\ wf_ring r' /\
    queue_run (ring_size r) os (ring_queue r) = (xs, ring_queue r').
Proof.
  revert r. induction os as [|o os IH]; intros r Hw; [by exists [], r|].
  destruct (ring_step_run o r Hw) as (x & r1 & Hr & Hw1 & Hs & Hq).
  destruct (IH r1 Hw1) as (xs & r' & Hr' & Hw' & Hq'). exists (x :: xs), r'.
  cbn [ring_run queue_run]. rewrite (bind_some _ _ _ _ _ Hr), (bind_some _ _ _ _ _ Hr'), Hq.
  rewrite <- Hs. by rewrite Hq'.
Qed.

(** A ring of two slots whose sequence numbers are about to wrap. *)
Definition wrapping_ring : NetDevRing :=
  mk_NetDevRing (Some [0; 0]) 2 18446744073709551615 18446744073709551615.

Lemma wf_wrapping_ring : wf_ring wrapping_ring.
Proof.
  split; cbn.
  - by exists 1.
  - by exists [0; 0].
  - word.
  - word.
  - vm_compute. discriminate.
Qed.

Lemma ring_refines_queue_witness :
  exists r', ring_run [Publish 7; Publish 8; Publish 9; Consume; Consume; Consume] wrapping_ring =
    Some ([(0, None); (0, None); (-1, None); (0, Some 7); (0, Some 8); (-1, None)], r') /\
    wf_ring r'.
Proof.
  destruct (ring_refines_queue [Publish 7; Publish 8; Publish 9; Consume; Consume; Consume]
    wrapping_ring wf_wrapping_ring) as (xs & r' & Hr & Hw & Hq).
  exists r'. split; [|exact Hw]. rewrite Hr. apply (f_equal fst) in Hq. cbn [fst] in Hq.
  rewrite <- Hq. vm_compute. reflexivity.
Defined.

(** ** Init *)

Lemma pow2_test n :
  0 < n < 4294967296 -> Z.land n (u32 (n - 1)) = 0 <-> is_pow2 n.
Proof.
  intros Hn. rewrite u32_id by (unfold is_u32; lia). split.
  - intros Hl. exists (Z.log2 n).
    assert (Hlt : Z.log2 n < 32) by (apply Z.log2_lt_pow2; lia).
    pose proof (Z.log2_nonneg n) as Hnn. split; [lia|].
    destruct (Z.log2_spec n ltac:(lia)) as [H1 H2].
    destruct (decide (n = 2 ^ Z.log2 n)) as [|Hne]; [done|].
    assert (Hlog : Z.log2 (n - 1) = Z.log2 n) by (apply Z.log2_unique; lia).
    assert (Hb : Z.testbit (Z.land n (n - 1)) (Z.log2 n) = true).
    { rewrite Z.land_spec, Z.bit_log2 by lia. rewrite <- Hlog at 1.
      pose proof (Z.pow_pos_nonneg 2 (Z.log2 n) ltac:(lia) Hnn). by rewrite Z.bit_log2 by lia. }
    rewrite Hl, Z.bits_0 in Hb. done.
  - intros (k & Hk & ->). replace (2 ^ k - 1) with (Z.ones k) by (rewrite Z.ones_equiv; lia).
    rewrite Z.land_ones by lia. apply Z.mod_same. apply Z.pow_nonzero; lia.
Qed.

(** [netdev_ring_init] refuses exactly the sizes that are not powers of two;
    below 2^30 entries, when the block of 4 bytes per entry is granted it leaves a
    well-formed empty ring of that size, and when it is not it answers -1 with a
    null slot array. *)
Theorem ring_init_ok malloc size r :
  (forall n a l, malloc n a = Some l -> Z.of_nat (length l) = n / sizeof_ptr) ->
  0 <= size < 4294967296 ->
  (~ is_pow2 size -> netdev_ring_init malloc size r = Some (-1, r)) /\
  (is_pow2 size -> size < 1073741824 ->
   exists rc r', netdev_ring_init malloc size r = Some (rc, r') /\
     match malloc (sizeof_ptr * size) 64 with
     | Some _ => rc = 0 /\ wf_ring r' /\ ring_queue r' = [] /\ ring_size r' = size
     | None => rc = -1 /\ slots r' = None
     end).
Proof.
  intros Hm Hs. unfold netdev_ring_init.
  destruct (Z.eqb_spec size 0) as [->|Hz]; cbn [orb].
  { split; [done|]. intros Hp. apply pow2_pos in Hp. lia. }
  pose proof (pow2_test size ltac:(lia)) as Ht.
  destruct (Z.eqb_spec (Z.land size (u32 (size - 1))) 0) as [H0|H0]; cbn [negb].
  2: { split; [done|]. intros Hp%Ht. done. }
  split; [intros Hn; destruct Hn; by apply Ht|]. intros Hp Hlt.
  rewrite u32_id by (unfold is_u32, sizeof_ptr; lia).
  unfold mbind, M_bind, getM. destruct (malloc _ _) as [l|] eqn:Hl; [|by eexists _, _].
  eexists _, _. split; [reflexivity|]. split; [done|].
  apply Hm in Hl. unfold sizeof_ptr in Hl. rewrite Z.mul_comm, Z.div_mul in Hl by lia.
  split; [|done]. split; cbn [slots ring_size head tail].
  - done.
  - by exists l.
  - unfold is_u64. lia.
  - unfold is_u64. lia.
  - change (0 <= size). lia.
Qed.

(** An allocator that grants every block of at most 1 KiB. *)
Definition small_malloc (n a : Z) : option (list Z) :=
  if (0 <=? n) && (n <=? 1024) then Some (replicate (Z.to_nat (n / sizeof_ptr)) 0) else None.

Lemma small_malloc_length n a l :
  small_malloc n a = Some l -> Z.of_nat (length l) = n / sizeof_ptr.
Proof.
  unfold small_malloc. destruct (Z.leb_spec 0 n); [|done]. destruct (n <=? 1024); [|done].
  intros [= <-]. rewrite length_replicate. unfold sizeof_ptr. zlia.
Qed.

Lemma ring_init_ok_witness :
  exists r', netdev_ring_init small_malloc 8 (mk_NetDevRing None 0 0 0) = Some (0, r') /\
    wf_ring r' /\ ring_queue r' = [].
Proof.
  destruct (ring_init_ok small_malloc 8 (mk_NetDevRing None 0 0 0) small_malloc_length)
    as [_ H]; [lia|].
  destruct H as (rc & r' & Hr & Hm); [by exists 3|lia|].
  exists r'. change (small_malloc (sizeof_ptr * 8) 64) with (Some (replicate 8 0)) in Hm.
  destruct Hm as (-> & Hw & Hq & _). split; [exact Hr|]. split; [exact Hw|exact Hq].
Defined.

(** From 2^30 entries on, the number of bytes wraps around to zero: a ring of
    2^30 slots is accepted with an empty array, and the first publish writes
    outside it. *)
Theorem ring_init_overflow r :
  exists r', netdev_ring_init small_malloc 1073741824 r = Some (0, r') /\
    forall b, netdev_ring_publish b r' = None.
Proof. eexists. split; [reflexivity|]. intros b. reflexivity. Qed.

(** ** Producer and consumer at the same time

    Each step is one access to the shared structure; the order of the
    accesses is that of the program, as the release and acquire barriers
    ask for. *)

(** The producer is outside [publish]; read [head]; found room; wrote the slot. *)
Inductive ppc := PIdle | PHead (b h : Z) | PRoom (b h : Z) | PStored (b h : Z).
(** The consumer is outside [consume]; read [tail]; found an entry; read it. *)
Inductive cpc := CIdle | CTail (t : Z) | CReady (t : Z) | CLoaded (t b : Z).

Record spsc := mk_spsc {
  ring : NetDevRing;
  producer : ppc;
  consumer : cpc;
  published : list Z;      (* arguments of the successful publishes, in order *)
  consumed : list Z        (* results of the successful consumes, in order *)
}.

Inductive spsc_step : spsc -> spsc -> Prop :=
  | p_head b r c ps cs :
    spsc_step (mk_spsc r PIdle c ps cs) (mk_spsc r (PHead b (head r)) c ps cs)
  | p_full b h r c ps cs :
    ring_size r <= u64 (h - tail r) ->
    spsc_step (mk_spsc r (PHead b h) c ps cs) (mk_spsc r PIdle c ps cs)
  | p_room b h r c ps cs :
    u64 (h - tail r) < ring_size r ->
    spsc_step (mk_spsc r (PHead b h) c ps cs) (mk_spsc r (PRoom b h) c ps cs)
  | p_store b h r c ps cs i l l' :
    seq_index h r = Some i -> slots r = Some l -> storeZ l i b = Some l' ->
    spsc_step (mk_spsc r (PRoom b h) c ps cs)
      (mk_spsc (set_ring_slots l' r) (PStored b h) c ps cs)
  | p_publish b h r c ps cs :
    spsc_step (mk_spsc r (PStored b h) c ps cs)
      (mk_spsc (set_head (u64 (h + 1)) r) PIdle c (ps ++ [b]) cs)
  | c_tail r p ps cs :
    spsc_step (mk_spsc r p CIdle ps cs) (mk_spsc r p (CTail (tail r)) ps cs)
  | c_empty t r p ps cs :
    t = head r -> spsc_step (mk_spsc r p (CTail t) ps cs) (mk_spsc r p CIdle ps cs)
  | c_ready t r p ps cs :
    t <> head r -> spsc_step (mk_spsc r p (CTail t) ps cs) (mk_spsc r p (CReady t) ps cs)
  | c_load t r p ps cs i l b :
    seq_index t r = Some i -> slots r = Some l -> lookupZ l i = Some b ->
    spsc_step (mk_spsc r p (CReady t) ps cs) (mk_spsc r p (CLoaded t b) ps cs)
  | c_finish t b r p ps cs :
    spsc_step (mk_spsc r p (CLoaded t b) ps cs)
      (mk_spsc (set_tail (u64 (t + 1)) r) p CIdle ps (cs ++ [b])).

(** What the producer knows about the ring at each point. *)
Definition producer_ok (r : NetDevRing) (p : ppc) : Prop :=
  match p with
  | PIdle => True
  | PHead _ h => h = head r
  | PRoom _ h => h = head r /\ ring_count r < ring_size r
  | PStored b h => h = head r /\ ring_count r < ring_size r /\
      exists l, slots r = Some l /\ l !! Z.to_nat (head r mod ring_size r) = Some b
  end.

Definition consumer_ok (r : NetDevRing) (c : cpc) : Prop :=
  match c with
  | CIdle => True
  | CTail t => t = tail r
  | CReady t => t = tail r /\ 0 < ring_count r
  | CLoaded t b => t = tail r /\ hd_error (ring_queue r) = Some b
  end.

Record spsc_inv (s : spsc) : Prop := {
  si_ring : wf_ring (ring s);
  si_producer : producer_ok (ring s) (producer s);
  si_consumer : consumer_ok (ring s) (consumer s);
  si_fifo : consumed s ++ ring_queue (ring s) = published s
}.

(** ** The invariant *)

Lemma count_nonzero r : wf_ring r -> tail r <> head r -> 0 < ring_count r.
Proof. intros [_ _ Hh Ht _] Hne. unfold ring_count, u64, is_u64 in *. zlia. Qed.

Lemma hd_error_app {A} (l k : list A) x : hd_error l = Some x -> hd_error (l ++ k) = Some x.
Proof. by destruct l. Qed.

Lemma spsc_step_inv s s' : spsc_inv s -> spsc_step s s' -> spsc_inv s'.
Proof.
  intros [Hw Hp Hc Hf] Hstep. destruct Hstep; cbn [ring producer consumer published consumed] in *.
  - by split.
  - by split.
  - split; [done| |done|done]. cbn. split; [done|]. unfold ring_count. by rewrite <- Hp.
  - destruct Hp as [-> Hlt]. rewrite (seq_index_run r _ Hw) in H. injection H as <-.
    pose proof (pow2_pos _ (wr_pow2 _ Hw)).
    destruct (store_at_head r l b Hw H0 Hlt) as (Hi & Hw1 & Hq1 & Hb1).
    rewrite storeZ_run in H1 by (split; [apply Z.mod_pos_bound; lia|lia]).
    injection H1 as <-. split; cbn [ring producer consumer published consumed]; [done|cbn; eauto|..].
    + destruct c; cbn [consumer_ok] in *; try done. by rewrite Hq1.
    + by rewrite Hq1.
  - destruct Hp as (-> & Hlt & l & Hl & Hb).
    destruct (advance_head r l b Hw Hl Hlt Hb) as (Hw1 & Hc1 & Hq1).
    split; cbn [ring producer consumer published consumed]; [done|done|..].
    + destruct c; cbn [consumer_ok] in *; try done.
      * rewrite Hc1. split; [tauto|lia].
      * destruct Hc as [-> Hc]. split; [done|]. rewrite Hq1. by apply hd_error_app.
    + by rewrite Hq1, app_assoc, Hf.
  - by split.
  - by split.
  - split; [done|done| |done]. cbn in *. subst t. split; [done|]. by apply count_nonzero.
  - destruct Hc as [-> Hc]. rewrite (seq_index_run r _ Hw) in H. injection H as <-.
    pose proof (pow2_pos _ (wr_pow2 _ Hw)).
    destruct (advance_tail r l Hw H0 Hc) as (_ & _ & x & Hx & Hq).
    rewrite lookupZ_nat in H1 by (apply Z.mod_pos_bound; lia).
    split; [done|done| |done]. cbn. split; [done|]. rewrite Hq. cbn. congruence.
  - destruct Hc as [-> Hc]. destruct (wr_slots _ Hw) as (l & Hl & _).
    assert (Hc0 : 0 < ring_count r).
    { rewrite <- (length_ring_queue r Hw). destruct (ring_queue r); [done|]. cbn. lia. }
    destruct (advance_tail r l Hw Hl Hc0) as (Hw1 & Hc1 & x & Hx & Hq).
    split; cbn [ring producer consumer published consumed]; [done| |done|].
    + destruct p; cbn [producer_ok] in *; rewrite ?Hc1; try done; cbn [set_tail head ring_size slots];
        naive_solver lia.
    + rewrite <- Hf, Hq. rewrite Hq in Hc. cbn in Hc. injection Hc as ->.
      by rewrite <- app_assoc.
Qed.

(** Both sides idle on an empty ring. *)
Definition spsc_start (r : NetDevRing) : spsc := mk_spsc r PIdle CIdle [] [].

Lemma spsc_reach_inv s s' : spsc_inv s -> rtc spsc_step s s' -> spsc_inv s'.
Proof. intros Hi Hr. induction Hr; eauto using spsc_step_inv. Qed.

Lemma spsc_start_inv r : wf_ring r -> ring_queue r = [] -> spsc_inv (spsc_start r).
Proof. intros. by split. Qed.

(** One producer and one consumer that run concurrently, interleaved at every
    shared access: at any moment the buffers consumed so far followed by those in
    the ring are exactly the buffers published so far, in order; so none is lost,
    delivered twice or overtaken, and the ring never holds more than its size. *)
Theorem spsc_fifo r s :
  wf_ring r -> ring_queue r = [] -> rtc spsc_step (spsc_start r) s ->
  consumed s ++ ring_queue (ring s) = published s /\
  Z.of_nat (length (ring_queue (ring s))) <= ring_size (ring s).
Proof.
  intros Hw Hq Hr.
  destruct (spsc_reach_inv _ _ (spsc_start_inv r Hw Hq) Hr) as [Hw' _ _ Hf].
  split; [done|]. rewrite length_ring_queue by done. apply Hw'.
Qed.

Lemma spsc_fifo_witness :
  exists s, rtc spsc_step (spsc_start wrapping_ring) s /\
    consumed s = [7] /\ published s = [7] /\ consumed s ++ ring_queue (ring s) = published s.
Proof.
  exists (mk_spsc (mk_NetDevRing (Some [0; 7]) 2 0 0) (PHead 8 0) CIdle [7] [7]).
  assert (Hr : rtc spsc_step (spsc_start wrapping_ring)
    (mk_spsc (mk_NetDevRing (Some [0; 7]) 2 0 0) (PHead 8 0) CIdle [7] [7])).
  { eapply rtc_l; [apply (p_head 7)|]. eapply rtc_l; [apply c_tail|].
    eapply rtc_l; [apply p_room; vm_compute; reflexivity|].
    eapply rtc_l; [eapply p_store; vm_compute; reflexivity|].
    eapply rtc_l; [apply p_publish|].
    eapply rtc_l; [apply c_ready; vm_compute; discriminate|].
    eapply rtc_l; [apply (p_head 8)|].
    eapply rtc_l; [eapply c_load; vm_compute; reflexivity|].
    eapply rtc_l; [apply c_finish|]. apply rtc_refl. }
  destruct (spsc_fifo wrapping_ring _ wf_wrapping_ring eq_refl Hr) as [Hf _].
  split; [exact Hr|]. split; [reflexivity|]. split; [reflexivity|]. exact Hf.
Defined.
