(* ===== verification/RingWords.v ===== *)
(** * The descriptor ring on a 32-bit machine (src/phase4_netdev/netdev_ring.c)

    [head] and [tail] are 64-bit, and the target loads and stores them one 32-bit
    word at a time, in an order the compiler chooses.  Here every access of the two
    sides is split into its words, the other side may act in between, and either
    word may come first.  NetDevRing.v treats the accesses as whole; the theorem
    says when that is right, and [carry_overrun] what happens when it is not. *)

From S2P Require Import Prelude.
From S2P Require Import Ring.
From S2P Require Import NetDevRing.

Inductive word := Hi | Lo.

Definition other (w : word) : word := match w with Hi => Lo | Lo => Hi end.

Definition get_word (w : word) (x : Z) : Z :=
  match w with Hi => x / 4294967296 | Lo => x mod 4294967296 end.

(** [x] with one word replaced by [v]. *)
Definition put_word (w : word) (v x : Z) : Z :=
  match w with
  | Hi => v * 4294967296 + x mod 4294967296
  | Lo => (x / 4294967296) * 4294967296 + v
  end.

(** The value of which word [w], loaded first, is [v], and the other is [v']. *)
Definition join (w : word) (v v' : Z) : Z := put_word w v (put_word (other w) v' 0).

(** ** The two sides, word by word *)

Inductive xpc :=
  | XIdle
  | XHead1 (b : Z) (w : word) (v : Z)       (* a word of [head] loaded *)
  | XHead (b h : Z)
  | XTail1 (b h : Z) (w : word) (v : Z)     (* a word of [tail] loaded *)
  | XRoom (b h : Z)
  | XStored (b h : Z)
  | XPub1 (b h : Z) (w : word).             (* a word of [head + 1] stored *)

Inductive ypc :=
  | YIdle
  | YTail1 (w : word) (v : Z)
  | YTail (t : Z)
  | YHead1 (t : Z) (w : word) (v : Z)
  | YReady (t : Z)
  | YLoaded (t b : Z)
  | YFin1 (t b : Z) (w : word).             (* a word of [tail + 1] stored *)

(** [x_published] grows with the store of the low word of [head], [x_consumed]
    with that of [tail]. *)
Record wordring := mk_wordring {
  x_ring : NetDevRing;
  x_prod : xpc;
  x_cons : ypc;
  x_published : list Z;
  x_consumed : list Z
}.

Definition store_head (w : word) (h : Z) (r : NetDevRing) : NetDevRing :=
  set_head (put_word w (get_word w (u64 (h + 1))) (head r)) r.
Definition store_tail (w : word) (t : Z) (r : NetDevRing) : NetDevRing :=
  set_tail (put_word w (get_word w (u64 (t + 1))) (tail r)) r.

(** The producer's next access; [w] is the word that comes first, [b] the buffer
    of the next call. *)
Definition publish_act (b : Z) (w : word) (s : wordring) : option wordring :=
  let r := x_ring s in
  let goto pc := Some (mk_wordring r pc (x_cons s) (x_published s) (x_consumed s)) in
  let store w b h pc :=
    Some (mk_wordring (store_head w h r) pc (x_cons s)
      (match w with Lo => x_published s ++ [b] | Hi => x_published s end) (x_consumed s)) in
  match x_prod s with
  | XIdle => goto (XHead1 b w (get_word w (head r)))
  | XHead1 b w v => goto (XHead b (join w v (get_word (other w) (head r))))
  | XHead b h => goto (XTail1 b h w (get_word w (tail r)))
  | XTail1 b h w v =>
    let t := join w v (get_word (other w) (tail r)) in
    if ring_size r <=? u64 (h - t) then goto XIdle else goto (XRoom b h)
  | XRoom b h =>
    i ← seq_index h r;
    l ← slots r;
    l' ← storeZ l i b;
    Some (mk_wordring (set_ring_slots l' r) (XStored b h) (x_cons s) (x_published s) (x_consumed s))
  | XStored b h => store w b h (XPub1 b h w)
  | XPub1 b h w => store (other w) b h XIdle
  end.

(** The consumer's next access. *)
Definition consume_act (w : word) (s : wordring) : option wordring :=
  let r := x_ring s in
  let goto pc := Some (mk_wordring r (x_prod s) pc (x_published s) (x_consumed s)) in
  let store w b t pc :=
    Some (mk_wordring (store_tail w t r) (x_prod s) pc (x_published s)
      (match w with Lo => x_consumed s ++ [b] | Hi => x_consumed s end)) in
  match x_cons s with
  | YIdle => goto (YTail1 w (get_word w (tail r)))
  | YTail1 w v => goto (YTail (join w v (get_word (other w) (tail r))))
  | YTail t => goto (YHead1 t w (get_word w (head r)))
  | YHead1 t w v =>
    if t =? join w v (get_word (other w) (head r)) then goto YIdle else goto (YReady t)
  | YReady t =>
    i ← seq_index t r;
    l ← slots r;
    b ← lookupZ l i;
    goto (YLoaded t b)
  | YLoaded t b => store w b t (YFin1 t b w)
  | YFin1 t b w => store (other w) b t YIdle
  end.

Inductive word_act := Publish (b : Z) (w : word) | Consume (w : word).

Definition words_act (a : word_act) (s : wordring) : option wordring :=
  match a with Publish b w => publish_act b w s | Consume w => consume_act w s end.

Fixpoint words_run (acts : list word_act) (s : wordring) : option wordring :=
  match acts with
  | [] => Some s
  | a :: acts' => s ← words_act a s; words_run acts' s
  end.

Definition words_start (r : NetDevRing) : wordring := mk_wordring r XIdle YIdle [] [].

(** As [netdev_ring_init] leaves it. *)
Definition new_ring (l : list Z) : NetDevRing :=
  mk_NetDevRing (Some l) (Z.of_nat (length l)) 0 0.

(** ** Words of small numbers *)

Lemma get_hi x : is_u32 x -> get_word Hi x = 0.
Proof. unfold is_u32, get_word. zlia. Qed.

Lemma get_lo x : is_u32 x -> get_word Lo x = x.
Proof. unfold is_u32, get_word. zlia. Qed.

Lemma join_hi x : is_u32 x -> join Hi 0 (get_word Lo x) = x.
Proof. unfold is_u32, join. cbn. zlia. Qed.

Lemma join_lo v x : is_u32 v -> is_u32 x -> join Lo v (get_word Hi x) = v.
Proof. unfold is_u32, join. cbn. zlia. Qed.

Lemma put_hi x y : is_u32 x -> is_u32 y -> put_word Hi (get_word Hi x) y = y.
Proof. unfold is_u32. cbn. zlia. Qed.

Lemma put_lo x y : is_u32 x -> is_u32 y -> put_word Lo (get_word Lo x) y = x.
Proof. unfold is_u32. cbn. zlia. Qed.

Lemma set_head_id r : set_head (head r) r = r.
Proof. by destruct r. Qed.

Lemma set_tail_id r : set_tail (tail r) r = r.
Proof. by destruct r. Qed.

(** ** Simulation by the machine with whole accesses *)

(** The low word is the access: the state of the machine of NetDevRing.v. *)
Definition abs_prod (n : Z) (p : xpc) : ppc :=
  match p with
  | XIdle | XHead1 _ Hi _ | XPub1 _ _ Lo => PIdle
  | XHead1 b Lo v => PHead b v
  | XHead b h | XTail1 b h Hi _ => PHead b h
  | XTail1 b h Lo v => if n <=? u64 (h - v) then PIdle else PRoom b h
  | XRoom b h => PRoom b h
  | XStored b h | XPub1 b h Hi => PStored b h
  end.

Definition abs_cons (c : ypc) : cpc :=
  match c with
  | YIdle | YTail1 Hi _ | YFin1 _ _ Lo => CIdle
  | YTail1 Lo v => CTail v
  | YTail t | YHead1 t Hi _ => CTail t
  | YHead1 t Lo v => if t =? v then CIdle else CReady t
  | YReady t => CReady t
  | YLoaded t b | YFin1 t b Hi => CLoaded t b
  end.

Definition abs_words (s : wordring) : spsc :=
  mk_spsc (x_ring s) (abs_prod (ring_size (x_ring s)) (x_prod s)) (abs_cons (x_cons s))
    (x_published s) (x_consumed s).

(** High words are zero. *)
Definition prod_words (r : NetDevRing) (p : xpc) : Prop :=
  match p with
  | XHead1 _ Hi v | XTail1 _ _ Hi v => v = 0
  | XHead1 _ Lo v => is_u32 v
  | XTail1 _ _ Lo v => is_u32 v
  | XPub1 _ h Lo => head r = h + 1
  | _ => True
  end.

Definition cons_words (r : NetDevRing) (c : ypc) : Prop :=
  match c with
  | YTail1 Hi v | YHead1 _ Hi v => v = 0
  | YTail1 Lo v | YHead1 _ Lo v => is_u32 v
  | YFin1 t _ Lo => tail r = t + 1
  | _ => True
  end.

Record words_inv (s : wordring) : Prop := {
  xi_spsc : spsc_inv (abs_words s);
  xi_head : head (x_ring s) = Z.of_nat (length (x_published s));
  xi_tail : tail (x_ring s) = Z.of_nat (length (x_consumed s));
  xi_prod : prod_words (x_ring s) (x_prod s);
  xi_cons : cons_words (x_ring s) (x_cons s)
}.

Lemma words_tail_le s : words_inv s -> tail (x_ring s) <= head (x_ring s).
Proof.
  intros [Hi -> -> _ _]. pose proof (si_fifo _ Hi) as Hf. cbn in Hf. rewrite <- Hf, length_app. lia.
Qed.

(** The check on a whole [tail], as a step. *)
Lemma room_step r b h c ps cs :
  spsc_step (mk_spsc r (PHead b h) c ps cs)
    (mk_spsc r (if ring_size r <=? u64 (h - tail r) then PIdle else PRoom b h) c ps cs).
Proof. destruct (Z.leb_spec (ring_size r) (u64 (h - tail r))); by constructor. Qed.

Lemma ready_step r p t ps cs :
  spsc_step (mk_spsc r p (CTail t) ps cs)
    (mk_spsc r p (if t =? head r then CIdle else CReady t) ps cs).
Proof. destruct (Z.eqb_spec t (head r)); by constructor. Qed.

Definition short (s : wordring) : Prop := Z.of_nat (length (x_published s)) < 4294967295.

Lemma publish_short b w s s' : publish_act b w s = Some s' -> short s' -> short s.
Proof.
  unfold short. intros Ha. assert (Hle : (length (x_published s) <= length (x_published s'))%nat).
  { revert Ha. unfold publish_act. destruct s as [r [|? ? ?|? ?|? ? ? ?|? ?|? ?|? ? ?] c ps cs]; cbn [x_prod x_ring].
    1,2,3: by intros [= <-].
    - destruct (_ <=? _); by intros [= <-].
    - destruct (seq_index _ _); [|done]. destruct (slots r); [|done]. cbn.
      destruct (storeZ _ _ _); [|done]. by intros [= <-].
    - intros [= <-]. destruct w; cbn; rewrite ?length_app; lia.
    - intros [= <-]. destruct (other _); cbn; rewrite ?length_app; lia. }
  lia.
Qed.

Lemma publish_words b w s s' :
  words_inv s -> publish_act b w s = Some s' -> short s' -> words_inv s'.
Proof.
  intros Hinv Ha Hs'. pose proof (publish_short _ _ _ _ Ha Hs') as Hs.
  pose proof (words_tail_le _ Hinv) as Hle. unfold short in *.
  destruct Hinv as [Hv Hh Ht Hp Hc]. destruct s as [r p c ps cs].
  cbn [x_ring x_prod x_cons x_published x_consumed] in *.
  assert (is_u32 (head r) /\ is_u32 (tail r)) as [Hhu Htu] by (unfold is_u32; lia).
  pose proof (fun s2 => spsc_step_inv _ s2 Hv) as Hstep. pose proof (si_producer _ Hv) as Hpo.
  unfold publish_act in Ha. destruct p as [|b' v w'|b' h|b' h v w'|b' h|b' h|b' h w'];
    cbn [x_prod x_ring x_cons x_published x_consumed] in Ha.
  - injection Ha as <-. destruct w; [rewrite get_hi by done|rewrite get_lo by done]; split; try done.
    apply Hstep. constructor.
  - injection Ha as <-. destruct v; cbn in Hp; [subst w'|]; cbn [other] in *.
    + rewrite join_hi by done. split; try done. apply Hstep. constructor.
    + rewrite join_lo by done. split; done.
  - injection Ha as <-. destruct w; [rewrite get_hi by done|rewrite get_lo by done]; split; try done.
    apply Hstep, room_step.
  - destruct v; cbn in Hp; [subst w'|]; cbn [other] in *.
    + rewrite join_hi in Ha by done. pose proof (Hstep _ (room_step r b' h (abs_cons c) ps cs)) as Hv'.
      destruct (ring_size r <=? u64 (h - tail r)); injection Ha as <-; by split.
    + rewrite join_lo in Ha by done. revert Hv. unfold abs_words. cbn.
      destruct (ring_size r <=? u64 (h - w')); injection Ha as <-; intros Hv; by split.
  - destruct (seq_index h r) as [i|] eqn:Hx; [|done]. destruct (slots r) as [l|] eqn:Hl; [|done].
    cbn [mbind option_bind] in Ha. destruct (storeZ l i b') as [l'|] eqn:Hst; [|done].
    injection Ha as <-. split; try done. apply Hstep. by econstructor.
  - cbn in Hpo. destruct Hpo as (-> & _). assert (Hw : u64 (head r + 1) = head r + 1) by (unfold u64; zlia).
    injection Ha as <-. unfold store_head. rewrite Hw. destruct w; cbn [x_published] in Hs'.
    + rewrite put_hi, set_head_id by (done || unfold is_u32; lia). by split.
    + rewrite put_lo by (done || unfold is_u32; lia). split; cbn; try done.
      * apply Hstep. cbn. rewrite <- Hw. constructor.
      * rewrite length_app. cbn. lia.
  - destruct w'; cbn [other] in *.
    + cbn in Hpo. destruct Hpo as (-> & _). assert (Hw : u64 (head r + 1) = head r + 1) by (unfold u64; zlia).
      injection Ha as <-. unfold store_head. rewrite Hw. cbn [x_published] in Hs'.
      rewrite put_lo by (done || (rewrite length_app in Hs'; cbn in Hs'; unfold is_u32; lia)).
      split; cbn; try done.
      * apply Hstep. cbn. rewrite <- Hw. constructor.
      * rewrite length_app. cbn. lia.
    + injection Ha as <-. cbn in Hp. unfold store_head.
      assert (Hw : u64 (h + 1) = head r) by (rewrite <- Hp; unfold u64, is_u32 in *; zlia).
      rewrite Hw, put_hi, set_head_id by done. by split.
Qed.

Lemma loaded_room r t b p ps cs :
  spsc_inv (mk_spsc r p (CLoaded t b) ps cs) -> t = tail r /\ (length cs < length ps)%nat.
Proof.
  intros [_ _ [-> Hq] Hf]. cbn in *. split; [done|]. rewrite <- Hf, length_app.
  destruct (ring_queue r); [done|]. cbn. lia.
Qed.

Lemma consume_words w s s' :
  words_inv s -> consume_act w s = Some s' -> short s -> words_inv s' /\ short s'.
Proof.
  intros Hinv Ha Hs. pose proof (words_tail_le _ Hinv) as Hle. unfold short in *.
  destruct Hinv as [Hv Hh Ht Hp Hc]. destruct s as [r p c ps cs].
  cbn [x_ring x_prod x_cons x_published x_consumed] in *.
  assert (is_u32 (head r) /\ is_u32 (tail r)) as [Hhu Htu] by (unfold is_u32; lia).
  pose proof (fun s2 => spsc_step_inv _ s2 Hv) as Hstep.
  unfold consume_act in Ha. destruct c as [|v w'|t|t v w'|t|t b|t b w'];
    cbn [x_prod x_ring x_cons x_published x_consumed] in Ha.
  - injection Ha as <-. split; [|done].
    destruct w; [rewrite get_hi by done|rewrite get_lo by done]; split; try done.
    apply Hstep. constructor.
  - injection Ha as <-. split; [|done]. destruct v; cbn in Hc; [subst w'|]; cbn [other] in *.
    + rewrite join_hi by done. split; try done. apply Hstep. constructor.
    + rewrite join_lo by done. split; done.
  - injection Ha as <-. split; [|done].
    destruct w; [rewrite get_hi by done|rewrite get_lo by done]; split; try done.
    apply Hstep, ready_step.
  - destruct v; cbn in Hc; [subst w'|]; cbn [other] in *.
    + rewrite join_hi in Ha by done.
      pose proof (Hstep _ (ready_step r (abs_prod (ring_size r) p) t ps cs)) as Hv'.
      destruct (t =? head r); injection Ha as <-; (split; [by split|done]).
    + rewrite join_lo in Ha by done. revert Hv. unfold abs_words. cbn.
      destruct (t =? w'); injection Ha as <-; intros Hv; (split; [by split|done]).
  - destruct (seq_index t r) as [i|] eqn:Hx; [|done]. destruct (slots r) as [l|] eqn:Hl; [|done].
    cbn [mbind option_bind] in Ha. destruct (lookupZ l i) as [b|] eqn:Hst; [|done].
    injection Ha as <-. split; [|done]. split; try done. apply Hstep. by econstructor.
  - destruct (loaded_room r t b _ ps cs Hv) as [-> Hlt].
    assert (Hw : u64 (tail r + 1) = tail r + 1) by (unfold u64; zlia).
    injection Ha as <-. unfold store_tail. rewrite Hw. split; [|done]. destruct w.
    + rewrite put_hi, set_tail_id by (done || unfold is_u32; lia). by split.
    + rewrite put_lo by (done || unfold is_u32; lia). split; cbn; try done.
      * apply Hstep. cbn. rewrite <- Hw. constructor.
      * rewrite length_app. cbn. lia.
  - destruct w'; cbn [other] in *.
    + destruct (loaded_room r t b _ ps cs Hv) as [-> Hlt].
      assert (Hw : u64 (tail r + 1) = tail r + 1) by (unfold u64; zlia).
      injection Ha as <-. unfold store_tail. rewrite Hw. split; [|done].
      rewrite put_lo by (done || unfold is_u32; lia). split; cbn; try done.
      * apply Hstep. cbn. rewrite <- Hw. constructor.
      * rewrite length_app. cbn. lia.
    + injection Ha as <-. cbn in Hc. unfold store_tail. split; [|done].
      assert (Hw : u64 (t + 1) = tail r) by (rewrite <- Hc; unfold u64, is_u32 in *; zlia).
      rewrite Hw, put_hi, set_tail_id by done. by split.
Qed.

Lemma consume_published w s s' :
  consume_act w s = Some s' -> x_published s' = x_published s.
Proof.
  unfold consume_act. destruct s as [r p [|? ?|?|? ? ?|?|? ?|? ? ?] ps cs]; cbn [x_cons x_ring].
  1,2,3,6,7: by intros [= <-].
  - destruct (_ =? _); by intros [= <-].
  - destruct (seq_index _ _); [|done]. destruct (slots r); [|done]. cbn.
    destruct (lookupZ _ _); [|done]. by intros [= <-].
Qed.

Lemma words_run_short acts : forall s s', words_run acts s = Some s' -> short s' -> short s.
Proof.
  induction acts as [|a acts IH]; cbn [words_run]; intros s s'; [by intros [= <-]|].
  destruct (words_act a s) as [s1|] eqn:Ha; [|done]. cbn. intros Hr Hs.
  pose proof (IH _ _ Hr Hs) as Hs1. destruct a as [b w|w]; [by eapply publish_short|].
  apply consume_published in Ha. unfold short in *. by rewrite Ha in Hs1.
Qed.

(** In a run that ends short of 2^32 publishes the invariant holds all along. *)
Lemma words_run_inv acts : forall s s',
  words_inv s -> words_run acts s = Some s' -> short s' -> words_inv s'.
Proof.
  induction acts as [|a acts IH]; cbn [words_run]; intros s s' Hinv; [by intros [= <-]|].
  destruct (words_act a s) as [s1|] eqn:Ha; [|done]. cbn. intros Hr Hs.
  pose proof (words_run_short _ _ _ Hr Hs) as Hs1. apply (IH s1); [|done|done].
  destruct a as [b w|w]; [by eapply publish_words|].
  eapply consume_words; [done|exact Ha|]. unfold short in *. by rewrite <- (consume_published _ _ _ Ha).
Qed.

Lemma words_start_inv l : is_pow2 (Z.of_nat (length l)) -> words_inv (words_start (new_ring l)).
Proof.
  intros Hp. pose proof (pow2_pos _ Hp). split; try done. apply spsc_start_inv; [|done].
  split; [done|by exists l|done|done|]. change (0 <= Z.of_nat (length l)). lia.
Qed.

(** C29. The ring at the granularity of 32-bit words.  Every access to [head] and
    [tail] is two accesses, in either order, and the other side may act between
    them.  From a ring as [netdev_ring_init] leaves it, in every interleaving with
    fewer than 2^32 - 1 publishes, the buffers consumed followed by those in the
    ring are the buffers published, in order. *)
Theorem words_fifo l acts s :
  is_pow2 (Z.of_nat (length l)) -> words_run acts (words_start (new_ring l)) = Some s ->
  Z.of_nat (length (x_published s)) < 4294967295 ->
  x_consumed s ++ ring_queue (x_ring s) = x_published s /\
  Z.of_nat (length (ring_queue (x_ring s))) <= ring_size (x_ring s).
Proof.
  intros Hp Hr Hs. destruct (words_run_inv _ _ _ (words_start_inv l Hp) Hr Hs) as [Hv _ _ _ _].
  pose proof (si_fifo _ Hv) as Hf. pose proof (si_ring _ Hv) as Hw. cbn in Hf, Hw.
  split; [done|]. rewrite length_ring_queue by done. apply Hw.
Qed.

(** A publish by the high word first, with a whole consume between the two words
    of [head] and one more behind. *)
Lemma words_fifo_witness :
  exists s, words_run (replicate 6 (Publish 7 Hi) ++ replicate 5 (Consume Lo) ++
      [Publish 7 Hi] ++ replicate 6 (Consume Lo)) (words_start (new_ring [0; 0])) = Some s /\
    x_consumed s ++ ring_queue (x_ring s) = [7].
Proof.
  assert (Hr : words_run (replicate 6 (Publish 7 Hi) ++ replicate 5 (Consume Lo) ++
      [Publish 7 Hi] ++ replicate 6 (Consume Lo)) (words_start (new_ring [0; 0])) =
    Some (mk_wordring (mk_NetDevRing (Some [7; 0]) 2 1 1) XIdle YIdle [7] [7])) by reflexivity.
  eexists. split; [exact Hr|].
  apply (words_fifo [0; 0] _ _ ltac:(exists 1; split; [lia|reflexivity]) Hr). cbn. lia.
Defined.

(** ** The carry

    The ring after 2^32 - 1 publishes and as many consumes, the last buffers still
    in the slots.  The high word of [head] is stored first: until the low word
    follows, [head] is 2^32 ahead, and a consumer takes a buffer that was never
    published again, here the old one in slot 0.  From then on [tail] is ahead of
    [head] and every publish is refused. *)

Definition near_carry : NetDevRing := mk_NetDevRing (Some [5; 6]) 2 4294967295 4294967295.

Lemma wf_near_carry : wf_ring near_carry /\ ring_queue near_carry = [].
Proof.
  split; [|reflexivity]. split; cbn; [by exists 1|by exists [5; 6]|..]; unfold is_u64; try lia.
  change (0 <= 2). lia.
Qed.

Definition carry_run : list word_act :=
  replicate 6 (Publish 7 Hi) ++ replicate 14 (Consume Lo) ++ [Publish 7 Hi].

Lemma carry_overrun :
  exists s, words_run carry_run (words_start near_carry) = Some s /\
    x_published s = [7] /\ x_consumed s = [7; 5] /\ tail (x_ring s) = head (x_ring s) + 1 /\
    netdev_ring_publish 8 (x_ring s) = Some (-1, x_ring s).
Proof. eexists. split; [vm_compute; reflexivity|done]. Qed.
