(* ===== verification/RingWeak.v ===== *)
(** * The descriptor ring on a processor that reorders (src/phase4_netdev/netdev_ring.c)

    The PowerPC lets stores to different locations become visible in any order
    and lets loads run early or late.  [barrier_release] and [barrier_acquire] are
    marked in the source and are compiler barriers only.  Here the two sides of the
    ring run on such a machine; [fences] says which barriers the processor gets:
    the two that are marked, and one between the load of a slot and the store of
    [tail], where the source has none.  The end of the file says which are needed.
    [head] and [tail] are loaded and stored whole here; that the target does it word
    by word, and what comes of it, is in RingWords.v. *)

From S2P Require Import Prelude.
From S2P Require Import NetDevRing.

Record fences := mk_fences {
  f_release : bool;    (* between the store of the slot and of [head] *)
  f_acquire : bool;    (* between the load of [head] and of the slot *)
  f_tail : bool        (* between the load of the slot and the store of [tail] *)
}.

#[global] Instance fences_eq_dec : EqDecision fences.
Proof. solve_decision. Defined.

(** Compiler barriers; both marked sites filled in; and the third one too. *)
Definition as_written : fences := mk_fences false false false.
Definition marked_sites : fences := mk_fences true true false.
Definition all_fences : fences := mk_fences true true true.

(** ** The producer

    Its stores wait in a buffer.  One of them may become visible when no fence and
    no store to the same location is before it. *)

Inductive store_entry := SSlot (i b : Z) | SHead (v : Z) | SFence.

Definition apply_store (e : store_entry) (r : NetDevRing) : option NetDevRing :=
  match e with
  | SSlot i b => l ← slots r; l' ← storeZ l i b; Some (set_ring_slots l' r)
  | SHead v => Some (set_head v r)
  | SFence => Some r
  end.

Definition same_location (e e' : store_entry) : bool :=
  match e, e' with
  | SSlot i _, SSlot j _ => i =? j
  | SHead _, SHead _ => true
  | _, _ => false
  end.

Definition may_commit (before : list store_entry) (e : store_entry) : bool :=
  match e with
  | SFence => bool_decide (before = [])
  | _ => forallb (fun e' => match e' with SFence => false | _ => negb (same_location e' e) end) before
  end.

(** Between the accesses of [netdev_ring_publish]. *)
Inductive wppc :=
  | WIdle
  | WHead (b h : Z)      (* [head] loaded *)
  | WRoom (b h : Z).     (* [tail] loaded, the ring is not full *)

(** [p_head] is what a load of its own [head] gives; a load of [tail] gives
    [p_seen], what the processor last saw of it. *)
Record wprod := mk_wprod {
  p_pc : wppc;
  p_buf : list store_entry;
  p_head : Z;
  p_seen : Z
}.

Inductive pact := PStart (b : Z) | PDecide | PIssue | PCommit (k : nat) | PRefresh.

(** The producer, the ring in memory, and what was published.  The 64-bit numbers are
    loaded and stored whole. *)
Definition prod_act (f : fences) (a : pact) (m : NetDevRing) (p : wprod)
    : option (wprod * NetDevRing * list Z) :=
  let goto pc := mk_wprod pc (p_buf p) (p_head p) (p_seen p) in
  match a, p_pc p with
  | PStart b, WIdle => Some (goto (WHead b (p_head p)), m, [])
  | PDecide, WHead b h =>
    if ring_size m <=? u64 (h - p_seen p) then Some (goto WIdle, m, [])
    else Some (goto (WRoom b h), m, [])
  | PIssue, WRoom b h =>
    i ← seq_index h m;
    let stores := SSlot i b :: (if f_release f then [SFence] else []) ++ [SHead (u64 (h + 1))] in
    Some (mk_wprod WIdle (p_buf p ++ stores) (u64 (h + 1)) (p_seen p), m, [b])
  | PCommit k, pc =>
    e ← p_buf p !! k;
    if may_commit (take k (p_buf p)) e then
      m' ← apply_store e m;
      Some (mk_wprod pc (delete k (p_buf p)) (p_head p) (p_seen p), m', [])
    else None
  | PRefresh, pc => Some (mk_wprod pc (p_buf p) (p_head p) (tail m), m, [])
  | _, _ => None
  end.

(** ** The consumer

    Its stores are all to [tail] and stay in order.  The load of the slot may run
    before the load of [head], or after the store of [tail] is visible, unless a
    fence forbids it. *)

Inductive wcpc :=
  | VIdle
  | VTail (t : Z) (early : option Z)     (* [tail] loaded, perhaps the slot too *)
  | VReady (t : Z) (early : option Z).   (* [head] loaded, the ring is not empty *)

(** [c_got] is what the calls stored through [out], nothing yet for a load that is
    late; [c_late] are those loads: the call and the index of the slot. *)
Record wcons := mk_wcons {
  c_pc : wcpc;
  c_buf : list Z;
  c_tail : Z;
  c_seen : Z;
  c_got : list (option Z);
  c_late : list (nat * Z)
}.

Inductive cact := CStart | CEarly | CDecide | CLoad | CDefer | CLate (k : nat) | CCommit | CRefresh.

Definition load_slot (t : Z) (m : NetDevRing) : option Z :=
  i ← seq_index t m; l ← slots m; lookupZ l i.

(** The consumer and the ring in memory.  The 64-bit numbers are loaded and stored
    whole. *)
Definition cons_act (f : fences) (a : cact) (m : NetDevRing) (c : wcons)
    : option (wcons * NetDevRing) :=
  let goto pc := mk_wcons pc (c_buf c) (c_tail c) (c_seen c) (c_got c) (c_late c) in
  let finish t got late :=
    mk_wcons VIdle (c_buf c ++ [u64 (t + 1)]) (u64 (t + 1)) (c_seen c) (c_got c ++ [got]) late in
  match a, c_pc c with
  | CStart, VIdle => Some (goto (VTail (c_tail c) None), m)
  | CEarly, VTail t None =>
    if f_acquire f then None else b ← load_slot t m; Some (goto (VTail t (Some b)), m)
  | CDecide, VTail t early =>
    if t =? c_seen c then Some (goto VIdle, m) else Some (goto (VReady t early), m)
  | CLoad, VReady t None => b ← load_slot t m; Some (finish t (Some b) (c_late c), m)
  | CLoad, VReady t (Some b) => Some (finish t (Some b) (c_late c), m)
  | CDefer, VReady t None =>
    if f_tail f then None else
    i ← seq_index t m;
    Some (finish t None (c_late c ++ [(length (c_got c), i)]), m)
  | CLate k, pc =>
    '(j, i) ← c_late c !! k;
    l ← slots m;
    b ← lookupZ l i;
    Some (mk_wcons pc (c_buf c) (c_tail c) (c_seen c) (<[j := Some b]> (c_got c))
      (delete k (c_late c)), m)
  | CCommit, pc =>
    match c_buf c with
    | [] => None
    | v :: vs => Some (mk_wcons pc vs (c_tail c) (c_seen c) (c_got c) (c_late c), set_tail v m)
    end
  | CRefresh, pc => Some (mk_wcons pc (c_buf c) (c_tail c) (head m) (c_got c) (c_late c), m)
  | _, _ => None
  end.

(** ** Both *)

Record wring := mk_wring {
  w_mem : NetDevRing;
  w_prod : wprod;
  w_cons : wcons;
  w_published : list Z
}.

Definition weak_act (f : fences) (a : pact + cact) (s : wring) : option wring :=
  match a with
  | inl a =>
    '(p, m, bs) ← prod_act f a (w_mem s) (w_prod s);
    Some (mk_wring m p (w_cons s) (w_published s ++ bs))
  | inr a =>
    '(c, m) ← cons_act f a (w_mem s) (w_cons s);
    Some (mk_wring m (w_prod s) c (w_published s))
  end.

(** A schedule; [None] when it asks for what is not possible. *)
Fixpoint weak_run (f : fences) (acts : list (pact + cact)) (s : wring) : option wring :=
  match acts with
  | [] => Some s
  | a :: acts' => s ← weak_act f a s; weak_run f acts' s
  end.

(** The ring as [netdev_ring_init] leaves it, both sides idle. *)
Definition weak_start (l : list Z) : wring :=
  mk_wring (mk_NetDevRing (Some l) (Z.of_nat (length l)) 0 0)
    (mk_wprod WIdle [] 0 0) (mk_wcons VIdle [] 0 0 [] []) [].

(** What the calls of the consumer got is what was published, in order. *)
Definition fifo (s : wring) : Prop :=
  forall k b, c_got (w_cons s) !! k = Some (Some b) -> w_published s !! k = Some b.

(** ** The producer's buffer with all fences *)

(** The stores of the publish with sequence number [q], and of those from [q] on. *)
Definition op_stores (n q b : Z) : list store_entry :=
  [SSlot (q mod n) b; SFence; SHead (u64 (q + 1))].

Fixpoint ops_stores (n q : Z) (bs : list Z) : list store_entry :=
  match bs with [] => [] | b :: bs' => op_stores n q b ++ ops_stores n (q + 1) bs' end.

(** What can be left of them when [head] in memory is [q]: the slots below the
    third argument are stored. *)
Inductive buffered (n q : Z) : list Z -> Z -> list store_entry -> Prop :=
  | bf_all bs : buffered n q bs q (ops_stores n q bs)
  | bf_slot b bs : buffered n q (b :: bs) (q + 1)
      (SFence :: SHead (u64 (q + 1)) :: ops_stores n (q + 1) bs)
  | bf_fence b bs : buffered n q (b :: bs) (q + 1)
      (SHead (u64 (q + 1)) :: ops_stores n (q + 1) bs)
  | bf_two b b' bs : buffered n q (b :: b' :: bs) (q + 2)
      (SHead (u64 (q + 1)) :: SFence :: SHead (u64 (q + 1 + 1)) :: ops_stores n (q + 1 + 1) bs).

Lemma ops_stores_snoc n q bs b :
  ops_stores n q (bs ++ [b]) = ops_stores n q bs ++ op_stores n (q + Z.of_nat (length bs)) b.
Proof.
  revert q. induction bs as [|x bs IH]; intros q; cbn [ops_stores app length].
  { by rewrite Z.add_0_r. }
  rewrite IH. cbn [op_stores app]. by replace (q + Z.of_nat (S (length bs)))
    with (q + 1 + Z.of_nat (length bs)) by lia.
Qed.

Lemma buffered_snoc n q bs s buf b :
  buffered n q bs s buf ->
  buffered n q (bs ++ [b]) s (buf ++ op_stores n (q + Z.of_nat (length bs)) b).
Proof.
  intros Hb. destruct Hb as [bs|x bs|x bs|x y bs]; cbn [app length].
  - rewrite <- ops_stores_snoc. constructor.
  - replace (q + Z.of_nat (S (length bs))) with (q + 1 + Z.of_nat (length bs)) by lia.
    rewrite <- ops_stores_snoc. constructor.
  - replace (q + Z.of_nat (S (length bs))) with (q + 1 + Z.of_nat (length bs)) by lia.
    rewrite <- ops_stores_snoc. constructor.
  - replace (q + Z.of_nat (S (S (length bs)))) with (q + 1 + 1 + Z.of_nat (length bs)) by lia.
    rewrite <- ops_stores_snoc. constructor.
Qed.

(** A fence among the stores before it holds a store back. *)
Lemma fence_holds before e : SFence ∈ before -> may_commit before e = false.
Proof.
  intros Hin. destruct e; cbn [may_commit];
    [..|apply bool_decide_eq_false; intros ->; by apply elem_of_nil in Hin].
  all: apply not_true_is_false; rewrite forallb_forall; intros Hall;
    apply list_elem_of_In, Hall in Hin; done.
Qed.

(** What can become visible next: a fence passes, the next slot, or [head]. *)
Lemma buffered_commit n q bs s buf k e :
  buffered n q bs s buf -> buf !! k = Some e -> may_commit (take k buf) e = true ->
  (e = SFence /\ buffered n q bs s (delete k buf)) \/
  (exists b, e = SSlot (s mod n) b /\ bs !! Z.to_nat (s - q) = Some b /\ q <= s /\
    buffered n q bs (s + 1) (delete k buf)) \/
  (exists b bs', e = SHead (u64 (q + 1)) /\ bs = b :: bs' /\ q + 1 <= s /\
    buffered n (q + 1) bs' s (delete k buf)).
Proof.
  assert (Hf : forall l, SFence ∈ l -> may_commit l e = true -> False).
  { intros l Hin. by rewrite fence_holds. }
  destruct 1 as [bs|b bs|b bs|b b' bs].
  - destruct bs as [|b bs]; [done|]. cbn [ops_stores op_stores app].
    destruct k as [|[|k]]; cbn [lookup list_lookup take]; [|by intros [= <-]|].
    + intros [= <-] _. right. left. exists b. rewrite Z.sub_diag. split_and!; [done|done|lia|].
      constructor.
    + intros _ Hm. exfalso. eapply Hf; [|exact Hm]. set_solver.
  - destruct k as [|k]; cbn [lookup list_lookup take].
    + intros [= <-] _. left. split; [done|]. constructor.
    + intros _ Hm. exfalso. eapply Hf; [|exact Hm]. set_solver.
  - destruct k as [|k]; cbn [lookup list_lookup take].
    + intros [= <-] _. right. right. exists b, bs. split_and!; [done|done|lia|]. constructor.
    + destruct bs as [|b' bs]; [done|]. cbn [ops_stores op_stores app].
      destruct k as [|[|k]]; cbn [lookup list_lookup take]; [|by intros [= <-]|].
      * intros [= <-] _. right. left. exists b'. replace (q + 1 - q) with 1 by lia.
        split_and!; [done|done|lia|]. replace (q + 1 + 1) with (q + 2) at 1 by lia.
        cbn. constructor.
      * intros _ Hm. exfalso. eapply Hf; [|exact Hm]. set_solver.
  - destruct k as [|[|k]]; cbn [lookup list_lookup take]; [|by intros [= <-]|].
    + intros [= <-] _. right. right. exists b, (b' :: bs). split_and!; [done|done|lia|].
      replace (q + 2) with (q + 1 + 1) by lia. constructor.
    + intros _ Hm. exfalso. eapply Hf; [|exact Hm]. set_solver.
Qed.

(** ** Sequence numbers *)

Lemma u64_diff a b : 0 <= a - b < 18446744073709551616 -> u64 (u64 a - u64 b) = a - b.
Proof. unfold u64. zlia. Qed.

Lemma u64_inj a b : 0 <= a - b < 18446744073709551616 -> u64 a = u64 b -> a = b.
Proof. unfold u64. zlia. Qed.

Lemma u64_succ a : u64 (u64 a + 1) = u64 (a + 1).
Proof. unfold u64. zlia. Qed.

(** Within one length of the ring, indices are distinct. *)
Lemma mod_inj n a b : 0 < n -> 0 <= a - b < n -> a mod n = b mod n -> a = b.
Proof.
  intros Hn Hab He. pose proof (Zminus_mod a b n) as Hm. rewrite He, Z.sub_diag in Hm.
  rewrite (Z.mod_small (a - b)), Z.mod_0_l in Hm by lia. lia.
Qed.

(** ** The invariant with all fences

    [h] publishes were issued; in memory [head] says [hm], the slots below [sl] are
    stored and [tail] says [tm]; the producer last saw [ps]; [t] loads of slots are
    done and the consumer last saw [cs]. *)

Definition wppc_ok (n h ps : Z) (pc : wppc) : Prop :=
  match pc with
  | WIdle => True
  | WHead _ x => x = u64 h
  | WRoom _ x => x = u64 h /\ h < ps + n
  end.

Definition wcpc_ok (t cs : Z) (pc : wcpc) : Prop :=
  match pc with
  | VIdle => True
  | VTail x early => x = u64 t /\ early = None
  | VReady x early => x = u64 t /\ early = None /\ t < cs
  end.

Record winv (n : Z) (s : wring) (h hm sl ps tm t cs : Z) : Prop := {
  wi_pow : is_pow2 n;
  wi_h : h = Z.of_nat (length (w_published s));
  wi_order : 0 <= ps <= tm /\ tm <= t <= cs /\ cs <= hm <= sl /\ sl <= h <= ps + n;
  wi_mem : exists l, w_mem s = mk_NetDevRing (Some l) n (u64 hm) (u64 tm) /\
    Z.of_nat (length l) = n /\
    forall q, t <= q < sl -> l !! Z.to_nat (q mod n) = w_published s !! Z.to_nat q;
  wi_prod : exists pc buf, w_prod s = mk_wprod pc buf (u64 h) (u64 ps) /\ wppc_ok n h ps pc /\
    buffered n hm (drop (Z.to_nat hm) (w_published s)) sl buf;
  wi_cons : exists pc, wcpc_ok t cs pc /\ w_cons s =
    mk_wcons pc (u64 <$> seqZ (tm + 1) (t - tm)) (u64 t) (u64 cs)
      (Some <$> take (Z.to_nat t) (w_published s)) []
}.

Definition weak_ok (n : Z) (s : wring) : Prop :=
  exists h hm sl ps tm t cs, winv n s h hm sl ps tm t cs.

Lemma weak_start_ok l : is_pow2 (Z.of_nat (length l)) -> weak_ok (Z.of_nat (length l)) (weak_start l).
Proof.
  intros Hp. pose proof (pow2_pos _ Hp). exists 0, 0, 0, 0, 0, 0, 0.
  split; cbn; [done|done|lia| | |].
  - exists l. split_and!; [done|done|lia].
  - exists WIdle, []. split_and!; [done|done|]. apply (bf_all _ _ []).
  - by exists VIdle.
Qed.

(** A store that becomes visible. *)
Lemma commit_ok n s h hm sl ps tm t cs pc buf k e m :
  winv n s h hm sl ps tm t cs -> w_prod s = mk_wprod pc buf (u64 h) (u64 ps) ->
  buf !! k = Some e -> may_commit (take k buf) e = true -> apply_store e (w_mem s) = Some m ->
  weak_ok n (mk_wring m (mk_wprod pc (delete k buf) (u64 h) (u64 ps)) (w_cons s) (w_published s)).
Proof.
  intros Hw Hp He Hmay Ha. pose proof (pow2_pos _ (wi_pow _ _ _ _ _ _ _ _ _ Hw)) as Hn.
  destruct Hw as [Hpow Hh Hord (l & Hm & Hl & Hslots) (pc' & buf' & Hp' & Hpc & Hbuf) Hc].
  rewrite Hp in Hp'. injection Hp' as <- <-. rewrite Hm in Ha.
  destruct (buffered_commit _ _ _ _ _ _ _ Hbuf He Hmay)
    as [(-> & Hb)|[(b & -> & Hat & Hqs & Hb)|(b & bs' & -> & Hbs & Hqs & Hb)]].
  - injection Ha as <-. exists h, hm, sl, ps, tm, t, cs. split; eauto 10.
  - rewrite lookup_drop in Hat. replace (Z.to_nat hm + Z.to_nat (sl - hm))%nat
      with (Z.to_nat sl) in Hat by lia.
    pose proof (lookup_lt_Some _ _ _ Hat) as Hlt. pose proof (Z.mod_pos_bound sl n ltac:(lia)) as Hb'.
    cbn [apply_store slots mbind option_bind] in Ha. rewrite storeZ_run in Ha by lia.
    injection Ha as <-.
    exists h, hm, (sl + 1), ps, tm, t, cs. split; cbn [w_mem w_prod w_cons w_published]; eauto 10; [lia|].
    eexists. split_and!; [done|by rewrite length_insert|]. intros q Hq.
    destruct (decide (q = sl)) as [->|Hne].
    + rewrite list_lookup_insert_eq by lia. done.
    + rewrite list_lookup_insert_ne; [apply Hslots; lia|]. intros Hi.
      apply Z2Nat.inj in Hi; [|lia|apply Z.mod_pos_bound; lia].
      destruct Hne. symmetry. apply (mod_inj n); [lia|lia|done].
  - injection Ha as <-.
    assert (hm < h). { apply (f_equal length) in Hbs. rewrite length_drop in Hbs. cbn in Hbs. lia. }
    exists h, (hm + 1), sl, ps, tm, t, cs. split; cbn [w_mem w_prod w_cons w_published]; eauto 10; [lia|].
    eexists _, _. split_and!; [done|done|]. replace (Z.to_nat (hm + 1)) with (S (Z.to_nat hm)) by lia.
    rewrite <- Nat.add_1_r, <- drop_drop, Hbs. done.
Qed.

Lemma prod_act_ok n a s p m bs :
  weak_ok n s -> prod_act all_fences a (w_mem s) (w_prod s) = Some (p, m, bs) ->
  weak_ok n (mk_wring m p (w_cons s) (w_published s ++ bs)).
Proof.
  intros (h & hm & sl & ps & tm & t & cs & Hw) Ha. pose proof (pow2_pos _ (wi_pow _ _ _ _ _ _ _ _ _ Hw)) as Hn.
  destruct Hw as [Hpow Hh Hord (l & Hm & Hl & Hslots) (pc & buf & Hp & Hpc & Hbuf) Hc].
  rewrite Hm, Hp in Ha. destruct a as [b| | |k|]; cbn [prod_act p_pc p_buf p_head p_seen] in Ha.
  - destruct pc; try done. injection Ha as <- <- <-. rewrite app_nil_r.
    exists h, hm, sl, ps, tm, t, cs. split; eauto 10.
    eexists _, _. split_and!; [done|done|done].
  - destruct pc as [|b x|]; try done. cbn in Hpc. subst x. cbn [ring_size] in Ha.
    rewrite u64_diff in Ha by lia.
    destruct (Z.leb_spec n (h - ps)); injection Ha as <- <- <-; rewrite app_nil_r;
      exists h, hm, sl, ps, tm, t, cs; split; eauto 10;
      eexists _, _; (split_and!; [done| |done]); cbn; lia.
  - destruct pc as [| |b x]; try done. destruct Hpc as [-> Hroom]. unfold seq_index in Ha. cbn in Ha.
    rewrite (proj2 (Z.eqb_neq n 0)) in Ha by lia. cbn in Ha. injection Ha as <- <- <-.
    exists (h + 1), hm, sl, ps, tm, t, cs. split; cbn [w_mem w_prod w_cons w_published]; [done|..].
    + rewrite length_app. cbn. lia.
    + lia.
    + exists l. split_and!; [done|done|]. intros q Hq. rewrite Hslots by done.
      by rewrite lookup_app_l by lia.
    + eexists _, _. rewrite u64_succ, u64_mod by done. split_and!; [done|done|].
      rewrite drop_app_le by lia.
      pose proof (buffered_snoc _ _ _ _ _ b Hbuf) as Hb. rewrite length_drop in Hb.
      unfold op_stores in Hb. by replace (hm + Z.of_nat (length (w_published s) - Z.to_nat hm))
        with h in Hb by lia.
    + destruct Hc as (cpc & ? & ->). exists cpc. split; [done|]. f_equal. f_equal.
      by rewrite take_app_le by lia.
  - destruct (buf !! k) as [e|] eqn:He; [|done]. cbn [mbind option_bind] in Ha.
    destruct (may_commit _ e) eqn:Hmay; [|done].
    destruct (apply_store e _) as [m'|] eqn:Hs; [|done]. injection Ha as <- <- <-. rewrite app_nil_r.
    rewrite <- Hm in Hs. eapply commit_ok; [|done..].
    split; [done|done|done|by exists l|by exists pc, buf|done].
  - injection Ha as <- <- <-. rewrite app_nil_r.
    exists h, hm, sl, tm, tm, t, cs. split; cbn [w_mem w_prod w_cons w_published]; eauto 10; [lia|].
    eexists _, _. split_and!; [done| |done]. destruct pc; cbn in *; try done. lia.
Qed.

Lemma fmap_seqZ_snoc m k :
  0 <= k -> (u64 <$> seqZ m k) ++ [u64 (m + k)] = u64 <$> seqZ m (k + 1).
Proof.
  intros Hk. rewrite (seqZ_app m k 1) by lia. by rewrite fmap_app.
Qed.

Lemma load_slot_run n l q hm tm :
  is_pow2 n -> Z.of_nat (length l) = n ->
  load_slot (u64 q) (mk_NetDevRing (Some l) n hm tm) = l !! Z.to_nat (q mod n).
Proof.
  intros Hp Hl. pose proof (pow2_pos _ Hp). unfold load_slot, seq_index. cbn [ring_size].
  rewrite (proj2 (Z.eqb_neq n 0)) by lia. cbn. rewrite u64_mod by done.
  apply lookupZ_nat. apply Z.mod_pos_bound. lia.
Qed.

Lemma cons_act_ok n a s c m :
  weak_ok n s -> cons_act all_fences a (w_mem s) (w_cons s) = Some (c, m) ->
  weak_ok n (mk_wring m (w_prod s) c (w_published s)).
Proof.
  intros (h & hm & sl & ps & tm & t & cs & Hw) Ha. pose proof (pow2_pos _ (wi_pow _ _ _ _ _ _ _ _ _ Hw)) as Hn.
  destruct Hw as [Hpow Hh Hord (l & Hm & Hl & Hslots) Hp (pc & Hpc & Hc)].
  rewrite Hm, Hc in Ha. destruct a as [| | | | |k| |]; cbn [cons_act c_pc] in Ha.
  - destruct pc; try done. injection Ha as <- <-.
    exists h, hm, sl, ps, tm, t, cs. split; cbn [w_mem w_prod w_cons w_published]; eauto 10.
    eexists. split; [|done]. done.
  - destruct pc as [|? [|]|]; done.
  - destruct pc as [|x early|]; try done. destruct Hpc as [-> ->]. cbn in Ha.
    exists h, hm, sl, ps, tm, t, cs.
    destruct (Z.eqb_spec (u64 t) (u64 cs)) as [|Hne]; injection Ha as <- <-;
      split; cbn [w_mem w_prod w_cons w_published]; eauto 10; eexists; (split; [|done]); [done|].
    split_and!; [done|done|]. destruct (decide (t = cs)); [congruence|lia].
  - destruct pc as [| |x early]; try done. destruct Hpc as (-> & -> & Hlt).
    rewrite load_slot_run in Ha by done. rewrite Hslots in Ha by lia.
    destruct (w_published s !! Z.to_nat t) as [b|] eqn:Hb; [|done]. cbn in Ha. injection Ha as <- <-.
    exists h, hm, sl, ps, tm, (t + 1), cs. split; cbn [w_mem w_prod w_cons w_published]; eauto 10; [lia| |].
    + exists l. split_and!; [done|done|]. intros q Hq. apply Hslots. lia.
    + eexists. split; [|rewrite u64_succ; f_equal]; [done| |].
      * replace (t + 1) with (tm + 1 + (t - tm)) at 1 by lia. rewrite fmap_seqZ_snoc by lia.
        by replace (t - tm + 1) with (t + 1 - tm) by lia.
      * replace (Z.to_nat (t + 1)) with (S (Z.to_nat t)) by lia.
        by rewrite (take_S_r _ _ b), fmap_app by done.
  - by destruct pc as [| |? [|]].
  - done.
  - cbn [c_buf] in Ha. destruct (decide (tm = t)) as [->|Hne]; [by rewrite Z.sub_diag in Ha|].
    rewrite seqZ_cons in Ha by lia. cbn in Ha. injection Ha as <- <-.
    exists h, hm, sl, ps, (tm + 1), t, cs. split; cbn [w_mem w_prod w_cons w_published]; eauto 10; [lia|].
    exists pc. split; [done|]. f_equal. unfold Z.succ, Z.pred. do 2 f_equal. lia.
  - injection Ha as <- <-.
    exists h, hm, sl, ps, tm, t, hm. split; cbn [w_mem w_prod w_cons w_published]; eauto 10; [lia|].
    exists pc. split; [|done]. destruct pc; cbn in *; try done. intuition lia.
Qed.

Lemma weak_run_ok n acts : forall s s',
  weak_ok n s -> weak_run all_fences acts s = Some s' -> weak_ok n s'.
Proof.
  induction acts as [|a acts IH]; cbn [weak_run]; intros s s' Hok; [by intros [= <-]|].
  destruct (weak_act all_fences a s) as [s1|] eqn:Ha; [|done]. apply IH. destruct a as [a|a]; cbn in Ha.
  - destruct (prod_act _ _ _ _) as [[[p m] bs]|] eqn:Hp; [|done]. injection Ha as <-.
    by eapply prod_act_ok.
  - destruct (cons_act _ _ _ _) as [[c m]|] eqn:Hp; [|done]. injection Ha as <-.
    by eapply cons_act_ok.
Qed.

Lemma weak_ok_fifo n s : weak_ok n s -> fifo s.
Proof.
  intros (h & hm & sl & ps & tm & t & cs & [_ _ _ _ _ (pc & _ & Hc)]) k b.
  rewrite Hc. cbn [c_got]. rewrite list_lookup_fmap. destruct (take _ _ !! k) eqn:Hk; [|done].
  intros [= <-]. by apply lookup_take_Some in Hk as [Hk _].
Qed.

(** ** Without one of them *)

Definition publish (b : Z) : list (pact + cact) := [inl (PStart b); inl PDecide; inl PIssue].
Definition commits (n : nat) : list (pact + cact) := replicate n (inl (PCommit 0)).

(** [head] is visible before the slot. *)
Definition no_release_run : list (pact + cact) :=
  publish 7 ++ [inl (PCommit 1); inr CRefresh; inr CStart; inr CDecide; inr CLoad].

(** The slot is loaded before [head]. *)
Definition no_acquire_run (f : fences) : list (pact + cact) :=
  [inr CStart; inr CEarly] ++ publish 7 ++ commits (if f_release f then 3 else 2) ++
  [inr CRefresh; inr CDecide; inr CLoad].

(** The slot is loaded after [tail] is visible, and after the producer used the
    room. *)
Definition no_tail_run (f : fences) : list (pact + cact) :=
  let k := if f_release f then 3%nat else 2%nat in
  publish 7 ++ commits k ++
  [inr CRefresh; inr CStart; inr CDecide; inr CDefer; inr CCommit; inl PRefresh] ++
  publish 8 ++ commits k ++ [inr (CLate 0)].

Lemma missing_fence f :
  f <> all_fences -> exists acts s, weak_run f acts (weak_start [0]) = Some s /\ ~ fifo s.
Proof.
  intros Hf. destruct f as [[] a t].
  - destruct a.
    + destruct t; [done|]. exists (no_tail_run marked_sites). eexists. split; [vm_compute; reflexivity|].
      intros Hff. by specialize (Hff 0%nat 8 eq_refl).
    + exists (no_acquire_run all_fences). eexists. split; [destruct t; vm_compute; reflexivity|].
      intros Hff. by specialize (Hff 0%nat 0 eq_refl).
  - exists no_release_run. eexists. split; [destruct a, t; vm_compute; reflexivity|].
    intros Hff. by specialize (Hff 0%nat 0 eq_refl).
Qed.

(** C30. On a processor that reorders, and loads and stores the 64-bit [head] and
    [tail] whole (word by word: see RingWords.v), the ring is a FIFO exactly with three
    barriers: the two marked in the source and one between the load of the slot and
    the store of [tail].  With all three, in every schedule of the two sides, of
    the stores that become visible and of the values that loads see, each call of
    the consumer gets what the publish with its number stored; with any one of
    them missing there is a schedule in which a call gets something else. *)
Theorem ring_needs_fences f :
  (forall l acts s, is_pow2 (Z.of_nat (length l)) ->
    weak_run f acts (weak_start l) = Some s -> fifo s) <-> f = all_fences.
Proof.
  split.
  - intros Hall. destruct (decide (f = all_fences)) as [|Hf]; [done|].
    destruct (missing_fence f Hf) as (acts & s & Hr & Hn). destruct Hn.
    apply (Hall [0] acts s); [|done]. exists 0. split; [lia|done].
  - intros -> l acts s Hp Hr. eapply weak_ok_fifo, weak_run_ok; [|exact Hr]. by apply weak_start_ok.
Qed.

(** The code as it is, and with the marked barriers made real. *)
Lemma as_written_not_fifo :
  (exists acts s, weak_run as_written acts (weak_start [0; 0]) = Some s /\
    c_got (w_cons s) = [Some 0] /\ w_published s = [7]) /\
  (exists acts s, weak_run marked_sites acts (weak_start [0]) = Some s /\
    c_got (w_cons s) = [Some 8] /\ w_published s = [7; 8]).
Proof.
  split.
  - exists no_release_run. eexists. split; [vm_compute; reflexivity|done].
  - exists (no_tail_run marked_sites). eexists. split; [vm_compute; reflexivity|done].
Qed.
