(* ===== verification/NetDevRegistry.v ===== *)
(** * The driver registry (src/phase4_netdev/netdev_registry.c) and the
      reference driver's registration (src/phase4_netdev/reference_driver.c)

    A table of at most 16 named drivers with swap-removal.  The component
    refines a finite map from names to drivers.  A driver is the address of
    its interface, 0 when null; a name is the string its pointer designates,
    [None] when null. *)

From S2P Require Import Prelude.

Definition NETDEV_MAX_REGISTERED : Z := 16.

Record netdev_slot := mk_netdev_slot { name : option string; iface : Z }.

Record registry := mk_registry { g_registry : list netdev_slot; g_count : Z }.

Definition registry_init : registry := mk_registry (replicate 16 (mk_netdev_slot None 0)) 0.

Definition set_entry (i : Z) (s : netdev_slot) : M registry unit :=
  r ← getM;
  l ← liftO (storeZ (g_registry r) i s);
  putM (mk_registry l (g_count r)).

Definition get_entry (i : Z) : M registry netdev_slot :=
  r ← getM; liftO (lookupZ (g_registry r) i).

(** [strcmp(a, b) == 0]; undefined on a null pointer. *)
Definition strcmp_eq (a b : option string) : M registry bool :=
  match a, b with
  | Some a, Some b => mret (bool_decide (a = b))
  | _, _ => ub
  end.

(** The loops [for (i = 0; i < g_count; i++) if (strcmp(...) == 0)]: the index at
    which they stop, or -1. *)
Fixpoint find_name (nm : option string) (n : nat) (i : Z) : M registry Z :=
  match n with
  | O => mret (-1)
  | S n' =>
    s ← get_entry i;
    eq ← strcmp_eq (name s) nm;
    if (eq : bool) then mret i else find_name nm n' (i + 1)
  end.

Definition search_name (nm : option string) : M registry Z :=
  r ← getM; find_name nm (Z.to_nat (g_count r)) 0.

Definition NetDev_Register (nm : option string) (f : Z) : M registry Z :=
  match nm with
  | None => mret (-1)
  | Some _ =>
    if f =? 0 then mret (-1) else
    r ← getM;
    if NETDEV_MAX_REGISTERED <=? g_count r then mret (-1) else
    i ← search_name nm;
    if 0 <=? i then mret (-1) else
    r ← getM;
    set_entry (g_count r) (mk_netdev_slot nm f);;
    r ← getM;
    n ← ckd (g_count r + 1);
    putM (mk_registry (g_registry r) n);;
    mret 0
  end.

Definition NetDev_Unregister (nm : option string) : M registry Z :=
  i ← search_name nm;
  if 0 <=? i then
    r ← getM;
    last ← get_entry (g_count r - 1);
    set_entry i last;;
    r ← getM;
    n ← ckd (g_count r - 1);
    putM (mk_registry (g_registry r) n);;
    mret 0
  else mret (-1).

Definition NetDev_Lookup (nm : option string) : M registry Z :=
  i ← search_name nm;
  if 0 <=? i then s ← get_entry i; mret (iface s) else mret 0.

(** Copy of [n] names from index [i] on into the caller's array. *)
Fixpoint copy_names (n : nat) (i : Z) (out : list (option string))
  : M registry (list (option string)) :=
  match n with
  | O => mret out
  | S n' =>
    s ← get_entry i;
    out' ← liftO (storeZ out i (name s));
    copy_names n' (i + 1) out'
  end.

Definition NetDev_List (out : list (option string)) (max_names : Z)
  : M registry (Z * list (option string)) :=
  r ← getM;
  let n := if g_count r <? max_names then g_count r else max_names in
  out' ← copy_names (Z.to_nat n) 0 out;
  mret (n, out').

(** The address of the driver's interface, set by the linker. *)
Definition e1000e_reference_register (g_e1000e_iface : Z) : M registry Z :=
  NetDev_Register (Some "e1000e"%string) g_e1000e_iface.

(** ** Representation *)

Definition slot_of_entry (e : string * Z) : netdev_slot := mk_netdev_slot (Some (fst e)) (snd e).

(** The first [g_count] slots hold the entries [es], with distinct names. *)
Record repr (r : registry) (es : list (string * Z)) : Prop := {
  rp_len : length (g_registry r) = 16%nat;
  rp_count : g_count r = Z.of_nat (length es);
  rp_take : take (length es) (g_registry r) = slot_of_entry <$> es;
  rp_nodup : NoDup es.*1;
  rp_drivers : Forall (fun e => snd e <> 0) es
}.

(** The map the registry stands for. *)
Definition reg_map (es : list (string * Z)) : gmap string Z := list_to_map es.

Lemma repr_init : repr registry_init [].
Proof. split; cbn; try done; constructor. Qed.

Lemma repr_bound r es : repr r es -> (length es <= 16)%nat.
Proof.
  intros [Hl _ Ht _ _]. apply (f_equal length) in Ht. rewrite length_take, length_fmap in Ht. lia.
Qed.

Lemma repr_lookup r es i e :
  repr r es -> es !! i = Some e -> g_registry r !! i = Some (slot_of_entry e).
Proof.
  intros [_ _ Ht _ _] He. pose proof (lookup_lt_Some _ _ _ He).
  rewrite <- (lookup_take_lt _ (length es)) by lia. rewrite Ht, list_lookup_fmap, He. done.
Qed.

Lemma get_entry_run r es i e :
  repr r es -> es !! i = Some e -> get_entry (Z.of_nat i) r = Some (slot_of_entry e, r).
Proof.
  intros Hr He. unfold get_entry, mbind, M_bind, getM. apply liftO_run.
  rewrite lookupZ_nat, Nat2Z.id by lia. by eapply repr_lookup.
Qed.

Lemma set_entry_run r i s :
  (i < length (g_registry r))%nat ->
  set_entry (Z.of_nat i) s r = Some (tt, mk_registry (<[i := s]> (g_registry r)) (g_count r)).
Proof.
  intros Hi. unfold set_entry, mbind, M_bind, getM, liftO.
  rewrite storeZ_run by lia. by rewrite Nat2Z.id.
Qed.

(** Index of a name among the entries. *)
Definition index_of (nm : string) (es : list (string * Z)) : option nat :=
  fst <$> list_find (fun e => fst e = nm) es.

Lemma find_name_run r es nm : repr r es -> forall n i,
  (i + n = length es)%nat ->
  find_name (Some nm) n (Z.of_nat i) r =
  Some (match index_of nm (drop i es) with Some j => Z.of_nat (i + j) | None => -1 end, r).
Proof.
  intros Hr. induction n as [|n IH]; intros i Hi.
  { rewrite drop_ge by lia. done. }
  destruct (lookup_lt_is_Some_2 es i ltac:(lia)) as [e He].
  cbn [find_name]. rewrite (bind_some _ _ _ _ _ (get_entry_run r es i e Hr He)).
  cbn [slot_of_entry name strcmp_eq]. unfold mbind, M_bind, mret at 1, M_ret at 1.
  rewrite (drop_S _ e) by done. unfold index_of. cbn [list_find].
  case_bool_decide as Hb; case_decide; try done.
  - cbn. by rewrite Nat.add_0_r.
  - replace (Z.of_nat i + 1) with (Z.of_nat (S i)) by lia. rewrite IH by lia. unfold index_of.
    destruct (list_find _ (drop (S i) es)) as [[j x]|]; cbn; [|done]. do 3 f_equal. lia.
Qed.

Lemma search_name_run r es nm :
  repr r es ->
  search_name (Some nm) r =
  Some (match index_of nm es with Some j => Z.of_nat j | None => -1 end, r).
Proof.
  intros Hr. unfold search_name, mbind, M_bind, getM. rewrite (rp_count _ _ Hr), Nat2Z.id.
  change 0 with (Z.of_nat 0). by rewrite (find_name_run r es nm Hr) by lia.
Qed.

Lemma index_of_Some nm es j :
  index_of nm es = Some j -> exists f, es !! j = Some (nm, f).
Proof.
  unfold index_of. destruct (list_find _ _) as [[j' [n f]]|] eqn:Hf; [|done].
  intros [= <-]. apply list_find_Some in Hf as (Hj & Hn & _). cbn in Hn. subst. eauto.
Qed.

Lemma index_of_None nm es : index_of nm es = None -> nm ∉ es.*1.
Proof.
  unfold index_of. destruct (list_find _ _) as [|] eqn:Hf; [done|]. intros _ Hin.
  apply list_find_None in Hf. apply list_elem_of_fmap in Hin as (e & -> & He).
  rewrite Forall_forall in Hf. by apply (Hf e He).
Qed.

(** ** Operations against the map *)

Inductive reg_op :=
  | ORegister (nm : string) (f : Z)
  | OUnregister (nm : string)
  | OLookup (nm : string).

Definition reg_step (o : reg_op) : M registry Z :=
  match o with
  | ORegister nm f => NetDev_Register (Some nm) f
  | OUnregister nm => NetDev_Unregister (Some nm)
  | OLookup nm => NetDev_Lookup (Some nm)
  end.

Definition map_step (o : reg_op) (m : gmap string Z) : Z * gmap string Z :=
  match o with
  | ORegister nm f =>
    if (f =? 0) || (NETDEV_MAX_REGISTERED <=? Z.of_nat (size m)) || bool_decide (is_Some (m !! nm))
    then (-1, m) else (0, <[nm := f]> m)
  | OUnregister nm =>
    if bool_decide (is_Some (m !! nm)) then (0, delete nm m) else (-1, m)
  | OLookup nm => (default 0 (m !! nm), m)
  end.

Lemma reg_map_lookup_Some r es nm j f :
  repr r es -> es !! j = Some (nm, f) -> reg_map es !! nm = Some f.
Proof.
  intros [_ _ _ Hn _] Hj. apply elem_of_list_to_map_1; [done|].
  by eapply list_elem_of_lookup_2.
Qed.

Lemma reg_map_lookup_None es nm : nm ∉ es.*1 -> reg_map es !! nm = None.
Proof. apply not_elem_of_list_to_map_1. Qed.

Lemma reg_map_size r es : repr r es -> size (reg_map es) = length es.
Proof. intros [_ _ _ Hn _]. unfold reg_map. by apply map_size_list_to_map. Qed.

Lemma register_run r es nm f :
  repr r es ->
  exists rc r' es', NetDev_Register (Some nm) f r = Some (rc, r') /\ repr r' es' /\
    map_step (ORegister nm f) (reg_map es) = (rc, reg_map es').
Proof.
  intros Hr. unfold NetDev_Register. cbn [map_step]. rewrite (reg_map_size r es Hr).
  destruct (Z.eqb_spec f 0) as [->|Hf]; cbn [orb]; [by exists (-1), r, es|].
  unfold mbind at 1, M_bind at 1, getM. rewrite (rp_count _ _ Hr).
  destruct (Z.leb_spec NETDEV_MAX_REGISTERED (Z.of_nat (length es))) as [Hge|Hlt]; cbn [orb].
  { by exists (-1), r, es. }
  rewrite (bind_some _ _ _ _ _ (search_name_run r es nm Hr)).
  destruct (index_of nm es) as [j|] eqn:Hix.
  { destruct (index_of_Some _ _ _ Hix) as (f' & Hj).
    rewrite (reg_map_lookup_Some r es nm j f' Hr Hj), bool_decide_eq_true_2 by eauto.
    rewrite (proj2 (Z.leb_le _ _)) by lia. by exists (-1), r, es. }
  apply index_of_None in Hix. rewrite (reg_map_lookup_None es nm Hix).
  rewrite bool_decide_eq_false_2 by (by intros [? ?]).
  change (0 <=? -1) with false. cbv iota. unfold NETDEV_MAX_REGISTERED in Hlt.
  unfold mbind at 1, M_bind at 1. rewrite (rp_count _ _ Hr).
  rewrite (bind_some _ _ _ _ _ (set_entry_run r (length es) _ ltac:(rewrite (rp_len _ _ Hr); lia))).
  unfold mbind at 1, M_bind at 1. cbn [g_count]. rewrite (rp_count _ _ Hr).
  rewrite (bind_some _ _ _ _ _ (ckd_run (Z.of_nat (length es) + 1) _ ltac:(unfold is_s32; lia))).
  exists 0, (mk_registry (<[length es := mk_netdev_slot (Some nm) f]> (g_registry r))
    (Z.of_nat (length es) + 1)), (es ++ [(nm, f)]).
  split; [done|]. split.
  { destruct Hr as [Hl Hc Ht Hn Hd]. split; cbn.
    - by rewrite length_insert.
    - rewrite length_app. cbn. lia.
    - rewrite length_app. cbn [length].
      replace (length es + 1)%nat with (S (length es)) by lia.
      rewrite (take_S_r _ _ (mk_netdev_slot (Some nm) f)) by (apply list_lookup_insert_eq; lia).
      by rewrite take_insert_ge, Ht, fmap_app by lia.
    - rewrite fmap_app. apply NoDup_app. split; [done|]. split; [|apply NoDup_singleton].
      intros x Hx Hx2. apply list_elem_of_singleton in Hx2. cbn in Hx2. by subst.
    - apply Forall_app. split; [done|]. by apply Forall_singleton. }
  unfold reg_map. f_equal. symmetry. apply list_to_map_snoc. done.
Qed.

(** Moving the last entry over a removed one. *)
Lemma swap_remove {A} (l : list A) j x y :
  l !! j = Some x -> l !! (length l - 1)%nat = Some y ->
  l ≡ₚ x :: take (length l - 1) (<[j := y]> l).
Proof.
  intros Hj Hy. pose proof (lookup_lt_Some _ _ _ Hj) as Hlt.
  destruct (decide (j = length l - 1)%nat) as [->|Hne].
  - rewrite take_insert_ge by lia.
    rewrite <- (take_drop (length l - 1) l) at 1. rewrite (drop_S _ x) by done.
    rewrite drop_ge by lia. by rewrite Permutation_app_comm.
  - rewrite take_insert_lt by lia.
    rewrite <- (take_drop (length l - 1) l) at 1. rewrite (drop_S _ y) by done.
    rewrite drop_ge by lia. set (k := take (length l - 1) l).
    assert (Hk : k !! j = Some x) by (unfold k; rewrite lookup_take_lt by lia; done).
    clearbody k. rewrite Permutation_app_comm. cbn.
    rewrite insert_take_drop by (by eapply lookup_lt_Some).
    rewrite <- (take_drop_middle k j x) at 1 by done. solve_Permutation.
Qed.

Lemma repr_remove r es j x y :
  repr r es -> es !! j = Some x -> es !! (length es - 1)%nat = Some y ->
  repr (mk_registry (<[j := slot_of_entry y]> (g_registry r)) (Z.of_nat (length es) - 1))
    (take (length es - 1) (<[j := y]> es)).
Proof.
  intros [Hl Hc Ht Hn Hd] Hj Hy. pose proof (lookup_lt_Some _ _ _ Hj) as Hlt.
  pose proof (swap_remove es j x y Hj Hy) as Hp.
  assert (Hlen : length (take (length es - 1) (<[j := y]> es)) = (length es - 1)%nat)
    by (rewrite length_take, length_insert; lia).
  split; cbn.
  - by rewrite length_insert.
  - rewrite Hlen. lia.
  - rewrite Hlen, fmap_take, list_fmap_insert, <- Ht.
    rewrite <- take_insert_lt by lia. rewrite take_take. f_equal. lia.
  - rewrite Hp in Hn. cbn in Hn. by apply NoDup_cons in Hn as [_ ?].
  - rewrite Hp in Hd. by inversion Hd.
Qed.

Lemma unregister_run r es nm :
  repr r es ->
  exists rc r' es', NetDev_Unregister (Some nm) r = Some (rc, r') /\ repr r' es' /\
    map_step (OUnregister nm) (reg_map es) = (rc, reg_map es').
Proof.
  intros Hr. unfold NetDev_Unregister. cbn [map_step].
  rewrite (bind_some _ _ _ _ _ (search_name_run r es nm Hr)).
  destruct (index_of nm es) as [j|] eqn:Hix; cycle 1.
  { apply index_of_None in Hix. rewrite (reg_map_lookup_None es nm Hix).
    rewrite bool_decide_eq_false_2 by (by intros [? ?]). by exists (-1), r, es. }
  destruct (index_of_Some _ _ _ Hix) as (f & Hj). pose proof (lookup_lt_Some _ _ _ Hj) as Hlt.
  rewrite (reg_map_lookup_Some r es nm j f Hr Hj), bool_decide_eq_true_2 by eauto.
  rewrite (proj2 (Z.leb_le _ _)) by lia. unfold mbind at 1, M_bind at 1, getM.
  destruct (lookup_lt_is_Some_2 es (length es - 1)%nat ltac:(lia)) as [y Hy].
  rewrite (rp_count _ _ Hr). replace (Z.of_nat (length es) - 1)
    with (Z.of_nat (length es - 1)) by lia.
  rewrite (bind_some _ _ _ _ _ (get_entry_run r es _ y Hr Hy)).
  pose proof (repr_bound r es Hr) as Hb.
  rewrite (bind_some _ _ _ _ _ (set_entry_run r j _ ltac:(rewrite (rp_len _ _ Hr); lia))).
  unfold mbind at 1, M_bind at 1. cbn [g_count]. rewrite (rp_count _ _ Hr).
  rewrite (bind_some _ _ _ _ _ (ckd_run (Z.of_nat (length es) - 1) _ ltac:(unfold is_s32; lia))).
  eexists 0, _, (take (length es - 1) (<[j := y]> es)). split; [reflexivity|].
  split; [by eapply repr_remove|]. f_equal.
  pose proof (swap_remove es j (nm, f) y Hj Hy) as Hp. pose proof (rp_nodup _ _ Hr) as Hn.
  assert (Hm : reg_map es = <[nm := f]> (reg_map (take (length es - 1) (<[j := y]> es)))).
  { unfold reg_map. by rewrite (list_to_map_proper _ _ Hn Hp). }
  rewrite Hp in Hn. cbn in Hn. apply NoDup_cons in Hn as [Hnin _].
  rewrite Hm, delete_insert_id; [done|]. by apply reg_map_lookup_None.
Qed.

Lemma lookup_run r es nm :
  repr r es ->
  NetDev_Lookup (Some nm) r = Some (default 0 (reg_map es !! nm), r).
Proof.
  intros Hr. unfold NetDev_Lookup.
  rewrite (bind_some _ _ _ _ _ (search_name_run r es nm Hr)).
  destruct (index_of nm es) as [j|] eqn:Hix.
  - destruct (index_of_Some _ _ _ Hix) as (f & Hj).
    rewrite (proj2 (Z.leb_le _ _)) by lia.
    rewrite (bind_some _ _ _ _ _ (get_entry_run r es _ _ Hr Hj)).
    by rewrite (reg_map_lookup_Some r es nm j f Hr Hj).
  - apply index_of_None in Hix. by rewrite (reg_map_lookup_None es nm Hix).
Qed.

(** ** Sequences of operations *)

Fixpoint reg_run (os : list reg_op) : M registry (list Z) :=
  match os with
  | [] => mret []
  | o :: os' => x ← reg_step o; xs ← reg_run os'; mret (x :: xs)
  end.

Fixpoint map_run (os : list reg_op) (m : gmap string Z) : list Z * gmap string Z :=
  match os with
  | [] => ([], m)
  | o :: os' => let '(x, m1) := map_step o m in
                let '(xs, m2) := map_run os' m1 in (x :: xs, m2)
  end.

Lemma reg_step_run o r es :
  repr r es ->
  exists x r' es', reg_step o r = Some (x, r') /\ repr r' es' /\
    map_step o (reg_map es) = (x, reg_map es').
Proof.
  intros Hr. destruct o; [by apply register_run|by apply unregister_run|].
  eexists _, r, es. split; [by apply lookup_run|]. done.
Qed.

Lemma reg_run_repr os : forall r es,
  repr r es ->
  exists xs r' es', reg_run os r = Some (xs, r') /\ repr r' es' /\
    map_run os (reg_map es) = (xs, reg_map es').
Proof.
  induction os as [|o os IH]; intros r es Hr; [by exists [], r, es|].
  destruct (reg_step_run o r es Hr) as (x & r1 & es1 & Hx & Hr1 & Hm1).
  destruct (IH r1 es1 Hr1) as (xs & r' & es' & Hxs & Hr' & Hm').
  exists (x :: xs), r', es'. cbn [reg_run map_run].
  rewrite (bind_some _ _ _ _ _ Hx), (bind_some _ _ _ _ _ Hxs), Hm1, Hm'. done.
Qed.

(** C31. The registry is a finite map from names to drivers: every sequence of
    register, unregister and lookup calls from start-up returns what the map
    returns, where registering refuses a null driver, a name already present and
    a seventeenth driver; the names in the table stay distinct and the table is
    never indexed outside its 16 slots. *)
Theorem registry_refines_map os :
  exists xs r' es, reg_run os registry_init = Some (xs, r') /\ repr r' es /\
    map_run os ∅ = (xs, reg_map es).
Proof. exact (reg_run_repr os registry_init [] repr_init). Qed.

(** ** Enumeration *)

Lemma copy_names_run r es : repr r es -> forall n i out,
  (i + n <= length es)%nat -> (i + n <= length out)%nat ->
  exists out', copy_names n (Z.of_nat i) out r = Some (out', r) /\
    length out' = length out /\
    take i out' = take i out /\
    block i n out' = block i n (Some <$> es.*1) /\
    drop (i + n) out' = drop (i + n) out.
Proof.
  intros Hr. induction n as [|n IH]; intros i out Hi Ho.
  { exists out. by rewrite !block_0. }
  destruct (lookup_lt_is_Some_2 es i ltac:(lia)) as [e He]. cbn [copy_names].
  rewrite (bind_some _ _ _ _ _ (get_entry_run r es i e Hr He)). unfold liftO, mbind, M_bind.
  rewrite storeZ_run by lia. rewrite Nat2Z.id. cbn [slot_of_entry name].
  replace (Z.of_nat i + 1) with (Z.of_nat (S i)) by lia.
  destruct (IH (S i) (<[i := Some e.1]> out)) as (out' & Hr' & Hl & Ht & Hb & Hd);
    [lia|rewrite length_insert; lia|].
  exists out'. split; [done|]. rewrite length_insert in Hl. split; [done|].
  assert (Hi' : out' !! i = Some (Some e.1)).
  { rewrite <- (lookup_take_lt _ (S i)) by lia. rewrite Ht, lookup_take_lt by lia.
    apply list_lookup_insert_eq. lia. }
  split.
  { transitivity (take i (take (S i) out')); [by rewrite take_take; f_equal; lia|].
    rewrite Ht, take_take, Nat.min_l by lia. by apply take_insert_ge. }
  split.
  { unfold block. rewrite (drop_S _ (Some e.1)) by done.
    rewrite (drop_S (Some <$> es.*1) (Some e.1)); [|by rewrite !list_lookup_fmap, He].
    cbn [take]. f_equal. exact Hb. }
  replace (i + S n)%nat with (S i + n)%nat by lia. rewrite Hd. apply drop_insert_lt. lia.
Qed.

(** [NetDev_List] answers the number of drivers, capped by [max_names], and
    writes that many distinct registered names to the start of the caller's
    array and nothing behind them; with room for all of them, the names written
    are exactly those of the map. *)
Theorem list_names_complete r es out max :
  repr r es -> 0 <= max -> Z.min (g_count r) max <= Z.of_nat (length out) ->
  let n := Z.min (g_count r) max in
  exists out', NetDev_List out max r = Some ((n, out'), r) /\
    take (Z.to_nat n) out' = Some <$> take (Z.to_nat n) es.*1 /\
    drop (Z.to_nat n) out' = drop (Z.to_nat n) out /\
    NoDup (take (Z.to_nat n) es.*1) /\
    (g_count r <= max -> forall nm, Some nm ∈ take (Z.to_nat n) out' <->
      is_Some (reg_map es !! nm)).
Proof.
  intros Hr Hmax Hout. cbv zeta. pose proof (rp_count _ _ Hr) as Hc.
  unfold NetDev_List, mbind at 1, M_bind at 1, getM.
  replace (if g_count r <? max then g_count r else max) with (Z.min (g_count r) max)
    by (destruct (Z.ltb_spec (g_count r) max); lia).
  set (n := Z.to_nat (Z.min (g_count r) max)).
  destruct (copy_names_run r es Hr n 0 out) as (out' & Hrun & _ & _ & Hb & Hd);
    [unfold n; lia|unfold n; lia|].
  change (Z.of_nat 0) with 0 in Hrun. rewrite (bind_some _ _ _ _ _ Hrun).
  exists out'. split; [done|]. unfold block in Hb. rewrite !drop_0, <- fmap_take in Hb.
  split; [done|]. split; [done|].
  assert (Hn : NoDup es.*1) by apply Hr. split.
  { eapply sublist_NoDup; [exact Hn|]. apply sublist_take. }
  intros Hle nm. rewrite Hb. rewrite take_ge by (rewrite length_fmap; unfold n; lia).
  rewrite list_elem_of_fmap. split.
  - intros (x & [= ->] & Hx). destruct (reg_map es !! x) eqn:Hl; [done|].
    exfalso. apply not_elem_of_list_to_map_2 in Hl. done.
  - intros [f Hf]. apply elem_of_list_to_map_2 in Hf. exists nm. split; [done|].
    apply list_elem_of_fmap. by exists (nm, f).
Qed.

(** The registry after the reference driver and another one registered. *)
Definition two_drivers : registry :=
  mk_registry (mk_netdev_slot (Some "e1000e"%string) 10 :: mk_netdev_slot (Some "lo"%string) 20 ::
               replicate 14 (mk_netdev_slot None 0)) 2.

Lemma two_drivers_reached :
  (e1000e_reference_register 10;; NetDev_Register (Some "lo"%string) 20) registry_init =
  Some (0, two_drivers).
Proof. vm_compute. reflexivity. Qed.

Lemma repr_two_drivers : repr two_drivers [("e1000e"%string, 10); ("lo"%string, 20)].
Proof.
  split; try reflexivity.
  - cbn. apply NoDup_cons. split; [|apply NoDup_singleton].
    rewrite list_elem_of_singleton. discriminate.
  - repeat constructor; discriminate.
Qed.

Lemma list_names_complete_witness :
  exists out', NetDev_List [None; None; None] 3 two_drivers = Some ((2, out'), two_drivers) /\
    take 2 out' = [Some "e1000e"%string; Some "lo"%string].
Proof.
  destruct (list_names_complete two_drivers _ [None; None; None] 3 repr_two_drivers)
    as (out' & Hr & Ht & _); [lia|cbn; lia|].
  exists out'. split; [exact Hr|exact Ht].
Defined.
