(* ===== verification/RefDriver.v ===== *)
(** * The device driver interface and the reference driver
      (include/netstack/netdev.h, src/phase4_netdev/reference_driver.c)

    [NetDevIF] is the interface a driver hands to the stack: a record of the
    fifteen vectors over the driver's own state.  The reference driver is one
    instance of it.  A call through a vector is [drv_do]; the section at the end
    says what every sequence of calls answers. *)

From S2P Require Import Prelude.
From S2P Require Import NetDevRegistry.

(** ** Capabilities, statistics, flags *)

Definition NETDEV_CAP_CSUM_IPV4 : Z := Z.shiftl 1 0.
Definition NETDEV_CAP_CSUM_TCP  : Z := Z.shiftl 1 1.
Definition NETDEV_CAP_CSUM_UDP  : Z := Z.shiftl 1 2.
Definition NETDEV_CAP_TSO4      : Z := Z.shiftl 1 3.
Definition NETDEV_CAP_TSO6      : Z := Z.shiftl 1 4.
Definition NETDEV_CAP_LRO       : Z := Z.shiftl 1 5.
Definition NETDEV_CAP_VLAN_TAG  : Z := Z.shiftl 1 6.
Definition NETDEV_CAP_SCATTER   : Z := Z.shiftl 1 7.
Definition NETDEV_CAP_RSS       : Z := Z.shiftl 1 8.
Definition NETDEV_CAP_MSIX      : Z := Z.shiftl 1 9.

Record NetDevCapabilities := mk_NetDevCapabilities {
  flags : Z;
  rx_queues : Z;
  tx_queues : Z;
  max_frame_size : Z;
  link_speed_bps : Z;
  factory_mac : list Z;
  reserved : list Z
}.

Record NetDevStats := mk_NetDevStats {
  rx_packets : Z; rx_bytes : Z; rx_errors : Z; rx_dropped : Z;
  tx_packets : Z; tx_bytes : Z; tx_errors : Z; tx_dropped : Z;
  rx_multicast : Z; tx_multicast : Z; rx_broadcast : Z; tx_broadcast : Z;
  collisions : Z
}.

(** A structure of thirteen [uint64] as the bytes the compiler lays out. *)
Definition stats_fields (s : NetDevStats) : list Z :=
  [rx_packets s; rx_bytes s; rx_errors s; rx_dropped s;
   tx_packets s; tx_bytes s; tx_errors s; tx_dropped s;
   rx_multicast s; tx_multicast s; rx_broadcast s; tx_broadcast s; collisions s].

Definition stats_bytes (s : NetDevStats) : list Z := concat (be_encode 8 <$> stats_fields s).

Definition stats_of (b : list Z) : NetDevStats :=
  let f i := be_decode (block (8 * i) 8 b) in
  mk_NetDevStats (f 0%nat) (f 1%nat) (f 2%nat) (f 3%nat) (f 4%nat) (f 5%nat) (f 6%nat)
    (f 7%nat) (f 8%nat) (f 9%nat) (f 10%nat) (f 11%nat) (f 12%nat).

Definition sizeof_NetDevStats : nat := 104.

(** ** The interface

    [D] is what the driver keeps.  A pointer to rings, buffers, a function or an
    address is a [Z]; an out-parameter is what it designates, [None] when null,
    and the vector returns what is there afterwards.  The member [Data] belongs to
    the system; no code of the repository reads it. *)
Record NetDevIF (D : Type) := mk_NetDevIF {
  Open : Z -> Z -> M D Z;
  Close : M D unit;
  GetCapabilities : option NetDevCapabilities -> M D (option NetDevCapabilities);
  AttachRings : Z -> M D Z;
  DetachRings : M D unit;
  AllocBuf : Z -> M D Z;
  FreeBuf : Z -> M D unit;
  Kick : Z -> M D Z;
  Poll : Z -> list Z -> Z -> M D (Z * list Z);
  RegisterKick : Z -> Z -> M D Z;
  SetMac : Z -> M D Z;
  SetLinkState : bool -> M D Z;
  SetMulticast : Z -> bool -> M D Z;
  SetPromisc : bool -> M D Z;
  GetStats : option (list Z) -> M D (option (list Z))
}.

Arguments Open {D}. Arguments Close {D}. Arguments GetCapabilities {D}.
Arguments AttachRings {D}. Arguments DetachRings {D}. Arguments AllocBuf {D}.
Arguments FreeBuf {D}. Arguments Kick {D}. Arguments Poll {D}. Arguments RegisterKick {D}.
Arguments SetMac {D}. Arguments SetLinkState {D}. Arguments SetMulticast {D}.
Arguments SetPromisc {D}. Arguments GetStats {D}.

(** ** The vectors of the reference driver *)

Section vectors.
Context {D : Type}.

Definition e_Open (unit flags : Z) : M D Z := mret (-1).
Definition e_Close : M D unit := mret tt.

(** [for (i = 0; i < 6; i++) out->factory_mac[i] = 0;] from [i] on. *)
Fixpoint mac_loop (n : nat) (i : Z) (mac : list Z) : option (list Z) :=
  match n with
  | O => Some mac
  | S n' => mac ← storeZ mac i 0; mac_loop n' (i + 1) mac
  end.

Definition e_GetCapabilities (out : option NetDevCapabilities)
    : M D (option NetDevCapabilities) :=
  match out with
  | None => mret None
  | Some out =>
    mac ← liftO (mac_loop 6 0 (factory_mac out));
    mret (Some (mk_NetDevCapabilities 0 1 1 1518 1000000000 mac (reserved out)))
  end.

Definition e_AttachRings (r : Z) : M D Z := mret (-1).
Definition e_DetachRings : M D unit := mret tt.
Definition e_AllocBuf (size : Z) : M D Z := mret 0.
Definition e_FreeBuf (b : Z) : M D unit := mret tt.
Definition e_Kick (queue : Z) : M D Z := mret (-1).
Definition e_Poll (queue : Z) (out : list Z) (max : Z) : M D (Z * list Z) := mret (0, out).
Definition e_RegisterKick (cb ctx : Z) : M D Z := mret (-1).
Definition e_SetMac (m : Z) : M D Z := mret (-1).
Definition e_SetLinkState (up : bool) : M D Z := mret (-1).
Definition e_SetMulticast (m : Z) (add : bool) : M D Z := mret (-1).
Definition e_SetPromisc (on : bool) : M D Z := mret (-1).

(** [for (i = 0; i < sizeof( *s ); i++) ((char * )s)[i] = 0;] from [i] on, [n]
    iterations left. *)
Fixpoint stats_loop (n : nat) (i : Z) (s : list Z) : option (list Z) :=
  match n with
  | O => Some s
  | S n' => s ← storeZ s i 0; stats_loop n' (i + 1) s
  end.

Definition e_GetStats (s : option (list Z)) : M D (option (list Z)) :=
  match s with
  | None => mret None
  | Some s => s ← liftO (stats_loop sizeof_NetDevStats 0 s); mret (Some s)
  end.

Definition g_e1000e_iface : NetDevIF D := {|
  Open := e_Open;
  Close := e_Close;
  GetCapabilities := e_GetCapabilities;
  AttachRings := e_AttachRings;
  DetachRings := e_DetachRings;
  AllocBuf := e_AllocBuf;
  FreeBuf := e_FreeBuf;
  Kick := e_Kick;
  Poll := e_Poll;
  RegisterKick := e_RegisterKick;
  SetMac := e_SetMac;
  SetLinkState := e_SetLinkState;
  SetMulticast := e_SetMulticast;
  SetPromisc := e_SetPromisc;
  GetStats := e_GetStats
|}.
End vectors.

(** ** Layout of the statistics *)

Lemma length_stats_bytes s : length (stats_bytes s) = sizeof_NetDevStats.
Proof. unfold stats_bytes. cbn [stats_fields fmap list_fmap concat]. by rewrite !length_app, !length_be_encode. Qed.

Lemma block_words (l : list Z) : forall i v,
  l !! i = Some v -> block (8 * i) 8 (concat (be_encode 8 <$> l)) = be_encode 8 v.
Proof.
  induction l as [|x l IH]; intros [|i] v; cbn [lookup list_lookup]; try done.
  - intros [= ->]. cbn [fmap list_fmap concat]. unfold block.
    rewrite drop_0, take_app_le by by rewrite length_be_encode.
    by rewrite take_ge by (by rewrite length_be_encode).
  - intros Hv%IH. rewrite <- Hv. cbn [fmap list_fmap concat]. unfold block. f_equal.
    replace (8 * S i)%nat with (length (be_encode 8 x) + 8 * i)%nat by (rewrite length_be_encode; lia).
    by rewrite drop_app_add.
Qed.

(** Reading what was laid out gives the structure back. *)
Lemma stats_of_bytes s : Forall is_u64 (stats_fields s) -> stats_of (stats_bytes s) = s.
Proof.
  intros Hs. assert (Hf : forall i v, stats_fields s !! i = Some v ->
    be_decode (block (8 * i) 8 (stats_bytes s)) = v).
  { intros i v Hi. unfold stats_bytes. rewrite (block_words _ i v Hi), be_decode_encode.
    apply Z.mod_small. exact (proj1 (Forall_lookup _ _) Hs i v Hi). }
  destruct s as [a1 a2 a3 a4 a5 a6 a7 a8 a9 a10 a11 a12 a13]. unfold stats_of.
  f_equal; by apply Hf.
Qed.

Lemma mac_loop_run mac : length mac = 6%nat -> mac_loop 6 0 mac = Some (replicate 6 0).
Proof. intros Hl. do 6 (destruct mac as [|? mac]; [done|]). by destruct mac. Qed.

(** ** Calls through the interface *)

Inductive drv_call :=
  | COpen (unit flags : Z)
  | CClose
  | CGetCapabilities (out : option NetDevCapabilities)
  | CAttachRings (r : Z)
  | CDetachRings
  | CAllocBuf (size : Z)
  | CFreeBuf (b : Z)
  | CKick (queue : Z)
  | CPoll (queue : Z) (out : list Z) (max : Z)
  | CRegisterKick (cb ctx : Z)
  | CSetMac (m : Z)
  | CSetLinkState (up : bool)
  | CSetMulticast (m : Z) (add : bool)
  | CSetPromisc (on : bool)
  | CGetStats (s : option NetDevStats).

Inductive answer :=
  | ALong (rc : Z)
  | AVoid
  | ACaps (c : option NetDevCapabilities)
  | ABuf (b : Z)
  | APoll (n : Z) (out : list Z)
  | AStats (s : option NetDevStats).

Definition drv_do {D} (f : NetDevIF D) (c : drv_call) : M D answer :=
  let long m := rc ← m; mret (ALong rc) in
  let void m := (m : M D unit);; mret AVoid in
  match c with
  | COpen un fl => long (Open f un fl)
  | CClose => void (Close f)
  | CGetCapabilities out => c ← GetCapabilities f out; mret (ACaps c)
  | CAttachRings r => long (AttachRings f r)
  | CDetachRings => void (DetachRings f)
  | CAllocBuf sz => b ← AllocBuf f sz; mret (ABuf b)
  | CFreeBuf b => void (FreeBuf f b)
  | CKick q => long (Kick f q)
  | CPoll q out max => '(n, out) ← Poll f q out max; mret (APoll n out)
  | CRegisterKick cb ctx => long (RegisterKick f cb ctx)
  | CSetMac m => long (SetMac f m)
  | CSetLinkState up => long (SetLinkState f up)
  | CSetMulticast m add => long (SetMulticast f m add)
  | CSetPromisc on => long (SetPromisc f on)
  | CGetStats s => b ← GetStats f (stats_bytes <$> s); mret (AStats (stats_of <$> b))
  end.

Fixpoint drv_run {D} (f : NetDevIF D) (cs : list drv_call) : M D (list answer) :=
  match cs with
  | [] => mret []
  | c :: cs' => x ← drv_do f c; xs ← drv_run f cs'; mret (x :: xs)
  end.

(** What a driver without hardware behind it answers: every request that would
    need the device is refused, a query is answered from constants. *)
Definition no_stats : NetDevStats := mk_NetDevStats 0 0 0 0 0 0 0 0 0 0 0 0 0.

Definition no_caps (c : NetDevCapabilities) : NetDevCapabilities :=
  mk_NetDevCapabilities 0 1 1 1518 1000000000 (replicate 6 0) (reserved c).

Definition absent (c : drv_call) : answer :=
  match c with
  | CClose | CDetachRings | CFreeBuf _ => AVoid
  | CGetCapabilities out => ACaps (no_caps <$> out)
  | CAllocBuf _ => ABuf 0
  | CPoll _ out _ => APoll 0 out
  | CGetStats s => AStats ((fun _ => no_stats) <$> s)
  | _ => ALong (-1)
  end.

(** The structure passed to GetCapabilities has a six-byte address. *)
Definition call_typed (c : drv_call) : Prop :=
  match c with
  | CGetCapabilities (Some c) => length (factory_mac c) = 6%nat
  | _ => True
  end.

Lemma drv_do_absent {D} (c : drv_call) (d : D) :
  call_typed c -> drv_do g_e1000e_iface c d = Some (absent c, d).
Proof.
  destruct c as [| |[c|]| | | | | | | | | | | |[s|]]; try done; cbn [call_typed]; intros Ht.
  cbn [drv_do g_e1000e_iface GetCapabilities e_GetCapabilities].
  unfold liftO, mbind, M_bind. by rewrite mac_loop_run.
Qed.

(** The reference driver is inert.  Every sequence of calls through its vector
    table, with any arguments, null pointers included, leaves the driver as it was
    and answers what a device that is not there answers: every request is refused,
    no buffer is handed out or delivered, the capabilities name no offload, and a
    statistics structure reads zero in all thirteen counters whatever it held.  Not all
    methods answer -1, as the header of the file and the README say: Poll answers 0,
    AllocBuf the null pointer, and five answer nothing. *)
Lemma ref_driver_inert {D} (cs : list drv_call) (d : D) :
  Forall call_typed cs -> drv_run g_e1000e_iface cs d = Some (absent <$> cs, d).
Proof.
  induction 1 as [|c cs Hc _ IH]; [done|]. cbn [drv_run].
  rewrite (bind_some _ _ _ _ _ (drv_do_absent c d Hc)), (bind_some _ _ _ _ _ IH). done.
Qed.

(** No offload bit is set in what it advertises. *)
Lemma no_offload c m :
  m ∈ [NETDEV_CAP_CSUM_IPV4; NETDEV_CAP_CSUM_TCP; NETDEV_CAP_CSUM_UDP; NETDEV_CAP_TSO4;
       NETDEV_CAP_TSO6; NETDEV_CAP_LRO; NETDEV_CAP_VLAN_TAG; NETDEV_CAP_SCATTER;
       NETDEV_CAP_RSS; NETDEV_CAP_MSIX] -> Z.land (flags (no_caps c)) m = 0.
Proof. done. Qed.
