(* ===== verification/OsalCv.v ===== *)
(** * Condition variables (src/phase1_osal/osal_lock.c)

    A condition variable keeps its waiters in a ring of 32 slots; each
    section of the code that touches the ring runs with the guard
    semaphore held, so it is one step on the structure.  The operating
    system calls of a function are recorded in order in a trace, what the
    system answers is a parameter, and while a function blocks in [Wait]
    other tasks may run: the parameter [others].  Timed waits are in
    OsalTimedWait.v. *)

From S2P Require Import Prelude Ring.

Definition OSAL_CV_MAX_WAITERS : Z := 32.
(** Bit 4, the private signal of a task. *)
Definition SIGF_SINGLE : Z := 16.
(** [poll_ns] of osal_cv_timedwait. *)
Definition poll_ns : Z := 10000000.

Record osal_cv_waiter := mk_waiter { task : Z; sigmask : Z }.

#[global] Instance waiter_inhabited : Inhabited osal_cv_waiter := populate (mk_waiter 0 0).
#[global] Instance waiter_eq_dec : EqDecision osal_cv_waiter.
Proof. solve_decision. Defined.

Record osal_cv := mk_cv {
  waiters : list osal_cv_waiter;
  cv_head : Z;
  cv_tail : Z;
  cv_count : Z
}.

(** Calls into the system. *)
Inductive ev :=
  | EObtain                       (* ObtainSemaphore(&cv->guard) *)
  | ERelease                      (* ReleaseSemaphore(&cv->guard) *)
  | EUnlock                       (* osal_mutex_unlock(mtx) *)
  | ELock                         (* osal_mutex_lock(mtx) *)
  | ESetSignal (new mask : Z)
  | EWait (mask : Z)
  | ESleep (ns : Z)
  | ESignal (t mask : Z).

(** The structure and the calls made so far. *)
Abbreviation cvst := (osal_cv * list ev)%type.

Definition emit (e : ev) : M cvst unit := fun '(cv, tr) => Some (tt, (cv, tr ++ [e])).
Definition get_cv : M cvst osal_cv := fun '(cv, tr) => Some (cv, (cv, tr)).
Definition put_cv (cv : osal_cv) : M cvst unit := fun '(_, tr) => Some (tt, (cv, tr)).

(** [osal_panic] does not return. *)
Definition osal_panic {A} : M cvst A := ub.

(** [osal_cv_new]; the argument is the memory [osal_malloc] granted. *)
Definition osal_cv_new (mem : option osal_cv) : option osal_cv :=
  cv ← mem; Some (mk_cv (waiters cv) 0 0 0).

(** What [osal_cv_new] makes of the cleared memory [osal_malloc] returns. *)
Definition empty_cv : osal_cv := mk_cv (replicate 32 (mk_waiter 0 0)) 0 0 0.

(** Storing a waiter in the slot of the head, common to both waits. *)
Definition cv_push (me mask : Z) : M cvst unit :=
  cv ← get_cv;
  l ← liftO (storeZ (waiters cv) (cv_head cv) (mk_waiter me mask));
  h ← ckd (cv_head cv + 1);
  n ← ckd (cv_count cv + 1);
  put_cv (mk_cv l (Z.rem h OSAL_CV_MAX_WAITERS) (cv_tail cv) n).

(** The section around it; a full list stops the program. *)
Definition cv_enqueue (me mask : Z) : M cvst unit :=
  emit EObtain;;
  cv ← get_cv;
  if OSAL_CV_MAX_WAITERS <=? cv_count cv then emit ERelease;; osal_panic else
  cv_push me mask;;
  emit ERelease.

(** [Wait] and the mutex are recorded when they come back. *)
Definition osal_cv_wait (me : Z) (others : M cvst unit) : M cvst unit :=
  let mask := SIGF_SINGLE in
  emit (ESetSignal 0 mask);;
  cv_enqueue me mask;;
  emit EUnlock;;
  emit (EWait mask);;
  others;;
  emit ELock.

(** [waiters[a] = waiters[b]] for [j] from [j] on, [n] iterations left. *)
Fixpoint cv_shift (n : nat) (j : Z) : M cvst unit :=
  match n with
  | O => mret tt
  | S n' =>
    cv ← get_cv;
    let a := Z.rem (cv_tail cv + j) OSAL_CV_MAX_WAITERS in
    let b := Z.rem (a + 1) OSAL_CV_MAX_WAITERS in
    w ← liftO (lookupZ (waiters cv) b);
    l ← liftO (storeZ (waiters cv) a w);
    put_cv (mk_cv l (cv_head cv) (cv_tail cv) (cv_count cv));;
    cv_shift n' (j + 1)
  end.

(** The search for the caller from position [i], slot [idx], [n] left. *)
Fixpoint cv_remove (me mask : Z) (n : nat) (i idx : Z) : M cvst unit :=
  match n with
  | O => mret tt
  | S n' =>
    cv ← get_cv;
    w ← liftO (lookupZ (waiters cv) idx);
    if (task w =? me) && (sigmask w =? mask) then
      cv_shift (Z.to_nat (cv_count cv - 1 - i)) i;;
      cv ← get_cv;
      put_cv (mk_cv (waiters cv)
        (Z.rem (cv_head cv - 1 + OSAL_CV_MAX_WAITERS) OSAL_CV_MAX_WAITERS)
        (cv_tail cv) (cv_count cv - 1))
    else cv_remove me mask n' (i + 1) (Z.rem (idx + 1) OSAL_CV_MAX_WAITERS)
  end.

(** The section that takes a waiter that timed out off the list. *)
Definition cv_cancel (me mask : Z) : M cvst unit :=
  emit EObtain;;
  cv ← get_cv;
  cv_remove me mask (Z.to_nat (cv_count cv)) 0 (cv_tail cv);;
  emit ERelease.

Definition cv_pop : M cvst osal_cv_waiter :=
  cv ← get_cv;
  w ← liftO (lookupZ (waiters cv) (cv_tail cv));
  put_cv (mk_cv (waiters cv) (cv_head cv) (Z.rem (cv_tail cv + 1) OSAL_CV_MAX_WAITERS)
            (cv_count cv - 1));;
  mret w.

Definition osal_cv_signal : M cvst unit :=
  emit EObtain;;
  cv ← get_cv;
  if 0 <? cv_count cv then
    w ← cv_pop;
    emit ERelease;;
    emit (ESignal (task w) (sigmask w))
  else emit ERelease.

(** The loop of the broadcast, [n] iterations at most. *)
Fixpoint cv_wake_all (n : nat) : M cvst unit :=
  match n with
  | O => ub
  | S n' =>
    cv ← get_cv;
    if 0 <? cv_count cv then
      w ← cv_pop;
      emit (ESignal (task w) (sigmask w));;
      cv_wake_all n'
    else mret tt
  end.

Definition osal_cv_broadcast : M cvst unit :=
  emit EObtain;;
  cv ← get_cv;
  cv_wake_all (S (Z.to_nat (cv_count cv)));;
  emit ERelease.

Definition rumpuser_cv_init (mem : option osal_cv) : option osal_cv := osal_cv_new mem.
Definition rumpuser_cv_wait (me : Z) (others : M cvst unit) : M cvst unit := osal_cv_wait me others.
Definition rumpuser_cv_wait_nowrap (me : Z) (others : M cvst unit) : M cvst unit :=
  osal_cv_wait me others.
Definition rumpuser_cv_signal : M cvst unit := osal_cv_signal.
Definition rumpuser_cv_broadcast : M cvst unit := osal_cv_broadcast.
Definition rumpuser_cv_has_waiters (cv : osal_cv) : Z := 0.

(** ** The waiters as a queue *)

Record wf_cv (cv : osal_cv) : Prop := {
  wv_len : length (waiters cv) = 32%nat;
  wv_tail : 0 <= cv_tail cv < 32;
  wv_count : 0 <= cv_count cv <= 32;
  wv_head : cv_head cv = (cv_tail cv + cv_count cv) mod 32
}.

Definition cv_queue (cv : osal_cv) : list osal_cv_waiter :=
  ring_view (waiters cv) (Z.to_nat (cv_tail cv)) (Z.to_nat (cv_count cv)).

Lemma length_cv_queue cv : length (cv_queue cv) = Z.to_nat (cv_count cv).
Proof. apply length_ring_view. Qed.

Lemma wf_empty_cv : wf_cv empty_cv /\ cv_queue empty_cv = [].
Proof. split; [split; try done; cbn; lia|done]. Qed.

Lemma rem32 x : 0 <= x -> Z.rem x OSAL_CV_MAX_WAITERS = x mod 32.
Proof. intros. apply Z.rem_mod_nonneg; unfold OSAL_CV_MAX_WAITERS; lia. Qed.

Lemma nat_mod32 x : 0 <= x -> Z.to_nat (x mod 32) = (Z.to_nat x `mod` 32)%nat.
Proof. intros. by rewrite Z2Nat.inj_mod by lia. Qed.

(** Queueing appends. *)
Lemma push_run cv tr me mask :
  wf_cv cv -> cv_count cv < 32 ->
  exists cv', cv_push me mask (cv, tr) = Some (tt, (cv', tr)) /\
    wf_cv cv' /\ cv_queue cv' = cv_queue cv ++ [mk_waiter me mask].
Proof.
  intros [Hl Ht Hc Hh] Hlt. unfold cv_push, mbind, M_bind, get_cv, put_cv.
  unfold liftO. rewrite storeZ_run by (rewrite Hl; zlia).
  rewrite !ckd_run by (unfold is_s32; zlia).
  rewrite rem32 by zlia. eexists. split; [reflexivity|]. split.
  { split; cbn; [by rewrite length_insert|lia|lia|zlia]. }
  unfold cv_queue. cbn [waiters cv_tail cv_count].
  replace (Z.to_nat (cv_count cv + 1)) with (S (Z.to_nat (cv_count cv))) by lia.
  rewrite <- ring_push by lia. rewrite Hl, Hh, nat_mod32, Z2Nat.inj_add by lia. done.
Qed.

Lemma enqueue_run cv tr me mask :
  wf_cv cv -> cv_count cv < 32 ->
  exists cv', cv_enqueue me mask (cv, tr) = Some (tt, (cv', tr ++ [EObtain; ERelease])) /\
    wf_cv cv' /\ cv_queue cv' = cv_queue cv ++ [mk_waiter me mask].
Proof.
  intros Hw Hlt. destruct (push_run cv (tr ++ [EObtain]) me mask Hw Hlt) as (cv' & Hr & Hcv').
  exists cv'. split; [|done]. unfold cv_enqueue. unfold mbind at 1 2, M_bind at 1 2, emit, get_cv.
  rewrite (proj2 (Z.leb_gt _ _)) by (unfold OSAL_CV_MAX_WAITERS; lia).
  rewrite (bind_some _ _ _ _ _ Hr). by rewrite <- app_assoc.
Qed.

(** A full list stops the program. *)
Lemma enqueue_full cv tr me mask :
  wf_cv cv -> cv_count cv = 32 -> cv_enqueue me mask (cv, tr) = None.
Proof.
  intros _ Hc. unfold cv_enqueue, mbind, M_bind, emit, get_cv. by rewrite Hc.
Qed.

(** Popping takes the first. *)
Lemma pop_run cv tr w q :
  wf_cv cv -> cv_queue cv = w :: q ->
  exists cv', cv_pop (cv, tr) = Some (w, (cv', tr)) /\ wf_cv cv' /\ cv_queue cv' = q /\
    cv_count cv' = cv_count cv - 1.
Proof.
  intros [Hl Ht Hc Hh] Hq. pose proof (length_cv_queue cv) as Hlen. rewrite Hq in Hlen.
  cbn [length] in Hlen. unfold cv_pop, mbind, M_bind, get_cv, put_cv, liftO.
  unfold cv_queue in Hq. replace (Z.to_nat (cv_count cv)) with (S (Z.to_nat (cv_count cv - 1)))
    in Hq by lia. rewrite ring_pop in Hq. injection Hq as Hw Hq.
  rewrite Hl in Hw, Hq. rewrite Nat.mod_small in Hw by lia.
  rewrite lookupZ_nat, list_lookup_lookup_total_lt, Hw by lia. rewrite rem32 by lia.
  eexists. split; [reflexivity|]. split; [split; cbn; zlia|]. split; [|done].
  rewrite <- Hq. unfold cv_queue. cbn [waiters cv_tail cv_count].
  f_equal. rewrite nat_mod32 by lia. f_equal. lia.
Qed.

Lemma count_queue_nil cv : wf_cv cv -> 0 < cv_count cv <-> cv_queue cv <> [].
Proof.
  intros [_ _ Hc _]. pose proof (length_cv_queue cv) as Hl.
  destruct (cv_queue cv); cbn in Hl; split; intros; try done; lia.
Qed.

Lemma signal_run cv tr :
  wf_cv cv ->
  exists cv', osal_cv_signal (cv, tr) = Some (tt, (cv', tr ++ [EObtain; ERelease] ++
      match cv_queue cv with [] => [] | w :: _ => [ESignal (task w) (sigmask w)] end)) /\
    wf_cv cv' /\ cv_queue cv' = tl (cv_queue cv).
Proof.
  intros Hw. unfold osal_cv_signal. unfold mbind at 1, M_bind at 1, emit at 1.
  unfold mbind at 1, M_bind at 1, get_cv.
  pose proof (count_queue_nil cv Hw) as Hn.
  destruct (cv_queue cv) as [|w q] eqn:Hq.
  - rewrite (proj2 (Z.ltb_ge _ _)) by (destruct (Z.lt_decidable 0 (cv_count cv)); [tauto|lia]).
    exists cv. rewrite Hq. unfold emit. by rewrite <- app_assoc.
  - rewrite (proj2 (Z.ltb_lt _ _)) by (by apply Hn).
    destruct (pop_run cv (tr ++ [EObtain]) w q Hw Hq) as (cv' & Hp & Hw' & Hq' & _).
    rewrite (bind_some _ _ _ _ _ Hp). exists cv'. unfold mbind, M_bind, emit.
    by rewrite <- !app_assoc.
Qed.

(** The signals that wake a list of waiters. *)
Definition wakes (q : list osal_cv_waiter) : list ev :=
  (fun w => ESignal (task w) (sigmask w)) <$> q.

Lemma wake_all_run q : forall cv tr n,
  wf_cv cv -> cv_queue cv = q -> (length q < n)%nat ->
  exists cv', cv_wake_all n (cv, tr) = Some (tt, (cv', tr ++ wakes q)) /\
    wf_cv cv' /\ cv_queue cv' = [].
Proof.
  induction q as [|w q IH]; intros cv tr n Hw Hq Hn; (destruct n as [|n]; [cbn in Hn; lia|]);
    cbn [cv_wake_all]; unfold mbind at 1, M_bind at 1, get_cv;
    pose proof (count_queue_nil cv Hw) as Hne; rewrite Hq in Hne.
  - rewrite (proj2 (Z.ltb_ge _ _)) by (destruct (Z.lt_decidable 0 (cv_count cv)); [tauto|lia]).
    exists cv. cbn. by rewrite app_nil_r.
  - rewrite (proj2 (Z.ltb_lt _ _)) by (by apply Hne).
    destruct (pop_run cv tr w q Hw Hq) as (cv1 & Hp & Hw1 & Hq1 & _).
    rewrite (bind_some _ _ _ _ _ Hp). unfold mbind, M_bind, emit.
    destruct (IH cv1 (tr ++ [ESignal (task w) (sigmask w)]) n Hw1 Hq1) as (cv' & Hr & Hw' & Hq');
      [cbn in Hn; lia|]. exists cv'. rewrite Hr. by rewrite <- app_assoc.
Qed.

Lemma broadcast_run cv tr :
  wf_cv cv ->
  exists cv', osal_cv_broadcast (cv, tr) =
      Some (tt, (cv', tr ++ [EObtain] ++ wakes (cv_queue cv) ++ [ERelease])) /\
    wf_cv cv' /\ cv_queue cv' = [].
Proof.
  intros Hw. unfold osal_cv_broadcast. unfold mbind at 1, M_bind at 1, emit at 1.
  unfold mbind at 1, M_bind at 1, get_cv.
  destruct (wake_all_run (cv_queue cv) cv (tr ++ [EObtain]) (S (Z.to_nat (cv_count cv))) Hw eq_refl)
    as (cv' & Hr & Hw' & Hq'); [rewrite length_cv_queue; lia|].
  rewrite (bind_some _ _ _ _ _ Hr). exists cv'. unfold emit. by rewrite <- !app_assoc.
Qed.

(** ** Removing a waiter *)

Definition set_waiters (l : list osal_cv_waiter) (cv : osal_cv) : osal_cv :=
  mk_cv l (cv_head cv) (cv_tail cv) (cv_count cv).

Lemma cv_queue_lookup cv k w :
  wf_cv cv -> cv_queue cv !! k = Some w ->
  lookupZ (waiters cv) ((cv_tail cv + Z.of_nat k) mod 32) = Some w.
Proof.
  intros [Hl Ht Hc _] Hk. pose proof (lookup_lt_Some _ _ _ Hk) as Hlt.
  rewrite length_cv_queue in Hlt. unfold cv_queue in Hk.
  rewrite lookup_ring_view in Hk by done. injection Hk as Hk. rewrite Hl in Hk. rewrite <- Hk.
  rewrite lookupZ_nat by zlia. rewrite nat_mod32, Z2Nat.inj_add, Nat2Z.id by lia.
  apply list_lookup_lookup_total_lt. rewrite Hl. apply Nat.mod_upper_bound. lia.
Qed.

(** What [n] shifts from position [j] on do to a list. *)
Definition shifted {A} (n j : nat) (q : list A) : list A :=
  take j q ++ block (S j) n q ++ drop (j + n) q.

Lemma shifted_S {A} n j (q : list A) x :
  q !! S j = Some x -> (j + S n < length q)%nat ->
  shifted n (S j) (<[j := x]> q) = shifted (S n) j q.
Proof.
  intros Hx Hl. unfold shifted. rewrite (take_S_r _ _ x) by (apply list_lookup_insert_eq; lia).
  rewrite take_insert_ge, <- app_assoc by lia. f_equal.
  unfold block. rewrite !drop_insert_lt by lia. rewrite (drop_S q x (S j)) by done.
  cbn [take app]. f_equal. f_equal. f_equal. lia.
Qed.

Lemma shift_run n : forall cv tr j,
  wf_cv cv -> (j + n < Z.to_nat (cv_count cv))%nat ->
  exists l, cv_shift n (Z.of_nat j) (cv, tr) = Some (tt, (set_waiters l cv, tr)) /\
    wf_cv (set_waiters l cv) /\ cv_queue (set_waiters l cv) = shifted n j (cv_queue cv).
Proof.
  induction n as [|n IH]; intros cv tr j Hw Hj.
  { exists (waiters cv). destruct cv. split; [done|]. split; [done|].
    unfold shifted. rewrite block_0, Nat.add_0_r. by rewrite app_nil_l, take_drop. }
  destruct Hw as [Hl Ht Hc Hh] eqn:Hweq. cbn [cv_shift].
  unfold mbind at 1, M_bind at 1, get_cv. cbv zeta.
  destruct (lookup_lt_is_Some_2 (cv_queue cv) (S j) ltac:(rewrite length_cv_queue; lia)) as [x Hx].
  rewrite !rem32 by (rewrite ?rem32 by lia; zlia).
  replace (((cv_tail cv + Z.of_nat j) mod 32 + 1) mod 32)
    with ((cv_tail cv + Z.of_nat (S j)) mod 32) by zlia.
  assert (Hlk := cv_queue_lookup cv (S j) x Hw Hx).
  unfold mbind at 1, M_bind at 1, liftO at 1. rewrite Hlk.
  unfold mbind at 1, M_bind at 1, liftO at 1. rewrite storeZ_run by (rewrite Hl; zlia).
  unfold mbind at 1, M_bind at 1, put_cv.
  set (l1 := <[Z.to_nat ((cv_tail cv + Z.of_nat j) mod 32) := x]> (waiters cv)).
  assert (Hw1 : wf_cv (set_waiters l1 cv)) by (split; cbn; try done; unfold l1; by rewrite length_insert).
  assert (Hq1 : cv_queue (set_waiters l1 cv) = <[j := x]> (cv_queue cv)).
  { unfold cv_queue, set_waiters. cbn [waiters cv_tail cv_count].
    rewrite <- ring_view_set by lia. unfold l1. do 2 f_equal.
    rewrite nat_mod32, Hl, Z2Nat.inj_add, Nat2Z.id by lia. done. }
  replace (Z.of_nat j + 1) with (Z.of_nat (S j)) by lia.
  destruct (IH (set_waiters l1 cv) tr (S j) Hw1) as (l & Hr & Hwl & Hql); [cbn; lia|].
  exists l. split; [exact Hr|]. split; [exact Hwl|].
  transitivity (shifted n (S j) (cv_queue (set_waiters l1 cv))); [exact Hql|].
  rewrite Hq1. apply shifted_S; [done|]. rewrite length_cv_queue. lia.
Qed.

(** Without the first occurrence of [w]. *)
Definition remove_first (w : osal_cv_waiter) (q : list osal_cv_waiter) : list osal_cv_waiter :=
  match list_find (fun x => x = w) q with
  | Some (k, _) => delete k q
  | None => q
  end.

(** Taking the waiter at position [k] out. *)
Lemma remove_at cv tr k :
  wf_cv cv -> (k < Z.to_nat (cv_count cv))%nat ->
  exists cv', (cv_shift (Z.to_nat (cv_count cv - 1 - Z.of_nat k)) (Z.of_nat k);;
      cv ← get_cv;
      put_cv (mk_cv (waiters cv)
        (Z.rem (cv_head cv - 1 + OSAL_CV_MAX_WAITERS) OSAL_CV_MAX_WAITERS)
        (cv_tail cv) (cv_count cv - 1))) (cv, tr) = Some (tt, (cv', tr)) /\
    wf_cv cv' /\ cv_queue cv' = delete k (cv_queue cv).
Proof.
  intros Hw Hk. destruct Hw as [Hl Ht Hc Hh] eqn:Hweq.
  destruct (shift_run (Z.to_nat (cv_count cv - 1 - Z.of_nat k)) cv tr k Hw ltac:(lia))
    as (l & Hr & [Hl' _ _ _] & Hq).
  rewrite (bind_some _ _ _ _ _ Hr). unfold mbind, M_bind, get_cv, put_cv. cbn [set_waiters
    waiters cv_head cv_tail cv_count]. eexists. split; [reflexivity|].
  assert (Hhr : 0 <= cv_head cv < 32) by (rewrite Hh; apply Z.mod_pos_bound; lia).
  rewrite rem32 by (unfold OSAL_CV_MAX_WAITERS; lia). split.
  { split; cbn [waiters cv_head cv_tail cv_count]; [done|done|lia|].
    unfold OSAL_CV_MAX_WAITERS. rewrite Hh.
    replace ((cv_tail cv + cv_count cv) mod 32 - 1 + 32)
      with ((cv_tail cv + cv_count cv) mod 32 + 31) by lia.
    rewrite Zplus_mod_idemp_l.
    replace (cv_tail cv + cv_count cv + 31) with (cv_tail cv + (cv_count cv - 1) + 1 * 32) by lia.
    apply Z_mod_plus_full. }
  unfold cv_queue in *. cbn [set_waiters waiters cv_tail cv_count] in *.
  assert (Htk : forall n, ring_view l (Z.to_nat (cv_tail cv)) n =
    take n (ring_view l (Z.to_nat (cv_tail cv)) (n + 1))).
  { intros n. replace (n + 1)%nat with (S n) by lia. rewrite ring_view_snoc.
    by rewrite take_app_length' by (by rewrite length_ring_view). }
  rewrite Htk. replace (Z.to_nat (cv_count cv - 1) + 1)%nat with (Z.to_nat (cv_count cv)) by lia.
  rewrite Hq. set (q := ring_view (waiters cv) _ _).
  assert (Hlq : length q = Z.to_nat (cv_count cv)) by apply length_ring_view.
  unfold shifted. rewrite app_assoc, take_app_length'.
  - rewrite delete_take_drop. unfold block. f_equal. rewrite take_ge by (rewrite length_drop; lia). done.
  - rewrite length_app, length_take, length_block by lia. lia.
Qed.

Lemma waiter_eqb w me mask :
  (task w =? me) && (sigmask w =? mask) = bool_decide (w = mk_waiter me mask).
Proof.
  destruct w as [t m]. cbn. destruct (Z.eqb_spec t me), (Z.eqb_spec m mask); cbn;
    case_bool_decide; naive_solver.
Qed.

Lemma remove_run cv tr me mask : wf_cv cv -> forall n i,
  (i + n = Z.to_nat (cv_count cv))%nat ->
  exists cv', cv_remove me mask n (Z.of_nat i) ((cv_tail cv + Z.of_nat i) mod 32) (cv, tr) =
      Some (tt, (cv', tr)) /\ wf_cv cv' /\
    cv_queue cv' = match list_find (fun x => x = mk_waiter me mask) (drop i (cv_queue cv)) with
                   | Some (k, _) => delete (i + k)%nat (cv_queue cv)
                   | None => cv_queue cv
                   end.
Proof.
  intros Hw. induction n as [|n IH]; intros i Hi.
  { exists cv. rewrite drop_ge by (rewrite length_cv_queue; lia). done. }
  cbn [cv_remove]. unfold mbind at 1, M_bind at 1, get_cv.
  destruct (lookup_lt_is_Some_2 (cv_queue cv) i ltac:(rewrite length_cv_queue; lia)) as [x Hx].
  unfold mbind at 1, M_bind at 1, liftO at 1. rewrite (cv_queue_lookup cv i x Hw Hx).
  rewrite waiter_eqb, (drop_S _ x) by done. cbn [list_find].
  case_bool_decide as Hb; case_decide; try done.
  - destruct (remove_at cv tr i Hw ltac:(lia)) as (cv' & Hr & Hw' & Hq').
    exists cv'. split; [exact Hr|]. split; [done|]. by rewrite Nat.add_0_r.
  - replace (Z.of_nat i + 1) with (Z.of_nat (S i)) by lia. pose proof (wv_tail _ Hw).
    rewrite rem32 by zlia.
    replace (((cv_tail cv + Z.of_nat i) mod 32 + 1) mod 32)
      with ((cv_tail cv + Z.of_nat (S i)) mod 32) by zlia.
    destruct (IH (S i) ltac:(lia)) as (cv' & Hr & Hw' & Hq'). exists cv'. split; [done|].
    split; [done|]. rewrite Hq'. destruct (list_find _ (drop (S i) _)) as [[k y]|]; cbn; [|done].
    f_equal. lia.
Qed.

Lemma cancel_run cv tr me mask :
  wf_cv cv ->
  exists cv', cv_cancel me mask (cv, tr) = Some (tt, (cv', tr ++ [EObtain; ERelease])) /\
    wf_cv cv' /\ cv_queue cv' = remove_first (mk_waiter me mask) (cv_queue cv).
Proof.
  intros Hw. unfold cv_cancel. unfold mbind at 1, M_bind at 1, emit at 1.
  unfold mbind at 1, M_bind at 1, get_cv.
  destruct (remove_run cv (tr ++ [EObtain]) me mask Hw (Z.to_nat (cv_count cv)) 0 ltac:(lia))
    as (cv' & Hr & Hw' & Hq').
  rewrite Z.add_0_r, Z.mod_small in Hr by apply Hw. change (Z.of_nat 0) with 0 in Hr.
  rewrite (bind_some _ _ _ _ _ Hr). exists cv'. unfold emit. rewrite <- app_assoc.
  split; [done|]. split; [done|]. unfold remove_first. rewrite drop_0 in Hq'. rewrite Hq'.
  by destruct (list_find _ _) as [[k y]|].
Qed.

(** ** Sequences of sections *)

(** What tasks do to the structure: queue themselves, give up, wake one, wake
    all. *)
Inductive cv_op := OWait (t : Z) | OCancel (t : Z) | OSignal | OBroadcast.

Definition cv_step (o : cv_op) : M cvst unit :=
  match o with
  | OWait t => cv_enqueue t SIGF_SINGLE
  | OCancel t => cv_cancel t SIGF_SINGLE
  | OSignal => osal_cv_signal
  | OBroadcast => osal_cv_broadcast
  end.

Fixpoint cv_run (os : list cv_op) : M cvst unit :=
  match os with [] => mret tt | o :: os' => cv_step o;; cv_run os' end.

(** The same on a list of tasks, with the tasks woken; [None] is the panic. *)
Definition wq_step (o : cv_op) (q : list Z) : option (list Z * list Z) :=
  match o with
  | OWait t => if (32 <=? length q)%nat then None else Some (q ++ [t], [])
  | OCancel t => Some (match list_find (fun x => x = t) q with
                       | Some (k, _) => delete k q | None => q end, [])
  | OSignal => Some (tl q, match q with [] => [] | t :: _ => [t] end)
  | OBroadcast => Some ([], q)
  end.

Fixpoint wq_run (os : list cv_op) (q : list Z) : option (list Z * list Z) :=
  match os with
  | [] => Some (q, [])
  | o :: os' =>
    '(q1, w1) ← wq_step o q;
    '(q2, w2) ← wq_run os' q1;
    Some (q2, w1 ++ w2)
  end.

(** The tasks signalled in a trace, in order. *)
Definition woken (tr : list ev) : list Z :=
  omap (fun e => match e with ESignal t _ => Some t | _ => None end) tr.

Definition single (t : Z) : osal_cv_waiter := mk_waiter t SIGF_SINGLE.

Lemma woken_app tr1 tr2 : woken (tr1 ++ tr2) = woken tr1 ++ woken tr2.
Proof. apply omap_app. Qed.

Lemma woken_wakes q : woken (wakes (single <$> q)) = q.
Proof. induction q as [|t q IH]; [done|]. cbn. by f_equal. Qed.

Lemma list_find_single t q :
  list_find (fun x => x = single t) (single <$> q) =
  prod_map id single <$> list_find (fun x => x = t) q.
Proof.
  induction q as [|x q IH]; [done|]. cbn.
  destruct (decide (x = t)) as [->|Hne].
  - rewrite !decide_True by done. done.
  - rewrite !decide_False by (try done; intros [= ?]; done). rewrite IH.
    by destruct (list_find _ q) as [[k y]|].
Qed.

Lemma cv_step_run o cv tr q :
  wf_cv cv -> cv_queue cv = single <$> q ->
  match wq_step o q with
  | Some (q', w) =>
    exists cv' tr', cv_step o (cv, tr) = Some (tt, (cv', tr ++ tr')) /\ wf_cv cv' /\
      cv_queue cv' = single <$> q' /\ woken tr' = w
  | None => cv_step o (cv, tr) = None
  end.
Proof.
  intros Hw Hq. pose proof (length_cv_queue cv) as Hl. rewrite Hq, length_fmap in Hl.
  destruct o as [t|t| |]; cbn [wq_step cv_step].
  - pose proof (wv_count _ Hw). destruct (Nat.leb_spec 32 (length q)).
    + apply enqueue_full; [done|lia].
    + destruct (enqueue_run cv tr t SIGF_SINGLE Hw ltac:(lia)) as (cv' & Hr & Hw' & Hq').
      exists cv', [EObtain; ERelease]. split; [done|]. split; [done|]. split; [|done].
      by rewrite Hq', Hq, fmap_app.
  - destruct (cancel_run cv tr t SIGF_SINGLE Hw) as (cv' & Hr & Hw' & Hq').
    exists cv', [EObtain; ERelease]. split; [done|]. split; [done|]. split; [|done].
    rewrite Hq'. unfold remove_first. fold (single t). rewrite Hq, list_find_single.
    destruct (list_find _ q) as [[k x]|]; cbn; [|done]. by rewrite list_fmap_delete.
  - destruct (signal_run cv tr Hw) as (cv' & Hr & Hw' & Hq'). exists cv'. eexists.
    split; [exact Hr|]. split; [done|]. rewrite Hq', Hq. destruct q; done.
  - destruct (broadcast_run cv tr Hw) as (cv' & Hr & Hw' & Hq'). exists cv'. eexists.
    split; [exact Hr|]. split; [done|]. split; [done|].
    rewrite !woken_app, Hq, woken_wakes. cbn. by rewrite app_nil_r.
Qed.

Lemma cv_run_queue os : forall cv tr q,
  wf_cv cv -> cv_queue cv = single <$> q ->
  match wq_run os q with
  | Some (q', w) =>
    exists cv' tr', cv_run os (cv, tr) = Some (tt, (cv', tr ++ tr')) /\ wf_cv cv' /\
      cv_queue cv' = single <$> q' /\ woken tr' = w
  | None => cv_run os (cv, tr) = None
  end.
Proof.
  induction os as [|o os IH]; intros cv tr q Hw Hq.
  { exists cv, []. rewrite app_nil_r. done. }
  cbn [cv_run wq_run]. pose proof (cv_step_run o cv tr q Hw Hq) as Hs.
  destruct (wq_step o q) as [[q1 w1]|]; cbn [mbind option_bind]; cycle 1.
  { unfold mbind, M_bind. by rewrite Hs. }
  destruct Hs as (cv1 & tr1 & Hr1 & Hw1 & Hq1 & Hk1). rewrite (bind_some _ _ _ _ _ Hr1).
  specialize (IH cv1 (tr ++ tr1) q1 Hw1 Hq1).
  destruct (wq_run os q1) as [[q2 w2]|]; cbn; [|done].
  destruct IH as (cv2 & tr2 & Hr2 & Hw2 & Hq2 & Hk2).
  exists cv2, (tr1 ++ tr2). rewrite app_assoc. split; [done|]. split; [done|]. split; [done|].
  by rewrite woken_app, Hk1, Hk2.
Qed.

(** C33. A condition variable is a FIFO list of waiters: in every sequence of
    waits, time-outs, signals and broadcasts on a new variable (whatever the
    memory of its 32 slots held), a signal wakes
    the task that has waited longest, a broadcast wakes all in order and each
    once, a task that gives up leaves the others in order, and the program stops
    exactly when a thirty-third task waits. *)
Theorem cv_refines_fifo os mem cv :
  length (waiters mem) = 32%nat -> osal_cv_new (Some mem) = Some cv ->
  match wq_run os [] with
  | Some (q', w) =>
    exists cv' tr', cv_run os (cv, []) = Some (tt, (cv', tr')) /\ wf_cv cv' /\
      cv_queue cv' = single <$> q' /\ woken tr' = w
  | None => cv_run os (cv, []) = None
  end.
Proof.
  intros Hl [= <-]. apply (cv_run_queue os _ [] []); [|done].
  split; cbn; done || lia.
Qed.

Lemma cv_refines_fifo_witness :
  exists cv' tr', cv_run [OWait 7; OWait 8; OWait 9; OCancel 8; OSignal; OWait 8; OBroadcast]
      (empty_cv, []) = Some (tt, (cv', tr')) /\ wf_cv cv' /\ cv_queue cv' = [] /\
    woken tr' = [7; 9; 8].
Proof.
  exact (cv_refines_fifo [OWait 7; OWait 8; OWait 9; OCancel 8; OSignal; OWait 8; OBroadcast]
    empty_cv empty_cv eq_refl eq_refl).
Defined.
