(* ===== verification/Atomics.v ===== *)
(** * Atomic operations (src/phase1_osal/rump_atomics.c)

    The memory word an operation works on, and what other processors do to
    it.  Between a load and the conditional store of a reservation loop,
    and between a plain load and the compare-and-swap that follows it,
    there is a window in which one event of [env] takes place; with no
    events left nobody interferes.  A conditional store succeeds exactly
    when its reservation was not lost. *)

From S2P Require Import Prelude.

Inductive intf :=
  | Keep                (* nothing happens *)
  | Lose                (* the reservation is lost, the word is unchanged *)
  | Store (v : Z).      (* another processor stores [v]: the reservation is lost *)

Record cpu := mk_cpu { mem : Z; env : list intf }.

Definition load : M cpu Z := fun s => Some (mem s, s).
Definition store (v : Z) : M cpu unit := fun s => Some (tt, mk_cpu v (env s)).

(** One window; whether a reservation survives it. *)
Definition window : M cpu bool := fun s =>
  match env s with
  | [] => Some (true, s)
  | Keep :: e => Some (true, mk_cpu (mem s) e)
  | Lose :: e => Some (false, mk_cpu (mem s) e)
  | Store v :: e => Some (false, mk_cpu v e)
  end.

(** [lwarx; cmpw; bne; stwcx.; bne-] *)
Fixpoint atomic_cas_32 (fuel : nat) (old new : Z) : M cpu Z :=
  match fuel with
  | O => ub
  | S fuel' =>
    prev ← load;
    if negb (prev =? old) then mret prev else
    kept ← window;
    if (kept : bool) then store new;; mret prev else atomic_cas_32 fuel' old new
  end.

Definition atomic_cas_uint := atomic_cas_32.
Definition atomic_cas_ptr := atomic_cas_32.

(** [do { old = *ptr; new = f(old); } while (atomic_cas_32(ptr, old, new) != old)]:
    the loop of every operation below; [old] and [new] of its last round. *)
Fixpoint cas_loop (f : Z -> Z) (fuel : nat) : M cpu (Z * Z) :=
  match fuel with
  | O => ub
  | S fuel' =>
    old ← load;
    window;;
    let new := f old in
    prev ← atomic_cas_32 fuel old new;
    if negb (prev =? old) then cas_loop f fuel' else mret (old, new)
  end.

Definition atomic_add_int (fuel : nat) (val : Z) : M cpu unit :=
  cas_loop (fun old => u32 (old + u32 val)) fuel;; mret tt.
Definition atomic_add_long := atomic_add_int.
Definition atomic_add_long_nv (fuel : nat) (val : Z) : M cpu Z :=
  '(_, new) ← cas_loop (fun old => u32 (old + u32 val)) fuel; mret new.
Definition atomic_inc_uint (fuel : nat) : M cpu unit := atomic_add_int fuel 1.
Definition atomic_inc_uint_nv (fuel : nat) : M cpu Z :=
  '(_, new) ← cas_loop (fun old => u32 (old + 1)) fuel; mret new.
Definition atomic_dec_uint (fuel : nat) : M cpu unit := atomic_add_int fuel (-1).
Definition atomic_dec_uint_nv (fuel : nat) : M cpu Z :=
  '(_, new) ← cas_loop (fun old => u32 (old - 1)) fuel; mret new.
Definition atomic_or_32 (fuel : nat) (val : Z) : M cpu unit :=
  cas_loop (fun old => Z.lor old val) fuel;; mret tt.
Definition atomic_or_uint := atomic_or_32.
Definition atomic_and_32 (fuel : nat) (val : Z) : M cpu unit :=
  cas_loop (fun old => Z.land old val) fuel;; mret tt.
Definition atomic_and_uint := atomic_and_32.
Definition atomic_swap_uint (fuel : nat) (val : Z) : M cpu Z :=
  '(old, _) ← cas_loop (fun _ => val) fuel; mret old.
Definition atomic_swap_ptr := atomic_swap_uint.

(** The three operations of [atomic_fetchop_32]. *)
Definition fetchop (op prev operand : Z) : Z :=
  if op =? 0 then u32 (prev + operand)
  else if op =? 1 then Z.lor prev operand
  else if op =? 2 then Z.land prev operand
  else prev.

(** Its loop: a conditional store; when it fails, the word is loaded again, and
    the loop ends when that value is the one computed. *)
Fixpoint fetchop_loop (fuel : nat) (op operand prev : Z) : M cpu Z :=
  match fuel with
  | O => ub
  | S fuel' =>
    let next := fetchop op prev operand in
    kept ← window;
    got ← (if (kept : bool) then store next;; mret next else load);
    if got =? next then mret prev else fetchop_loop fuel' op operand got
  end.

Definition atomic_fetchop_32 (fuel : nat) (operand op : Z) : M cpu Z :=
  prev ← load; fetchop_loop fuel op operand prev.

(** ** Atomicity *)

(** The word after the stores of some events. *)
Definition apply_intf (m : Z) (e : intf) : Z := match e with Store v => v | _ => m end.
Definition after (es : list intf) (m : Z) : Z := foldl apply_intf m es.

Lemma window_run s :
  exists es kept, window s = Some (kept, mk_cpu (after es (mem s)) (drop (length es) (env s))) /\
    es = take 1 (env s) /\ (kept = true -> after es (mem s) = mem s).
Proof.
  destruct s as [m e]. unfold window. cbn. destruct e as [|[| |v] e]; cbn;
    [by exists [], true|by exists [Keep], true|by exists [Lose], false|by exists [Store v], false].
Qed.

Lemma after_app es1 es2 m : after (es1 ++ es2) m = after es2 (after es1 m).
Proof. apply foldl_app. Qed.

(** What an operation that takes effect at one instant does: some events happen
    first, then it sees the word [m0] and leaves [m1]. *)
Definition at_once (s : cpu) (m0 m1 : Z) (s' : cpu) : Prop :=
  exists es, env s = es ++ env s' /\ m0 = after es (mem s) /\ mem s' = m1.

Lemma cas_run fuel old new : forall s,
  (length (env s) < fuel)%nat ->
  exists prev s', atomic_cas_32 fuel old new s = Some (prev, s') /\
    at_once s prev (if prev =? old then new else prev) s'.
Proof.
  induction fuel as [|fuel IH]; intros s Hf; [lia|]. cbn [atomic_cas_32].
  unfold mbind at 1, M_bind at 1, load.
  destruct (Z.eqb_spec (mem s) old) as [Heq|Hne]; cbn [negb]; cycle 1.
  { exists (mem s), s. split; [done|]. rewrite (proj2 (Z.eqb_neq _ _)) by done. by exists []. }
  destruct s as [m [|[| |v] e]]; cbn [mem] in *.
  - exists m, (mk_cpu new []). split; [done|]. rewrite Heq, Z.eqb_refl. by exists [].
  - exists m, (mk_cpu new e). split; [done|]. rewrite Heq, Z.eqb_refl. by exists [Keep].
  - destruct (IH (mk_cpu m e) ltac:(cbn in *; lia)) as (prev & s' & Hr & es & He & Hp & Hm).
    exists prev, s'. split; [exact Hr|]. exists (Lose :: es). cbn in *. by rewrite He.
  - destruct (IH (mk_cpu v e) ltac:(cbn in *; lia)) as (prev & s' & Hr & es & He & Hp & Hm).
    exists prev, s'. split; [exact Hr|]. exists (Store v :: es). cbn in *. by rewrite He.
Qed.

Lemma cas_loop_run f fuel : forall s,
  (length (env s) < fuel)%nat ->
  exists old s', cas_loop f fuel s = Some ((old, f old), s') /\ at_once s old (f old) s'.
Proof.
  induction fuel as [|fuel IH]; intros s Hf; [lia|]. cbn [cas_loop].
  unfold mbind at 1, M_bind at 1, load.
  destruct (window_run s) as (es & kept & Hw & Hes & _). rewrite (bind_some _ _ _ _ _ Hw).
  assert (Henv : env s = es ++ drop (length es) (env s)).
  { rewrite Hes. destruct (env s) as [|x e]; [done|]. cbn. by destruct e. }
  destruct (cas_run (S fuel) (mem s) (f (mem s)) (mk_cpu (after es (mem s)) (drop (length es) (env s))))
    as (prev & s1 & Hc & es1 & He1 & Hp1 & Hm1); [cbn; rewrite length_drop; lia|].
  cbn [env mem] in He1, Hp1.
  rewrite (bind_some _ _ _ _ _ Hc).
  destruct (Z.eqb_spec prev (mem s)) as [Heq|Hne]; cbn [negb].
  - exists (mem s), s1. split; [done|]. exists (es ++ es1).
    rewrite <- app_assoc, <- He1, after_app, <- Hp1. by rewrite Heq in *.
  - assert (Hcons : (length (env s1) < fuel)%nat).
    { rewrite Henv, length_app, He1, length_app in Hf.
      destruct es as [|x es]; [|cbn in Hf; lia]. destruct es1 as [|y es1]; [|cbn in Hf; lia].
      cbn in Hp1. congruence. }
    destruct (IH s1 Hcons) as (old & s' & Hr & es2 & He2 & Hp2 & Hm2).
    exists old, s'. split; [done|]. exists (es ++ es1 ++ es2).
    rewrite <- !app_assoc, <- He2, <- He1, !after_app, <- Hp1. split; [done|]. split; [|done].
    by rewrite Hp2, Hm1.
Qed.

(** ** The operations *)

(** Compare-and-swap takes effect at one instant: whatever other processors
    store before it, it returns the value of the word at that instant and replaces
    it by [new] exactly when that value is [old]; and it returns after at most one
    attempt more than there are interfering events. *)
Theorem cas_atomic old new s :
  exists prev s', atomic_cas_32 (S (length (env s))) old new s = Some (prev, s') /\
    at_once s prev (if prev =? old then new else prev) s'.
Proof. apply cas_run. lia. Qed.

(** C39. The read-modify-write operations never lose an update: each returns, also
    under any finite interference, and at one instant takes the word from its
    current value to the value plus the operand modulo 2^32 (add, inc, dec), or'ed,
    and'ed or replaced; the value they report is the one of that instant. *)
Theorem atomic_rmw s val :
  let fuel := S (length (env s)) in
  (exists m s', atomic_add_long_nv fuel val s = Some (u32 (m + u32 val), s') /\
     at_once s m (u32 (m + u32 val)) s') /\
  (exists m s', atomic_add_int fuel val s = Some (tt, s') /\
     at_once s m (u32 (m + u32 val)) s') /\
  (exists m s', atomic_inc_uint_nv fuel s = Some (u32 (m + 1), s') /\
     at_once s m (u32 (m + 1)) s') /\
  (exists m s', atomic_dec_uint_nv fuel s = Some (u32 (m - 1), s') /\
     at_once s m (u32 (m - 1)) s') /\
  (exists m s', atomic_or_32 fuel val s = Some (tt, s') /\ at_once s m (Z.lor m val) s') /\
  (exists m s', atomic_and_32 fuel val s = Some (tt, s') /\ at_once s m (Z.land m val) s') /\
  (exists m s', atomic_swap_uint fuel val s = Some (m, s') /\ at_once s m val s').
Proof.
  cbv zeta. assert (Hl : forall f, exists old s', cas_loop f (S (length (env s))) s =
    Some ((old, f old), s') /\ at_once s old (f old) s') by (intros f; apply cas_loop_run; lia).
  unfold atomic_add_long_nv, atomic_add_int, atomic_inc_uint_nv, atomic_dec_uint_nv,
    atomic_or_32, atomic_and_32, atomic_swap_uint.
  repeat match goal with
  | |- context [cas_loop ?f _] =>
      let old := fresh in let s' := fresh in let Hr := fresh in let Ha := fresh in
      destruct (Hl f) as (old & s' & Hr & Ha);
      first [split; [exists old, s'; rewrite (bind_some _ _ _ _ _ Hr); split; [reflexivity|exact Ha]|]
            |exists old, s'; rewrite (bind_some _ _ _ _ _ Hr); split; [reflexivity|exact Ha]]
  end.
Qed.

(** The fetch-and-op that nothing uses yet is not atomic: its loop stops when the
    word it reloads after a failed conditional store happens to be the value it
    wanted to store.  Two processors that each add 1 to 5 leave 6. *)
Theorem fetchop_lost_update :
  atomic_fetchop_32 5 1 0 (mk_cpu 5 [Store 6]) = Some (5, mk_cpu 6 []).
Proof. vm_compute. reflexivity. Qed.

(** Without a coincidence it behaves: with no interference it is the operation. *)
Theorem fetchop_alone fuel operand op m :
  atomic_fetchop_32 (S fuel) operand op (mk_cpu m []) =
  Some (m, mk_cpu (fetchop op m operand) []).
Proof.
  unfold atomic_fetchop_32. cbn [fetchop_loop]. unfold mbind, M_bind, load, window, store, mret, M_ret.
  cbn [env mem]. by rewrite Z.eqb_refl.
Qed.
