(* ===== verification/Bits.v ===== *)
(** * Bit and byte routines (src/phase1_osal/rump_atomics.c and
      src/phase1_osal/rump_link_stubs.c)

    Byte swaps, the population count, and the byte-wise memory routines
    the rump kernel links against. *)

From S2P Require Import Prelude.

(** ** Operations *)

Definition bswap32 (v : Z) : Z :=
  Z.lor (Z.lor (Z.lor (Z.shiftr (Z.land v 0xFF000000) 24) (Z.shiftr (Z.land v 0x00FF0000) 8))
               (u32 (Z.shiftl (Z.land v 0x0000FF00) 8)))
        (u32 (Z.shiftl (Z.land v 0x000000FF) 24)).

Definition bswap64 (v : Z) : Z :=
  Z.lor (u64 (Z.shiftl (bswap32 (u32 (Z.land v 0xFFFFFFFF))) 32))
        (bswap32 (u32 (Z.shiftr v 32))).

Definition popcount32 (v : Z) : Z :=
  let v := u32 (v - Z.land (Z.shiftr v 1) 0x55555555) in
  let v := u32 (Z.land v 0x33333333 + Z.land (Z.shiftr v 2) 0x33333333) in
  s32 (Z.shiftr (u32 (Z.land (u32 (v + Z.shiftr v 4)) 0xF0F0F0F * 0x01010101)) 24).

(** [while (n--) acc |= ( *x++ ^ *y++ ); return acc == 0;], undefined past the end
    of a block. *)
Fixpoint memequal_loop (x y : list Z) (n : nat) (acc : Z) : option Z :=
  match n with
  | O => Some acc
  | S n' =>
    match x, y with
    | a :: x', b :: y' => memequal_loop x' y' n' (u8 (Z.lor acc (Z.lxor a b)))
    | _, _ => None
    end
  end.

Definition consttime_memequal (x y : list Z) (n : nat) : option Z :=
  acc ← memequal_loop x y n 0; Some (if acc =? 0 then 1 else 0).

(** [while (n--) *q++ = (unsigned char)c;] *)
Fixpoint memset_loop (q : list Z) (i : Z) (c : Z) (n : nat) : option (list Z) :=
  match n with
  | O => Some q
  | S n' => q' ← storeZ q i (u8 c); memset_loop q' (i + 1) c n'
  end.

Definition explicit_memset (q : list Z) (c : Z) (n : nat) : option (list Z) :=
  memset_loop q 0 c n.

(** The copy loop of [copystr] from index [i], [n] iterations at most: the
    destination and the index it stops at. *)
Fixpoint copystr_loop (s d : list Z) (i : Z) (n : nat) : option (list Z * Z) :=
  match n with
  | O => Some (d, i)
  | S n' =>
    c ← lookupZ s i;
    if c =? 0 then Some (d, i) else
    d' ← storeZ d i c;
    copystr_loop s d' (i + 1) n'
  end.

(** Return value, destination, and what is written through [done]. *)
Definition copystr (s d : list Z) (len : Z) : option (Z * list Z * Z) :=
  '(d1, i) ← copystr_loop s d 0 (Z.to_nat len);
  if i <? len then
    d2 ← storeZ d1 i 0; Some (0, d2, i + 1)
  else Some (34, d1, i).

(** ** Byte swaps *)

(** Position of a bit after the bytes of an [n]-byte word are reversed. *)
Definition swap_bit (n i : Z) : Z := 8 * (n - 1 - i / 8) + i mod 8.

Lemma land_byte_bit v m k i :
  0 <= i -> 0 <= k -> Z.testbit (Z.shiftr (Z.land v m) k) i =
  Z.testbit v (i + k) && Z.testbit m (i + k).
Proof. intros. by rewrite Z.shiftr_spec, Z.land_spec by lia. Qed.

Lemma shl_byte_bit v m k i :
  0 <= i < 32 -> 0 <= k -> Z.testbit (u32 (Z.shiftl (Z.land v m) k)) i =
  Z.testbit v (i - k) && Z.testbit m (i - k).
Proof.
  intros. unfold u32. change 4294967296 with (2 ^ 32).
  rewrite Z.mod_pow2_bits_low by lia. by rewrite Z.shiftl_spec, Z.land_spec by lia.
Qed.

(** All values of a small index. *)
Lemma forall_below (P : Z -> Prop) n :
  (forall k, (k < n)%nat -> P (Z.of_nat k)) -> forall i, 0 <= i < Z.of_nat n -> P i.
Proof. intros HP i Hi. rewrite <- (Z2Nat.id i) by lia. apply HP. lia. Qed.

Lemma bswap32_bit v i :
  0 <= i < 32 -> Z.testbit (bswap32 v) i = Z.testbit v (swap_bit 4 i).
Proof.
  revert i. apply (forall_below _ 32). intros k Hk. unfold bswap32, swap_bit.
  rewrite !Z.lor_spec, !land_byte_bit, !shl_byte_bit by lia.
  do 32 (destruct k as [|k]; [cbn; rewrite ?andb_false_r, ?andb_true_r, ?orb_false_r; reflexivity|]).
  lia.
Qed.

Lemma high_bits v n i : 0 <= v < 2 ^ n -> 0 <= n <= i -> Z.testbit v i = false.
Proof.
  intros Hv Hi. rewrite <- (Z.mod_small v (2 ^ n)) by done. by apply Z.mod_pow2_bits_high.
Qed.

Lemma eq_by_bits n a b :
  0 <= n -> 0 <= a < 2 ^ n -> 0 <= b < 2 ^ n ->
  (forall i, 0 <= i < n -> Z.testbit a i = Z.testbit b i) -> a = b.
Proof.
  intros Hn Ha Hb H. apply Z.bits_inj'. intros i Hi.
  destruct (decide (i < n)); [apply H; lia|]. by rewrite !(high_bits _ n) by lia.
Qed.

Lemma bswap32_range v : is_u32 v -> is_u32 (bswap32 v).
Proof.
  intros Hv. unfold is_u32 in *. change 4294967296 with (2 ^ 32) in *.
  assert (Hnn : 0 <= bswap32 v).
  { unfold bswap32. rewrite !Z.lor_nonneg, !Z.shiftr_nonneg, !Z.land_nonneg.
    split; [split; [split|]|]; try lia; unfold u32; apply Z.mod_pos_bound; lia. }
  split; [done|]. replace (bswap32 v) with (bswap32 v mod 2 ^ 32); [apply Z.mod_pos_bound; lia|].
  apply Z.bits_inj'. intros i Hi. destruct (decide (i < 32)).
  { by rewrite Z.mod_pow2_bits_low by lia. }
  rewrite Z.mod_pow2_bits_high by lia. unfold bswap32.
  rewrite !Z.lor_spec, !land_byte_bit by lia. rewrite !(high_bits v 32) by lia.
  unfold u32. change 4294967296 with (2 ^ 32). by rewrite !Z.mod_pow2_bits_high by lia.
Qed.

Lemma swap_bit_range n i : 0 < n -> 0 <= i < 8 * n -> 0 <= swap_bit n i < 8 * n.
Proof. intros. unfold swap_bit. zlia. Qed.

Lemma swap_bit_invol n i : 0 <= i < 8 * n -> swap_bit n (swap_bit n i) = i.
Proof. intros. unfold swap_bit. zlia. Qed.

Lemma bswap64_bit v i :
  is_u64 v -> 0 <= i < 64 -> Z.testbit (bswap64 v) i = Z.testbit v (swap_bit 8 i).
Proof.
  intros Hv Hi. unfold bswap64. rewrite Z.lor_spec.
  assert (H1 : forall j, 0 <= j < 32 -> Z.testbit (bswap32 (u32 (Z.land v 0xFFFFFFFF))) j =
    Z.testbit v (swap_bit 4 j)).
  { intros j Hj. rewrite bswap32_bit by done. pose proof (swap_bit_range 4 j ltac:(lia) Hj).
    unfold u32. change 4294967296 with (2 ^ 32). rewrite Z.mod_pow2_bits_low by lia.
    change 0xFFFFFFFF with (Z.ones 32). by rewrite Z.land_spec, Z.ones_spec_low, andb_true_r by lia. }
  assert (H2 : forall j, 0 <= j < 32 -> Z.testbit (bswap32 (u32 (Z.shiftr v 32))) j =
    Z.testbit v (swap_bit 4 j + 32)).
  { intros j Hj. rewrite bswap32_bit by done. pose proof (swap_bit_range 4 j ltac:(lia) Hj).
    unfold u32. change 4294967296 with (2 ^ 32). rewrite Z.mod_pow2_bits_low by lia.
    by rewrite Z.shiftr_spec by lia. }
  unfold u64. change 18446744073709551616 with (2 ^ 64). rewrite Z.mod_pow2_bits_low by lia.
  rewrite Z.shiftl_spec by lia. destruct (decide (i < 32)).
  - rewrite Z.testbit_neg_r by lia. rewrite H2 by lia. cbn [orb]. f_equal. unfold swap_bit. zlia.
  - rewrite H1 by lia. rewrite (high_bits (bswap32 _) 32).
    + rewrite orb_false_r. f_equal. unfold swap_bit. zlia.
    + pose proof (bswap32_range (u32 (Z.shiftr v 32)) (is_u32_u32 _)) as Hr. exact Hr.
    + lia.
Qed.

Lemma bswap64_range v : is_u64 v -> is_u64 (bswap64 v).
Proof.
  intros Hv. unfold is_u64 in *. change 18446744073709551616 with (2 ^ 64) in *.
  unfold bswap64. pose proof (bswap32_range (u32 (Z.shiftr v 32)) (is_u32_u32 _)) as Hr.
  unfold is_u32 in Hr. set (a := u64 _). set (b := bswap32 _) in *.
  assert (Ha : 0 <= a < 2 ^ 64) by (unfold a, u64; apply Z.mod_pos_bound; lia).
  split; [apply Z.lor_nonneg; lia|].
  replace (Z.lor a b) with (Z.lor a b mod 2 ^ 64); [apply Z.mod_pos_bound; lia|].
  apply Z.bits_inj'. intros i Hi. destruct (decide (i < 64)).
  { by rewrite Z.mod_pow2_bits_low by lia. }
  rewrite Z.mod_pow2_bits_high, Z.lor_spec by lia.
  by rewrite (high_bits a 64), (high_bits b 32) by lia.
Qed.

(** The byte swaps move bit [i] of byte [j] to bit [i] of byte [n - 1 - j],
    stay within their width, and undo themselves. *)
Theorem bswap_correct v :
  (is_u32 v -> is_u32 (bswap32 v) /\ bswap32 (bswap32 v) = v /\
   forall i, 0 <= i < 32 -> Z.testbit (bswap32 v) i = Z.testbit v (swap_bit 4 i)) /\
  (is_u64 v -> is_u64 (bswap64 v) /\ bswap64 (bswap64 v) = v /\
   forall i, 0 <= i < 64 -> Z.testbit (bswap64 v) i = Z.testbit v (swap_bit 8 i)).
Proof.
  split; intros Hv.
  - pose proof (bswap32_range v Hv) as Hr. split; [done|]. split; [|apply bswap32_bit].
    pose proof (bswap32_range _ Hr) as Hr2. apply (eq_by_bits 32); [lia|apply Hr2|apply Hv|].
    intros i Hi. rewrite !bswap32_bit; [|apply (swap_bit_range 4); lia|done].
    by rewrite swap_bit_invol by lia.
  - pose proof (bswap64_range v Hv) as Hr. split; [done|]. split; [|intros; by apply bswap64_bit].
    pose proof (bswap64_range _ Hr) as Hr2. apply (eq_by_bits 64); [lia|apply Hr2|apply Hv|].
    intros i Hi. rewrite !bswap64_bit; [|done|apply (swap_bit_range 8); lia|done|done].
    by rewrite swap_bit_invol by lia.
Qed.

Lemma bswap_correct_witness :
  bswap32 0x12345678 = 0x78563412 /\ bswap32 (bswap32 0x12345678) = 0x12345678 /\
  bswap64 (bswap64 0x0102030405060708) = 0x0102030405060708.
Proof.
  destruct (bswap_correct 0x12345678) as [H _].
  destruct (bswap_correct 0x0102030405060708) as [_ H2].
  split; [vm_compute; reflexivity|]. split; [apply H; word|apply H2; word].
Defined.

(** ** Population count *)

(** The number of ones among the low [n] bits. *)
Fixpoint ones_in (n : nat) (v : Z) : Z :=
  match n with O => 0 | S n' => Z.b2z (Z.odd v) + ones_in n' (v / 2) end.

Lemma ones_in_range n v : 0 <= ones_in n v <= Z.of_nat n.
Proof.
  revert v. induction n as [|n IH]; intros v; cbn [ones_in]; [lia|].
  specialize (IH (v / 2)). destruct (Z.odd v); cbn [Z.b2z]; lia.
Qed.

Lemma ones_in_split a n v :
  0 <= v -> ones_in (a + n) v = ones_in a (v mod 2 ^ Z.of_nat a) + ones_in n (v / 2 ^ Z.of_nat a).
Proof.
  revert v. induction a as [|a IH]; intros v Hv.
  { cbn. by rewrite Z.div_1_r. }
  cbn [ones_in Nat.add]. rewrite IH by (apply Z.div_pos; lia).
  replace (2 ^ Z.of_nat (S a)) with (2 * 2 ^ Z.of_nat a)
    by (rewrite Nat2Z.inj_succ, Z.pow_succ_r by lia; lia).
  pose proof (Z.pow_pos_nonneg 2 (Z.of_nat a) ltac:(lia) ltac:(lia)) as Hp.
  rewrite (Z.rem_mul_r v 2) by lia. rewrite <- Z.div_div by lia.
  set (m := (v / 2) mod 2 ^ Z.of_nat a).
  assert (Hodd : Z.odd (v mod 2 + 2 * m) = Z.odd v).
  { rewrite Z.odd_add_mul_2, <- !Z.bit0_odd. change 2 with (2 ^ 1) at 1.
    by rewrite Z.mod_pow2_bits_low by lia. }
  assert (Hdiv : (v mod 2 + 2 * m) / 2 = m).
  { rewrite Z.mul_comm, Z.div_add by lia. rewrite (Z.div_small (v mod 2)); [lia|].
    apply Z.mod_pos_bound. lia. }
  rewrite Hodd, Hdiv. lia.
Qed.

(** Conjunction works field by field. *)
Lemma land_fields k a b c d :
  0 <= k -> 0 <= b < 2 ^ k -> 0 <= d < 2 ^ k ->
  Z.land (a * 2 ^ k + b) (c * 2 ^ k + d) = Z.land a c * 2 ^ k + Z.land b d.
Proof.
  intros Hk Hb Hd.
  assert (Hl : 0 <= Z.land b d < 2 ^ k).
  { split; [apply Z.land_nonneg; lia|].
    destruct (decide (Z.land b d = 0)) as [->|]; [lia|].
    apply Z.log2_lt_pow2; [assert (0 <= Z.land b d) by (apply Z.land_nonneg; lia); lia|].
    pose proof (Z.log2_land b d ltac:(lia) ltac:(lia)).
    destruct (decide (b = 0)) as [->|]; [by rewrite Z.land_0_l in *|].
    assert (Z.log2 b < k) by (apply Z.log2_lt_pow2; lia). lia. }
  assert (Hor : forall x y, 0 <= y < 2 ^ k -> x * 2 ^ k + y = Z.lor (Z.shiftl x k) y).
  { intros x y Hy. rewrite <- Z.shiftl_mul_pow2 by lia. rewrite <- Z.add_lor_land.
    assert (Z.land (Z.shiftl x k) y = 0); [|lia].
    apply Z.bits_inj'. intros i Hi. rewrite Z.land_spec, Z.bits_0, Z.shiftl_spec by lia.
    destruct (decide (i < k)); [by rewrite Z.testbit_neg_r by lia|].
    rewrite (high_bits y k) by lia. apply andb_false_r. }
  rewrite !Hor by done. apply Z.bits_inj'. intros i Hi.
  rewrite Z.land_spec, !Z.lor_spec, !Z.shiftl_spec, !Z.land_spec by lia.
  destruct (decide (i < k)).
  - by rewrite !(Z.testbit_neg_r _ (i - k)) by lia.
  - rewrite (high_bits b k), (high_bits d k) by lia. by rewrite !orb_false_r.
Qed.

(** A shift by [j] of a word with low byte [b], masked by [m] whose high [j] bits
    are zero, is the same operation on the byte. *)
Lemma shift_mask_byte j h b m c :
  0 <= j <= 8 -> 0 <= h -> 0 <= b < 256 -> 0 <= m < 2 ^ (8 - j) ->
  Z.land (Z.shiftr (h * 256 + b) j) (c * 256 + m) =
  Z.land (Z.shiftr h j) c * 256 + Z.land (Z.shiftr b j) m.
Proof.
  intros Hj Hh Hb Hm.
  assert (Hp : 2 ^ j * 2 ^ (8 - j) = 256) by (rewrite <- Z.pow_add_r by lia; by replace (j + (8 - j)) with 8 by lia).
  pose proof (Z.pow_pos_nonneg 2 j ltac:(lia) ltac:(lia)) as Hp1.
  pose proof (Z.pow_pos_nonneg 2 (8 - j) ltac:(lia) ltac:(lia)) as Hp2.
  rewrite !Z.shiftr_div_pow2 by lia.
  pose proof (Z.div_mod h (2 ^ j) ltac:(lia)) as Hdh.
  pose proof (Z.mod_pos_bound h (2 ^ j) ltac:(lia)) as Hmh.
  assert (Hbj : 0 <= b / 2 ^ j < 2 ^ (8 - j)).
  { split; [apply Z.div_pos; lia|]. apply Z.div_lt_upper_bound; lia. }
  assert (Hsh : (h * 256 + b) / 2 ^ j =
    h / 2 ^ j * 256 + (h mod 2 ^ j * 2 ^ (8 - j) + b / 2 ^ j)).
  { rewrite <- Hp. rewrite Z.mul_assoc, (Z.mul_comm h (2 ^ j)), <- Z.mul_assoc, Z.add_comm.
    rewrite (Z.mul_comm (2 ^ j) (h * 2 ^ (8 - j))), Z.div_add by lia. rewrite Hdh at 1. lia. }
  rewrite Hsh. change 256 with (2 ^ 8). rewrite land_fields; [|lia| |].
  - f_equal. replace m with (0 * 2 ^ (8 - j) + m) at 1 by lia.
    rewrite land_fields by lia. rewrite Z.land_0_r. lia.
  - change (2 ^ 8) with 256. rewrite <- Hp. nia.
  - change (2 ^ 8) with 256. rewrite <- Hp. nia.
Qed.

(** A word from its bytes. *)
Definition word4 (b3 b2 b1 b0 : Z) : Z := ((b3 * 256 + b2) * 256 + b1) * 256 + b0.

Definition is_byte4 (b3 b2 b1 b0 : Z) : Prop := is_u8 b3 /\ is_u8 b2 /\ is_u8 b1 /\ is_u8 b0.

Lemma masked_shift4 j m b3 b2 b1 b0 :
  0 <= j <= 8 -> is_byte4 b3 b2 b1 b0 -> 0 <= m < 2 ^ (8 - j) ->
  Z.land (Z.shiftr (word4 b3 b2 b1 b0) j) (word4 m m m m) =
  word4 (Z.land (Z.shiftr b3 j) m) (Z.land (Z.shiftr b2 j) m)
        (Z.land (Z.shiftr b1 j) m) (Z.land (Z.shiftr b0 j) m).
Proof.
  intros Hj (H3 & H2 & H1 & H0) Hm. unfold word4, is_u8 in *. by rewrite !shift_mask_byte by lia.
Qed.

(** The three stages on one byte. *)
Definition pc1 (b : Z) : Z := b - Z.land (Z.shiftr b 1) 0x55.
Definition pc2 (b : Z) : Z := Z.land b 0x33 + Z.land (Z.shiftr b 2) 0x33.
Definition pc3 (x : Z) : Z := (x + x / 16) mod 16.

(** Checked for the 256 bytes. *)
Lemma byte_stages b :
  is_u8 b -> is_u8 (pc1 b) /\ (pc2 (pc1 b) mod 16 <= 4 /\ 0 <= pc2 (pc1 b) / 16 <= 4) /\
    pc3 (pc2 (pc1 b)) = ones_in 8 b.
Proof.
  assert (Hall : forallb (fun k => let b := Z.of_nat k in
      (0 <=? pc1 b) && (pc1 b <? 256) && (pc2 (pc1 b) mod 16 <=? 4) &&
      (0 <=? pc2 (pc1 b) / 16) && (pc2 (pc1 b) / 16 <=? 4) &&
      (pc3 (pc2 (pc1 b)) =? ones_in 8 b)) (seq 0 256) = true) by (vm_compute; reflexivity).
  intros Hb. unfold is_u8 in *. rewrite forallb_forall in Hall.
  specialize (Hall (Z.to_nat b)). rewrite in_seq in Hall. specialize (Hall ltac:(lia)).
  cbv zeta in Hall. rewrite Z2Nat.id in Hall by lia.
  rewrite !andb_true_iff, !Z.leb_le, Z.ltb_lt, Z.eqb_eq in Hall. tauto.
Qed.

Lemma stage3 x3 x2 x1 x0 :
  (forall x, x ∈ [x3; x2; x1; x0] -> x mod 16 <= 4 /\ 0 <= x / 16 <= 4) ->
  Z.land (u32 (word4 x3 x2 x1 x0 + Z.shiftr (word4 x3 x2 x1 x0) 4)) 0xF0F0F0F =
  word4 (pc3 x3) (pc3 x2) (pc3 x1) (pc3 x0).
Proof.
  intros Hx.
  pose proof (Hx x3 ltac:(set_solver)) as H3. pose proof (Hx x2 ltac:(set_solver)) as H2.
  pose proof (Hx x1 ltac:(set_solver)) as H1. pose proof (Hx x0 ltac:(set_solver)) as H0.
  clear Hx. rewrite Z.shiftr_div_pow2 by lia. change (2 ^ 4) with 16.
  set (y3 := x3 + x3 / 16). set (y2 := x2 + (x3 mod 16) * 16 + x2 / 16).
  set (y1 := x1 + (x2 mod 16) * 16 + x1 / 16). set (y0 := x0 + (x1 mod 16) * 16 + x0 / 16).
  assert (Hb : is_byte4 y3 y2 y1 y0) by (unfold is_byte4, is_u8, y3, y2, y1, y0; repeat split; zlia).
  assert (Hsum : word4 x3 x2 x1 x0 + word4 x3 x2 x1 x0 / 16 = word4 y3 y2 y1 y0).
  { unfold word4, y3, y2, y1, y0. clear. zlia. }
  rewrite Hsum, u32_id.
  2: { destruct Hb as (B3 & B2 & B1 & B0). unfold is_u32, word4, is_u8 in *. lia. }
  change 0xF0F0F0F with (word4 15 15 15 15).
  replace (word4 y3 y2 y1 y0) with (Z.shiftr (word4 y3 y2 y1 y0) 0) by apply Z.shiftr_0_r.
  rewrite masked_shift4 by (done || lia). rewrite !Z.shiftr_0_r.
  change 15 with (Z.ones 4). rewrite !Z.land_ones by lia. change (2 ^ 4) with 16.
  unfold pc3. f_equal; unfold y3, y2, y1, y0; zlia.
Qed.

(** The multiplication adds the four bytes into the top one. *)
Lemma sum_bytes z3 z2 z1 z0 :
  0 <= z3 <= 8 -> 0 <= z2 <= 8 -> 0 <= z1 <= 8 -> 0 <= z0 <= 8 ->
  s32 (Z.shiftr (u32 (word4 z3 z2 z1 z0 * 0x01010101)) 24) = z3 + z2 + z1 + z0.
Proof.
  intros. rewrite Z.shiftr_div_pow2 by lia. change (2 ^ 24) with 16777216.
  set (lo := (z2 + z1 + z0) * 65536 + (z1 + z0) * 256 + z0).
  set (hi := z3 * 65536 + (z3 + z2) * 256 + (z3 + z2 + z1)).
  replace (word4 z3 z2 z1 z0 * 16843009)
    with ((z3 + z2 + z1 + z0) * 16777216 + lo + hi * 4294967296) by (unfold word4, lo, hi; lia).
  unfold u32. rewrite Z.mod_add, Z.mod_small by (unfold lo; lia).
  rewrite Z.div_add_l, (Z.div_small lo) by (unfold lo; lia). rewrite s32_id by word. lia.
Qed.

Lemma popcount_bytes b3 b2 b1 b0 :
  is_byte4 b3 b2 b1 b0 ->
  popcount32 (word4 b3 b2 b1 b0) = ones_in 8 b3 + ones_in 8 b2 + ones_in 8 b1 + ones_in 8 b0.
Proof.
  intros Hb. pose proof Hb as (B3 & B2 & B1 & B0). unfold popcount32. cbv zeta.
  destruct (byte_stages b3 B3) as (P3 & Q3 & R3), (byte_stages b2 B2) as (P2 & Q2 & R2),
    (byte_stages b1 B1) as (P1 & Q1 & R1), (byte_stages b0 B0) as (P0 & Q0 & R0).
  change 0x55555555 with (word4 0x55 0x55 0x55 0x55).
  rewrite (masked_shift4 1 0x55) by (done || (split; [lia|reflexivity])).
  replace (word4 b3 b2 b1 b0 - _) with (word4 (pc1 b3) (pc1 b2) (pc1 b1) (pc1 b0))
    by (unfold word4, pc1; lia).
  rewrite (u32_id (word4 (pc1 b3) _ _ _)) by (unfold is_u32, word4, is_u8 in *; lia).
  change 0x33333333 with (word4 0x33 0x33 0x33 0x33).
  replace (Z.land (word4 (pc1 b3) (pc1 b2) (pc1 b1) (pc1 b0)) (word4 0x33 0x33 0x33 0x33))
    with (Z.land (Z.shiftr (word4 (pc1 b3) (pc1 b2) (pc1 b1) (pc1 b0)) 0) (word4 0x33 0x33 0x33 0x33))
    by (by rewrite Z.shiftr_0_r).
  rewrite !masked_shift4 by (done || (split; [lia|reflexivity])). rewrite !Z.shiftr_0_r.
  match goal with |- context [u32 (word4 ?p ?q ?r ?s + word4 ?p' ?q' ?r' ?s')] =>
    replace (word4 p q r s + word4 p' q' r' s')
      with (word4 (pc2 (pc1 b3)) (pc2 (pc1 b2)) (pc2 (pc1 b1)) (pc2 (pc1 b0)))
      by (unfold word4, pc2; lia) end.
  rewrite (u32_id (word4 (pc2 _) _ _ _)) by (unfold is_u32, word4; zlia).
  rewrite stage3; [|intros x Hx; rewrite !elem_of_cons, elem_of_nil in Hx;
    destruct Hx as [->|[->|[->|[->|[]]]]]; done].
  rewrite R3, R2, R1, R0.
  apply sum_bytes; apply ones_in_range.
Qed.

(** The parallel population count is the number of one bits of the word. *)
Theorem popcount32_correct v :
  is_u32 v -> popcount32 v = ones_in 32 v.
Proof.
  intros Hv. unfold is_u32 in Hv.
  set (b0 := v mod 256). set (b1 := (v / 256) mod 256). set (b2 := (v / 65536) mod 256).
  set (b3 := v / 16777216).
  assert (Hw : v = word4 b3 b2 b1 b0) by (unfold word4, b3, b2, b1, b0; zlia).
  assert (Hb : is_byte4 b3 b2 b1 b0)
    by (unfold is_byte4, is_u8, b3, b2, b1, b0; repeat split; zlia).
  rewrite Hw, (popcount_bytes _ _ _ _ Hb), <- Hw.
  change 32%nat with (8 + (8 + (8 + 8)))%nat.
  rewrite !ones_in_split by (repeat apply Z.div_pos; lia). change (2 ^ Z.of_nat 8) with 256.
  rewrite !Z.div_div by lia. change (256 * 256 * 256) with 16777216. change (256 * 256) with 65536.
  fold b0 b1 b2 b3. lia.
Qed.

Lemma popcount32_correct_witness : popcount32 0xFF00FF01 = ones_in 32 0xFF00FF01.
Proof. apply (popcount32_correct 0xFF00FF01). word. Defined.

(** ** Byte-wise memory routines *)

Lemma lxor_u8 a b : is_u8 a -> is_u8 b -> is_u8 (Z.lxor a b) /\ (Z.lxor a b = 0 <-> a = b).
Proof.
  intros Ha Hb. split; [|rewrite Z.lxor_eq_0_iff; done].
  unfold is_u8 in *. change 256 with (2 ^ 8) in *.
  assert (0 <= Z.lxor a b) by (apply Z.lxor_nonneg; lia). split; [done|].
  replace (Z.lxor a b) with (Z.lxor a b mod 2 ^ 8); [apply Z.mod_pos_bound; lia|].
  apply Z.bits_inj'. intros i Hi. destruct (decide (i < 8)).
  { by rewrite Z.mod_pow2_bits_low by lia. }
  rewrite Z.mod_pow2_bits_high, Z.lxor_spec by lia. by rewrite !(high_bits _ 8) by lia.
Qed.

Lemma lor_u8 a b : is_u8 a -> is_u8 b -> is_u8 (Z.lor a b).
Proof.
  intros Ha Hb. unfold is_u8 in *. change 256 with (2 ^ 8) in *.
  assert (0 <= Z.lor a b) by (apply Z.lor_nonneg; lia). split; [done|].
  replace (Z.lor a b) with (Z.lor a b mod 2 ^ 8); [apply Z.mod_pos_bound; lia|].
  apply Z.bits_inj'. intros i Hi. destruct (decide (i < 8)).
  { by rewrite Z.mod_pow2_bits_low by lia. }
  rewrite Z.mod_pow2_bits_high, Z.lor_spec by lia. by rewrite !(high_bits _ 8) by lia.
Qed.

(** The accumulator ends at zero exactly when it started there and the blocks
    agree; every byte is looked at whatever the outcome. *)
Lemma memequal_loop_ok x y n acc :
  Forall is_u8 x -> Forall is_u8 y -> is_u8 acc ->
  (n <= length x)%nat -> (n <= length y)%nat ->
  exists r, memequal_loop x y n acc = Some r /\ (r = 0 <-> acc = 0 /\ take n x = take n y).
Proof.
  intros Hx. revert y n acc. induction Hx as [|a x Ha Hx IH]; intros y n acc Hy Hacc Hlx Hly.
  { destruct n; [|cbn in Hlx; lia]. exists acc. cbn. tauto. }
  destruct n as [|n]; [exists acc; cbn; tauto|].
  destruct Hy as [|b y Hb Hy]; [cbn in Hly; lia|]. cbn [length] in *.
  destruct (lxor_u8 a b Ha Hb) as [Hr Hz]. pose proof (lor_u8 acc _ Hacc Hr) as Hl.
  cbn [memequal_loop]. rewrite u8_id by done.
  destruct (IH y n _ Hy Hl ltac:(lia) ltac:(lia)) as (r & -> & Hiff). exists r. split; [done|].
  rewrite Hiff, Z.lor_eq_0_iff, Hz. cbn [firstn]. split.
  - intros [[-> ->] ->]. done.
  - intros [-> He]. injection He as -> ->. done.
Qed.

Lemma memset_loop_ok n q i c :
  (i + n <= length q)%nat ->
  memset_loop q (Z.of_nat i) c n = Some (take i q ++ replicate n (u8 c) ++ drop (i + n) q).
Proof.
  revert q i. induction n as [|n IH]; intros q i Hl.
  { cbn. by rewrite Nat.add_0_r, take_drop. }
  cbn [memset_loop]. rewrite storeZ_run by lia. cbn [mbind option_bind].
  replace (Z.of_nat i + 1) with (Z.of_nat (S i)) by lia. rewrite Nat2Z.id.
  rewrite IH by (rewrite length_insert; lia). f_equal.
  rewrite drop_insert_lt by lia. replace (i + S n)%nat with (S i + n)%nat by lia.
  rewrite (take_S_r _ i (u8 c)) by (apply list_lookup_insert_eq; lia).
  rewrite take_insert_ge by lia. by rewrite <- app_assoc.
Qed.

Lemma copystr_loop_ok n s d i :
  (i + n <= length s)%nat -> (i + n <= length d)%nat ->
  Forall (fun c => c <> 0) (block i n s) ->
  copystr_loop s d (Z.of_nat i) n =
  Some (take i d ++ block i n s ++ drop (i + n) d, Z.of_nat (i + n)).
Proof.
  revert d i. induction n as [|n IH]; intros d i Hs Hd Hnz.
  { cbn [copystr_loop]. by rewrite block_0, Nat.add_0_r, app_nil_l, take_drop. }
  destruct (lookup_lt_is_Some_2 s i ltac:(lia)) as [c Hc].
  assert (Hb : block i (S n) s = c :: block (S i) n s).
  { unfold block. rewrite (drop_S s c i) by done. done. }
  rewrite Hb in Hnz |- *. inversion Hnz as [|? ? Hc0 Hnz']; subst.
  cbn [copystr_loop]. rewrite lookupZ_nat, Nat2Z.id, Hc by lia. cbn [mbind option_bind].
  destruct (Z.eqb_spec c 0); [done|]. rewrite storeZ_run by lia. cbn [mbind option_bind].
  replace (Z.of_nat i + 1) with (Z.of_nat (S i)) by lia. rewrite Nat2Z.id.
  rewrite IH by (rewrite ?length_insert; done || lia). do 2 f_equal; [|lia].
  rewrite drop_insert_lt by lia. replace (i + S n)%nat with (S i + n)%nat by lia.
  rewrite (take_S_r _ i c) by (apply list_lookup_insert_eq; lia).
  rewrite take_insert_ge by lia. by rewrite <- app_assoc.
Qed.

(** The loop leaves early at a NUL. *)
Lemma copystr_loop_nul n m s d i :
  (n < m)%nat -> (i + n < length s)%nat -> (i + n <= length d)%nat ->
  Forall (fun c => c <> 0) (block i n s) -> s !! (i + n)%nat = Some 0 ->
  copystr_loop s d (Z.of_nat i) m = copystr_loop s d (Z.of_nat i) n.
Proof.
  revert m d i. induction n as [|n IH]; intros m d i Hm Hs Hd Hnz H0; (destruct m as [|m]; [lia|]).
  { rewrite Nat.add_0_r in H0. cbn. by rewrite lookupZ_nat, Nat2Z.id, H0 by lia. }
  destruct (lookup_lt_is_Some_2 s i ltac:(lia)) as [c Hc].
  assert (Hb : block i (S n) s = c :: block (S i) n s).
  { unfold block. rewrite (drop_S s c i) by done. done. }
  rewrite Hb in Hnz. inversion Hnz as [|? ? Hc0 Hnz']; subst.
  cbn [copystr_loop]. rewrite lookupZ_nat, Nat2Z.id, Hc by lia. cbn [mbind option_bind].
  destruct (Z.eqb_spec c 0); [done|]. rewrite storeZ_run by lia. cbn [mbind option_bind].
  replace (Z.of_nat i + 1) with (Z.of_nat (S i)) by lia.
  apply IH; rewrite ?length_insert; try done; try lia.
  by replace (S i + n)%nat with (i + S n)%nat by lia.
Qed.

(** C40. The memory routines of the kernel stubs: [explicit_memset] writes the
    first [n] bytes and nothing else; [consttime_memequal] answers 1 exactly when
    the first [n] bytes agree; [copystr] copies a string that fits with its NUL,
    answers 0 and its size, and otherwise copies [len] bytes and answers 34.  The
    comment beside that number says ENAMETOOLONG, which is 63 on NetBSD; 34 is
    ERANGE. *)
Theorem kernel_mem_ok :
  (forall q c n, (n <= length q)%nat ->
     explicit_memset q c n = Some (replicate n (u8 c) ++ drop n q)) /\
  (forall x y n, Forall is_u8 x -> Forall is_u8 y -> (n <= length x)%nat -> (n <= length y)%nat ->
     consttime_memequal x y n = Some (if decide (take n x = take n y) then 1 else 0)) /\
  (forall s d str rest len, s = str ++ 0 :: rest -> Forall (fun c => c <> 0) str ->
     (length str < len)%nat -> (length str < length d)%nat ->
     copystr s d (Z.of_nat len) =
       Some (0, str ++ 0 :: drop (S (length str)) d, Z.of_nat (S (length str)))) /\
  (forall s d len, (len <= length s)%nat -> (len <= length d)%nat ->
     Forall (fun c => c <> 0) (take len s) ->
     copystr s d (Z.of_nat len) = Some (34, take len s ++ drop len d, Z.of_nat len)).
Proof.
  split; [|split; [|split]].
  - intros q c n Hn. apply (memset_loop_ok n q 0 c). lia.
  - intros x y n Hx Hy Hlx Hly. unfold consttime_memequal.
    destruct (memequal_loop_ok x y n 0 Hx Hy ltac:(word) Hlx Hly) as (r & -> & Hiff).
    cbn [mbind option_bind]. destruct (Z.eqb_spec r 0), (decide (take n x = take n y)); try done;
      exfalso; tauto.
  - intros s d str rest len -> Hnz Hlen Hd. unfold copystr. rewrite Nat2Z.id.
    assert (Hblk : block 0 (length str) (str ++ 0 :: rest) = str)
      by (unfold block; by rewrite drop_0, take_app_length).
    rewrite (copystr_loop_nul (length str) _ _ _ 0); rewrite ?length_app, ?Hblk; cbn [length]; try done; try lia.
    2: { cbn. by rewrite list_lookup_middle. }
    rewrite (copystr_loop_ok _ _ _ 0); rewrite ?length_app, ?Hblk; cbn [length]; try done; try lia.
    cbn [mbind option_bind]. destruct (Z.ltb_spec (Z.of_nat (0 + length str)) (Z.of_nat len)); [|lia].
    rewrite storeZ_run by (rewrite !length_app, length_drop; cbn; lia). cbn [mbind option_bind].
    rewrite Nat2Z.id. cbn [Nat.add take app]. do 2 f_equal; [|lia]. f_equal.
    destruct (drop (length str) d) as [|z l] eqn:Hdrop.
    { apply (f_equal length) in Hdrop. rewrite length_drop in Hdrop. cbn in Hdrop. lia. }
    replace (drop (S (length str)) d) with l
      by (replace (S (length str)) with (length str + 1)%nat by lia; by rewrite <- drop_drop, Hdrop).
    rewrite take_0, app_nil_l. replace (length str) with (length str + 0)%nat at 1 by lia.
    by rewrite insert_app_r.
  - intros s d len Hs Hd Hnz. unfold copystr. rewrite Nat2Z.id.
    rewrite (copystr_loop_ok _ _ _ 0); try done; try lia. cbn [mbind option_bind Nat.add].
    destruct (Z.ltb_spec (Z.of_nat len) (Z.of_nat len)); [lia|]. done.
Qed.

Lemma kernel_mem_ok_witness :
  explicit_memset [1; 2; 3; 4] 0x1FF 2 = Some [255; 255; 3; 4] /\
  consttime_memequal [1; 2; 3] [1; 2; 9] 2 = Some 1 /\
  copystr [104; 105; 0; 7] [9; 9; 9; 9] 4 = Some (0, [104; 105; 0; 9], 3) /\
  copystr [104; 105; 33; 0] [9; 9; 9; 9] 2 = Some (34, [104; 105; 9; 9], 2).
Proof.
  destruct kernel_mem_ok as (Hset & Heq & Hfit & Hlong).
  split; [apply (Hset [1; 2; 3; 4] 0x1FF 2%nat); cbn; lia|].
  split; [apply (Heq [1; 2; 3] [1; 2; 9] 2%nat); [repeat constructor; word..|cbn; lia|cbn; lia]|].
  split; [apply (Hfit [104; 105; 0; 7] [9; 9; 9; 9] [104; 105] [7] 4%nat);
    [done|repeat constructor; lia|cbn; lia|cbn; lia]|].
  apply (Hlong [104; 105; 33; 0] [9; 9; 9; 9] 2%nat); [cbn; lia|cbn; lia|repeat constructor; lia].
Defined.
