(* ===== verification/Tasks.v ===== *)
(** * Tasks, signals and message ports

    What the engine's launcher and main loop use of ExecSG, as a class of
    calls over an abstract world.  A call that concerns the running task
    takes that task as an argument.  The laws relate each call to a view of
    the world: pending signals, allocated signal bits, message queues, the
    live ports with their owner and signal bit.  They are the documented
    behaviour of the calls. *)

From S2P Require Import Prelude Ipc.

(** A message in flight: the address of the sender's buffer and its contents. *)
Abbreviation message := (Z * NetstackReq)%type.

Definition SIGBREAKB_CTRL_C : Z := 12.
Definition SIGBREAKF_CTRL_C : Z := 4096.

Class Tasks (W : Type) := {
  (** [AllocSignal(-1)], [FreeSignal(b)] by a task *)
  AllocSignal : Z -> W -> Z * W;
  FreeSignal : Z -> Z -> W -> W;
  (** [Signal(task, mask)] *)
  Signal : Z -> Z -> W -> W;
  (** [Wait(mask)] by a task; [None] while the task is blocked *)
  Wait : Z -> Z -> W -> option (Z * W);
  (** [AllocSysObjectTags(ASOT_PORT, ASOPORT_AllocSig, TRUE, ...)] by a task;
      [true] for the named public port *)
  AllocSysPort : Z -> bool -> W -> Z * W;
  FreeSysPort : Z -> W -> W;
  (** [FindPort(NETSTACK_REQUEST_PORT_NAME)] *)
  FindNamedPort : W -> Z;
  mp_SigBit : Z -> W -> Z;
  PutMsg : Z -> message -> W -> W;
  GetMsg : Z -> W -> option message * W;
  (** [None] while the caller is blocked *)
  WaitPort : Z -> W -> option W;
  ReplyMsg : message -> W -> W;
  (** [CreateTaskTags(name, priority, entry, stack)] *)
  CreateTask : Z -> W -> Z * W;
  (** the entry function of a task returns *)
  ExitTask : Z -> W -> W
}.

(** ** The view *)

Record kview := mk_kview {
  k_sig : Z -> Z;                (* pending signals of a task *)
  k_bits : Z -> gset Z;          (* signal bits a task has allocated *)
  k_queue : Z -> list message;   (* messages waiting at a port *)
  k_ports : gset Z;              (* live ports *)
  k_owner : Z -> Z * Z;          (* task a port signals, and the bit *)
  k_tasks : gset Z;              (* tasks that exist *)
  k_public : Z                   (* the named port, or 0 *)
}.

Definition kv_bits (t : Z) (B : gset Z) (v : kview) : kview :=
  mk_kview (k_sig v) (<[t := B]> (k_bits v)) (k_queue v) (k_ports v) (k_owner v) (k_tasks v)
    (k_public v).

Definition kv_sig (t m : Z) (v : kview) : kview :=
  mk_kview (<[t := m]> (k_sig v)) (k_bits v) (k_queue v) (k_ports v) (k_owner v) (k_tasks v)
    (k_public v).

Definition kv_queue (p : Z) (q : list message) (v : kview) : kview :=
  mk_kview (k_sig v) (k_bits v) (<[p := q]> (k_queue v)) (k_ports v) (k_owner v) (k_tasks v)
    (k_public v).

(** Signals raised, and taken by a [Wait]. *)
Definition kv_raise (t m : Z) (v : kview) : kview := kv_sig t (Z.lor (k_sig v t) m) v.
Definition kv_take (t m : Z) (v : kview) : kview := kv_sig t (Z.ldiff (k_sig v t) m) v.

(** A message appended to a port, whose owner is signalled. *)
Definition kv_put (p : Z) (x : message) (v : kview) : kview :=
  kv_raise (fst (k_owner v p)) (Z.shiftl 1 (snd (k_owner v p)))
    (kv_queue p (k_queue v p ++ [x]) v).

(** A bit allocated: it starts cleared. *)
Definition kv_alloc_bit (t b : Z) (v : kview) : kview :=
  kv_take t (Z.shiftl 1 b) (kv_bits t ({[b]} ∪ k_bits v t) v).

Definition kv_free_bit (t b : Z) (v : kview) : kview := kv_bits t (k_bits v t ∖ {[b]}) v.

(** A port opened; with the name, if [pub] and nobody has it. *)
Definition kv_open (t : Z) (pub : bool) (p b : Z) (v : kview) : kview :=
  let v := kv_queue p [] (kv_alloc_bit t b v) in
  mk_kview (k_sig v) (k_bits v) (k_queue v) ({[p]} ∪ k_ports v)
    (<[p := (t, b)]> (k_owner v)) (k_tasks v)
    (if pub && (k_public v =? 0) then p else k_public v).

Definition kv_close (p : Z) (v : kview) : kview :=
  let v := kv_free_bit (fst (k_owner v p)) (snd (k_owner v p)) v in
  mk_kview (k_sig v) (k_bits v) (k_queue v) (k_ports v ∖ {[p]}) (k_owner v)
    (k_tasks v) (if k_public v =? p then 0 else k_public v).

Definition kv_tasks (T : gset Z) (v : kview) : kview :=
  mk_kview (k_sig v) (k_bits v) (k_queue v) (k_ports v) (k_owner v) T (k_public v).

Definition kv_spawn (t : Z) (v : kview) : kview :=
  kv_tasks ({[t]} ∪ k_tasks v) (kv_bits t ∅ (kv_sig t 0 v)).

(** A bit [AllocSignal] can hand out: bits 0 to 15 belong to the system. *)
Definition free_bit (t b : Z) (v : kview) : Prop := 16 <= b < 32 /\ b ∉ k_bits v t.

(** Look up in an updated function. *)
Ltac fn_simpl :=
  repeat first
    [ rewrite fn_lookup_insert
    | rewrite fn_lookup_insert_ne by congruence ].

(** Compute the fields of an updated view. *)
Ltac kv :=
  unfold kv_open, kv_close, kv_put, kv_alloc_bit, kv_free_bit, kv_spawn, kv_raise, kv_take,
    kv_tasks, kv_bits, kv_sig, kv_queue;
  cbn [k_sig k_bits k_queue k_ports k_owner k_tasks k_public]; fn_simpl.

Class TaskView (W : Type) := { view : W -> kview }.

Class TaskLaws (W : Type) `{Tasks W, TaskView W} := {
  alloc_signal_law : forall t w, let '(b, w') := AllocSignal t w in
    (b = -1 /\ view w' = view w) \/
    (free_bit t b (view w) /\ view w' = kv_alloc_bit t b (view w));
  free_signal_law : forall t b w, view (FreeSignal t b w) = kv_free_bit t b (view w);
  signal_law : forall t m w, view (Signal t m w) = kv_raise t m (view w);
  wait_blocked : forall t m w, Wait t m w = None <-> Z.land (k_sig (view w) t) m = 0;
  wait_law : forall t m w got w', Wait t m w = Some (got, w') ->
    got = Z.land (k_sig (view w) t) m /\ view w' = kv_take t m (view w);
  alloc_port_law : forall t pub w, let '(p, w') := AllocSysPort t pub w in
    (p = 0 /\ view w' = view w) \/
    (p <> 0 /\ p ∉ k_ports (view w) /\ exists b, free_bit t b (view w) /\
     view w' = kv_open t pub p b (view w));
  free_port_law : forall p w, view (FreeSysPort p w) = kv_close p (view w);
  find_named_law : forall w, FindNamedPort w = k_public (view w);
  sig_bit_law : forall p w, mp_SigBit p w = snd (k_owner (view w) p);
  put_law : forall p x w, view (PutMsg p x w) = kv_put p x (view w);
  get_law : forall p w, let '(r, w') := GetMsg p w in
    r = head (k_queue (view w) p) /\
    view w' = kv_queue p (tail (k_queue (view w) p)) (view w);
  wait_port_blocked : forall p w, WaitPort p w = None <-> k_queue (view w) p = [];
  wait_port_law : forall p w w', WaitPort p w = Some w' ->
    view w' = view w \/
    view w' = kv_take (fst (k_owner (view w) p)) (Z.shiftl 1 (snd (k_owner (view w) p))) (view w);
  reply_law : forall x w, view (ReplyMsg x w) =
    if mn_ReplyPort (msg (snd x)) =? 0 then view w
    else kv_put (mn_ReplyPort (msg (snd x))) x (view w);
  create_law : forall pri w, let '(t, w') := CreateTask pri w in
    (t = 0 /\ view w' = view w) \/
    (t <> 0 /\ t ∉ k_tasks (view w) /\ view w' = kv_spawn t (view w));
  exit_law : forall t w, view (ExitTask t w) = kv_tasks (k_tasks (view w) ∖ {[t]}) (view w)
}.

(** ** Bits of a signal mask *)

Lemma testbit_shiftl1 b i : 0 <= b -> Z.testbit (Z.shiftl 1 b) i = bool_decide (i = b).
Proof.
  intros Hb. destruct (decide (0 <= i)).
  - rewrite Z.shiftl_1_l. case_bool_decide as He.
    + subst. by apply Z.pow2_bits_true.
    + by apply Z.pow2_bits_false.
  - rewrite Z.testbit_neg_r by lia. by rewrite bool_decide_false by lia.
Qed.

Lemma shiftl1_other b i : i <> b -> Z.testbit (Z.shiftl 1 b) i = false.
Proof.
  intros Hi. destruct (decide (0 <= b)).
  - rewrite testbit_shiftl1 by done. by apply bool_decide_false.
  - rewrite Z.shiftl_1_l, Z.pow_neg_r by lia. apply Z.bits_0.
Qed.

Lemma land_bit x b : 0 <= b -> Z.land x (Z.shiftl 1 b) = 0 <-> Z.testbit x b = false.
Proof.
  intros Hb. split; intros H.
  - apply (f_equal (fun z => Z.testbit z b)) in H. rewrite Z.land_spec, testbit_shiftl1 in H by done.
    rewrite bool_decide_true, andb_true_r, Z.bits_0 in H by done. done.
  - apply Z.bits_inj'. intros i Hi. rewrite Z.land_spec, testbit_shiftl1, Z.bits_0 by done.
    case_bool_decide; subst; [by rewrite H|apply andb_false_r].
Qed.

Lemma shiftl1_inj a b : 0 <= a -> 0 <= b -> Z.shiftl 1 a = Z.shiftl 1 b -> a = b.
Proof.
  intros Ha Hb H. apply (f_equal (fun z => Z.testbit z a)) in H.
  rewrite !testbit_shiftl1, bool_decide_true in H by done. symmetry in H.
  by apply bool_decide_eq_true in H.
Qed.
