(* ===== verification/EngineTasks.v ===== *)
(** * netstack.process and its launcher (src/phase2_engine/engine_main.c)

    [engine_process_main] runs in a task of its own; [NetstackEngine_Start]
    and [NetstackEngine_Stop] run in the launcher's task and meet it through
    two signals and the request port.  Each function is a machine that makes
    one call into the system per step, with the local code up to the next
    call, so that the steps of the two tasks and of the clients interleave at
    every call.  A step that is not defined is a task that is blocked, has
    ended, or would do something undefined. *)

From S2P Require Import Prelude Ipc FdTable FdSpec FdRefine Engine Tasks.

(** ** Globals *)

Definition set_request_port (p : Z) (g : engine) : engine :=
  mk_engine (g_fdtable g) (g_engine_task g) (g_launcher_task g) (g_launcher_ready_mask g)
    (g_launcher_stopped_mask g) (g_engine_ready g) (g_engine_shutdown g) p.
Definition set_ready (b : bool) (g : engine) : engine :=
  mk_engine (g_fdtable g) (g_engine_task g) (g_launcher_task g) (g_launcher_ready_mask g)
    (g_launcher_stopped_mask g) b (g_engine_shutdown g) (g_request_port g).
Definition set_engine_task (t : Z) (g : engine) : engine :=
  mk_engine (g_fdtable g) t (g_launcher_task g) (g_launcher_ready_mask g)
    (g_launcher_stopped_mask g) (g_engine_ready g) (g_engine_shutdown g) (g_request_port g).
Definition set_launcher_task (t : Z) (g : engine) : engine :=
  mk_engine (g_fdtable g) (g_engine_task g) t (g_launcher_ready_mask g)
    (g_launcher_stopped_mask g) (g_engine_ready g) (g_engine_shutdown g) (g_request_port g).
Definition set_masks (r s : Z) (g : engine) : engine :=
  mk_engine (g_fdtable g) (g_engine_task g) (g_launcher_task g) r s
    (g_engine_ready g) (g_engine_shutdown g) (g_request_port g).

(** ** Where the two tasks are *)

(** In [engine_process_main]: before the call it will make next. *)
Inductive epc :=
  | ENone                   (* the task was not created yet *)
  | EInit                   (* AllocSysObjectTags: the request port *)
  | EFail                   (* Signal the launcher: no port; return *)
  | EReady                  (* Signal the launcher: ready *)
  | ELoop                   (* while (!g_engine_shutdown) *)
  | EWait                   (* Wait(wait_mask) *)
  | EGet                    (* GetMsg(g_request_port) *)
  | EDispatch (x : message) (* dispatch_request(r) *)
  | EReply (x : message)    (* ReplyMsg(r) *)
  | EFree                   (* FreeSysObject(g_request_port) *)
  | EStopped                (* Signal the launcher: stopped; return *)
  | EExited.

(** In the launcher: outside with the last result, in Start, in Stop. *)
Inductive lpc :=
  | LIdle (rv : Z)
  | SAlloc1 (cfg : option Z)             (* AllocSignal: the ready bit *)
  | SAlloc2 (cfg : option Z) (rb : Z)    (* AllocSignal: the stopped bit *)
  | SCreate (cfg : option Z) (rb sb : Z) (* CreateTaskTags under Forbid *)
  | SWait (rb sb : Z)                    (* Wait(g_launcher_ready_mask) *)
  | TAlloc                               (* AllocSysObjectTags: a reply port *)
  | TPut (reply : Z)                     (* PutMsg(g_request_port, &req.msg) *)
  | TReply (reply : Z)                   (* WaitPort, GetMsg, FreeSysObject *)
  | TBreak                               (* Signal(g_engine_task, CTRL_C) *)
  | TWait.                               (* Wait(g_launcher_stopped_mask) *)

(** What a step of the engine does to the messages. *)
Inductive eact := ANone | ATake (x : message) | AReply (x : message).

Section programs.
Context {W : Type} `{!Tasks W} (os : sdk).

(** One step of [engine_process_main] in task [t]. *)
Definition engine_step (t : Z) (pc : epc) (g : engine) (w : W)
    : option (epc * engine * W * eact) :=
  match pc with
  | ENone | EExited => None
  | EInit =>
    let '(p, w) := AllocSysPort t true w in
    let g := set_request_port p g in
    if p =? 0 then Some (EFail, g, w, ANone)
    else Some (EReady, set_shutdown false (set_ready true g), w, ANone)
  | EFail =>
    let w := Signal (g_launcher_task g) (g_launcher_ready_mask g) w in
    Some (EExited, g, ExitTask t w, ANone)
  | EReady => Some (ELoop, g, Signal (g_launcher_task g) (g_launcher_ready_mask g) w, ANone)
  | ELoop => Some (if g_engine_shutdown g then EFree else EWait, g, w, ANone)
  | EWait =>
    let port_sig := Z.shiftl 1 (mp_SigBit (g_request_port g) w) in
    '(got, w) ← Wait t (Z.lor port_sig SIGBREAKF_CTRL_C) w;
    Some (if negb (Z.land got SIGBREAKF_CTRL_C =? 0) then EFree
          else if negb (Z.land got port_sig =? 0) then EGet else ELoop, g, w, ANone)
  | EGet =>
    match GetMsg (g_request_port g) w with
    | (Some x, w) => Some (EDispatch x, g, w, ATake x)
    | (None, w) => Some (ELoop, g, w, ANone)
    end
  | EDispatch (a, r) => '(r, g) ← dispatch_request r g; Some (EReply (a, r), g, w, ANone)
  | EReply x => Some (EGet, g, ReplyMsg x w, AReply x)
  | EFree =>
    let w := FreeSysPort (g_request_port g) w in
    Some (EStopped, set_ready false (set_request_port 0 g), w, ANone)
  | EStopped =>
    let w := Signal (g_launcher_task g) (g_launcher_stopped_mask g) w in
    Some (EExited, g, ExitTask t w, ANone)
  end.

(** [NetstackEngine_Start(cfg)] up to its first call into the system that can be
    told apart: [cfg] is the [priority] of the configuration, if there is one. *)
Definition start_call (me : Z) (cfg : option Z) (g : engine) : lpc * engine :=
  if negb (g_engine_task g =? 0) then (LIdle (-1), g)
  else (SAlloc1 cfg, set_launcher_task me g).

Definition stop_call (g : engine) : lpc :=
  if g_engine_task g =? 0 then LIdle 0
  else if negb (g_request_port g =? 0) then TAlloc else TBreak.

(** [cfg && cfg->priority ? cfg->priority : 5] *)
Definition priority (cfg : option Z) : Z :=
  match cfg with Some p => if p =? 0 then 5 else p | None => 5 end.

(** [struct NetstackReq req = {0}; ...] of Stop. *)
Definition shutdown_req (reply : Z) : NetstackReq :=
  set_op NETSTACK_OP_SHUTDOWN
    (set_msg (mk_Message (NT_MESSAGE os) (sizeof_Message os + 8 + Z.of_nat sizeof_u) reply) zero_req).

(** The loop that frees the two signals, from bit [b], [n] iterations left. *)
Fixpoint free_bits (me : Z) (g : engine) (n : nat) (b : Z) (w : W) : W :=
  match n with
  | O => w
  | S n' =>
    let w := if g_launcher_ready_mask g =? Z.shiftl 1 b then FreeSignal me b w else w in
    let w := if g_launcher_stopped_mask g =? Z.shiftl 1 b then FreeSignal me b w else w in
    free_bits me g n' (b + 1) w
  end.

(** One step of the launcher, task [me], whose stack holds the request of Stop at
    [buf]; a task it creates is the last component. *)
Definition launcher_step (me buf : Z) (pc : lpc) (g : engine) (w : W)
    : option (lpc * engine * W * option Z) :=
  match pc with
  | LIdle _ => None
  | SAlloc1 cfg => let '(rb, w) := AllocSignal me w in Some (SAlloc2 cfg rb, g, w, None)
  | SAlloc2 cfg rb =>
    let '(sb, w) := AllocSignal me w in
    if (rb <? 0) || (sb <? 0) then
      let w := if 0 <=? rb then FreeSignal me rb w else w in
      let w := if 0 <=? sb then FreeSignal me sb w else w in
      Some (LIdle (-1), g, w, None)
    else
      Some (SCreate cfg rb sb,
            set_ready false (set_masks (Z.shiftl 1 rb) (Z.shiftl 1 sb) g), w, None)
  | SCreate cfg rb sb =>
    let '(t, w) := CreateTask (priority cfg) w in
    let g := set_engine_task t g in
    if t =? 0 then Some (LIdle (-1), g, FreeSignal me sb (FreeSignal me rb w), None)
    else Some (SWait rb sb, g, w, Some t)
  | SWait rb sb =>
    '(_, w) ← Wait me (g_launcher_ready_mask g) w;
    if negb (g_engine_ready g) then
      Some (LIdle (-1), set_engine_task 0 g, FreeSignal me sb (FreeSignal me rb w), None)
    else Some (LIdle 0, g, w, None)
  | TAlloc =>
    let '(reply, w) := AllocSysPort me false w in
    Some (if reply =? 0 then TBreak else TPut reply, g, w, None)
  | TPut reply =>
    if g_request_port g =? 0 then None
    else Some (TReply reply, g, PutMsg (g_request_port g) (buf, shutdown_req reply) w, None)
  | TReply reply =>
    w ← WaitPort reply w;
    let '(_, w) := GetMsg reply w in
    Some (TWait, g, FreeSysPort reply w, None)
  | TBreak => Some (TWait, g, Signal (g_engine_task g) SIGBREAKF_CTRL_C w, None)
  | TWait =>
    '(_, w) ← Wait me (g_launcher_stopped_mask g) w;
    Some (LIdle 0, set_engine_task 0 (set_masks 0 0 g), free_bits me g 32 0 w, None)
  end.

Definition NetstackEngine_IsRunning (g : engine) : bool :=
  negb (g_engine_task g =? 0) && g_engine_ready g.
End programs.

(** ** The two tasks and the clients together *)

(** The state of the whole, and its history: the messages posted to the request
    port, taken from it, replied, and still queued when the port was freed. *)
Record sys (W : Type) := mk_sys {
  s_g : engine;
  s_w : W;
  s_t : Z;                (* the engine's task *)
  s_e : epc;
  s_l : lpc;
  s_posted : list message;
  s_taken : list message;
  s_replied : list message;
  s_lost : list message
}.
Arguments mk_sys {W}.
Arguments s_g {W}. Arguments s_w {W}. Arguments s_t {W}. Arguments s_e {W}.
Arguments s_l {W}. Arguments s_posted {W}. Arguments s_taken {W}.
Arguments s_replied {W}. Arguments s_lost {W}.

(** Does the request port exist? *)
Definition open (e : epc) : bool :=
  match e with
  | EReady | ELoop | EWait | EGet | EDispatch _ | EReply _ | EFree => true
  | _ => false
  end.

Section system.
Context {W : Type} `{!Tasks W, !TaskView W} (os : sdk) (me buf : Z).
Implicit Types (s : sys W).

(** The messages waiting at the request port. *)
Definition requests s : list message :=
  if open (s_e s) then k_queue (view (s_w s)) (g_request_port (s_g s)) else [].

Definition took (a : eact) : list message := match a with ATake x => [x] | _ => [] end.
Definition answered (a : eact) : list message := match a with AReply x => [x] | _ => [] end.
Definition dropped s : list message := match s_e s with EFree => requests s | _ => [] end.
Definition asked (l : lpc) : list message :=
  match l with TPut reply => [(buf, shutdown_req os reply)] | _ => [] end.

Inductive task_step : sys W -> sys W -> Prop :=
  | step_engine s e' g' w' a :
      engine_step (s_t s) (s_e s) (s_g s) (s_w s) = Some (e', g', w', a) ->
      task_step s (mk_sys g' w' (s_t s) e' (s_l s) (s_posted s) (s_taken s ++ took a)
        (s_replied s ++ answered a) (s_lost s ++ dropped s))
  | step_launcher s l' g' w' o :
      launcher_step os me buf (s_l s) (s_g s) (s_w s) = Some (l', g', w', o) ->
      task_step s (mk_sys g' w' (default (s_t s) o) (if o then EInit else s_e s) l'
        (s_posted s ++ asked (s_l s)) (s_taken s) (s_replied s) (s_lost s)).

(** A message of a client: not a SHUTDOWN (the client library has no such call),
    with a live reply port of another task. *)
Definition client_msg (t : Z) (v : kview) (x : message) : Prop :=
  wf_req (snd x) /\ op (snd x) <> NETSTACK_OP_SHUTDOWN /\
  let p := mn_ReplyPort (msg (snd x)) in
  p <> 0 /\ p ∈ k_ports v /\ fst (k_owner v p) <> me /\ fst (k_owner v p) <> t.

Inductive outer_step : sys W -> sys W -> Prop :=
  | step_start s rv cfg :
      s_l s = LIdle rv ->
      outer_step s (mk_sys (snd (start_call me cfg (s_g s))) (s_w s) (s_t s) (s_e s)
        (fst (start_call me cfg (s_g s))) (s_posted s) (s_taken s) (s_replied s) (s_lost s))
  | step_stop s rv :
      s_l s = LIdle rv ->
      outer_step s (mk_sys (s_g s) (s_w s) (s_t s) (s_e s) (stop_call (s_g s))
        (s_posted s) (s_taken s) (s_replied s) (s_lost s))
  | step_post s x :
      open (s_e s) = true -> client_msg (s_t s) (view (s_w s)) x ->
      outer_step s (mk_sys (s_g s) (PutMsg (g_request_port (s_g s)) x (s_w s)) (s_t s) (s_e s)
        (s_l s) (s_posted s ++ [x]) (s_taken s) (s_replied s) (s_lost s)).

Definition sys_step s s' : Prop := task_step s s' \/ outer_step s s'.

(** Boot: nothing was started. *)
Definition boot (w : W) : sys W := mk_sys engine_init w 0 ENone (LIdle 0) [] [] [] [].

Definition reachable (w : W) s : Prop := rtc sys_step (boot w) s.
End system.
