(* ===== verification/EngineInv.v ===== *)
(** * The invariant of netstack.process and its launcher

    The engine's progress through its life is abstracted to a [phase]; the
    engine's steps move from phase to phase whatever the launcher does, and
    the launcher's position constrains the phase.  Together they give the
    handshake of Start and Stop. *)

From S2P Require Import Prelude Ipc FdTable FdSpec FdRefine Engine Tasks EngineTasks.

Definition looping (e : epc) : bool :=
  match e with ELoop | EWait | EGet | EDispatch _ | EReply _ => true | _ => false end.
Definition leaving (e : epc) : bool :=
  match e with
  | ELoop | EGet | EDispatch _ | EReply _ | EFree | EStopped => true
  | _ => false
  end.
Definition booting (e : epc) : bool :=
  match e with EInit | EFail | EReady => true | _ => false end.
Definition dead (e : epc) : bool := match e with ENone | EExited => true | _ => false end.
Definition resting (e : epc) : bool :=
  match e with EReady | ELoop | EWait => true | _ => false end.

(** The message the engine works on. *)
Definition in_hand (e : epc) : list message :=
  match e with EDispatch x | EReply x => [x] | _ => [] end.

(** A life of the engine: not running; starting; serving; serving with the
    SHUTDOWN of Stop under way; serving with CTRL-C pending; on the way out. *)
Inductive phase := PDead | PBoot | PCalm | PAsked (reply : Z) | PBroken | PLeaving.

Inductive phase_next : phase -> phase -> Prop :=
  | next_same ph : phase_next ph ph
  | next_up : phase_next PBoot PCalm
  | next_fail : phase_next PBoot PDead
  | next_asked p : phase_next (PAsked p) PLeaving
  | next_broken : phase_next PBroken PLeaving
  | next_gone : phase_next PLeaving PDead.

#[export] Hint Constructors phase_next : core.

Section inv.
Context {W : Type} `{!Tasks W, !TaskView W} (me : Z) (B0 : gset Z).
Implicit Types (s : sys W).

Abbreviation vw s := (view (s_w s)).
Abbreviation rport s := (g_request_port (s_g s)).

Definition flight s : list message := in_hand (s_e s) ++ requests s.
Definition ctrl_c s : bool := Z.testbit (k_sig (vw s) (s_t s)) SIGBREAKB_CTRL_C.
Definition lsig s (i : Z) : bool := Z.testbit (k_sig (vw s) me) i.
Definition clients s : Prop := Forall (client_msg me (s_t s) (vw s)) (flight s).

Definition stop_msg (reply : Z) (x : message) : Prop :=
  wf_req (snd x) /\ op (snd x) = NETSTACK_OP_SHUTDOWN /\ mn_ReplyPort (msg (snd x)) = reply.

(** A private port of the launcher. *)
Definition own_port (p b : Z) s : Prop :=
  p <> 0 /\ p ∈ k_ports (vw s) /\ k_owner (vw s) p = (me, b).

(** What holds of the engine in every phase. *)
Record eng_ok s : Prop := {
  eo_wf : wf (g_fdtable (s_g s));
  eo_ready : g_engine_ready (s_g s) = open (s_e s);
  eo_closed : open (s_e s) = false -> rport s = 0;
  eo_port : open (s_e s) = true -> rport s <> 0 /\ rport s ∈ k_ports (vw s) /\
    fst (k_owner (vw s) (rport s)) = s_t s /\ 16 <= snd (k_owner (vw s) (rport s)) < 32;
  eo_pend : resting (s_e s) = true -> requests s <> [] ->
    Z.testbit (k_sig (vw s) (s_t s)) (snd (k_owner (vw s) (rport s))) = true;
  eo_wait : s_e s = EWait -> g_engine_shutdown (s_g s) = false;
  eo_task : dead (s_e s) = false ->
    s_t s <> 0 /\ s_t s <> me /\ s_t s ∈ k_tasks (vw s) /\ g_launcher_task (s_g s) = me;
  eo_me : me ∈ k_tasks (vw s)
}.

(** The stop message is one of those in flight; it has been dispatched exactly
    when it is being replied. *)
Definition asked_ok (reply : Z) s : Prop :=
  exists l1 x l2, flight s = l1 ++ x :: l2 /\ stop_msg reply x /\
    Forall (client_msg me (s_t s) (vw s)) (l1 ++ l2) /\
    g_engine_shutdown (s_g s) =
      match s_e s, l1 with EReply _, [] => true | _, _ => false end.

Definition in_phase (ph : phase) s : Prop :=
  match ph with
  | PDead => dead (s_e s) = true
  | PBoot => booting (s_e s) = true /\ (s_e s = EReady -> g_engine_shutdown (s_g s) = false) /\
             ctrl_c s = false /\ clients s
  | PCalm => looping (s_e s) = true /\ g_engine_shutdown (s_g s) = false /\
             ctrl_c s = false /\ clients s
  | PAsked reply => looping (s_e s) = true /\ ctrl_c s = false /\
                    k_queue (vw s) reply = [] /\ asked_ok reply s
  | PBroken => looping (s_e s) = true /\ g_engine_shutdown (s_g s) = false /\
               ctrl_c s = true /\ clients s
  | PLeaving => leaving (s_e s) = true /\
                (looping (s_e s) = true -> g_engine_shutdown (s_g s) = true) /\ clients s
  end.

(** The signal the launcher gets when the phase changes. *)
Definition sent s (ph ph' : phase) (i : Z) : bool :=
  match ph, ph' with
  | PBoot, PCalm | PBoot, PDead => Z.testbit (g_launcher_ready_mask (s_g s)) i
  | PLeaving, PDead => Z.testbit (g_launcher_stopped_mask (s_g s)) i
  | _, _ => false
  end.

(** What a step of the engine from phase [ph] to phase [ph'] does. *)
Record moves (ph ph' : phase) s s' : Prop := {
  mv_ok : eng_ok s';
  mv_phase : in_phase ph' s';
  mv_next : phase_next ph ph';
  mv_task : s_t s' = s_t s /\ g_engine_task (s_g s') = g_engine_task (s_g s);
  mv_launcher : g_launcher_task (s_g s') = g_launcher_task (s_g s) /\
    g_launcher_ready_mask (s_g s') = g_launcher_ready_mask (s_g s) /\
    g_launcher_stopped_mask (s_g s') = g_launcher_stopped_mask (s_g s);
  mv_bits : k_bits (vw s') me = k_bits (vw s) me;
  mv_own : forall p b, own_port p b s -> own_port p b s';
  mv_queue : forall p b, own_port p b s ->
    (ph = PAsked p /\ ph' = PLeaving /\ k_queue (vw s') p <> []) \/
    (~ (ph = PAsked p /\ ph' = PLeaving) /\ k_queue (vw s') p = k_queue (vw s) p);
  mv_sig : forall i, (forall p, ph = PAsked p -> i <> snd (k_owner (vw s) p)) ->
    lsig s' i = lsig s i || sent s ph ph' i
}.

(** ** The launcher *)

Definition held (rb sb : Z) (X : gset Z) s : Prop :=
  g_launcher_task (s_g s) = me /\
  g_launcher_ready_mask (s_g s) = Z.shiftl 1 rb /\
  g_launcher_stopped_mask (s_g s) = Z.shiftl 1 sb /\
  16 <= rb < 32 /\ 16 <= sb < 32 /\ rb <> sb /\ ({[rb; sb]} ∪ X) ## B0 /\
  {[rb; sb]} ## X /\ k_bits (vw s) me = {[rb; sb]} ∪ X ∪ B0.

Definition launch_ok (ph : phase) s : Prop :=
  match s_l s with
  | LIdle _ =>
    (g_engine_task (s_g s) = 0 /\ ph = PDead /\ k_bits (vw s) me = B0) \/
    (g_engine_task (s_g s) = s_t s /\ ph = PCalm /\
     exists rb sb, held rb sb ∅ s /\ lsig s sb = false)
  | SAlloc1 _ => ph = PDead /\ g_launcher_task (s_g s) = me /\ g_engine_task (s_g s) = 0 /\
                 k_bits (vw s) me = B0
  | SAlloc2 _ rb =>
    ph = PDead /\ g_launcher_task (s_g s) = me /\ g_engine_task (s_g s) = 0 /\
    ((rb = -1 /\ k_bits (vw s) me = B0) \/
     (16 <= rb < 32 /\ rb ∉ B0 /\ k_bits (vw s) me = {[rb]} ∪ B0 /\ lsig s rb = false))
  | SCreate _ rb sb =>
    ph = PDead /\ g_engine_task (s_g s) = 0 /\ held rb sb ∅ s /\ lsig s rb = false /\
    lsig s sb = false
  | SWait rb sb =>
    g_engine_task (s_g s) = s_t s /\ held rb sb ∅ s /\ lsig s sb = false /\
    ((ph = PBoot /\ lsig s rb = false) \/ ((ph = PCalm \/ ph = PDead) /\ lsig s rb = true))
  | TAlloc | TBreak =>
    g_engine_task (s_g s) = s_t s /\ ph = PCalm /\
    exists rb sb, held rb sb ∅ s /\ lsig s sb = false
  | TPut reply =>
    g_engine_task (s_g s) = s_t s /\ ph = PCalm /\
    exists rb sb b, held rb sb {[b]} s /\ lsig s sb = false /\ own_port reply b s /\
      k_queue (vw s) reply = []
  | TReply reply =>
    g_engine_task (s_g s) = s_t s /\
    exists rb sb b, held rb sb {[b]} s /\ own_port reply b s /\
      ((ph = PAsked reply /\ lsig s sb = false) \/
       (k_queue (vw s) reply <> [] /\
        ((ph = PLeaving /\ lsig s sb = false) \/ (ph = PDead /\ lsig s sb = true))))
  | TWait =>
    g_engine_task (s_g s) = s_t s /\
    exists rb sb, held rb sb ∅ s /\
      (((ph = PBroken \/ ph = PLeaving) /\ lsig s sb = false) \/ (ph = PDead /\ lsig s sb = true))
  end.

Definition inv s : Prop := eng_ok s /\ exists ph, in_phase ph s /\ launch_ok ph s.
End inv.
