(* ===== verification/EngineMoves.v ===== *)
(** * Steps of the engine

    Each step of [engine_process_main] keeps the engine's invariant and
    moves along the phases, with the signals and replies the launcher
    relies on.  One lemma per position in the function. *)

From S2P Require Import Prelude Ipc FdTable FdSpec FdRefine Engine Tasks EngineTasks.
From S2P Require Import EngineInv.

(** ** Dispatching *)

(** What a request changes of the globals besides the table. *)
Lemma serves_globals r g r' g' :
  serves r g r' g' ->
  g' = set_shutdown ((op r =? NETSTACK_OP_SHUTDOWN) || g_engine_shutdown g)
         (set_fds (g_fdtable g') g).
Proof.
  intros (_ & _ & _ & _ & Hs). destruct (decode_op r) as [o|] eqn:Ho.
  - destruct Hs as [_ ->]. unfold decode_op in Ho. cbv zeta in Ho.
    destruct (Z.eqb_spec (op r) NETSTACK_OP_SHUTDOWN) as [He|_]; [|done].
    rewrite He in Ho. done.
  - unfold plain_reply in Hs. destruct (Z.eqb_spec (op r) NETSTACK_OP_PING) as [He|_].
    + rewrite He. destruct Hs as (_ & _ & _ & ->). by destruct g.
    + destruct (op r =? NETSTACK_OP_SHUTDOWN); destruct Hs as (_ & _ & ->); by destruct g.
Qed.

(** The result depends on the table only. *)
Lemma dispatch_frame r g g0 r' g' :
  g_fdtable g0 = g_fdtable g -> dispatch_request r g = Some (r', g') ->
  exists g0', dispatch_request r g0 = Some (r', g0') /\ g_fdtable g0' = g_fdtable g'.
Proof.
  intros Hf. unfold dispatch_request, dispatch_ping, dispatch_shutdown, on_fds,
    mbind, M_bind, mret, M_ret, getM, putM. cbv zeta.
  repeat match goal with |- context [if ?b then _ else _] => destruct b end;
    cbv beta; rewrite ?Hf; repeat case_match; intros; simplify_eq; eauto.
Qed.

(** The state after a step of the engine. *)
Definition after {W} `{!TaskView W} (s : sys W) (e' : epc) (g' : engine) (w' : W) (a : eact) : sys W :=
  mk_sys g' w' (s_t s) e' (s_l s) (s_posted s) (s_taken s ++ took a)
    (s_replied s ++ answered a) (s_lost s ++ dropped s).

(** Compute positions and fields of a state, not the predicates over it. *)
Ltac sc :=
  cbn [s_e s_g s_w s_t s_l after in_phase looping leaving booting dead open in_hand resting
    g_fdtable g_engine_task g_launcher_task g_launcher_ready_mask g_launcher_stopped_mask
    g_engine_ready g_engine_shutdown g_request_port set_request_port set_ready set_shutdown
    set_fds] in *.

(** Phases in which the engine can be at a given position. *)
Ltac phases Hph Hpc :=
  match type of Hph with
  | in_phase _ ?ph ?s =>
    destruct ph; sc; rewrite Hpc in Hph; sc;
    try (exfalso; intuition (congruence || discriminate))
  end.

Section moves.
Context {W : Type} `{TaskLaws W} (me : Z).
Implicit Types (s : sys W).

Abbreviation vw s := (view (s_w s)).
Abbreviation rport s := (g_request_port (s_g s)).

(** A step after which the launcher's part of the view is as before. *)
Lemma moves_quiet ph ph' s s' :
  eng_ok me s' -> in_phase me ph' s' -> phase_next ph ph' ->
  (forall i, sent s ph ph' i = false) -> (forall p, ~ (ph = PAsked p /\ ph' = PLeaving)) ->
  s_t s' = s_t s -> g_engine_task (s_g s') = g_engine_task (s_g s) ->
  g_launcher_task (s_g s') = g_launcher_task (s_g s) ->
  g_launcher_ready_mask (s_g s') = g_launcher_ready_mask (s_g s) ->
  g_launcher_stopped_mask (s_g s') = g_launcher_stopped_mask (s_g s) ->
  k_sig (vw s') me = k_sig (vw s) me -> k_bits (vw s') me = k_bits (vw s) me ->
  (forall p b, own_port me p b s -> own_port me p b s') ->
  (forall p b, own_port me p b s -> k_queue (vw s') p = k_queue (vw s) p) ->
  moves me ph ph' s s'.
Proof.
  intros Hok Hph Hn Hs Hna ? ? ? ? ? Hsig Hbits Hown Hq. split; try done.
  - intros p b Hp. right. split; [apply Hna|by eapply Hq].
  - intros i _. unfold lsig. by rewrite Hsig, Hs, orb_false_r.
Qed.

Lemma client_msg_ext t v v' x :
  k_ports v' = k_ports v -> k_owner v' = k_owner v ->
  client_msg me t v x -> client_msg me t v' x.
Proof. intros Hp Ho. unfold client_msg. by rewrite Hp, Ho. Qed.

Lemma clients_ext s s' :
  s_t s' = s_t s -> k_ports (vw s') = k_ports (vw s) -> k_owner (vw s') = k_owner (vw s) ->
  (forall x, x ∈ flight s' -> x ∈ flight s) -> clients me s -> clients me s'.
Proof.
  intros Ht Hp Ho Hf. unfold clients. rewrite !Forall_forall, Ht. intros Hc x Hx.
  eapply client_msg_ext; eauto.
Qed.

(** A message that only a phase with messages can hold. *)
Lemma own_not_request p b s :
  eng_ok me s -> open (s_e s) = true -> own_port me p b s -> p <> rport s.
Proof.
  intros He Ho (_ & _ & Hown) ->. destruct (eo_port _ _ He Ho) as (_ & _ & Hf & _).
  rewrite Hown in Hf. cbn in Hf.
  destruct (eo_task _ _ He) as (_ & Hne & _); [by destruct (s_e s)|]. congruence.
Qed.

Definition replying (e : epc) : bool := match e with EReply _ => true | _ => false end.

(** A step inside the loop that neither dispatches nor replies. *)
Lemma keep_phase ph s s' :
  in_phase me ph s -> looping (s_e s) = true -> looping (s_e s') = true ->
  replying (s_e s) = false -> replying (s_e s') = false ->
  (ph = PLeaving -> leaving (s_e s') = true) ->
  s_t s' = s_t s -> flight s' = flight s -> k_ports (vw s') = k_ports (vw s) ->
  k_owner (vw s') = k_owner (vw s) -> ctrl_c s' = ctrl_c s ->
  g_engine_shutdown (s_g s') = g_engine_shutdown (s_g s) ->
  (forall p, ph = PAsked p -> k_queue (vw s') p = k_queue (vw s) p) ->
  in_phase me ph s'.
Proof.
  intros Hph Hl Hl' Hr Hr' Hlv Ht Hf Hp Ho Hc Hs Hq.
  assert (Hcl : clients me s -> clients me s') by (apply clients_ext; try done; by rewrite Hf).
  assert (Hrep : forall A (a b : A) (l : list message),
    match s_e s, l with EReply _, [] => a | _, _ => b end =
    match s_e s', l with EReply _, [] => a | _, _ => b end).
  { intros. destruct (s_e s), (s_e s'); done. }
  destruct ph; sc; rewrite ?Hc, ?Hs.
  - by destruct (s_e s).
  - destruct Hph as [Hb _]. by destruct (s_e s).
  - tauto.
  - destruct Hph as (_ & Hcc & Hqq & l1 & x & l2 & Hfl & Hst & Hall & Hsh).
    split_and!; [done|done|by rewrite Hq|]. exists l1, x, l2. rewrite Hf, Ht, Hs, <- Hrep.
    split_and!; try done. eapply Forall_impl; [exact Hall|].
    intros y Hy. by eapply client_msg_ext.
  - tauto.
  - destruct Hph as (_ & Hsh & Hc0). split_and!; [by apply Hlv|by rewrite Hsh|auto].
Qed.

(** The phases of a looping engine. *)
Lemma looping_sent ph s i : sent s ph ph i = false.
Proof. by destruct ph. Qed.

Lemma asked_not_left ph p : ~ (ph = PAsked p /\ ph = PLeaving).
Proof. intros [-> ?]. done. Qed.

Lemma move_loop s ph :
  eng_ok me s -> in_phase me ph s -> s_e s = ELoop ->
  exists ph', moves me ph ph' s
    (after s (if g_engine_shutdown (s_g s) then EFree else EWait) (s_g s) (s_w s) ANone).
Proof.
  intros He Hph Hpc. pose proof He as [Ewf Erd Ecl Ept Epd Ewt Etk Eme].
  assert (Hr : forall s2, s_g s2 = s_g s -> s_w s2 = s_w s -> open (s_e s2) = true ->
    in_hand (s_e s2) = [] -> flight s2 = flight s).
  { intros s2 Hg Hw Ho Hi. unfold flight, requests. by rewrite Hg, Hw, Ho, Hi, Hpc. }
  exists ph. apply moves_quiet; auto using looping_sent, asked_not_left; rewrite Hpc in *; sc.
  - split; sc; try done; intros; destruct (g_engine_shutdown (s_g s)); try done; auto.
    unfold requests in *. rewrite Hpc in *. auto.
  - destruct (g_engine_shutdown (s_g s)) eqn:Hsh.
    + phases Hph Hpc; [destruct Hph as (_ & _ & _ & ? & ? & ? & _ & _ & _ & Hs);
        rewrite Hpc in Hs; congruence|].
      split_and!; try done. unfold clients. rewrite Hr by done. apply Hph.
    + apply (keep_phase ph s); sc; rewrite ?Hpc; try done; [|by apply Hr].
      intros ->. destruct Hph as (_ & Hs & _). rewrite Hpc in Hs. rewrite Hs in Hsh by done. done.
Qed.

Lemma move_wait s ph got w' :
  eng_ok me s -> in_phase me ph s -> s_e s = EWait ->
  let port_sig := Z.shiftl 1 (mp_SigBit (rport s) (s_w s)) in
  Wait (s_t s) (Z.lor port_sig SIGBREAKF_CTRL_C) (s_w s) = Some (got, w') ->
  exists ph', moves me ph ph' s
    (after s (if negb (Z.land got SIGBREAKF_CTRL_C =? 0) then EFree
              else if negb (Z.land got port_sig =? 0) then EGet else ELoop) (s_g s) w' ANone).
Proof.
  intros He Hph Hpc port_sig Hw. pose proof He as [Ewf Erd Ecl Ept Epd Ewt Etk Eme].
  rewrite Hpc in Ept, Etk, Epd, Erd. sc. destruct (Ept eq_refl) as (Hp0 & Hpp & Hpo & Hpb).
  destruct (Etk eq_refl) as (_ & Hme & _ & _). specialize (Ewt Hpc).
  assert (Hblk : Wait (s_t s) (Z.lor port_sig SIGBREAKF_CTRL_C) (s_w s) <> None) by (by rewrite Hw).
  rewrite wait_blocked in Hblk. destruct (wait_law _ _ _ _ _ Hw) as [Hgot Hv].
  unfold port_sig in *. rewrite sig_bit_law in *. set (pb := snd (k_owner (vw s) (rport s))) in *.
  change SIGBREAKF_CTRL_C with (Z.shiftl 1 SIGBREAKB_CTRL_C) in *.
  assert (Hbit : forall b, (b = pb \/ b = SIGBREAKB_CTRL_C) ->
    Z.land got (Z.shiftl 1 b) =? 0 = negb (Z.testbit (k_sig (vw s) (s_t s)) b)).
  { intros b Hb. assert (0 <= b) by (unfold SIGBREAKB_CTRL_C in *; lia).
    assert (Z.testbit got b = Z.testbit (k_sig (vw s) (s_t s)) b) as <-.
    { rewrite Hgot, Z.land_spec, Z.lor_spec, !testbit_shiftl1 by (unfold SIGBREAKB_CTRL_C; lia).
      destruct Hb as [-> | ->]; repeat case_bool_decide; try done; cbn; by rewrite andb_true_r. }
    destruct (Z.eqb_spec (Z.land got (Z.shiftl 1 b)) 0) as [Hz|Hz]; rewrite land_bit in Hz by done.
    - by rewrite Hz. - by destruct (Z.testbit got b). }
  rewrite !Hbit, !negb_involutive by auto.
  assert (Hown : forall p b e', own_port me p b s -> own_port me p b (after s e' (s_g s) w' ANone)).
  { intros p b e' Hp. unfold own_port in *. sc. rewrite Hv. kv. done. }
  destruct (Z.testbit (k_sig (vw s) (s_t s)) SIGBREAKB_CTRL_C) eqn:Hcc.
  - assert (ph = PBroken) as ->.
    { phases Hph Hpc; try done; unfold ctrl_c in Hph; rewrite Hcc in Hph; intuition congruence. }
    exists PLeaving. apply moves_quiet; sc; rewrite ?Hv; kv; auto; try (by intros ? [? ?]).
    + split; sc; rewrite ?Hv; kv; done.
    + split_and!; try done. destruct Hph as (_ & _ & _ & Hcl). revert Hcl.
      apply clients_ext; sc; rewrite ?Hv; kv; try done.
      unfold flight, requests. sc. rewrite Hv, Hpc. by kv.
  - assert (Hpb1 : Z.testbit (k_sig (vw s) (s_t s)) pb = true).
    { destruct (Z.testbit _ pb) eqn:Hz; [done|]. exfalso. apply Hblk.
      rewrite Z.land_lor_distr_r, (proj2 (land_bit _ pb ltac:(lia)) Hz).
      by rewrite (proj2 (land_bit _ SIGBREAKB_CTRL_C ltac:(done)) Hcc). }
    rewrite Hpb1. exists ph.
    apply moves_quiet; sc; rewrite ?Hv; kv; auto using looping_sent, asked_not_left.
    + split; sc; rewrite ?Hv; kv; done.
    + apply (keep_phase ph s); unfold ctrl_c, flight, requests; sc; rewrite ?Hv, ?Hpc; kv; try done.
      rewrite Hcc, Z.ldiff_spec, Hcc. done.
Qed.

(** The port of a stop request under way. *)
Definition asker ph s : Prop := forall p, ph = PAsked p -> exists b, own_port me p b s.

Lemma move_get s ph o w' :
  eng_ok me s -> in_phase me ph s -> asker ph s -> s_e s = EGet ->
  GetMsg (rport s) (s_w s) = (o, w') ->
  moves me ph ph s
    match o with
    | Some x => after s (EDispatch x) (s_g s) w' (ATake x)
    | None => after s ELoop (s_g s) w' ANone
    end.
Proof.
  intros He Hph Hask Hpc Hw. pose proof He as [Ewf Erd Ecl Ept Epd Ewt Etk Eme].
  rewrite Hpc in Ept, Etk, Epd, Erd. sc. destruct (Ept eq_refl) as (Hp0 & Hpp & Hpo & Hpb).
  pose proof (get_law (rport s) (s_w s)) as Hg. rewrite Hw in Hg. destruct Hg as [Ho Hv].
  assert (Hq : forall p b, own_port me p b s -> k_queue (view w') p = k_queue (vw s) p).
  { intros p b Hp. rewrite Hv. kv.
    rewrite fn_lookup_insert_ne; [done|]. intros Heq. symmetry in Heq. revert Heq.
    eapply own_not_request; eauto. by rewrite Hpc. }
  assert (Hown : forall p b s', s_w s' = w' -> own_port me p b s -> own_port me p b s').
  { intros p b s' Hs' Hp. unfold own_port in *. rewrite Hs', Hv. kv. done. }
  assert (Hqa : forall p, ph = PAsked p -> k_queue (view w') p = k_queue (vw s) p).
  { intros p Hp. destruct (Hask p Hp) as [b Hb]. eauto. }
  destruct (k_queue (vw s) (rport s)) as [|y q] eqn:Hqr; cbn [head tail] in *; subst o;
    apply moves_quiet; sc; rewrite ?Hv; eauto using looping_sent, asked_not_left;
    try (rewrite <- Hv; eauto).
  - split; sc; rewrite ?Hv; kv; try done. unfold requests. sc. rewrite Hv. by kv.
  - apply (keep_phase ph s); unfold ctrl_c, flight, requests; sc; rewrite ?Hpc; try done;
      try (rewrite Hv; by kv).
  - split; sc; rewrite ?Hv; kv; done.
  - apply (keep_phase ph s); unfold ctrl_c, flight, requests; sc; rewrite ?Hpc; try done;
      try (rewrite Hv; by kv).
Qed.

(** Every message in flight is well formed. *)
Lemma flight_wf ph s x :
  in_phase me ph s -> dead (s_e s) = false -> x ∈ flight s -> wf_req (snd x).
Proof.
  intros Hph Hd Hx.
  assert (Hc : clients me s -> wf_req (snd x)).
  { intros Hc. unfold clients in Hc. rewrite Forall_forall in Hc. by apply Hc. }
  destruct ph; sc; try (by apply Hc, Hph); [congruence|].
  destruct Hph as (_ & _ & _ & l1 & y & l2 & Hf & Hst & Hall & _).
  rewrite Hf, elem_of_app, elem_of_cons in Hx. rewrite Forall_forall in Hall.
  destruct Hx as [Hx|[->|Hx]]; [|by apply Hst|]; apply Hall, elem_of_app; auto.
Qed.

Lemma client_msg_served t v a r r' :
  wf_req r' -> op r' = op r -> msg r' = msg r -> client_msg me t v (a, r) -> client_msg me t v (a, r').
Proof. intros Hw Ho Hm. unfold client_msg. cbn. rewrite Ho, Hm. tauto. Qed.

Lemma move_dispatch s ph a r r' g' :
  eng_ok me s -> in_phase me ph s -> s_e s = EDispatch (a, r) ->
  serves r (s_g s) r' g' ->
  moves me ph ph s (after s (EReply (a, r')) g' (s_w s) ANone).
Proof.
  intros He Hph Hpc Hs. pose proof He as [Ewf Erd Ecl Ept Epd Ewt Etk Eme].
  rewrite Hpc in Ept, Etk, Epd, Erd. pose proof (serves_globals _ _ _ _ Hs) as Hg.
  destruct Hs as (Hwf' & Hwr & Hop & Hm & _).
  generalize dependent (g_fdtable g'). intros t' Hg Hwf'. subst g'.
  set (g' := set_shutdown _ _) in *.
  assert (Hfl : flight s = (a, r) :: requests s) by (unfold flight; by rewrite Hpc).
  assert (Hfl' : forall s', s' = after s (EReply (a, r')) g' (s_w s) ANone ->
    flight s' = (a, r') :: requests s).
  { intros s' ->. unfold flight, requests. sc. by rewrite Hpc. }
  assert (Hcl : clients me s -> op r <> NETSTACK_OP_SHUTDOWN /\
    clients me (after s (EReply (a, r')) g' (s_w s) ANone)).
  { unfold clients. rewrite Hfl, (Hfl' _ eq_refl), !Forall_cons. intros [Hc Hall].
    split; [apply Hc|]. split; [by eapply client_msg_served|done]. }
  apply moves_quiet; auto using looping_sent, asked_not_left.
  - split; unfold g'; sc; auto; done.
  - phases Hph Hpc; sc.
    + destruct Hph as (_ & Hsh & Hc & Hc0). destruct (Hcl Hc0) as [Hno Hc1].
      split_and!; [done| |done|done].
      unfold g'. sc. by rewrite (proj2 (Z.eqb_neq _ _) Hno), Hsh.
    + destruct Hph as (_ & Hc & Hq & l1 & x & l2 & Hf & Hst & Hall & Hsh).
      split_and!; [done|done|done|]. unfold asked_ok. rewrite (Hfl' _ eq_refl). sc.
      rewrite Hpc in Hsh. rewrite Hfl in Hf. destruct l1 as [|y l1]; injection Hf as <- ->.
      * exists [], (a, r'), l2. split_and!; [done| |done|].
        -- destruct Hst as (_ & Ho2 & Hm2). unfold stop_msg. cbn. by rewrite Hop, Hm.
        -- unfold g'. sc. destruct Hst as (_ & Ho2 & _). cbn in Ho2. by rewrite Ho2.
      * exists ((a, r') :: l1), x, l2. inversion Hall as [|? ? Hc1 Hall']; subst.
        split_and!; [done|done| |].
        -- constructor; [by eapply client_msg_served|done].
        -- unfold g'. sc. destruct Hc1 as (_ & Hno & _). cbn in Hno.
           by rewrite (proj2 (Z.eqb_neq _ _) Hno), Hsh.
    + destruct Hph as (_ & Hsh & Hc & Hc0). destruct (Hcl Hc0) as [Hno Hc1].
      split_and!; [done| |done|done].
      unfold g'. sc. by rewrite (proj2 (Z.eqb_neq _ _) Hno), Hsh.
    + destruct Hph as (_ & Hsh & Hc0). destruct (Hcl Hc0) as [Hno Hc1].
      split_and!; [done| |done].
      intros _. unfold g'. sc. by rewrite Hsh, orb_true_r by done.
Qed.

(** Replying to a client concerns neither the engine's nor the launcher's task. *)
Lemma reply_client s x :
  client_msg me (s_t s) (vw s) x ->
  let v' := view (ReplyMsg x (s_w s)) in
  k_sig v' me = k_sig (vw s) me /\ k_sig v' (s_t s) = k_sig (vw s) (s_t s) /\
  k_bits v' = k_bits (vw s) /\ k_ports v' = k_ports (vw s) /\ k_owner v' = k_owner (vw s) /\
  k_tasks v' = k_tasks (vw s) /\
  forall p, fst (k_owner (vw s) p) = me \/ fst (k_owner (vw s) p) = s_t s ->
    k_queue v' p = k_queue (vw s) p.
Proof.
  intros (_ & _ & Hp0 & _ & Hne & Hnt). cbv zeta. rewrite reply_law.
  destruct (Z.eqb_spec (mn_ReplyPort (msg (snd x))) 0) as [?|_]; [done|]. kv.
  split_and!; try done. intros p Hp. rewrite fn_lookup_insert_ne; [done|].
  intros <-. destruct Hp; congruence.
Qed.

Lemma move_reply_client s ph x :
  eng_ok me s -> in_phase me ph s -> asker ph s -> s_e s = EReply x ->
  client_msg me (s_t s) (vw s) x ->
  moves me ph ph s (after s EGet (s_g s) (ReplyMsg x (s_w s)) (AReply x)).
Proof.
  intros He Hph Hask Hpc Hx. pose proof He as [Ewf Erd Ecl Ept Epd Ewt Etk Eme].
  rewrite Hpc in Ept, Etk, Epd, Erd. destruct (Ept eq_refl) as (_ & _ & Hpo & _).
  destruct (reply_client s x Hx) as (Vs & Vt & Vb & Vp & Vo & Vk & Vq).
  set (w' := ReplyMsg x (s_w s)) in *. set (s' := after s EGet (s_g s) w' (AReply x)).
  assert (Hfl : flight s = x :: requests s) by (unfold flight; by rewrite Hpc).
  assert (Hfl' : flight s' = requests s).
  { unfold flight, requests, s'. sc. rewrite Hpc. cbn [app]. apply Vq. by right. }
  assert (Hcl : clients me s -> clients me s').
  { apply clients_ext; try done. rewrite Hfl, Hfl'. intros y Hy. by right. }
  apply moves_quiet; auto using looping_sent, asked_not_left.
  - split; unfold s'; sc; try done; intros; rewrite ?Vp, ?Vo, ?Vk; auto.
  - phases Hph Hpc; sc; unfold ctrl_c in *; change (s_t s') with (s_t s);
      change (s_w s') with w'; change (s_g s') with (s_g s); change (s_e s') with EGet; sc;
      rewrite ?Vt.
    + destruct Hph as (_ & Hsh & Hc & Hc0). auto.
    + destruct Hph as (_ & Hc & Hq & l1 & y & l2 & Hf & Hst & Hall & Hsh).
      destruct (Hask _ eq_refl) as (b & _ & _ & Hb).
      split_and!; [done|done|rewrite Vq; [done|left; by rewrite Hb]|].
      unfold asked_ok. rewrite Hfl'. sc. rewrite Hfl in Hf. destruct l1 as [|z l1]; injection Hf as -> ->.
      { destruct Hx as (_ & Hno & _), Hst as (_ & Ho & _). done. }
      exists l1, y, l2. inversion Hall as [|? ? _ Hall']; subst. rewrite Hpc in Hsh.
      split_and!; try done. eapply Forall_impl; [exact Hall'|].
      intros u Hu. by eapply client_msg_ext.
    + destruct Hph as (_ & Hsh & Hc & Hc0). auto.
    + destruct Hph as (_ & Hsh & Hc0). auto.
  - unfold s'. sc. by rewrite Vb.
  - intros p b (? & ? & ?). unfold own_port, s'. sc. by rewrite Vp, Vo.
  - intros p b (? & ? & Hb). unfold s'. sc. apply Vq. left. by rewrite Hb.
Qed.

(** The reply to Stop's request: the launcher finds it at its port, and nothing
    but clients' messages is left. *)
Lemma move_reply_stop s p b x l2 :
  eng_ok me s -> own_port me p b s -> s_e s = EReply x -> stop_msg p x ->
  k_queue (vw s) p = [] -> g_engine_shutdown (s_g s) = true ->
  flight s = x :: l2 -> Forall (client_msg me (s_t s) (vw s)) l2 ->
  moves me (PAsked p) PLeaving s (after s EGet (s_g s) (ReplyMsg x (s_w s)) (AReply x)).
Proof.
  intros He Hb Hpc (_ & _ & Hm) Hq Hsh Hf Hall. pose proof He as [Ewf Erd Ecl Ept Epd Ewt Etk Eme].
  rewrite Hpc in Ept, Etk, Epd, Erd. destruct (Ept eq_refl) as (_ & _ & Hpo & _).
  destruct (Etk eq_refl) as (_ & Hme & _). pose proof Hb as (Hp0 & Hpp & Hbo).
  pose proof (own_not_request p b s He ltac:(by rewrite Hpc) Hb) as Hpr.
  pose proof (reply_law x (s_w s)) as Hv. rewrite Hm in Hv.
  destruct (Z.eqb_spec p 0) as [?|_]; [done|]. set (w' := ReplyMsg x (s_w s)) in *.
  set (s' := after s EGet (s_g s) w' (AReply x)).
  assert (Hfl' : flight s' = requests s).
  { unfold flight, requests, s'. sc. rewrite Hpc, Hv. cbn [app open]. by kv. }
  assert (Hcl : clients me s').
  { unfold clients. rewrite Hfl'. unfold flight in Hf. rewrite Hpc in Hf. injection Hf as ->.
    eapply Forall_impl; [exact Hall|]. intros y Hy.
    eapply client_msg_ext; [| |exact Hy]; unfold s'; sc; rewrite Hv; by kv. }
  split; try done.
  - split; unfold s'; sc; try done; rewrite ?Hv; kv; auto.
  - unfold s'. sc. rewrite Hv. by kv.
  - intros q c (? & ? & ?). unfold own_port, s'. sc. rewrite Hv. by kv.
  - intros q c (? & ? & ?). unfold s'. sc. rewrite Hv. kv. destruct (decide (q = p)) as [->|Hne].
    + left. rewrite fn_lookup_insert. split_and!; try done. by destruct (k_queue _ p).
    + right. rewrite fn_lookup_insert_ne by done. split; [|done]. intros [[= ->] _]. done.
  - intros i Hi. unfold lsig, s'. sc. rewrite Hv. kv. rewrite Hbo. cbn [fst snd]. kv.
    rewrite Z.lor_spec. cbn [sent]. f_equal. specialize (Hi p eq_refl). rewrite Hbo in Hi. cbn in Hi.
    by apply shiftl1_other.
Qed.

Lemma clients_nil s : flight s = [] -> clients me s.
Proof. intros Hf. unfold clients. by rewrite Hf. Qed.

Lemma move_init s ph p w' :
  eng_ok me s -> in_phase me ph s -> s_e s = EInit -> AllocSysPort (s_t s) true (s_w s) = (p, w') ->
  moves me ph ph s
    (if p =? 0 then after s EFail (set_request_port p (s_g s)) w' ANone
     else after s EReady (set_shutdown false (set_ready true (set_request_port p (s_g s)))) w' ANone).
Proof.
  intros He Hph Hpc Hw. pose proof He as [Ewf Erd Ecl Ept Epd Ewt Etk Eme].
  rewrite Hpc in Ecl, Etk, Erd. sc. destruct (Etk eq_refl) as (_ & Hme & _).
  pose proof (alloc_port_law (s_t s) true (s_w s)) as Hv. rewrite Hw in Hv.
  assert (ph = PBoot) as -> by (phases Hph Hpc; done). destruct Hph as (_ & _ & Hc & _).
  destruct Hv as [(-> & Hv)|(Hp0 & Hfr & b & (Hb & Hbf) & Hv)].
  - cbn [Z.eqb]. apply moves_quiet; try done; sc; rewrite ?Hv; try done; [split|split_and!|..]; sc;
      rewrite ?Hv; try done.
    + unfold ctrl_c in *. sc. by rewrite Hv.
    + by apply clients_nil.
    + by intros ? [? ?].
    + intros q c Hq. unfold own_port in *. sc. by rewrite Hv.
  - rewrite (proj2 (Z.eqb_neq _ _) Hp0).
    assert (Hfl : forall s', s_e s' = EReady -> rport s' = p -> s_w s' = w' -> flight s' = []).
    { intros s' H1' H2' H3'. unfold flight, requests. rewrite H1', H2', H3', Hv. cbn [in_hand app open].
      by kv. }
    apply moves_quiet; try done; sc; rewrite ?Hv; kv; try done; [split|split_and!|..]; sc;
      rewrite ?Hv; kv; try done.
    + intros _. split_and!; try done; cbn; try lia. set_solver.
    + intros _ Hr. exfalso. apply Hr. unfold requests. sc. rewrite Hv. by kv.
    + unfold ctrl_c in *. sc. rewrite Hv. kv. rewrite Z.ldiff_spec. by rewrite Hc.
    + apply clients_nil. by apply Hfl.
    + by intros ? [? ?].
    + intros q c (Hq0 & Hq1 & Hq2). unfold own_port. sc. rewrite Hv. kv.
      assert (q <> p) by (intros ->; done). kv. split_and!; try done. set_solver.
    + intros q c (Hq0 & Hq1 & Hq2). assert (q <> p) by (intros ->; done). by kv.
Qed.

(** The three signals the engine sends. *)
Lemma raised_sig t m v i :
  Z.testbit (k_sig (kv_raise t m v) t) i = Z.testbit (k_sig v t) i || Z.testbit m i.
Proof. kv. apply Z.lor_spec. Qed.

Lemma move_ready s ph :
  eng_ok me s -> in_phase me ph s -> s_e s = EReady ->
  moves me ph PCalm s (after s ELoop (s_g s)
    (Signal (g_launcher_task (s_g s)) (g_launcher_ready_mask (s_g s)) (s_w s)) ANone) /\ ph = PBoot.
Proof.
  intros He Hph Hpc. pose proof He as [Ewf Erd Ecl Ept Epd Ewt Etk Eme].
  rewrite Hpc in Ecl, Etk, Erd, Ept, Epd. sc. destruct (Etk eq_refl) as (_ & Hme & _ & Hl).
  pose proof (signal_law me (g_launcher_ready_mask (s_g s)) (s_w s)) as Hv. rewrite Hl.
  set (w' := Signal _ _ _) in *.
  assert (ph = PBoot) as -> by (phases Hph Hpc; done). destruct Hph as (_ & Hsh & Hc & Hcl).
  split; [|done]. split; try done; sc; rewrite ?Hv; try done.
  - split; sc; rewrite ?Hv; try done; unfold requests in *; sc; rewrite ?Hv, ?Hpc in *; by kv.
  - split_and!; [done|by apply Hsh|unfold ctrl_c in *; sc; rewrite Hv; by kv|].
    revert Hcl. apply clients_ext; sc; rewrite ?Hv; try done. unfold flight, requests. sc.
    rewrite Hpc, Hv. by kv.
  - intros q c Hq. unfold own_port in *. sc. by rewrite Hv.
  - intros q c Hq. right. split; [by intros [? ?]|done].
  - intros i _. unfold lsig. sc. rewrite Hv. apply raised_sig.
Qed.

(** The engine's last step: it signals [m] and is gone. *)
Lemma move_exit s ph m :
  eng_ok me s -> open (s_e s) = false -> dead (s_e s) = false -> phase_next ph PDead ->
  (forall i, sent s ph PDead i = Z.testbit m i) ->
  moves me ph PDead s (after s EExited (s_g s)
    (ExitTask (s_t s) (Signal (g_launcher_task (s_g s)) m (s_w s))) ANone).
Proof.
  intros He Hop Hd Hn Hm. pose proof He as [Ewf Erd Ecl Ept Epd Ewt Etk Eme].
  destruct (Etk Hd) as (_ & Hme & _ & Hl). rewrite Hl.
  pose proof (exit_law (s_t s) (Signal me m (s_w s))) as Hv. rewrite signal_law in Hv.
  set (w' := ExitTask _ _) in *. rewrite Hop in Erd.
  split; try done; sc; rewrite ?Hv; try done.
  - split; sc; rewrite ?Hv; kv; try done; [by intros; apply Ecl|set_solver].
  - intros q c Hq. unfold own_port in *. sc. by rewrite Hv.
  - intros q c Hq. right. split; [by intros [? ?]|done].
  - intros i _. unfold lsig. sc. rewrite Hv, Hm. apply raised_sig.
Qed.

Lemma move_free s ph :
  eng_ok me s -> in_phase me ph s -> s_e s = EFree ->
  moves me ph ph s (after s EStopped (set_ready false (set_request_port 0 (s_g s)))
    (FreeSysPort (rport s) (s_w s)) ANone).
Proof.
  intros He Hph Hpc. pose proof He as [Ewf Erd Ecl Ept Epd Ewt Etk Eme].
  rewrite Hpc in Ecl, Etk, Erd, Ept. sc. destruct (Etk eq_refl) as (_ & Hme & _ & Hl).
  destruct (Ept eq_refl) as (Hp0 & Hpp & Hpo & _).
  pose proof (free_port_law (rport s) (s_w s)) as Hv. set (w' := FreeSysPort _ _) in *.
  assert (ph = PLeaving) as -> by (phases Hph Hpc; done).
  apply moves_quiet; try done; sc; rewrite ?Hv; kv; rewrite ?Hpo; kv; try done.
  - split; sc; rewrite ?Hv; kv; done.
  - split_and!; try done. by apply clients_nil.
  - by intros ? [? ?].
  - intros q c Hq. pose proof (own_not_request q c s He ltac:(by rewrite Hpc) Hq).
    unfold own_port in *. sc. rewrite Hv. kv. set_solver.
Qed.

Lemma engine_moves s ph e' g' w' a :
  eng_ok me s -> in_phase me ph s -> asker ph s ->
  engine_step (s_t s) (s_e s) (s_g s) (s_w s) = Some (e', g', w', a) ->
  exists ph', moves me ph ph' s (after s e' g' w' a).
Proof.
  intros He Hph Hask Hs. destruct (s_e s) as [| | | | | | |[ad r]|x| | |] eqn:Hpc; cbn in Hs; try done.
  - destruct (AllocSysPort _ _ _) as [p w1] eqn:Hw. pose proof (move_init s ph p w1 He Hph Hpc Hw) as Hm.
    exists ph. destruct (p =? 0); injection Hs as <- <- <- <-; exact Hm.
  - injection Hs as <- <- <- <-. assert (ph = PBoot) as -> by (phases Hph Hpc; done).
    exists PDead. apply move_exit; try done; by rewrite Hpc.
  - injection Hs as <- <- <- <-. destruct (move_ready s ph He Hph Hpc) as [Hm ->]. eauto.
  - injection Hs as <- <- <- <-. by apply move_loop.
  - destruct (Wait _ _ _) as [[got w1]|] eqn:Hw; [|done]. cbn in Hs. injection Hs as <- <- <- <-.
    by apply (move_wait s ph got w1).
  - destruct (GetMsg _ _) as [o w1] eqn:Hw. pose proof (move_get s ph o w1 He Hph Hask Hpc Hw) as Hm.
    exists ph. destruct o; injection Hs as <- <- <- <-; exact Hm.
  - assert (Hw : wf_req r).
    { apply (flight_wf ph s (ad, r) Hph); [by rewrite Hpc|]. unfold flight. rewrite Hpc. left. }
    destruct (serve_request r (s_g s) (eo_wf _ _ He) Hw) as (r' & g1 & Hd & Hsv).
    rewrite Hd in Hs. cbn in Hs. injection Hs as <- <- <- <-. exists ph. by apply (move_dispatch s ph ad r).
  - injection Hs as <- <- <- <-.
    assert (Hx : client_msg me (s_t s) (vw s) x -> exists ph', moves me ph ph' s
      (after s EGet (s_g s) (ReplyMsg x (s_w s)) (AReply x))) by (eauto using move_reply_client).
    assert (Hf : flight s = x :: requests s) by (unfold flight; by rewrite Hpc).
    assert (Hc : clients me s -> client_msg me (s_t s) (vw s) x)
      by (unfold clients; rewrite Hf; intros Hc; by inversion Hc).
    phases Hph Hpc; try (apply Hx, Hc, Hph).
    destruct Hph as (_ & _ & Hq & l1 & y & l2 & Hfl & Hst & Hall & Hsh).
    destruct (Hask _ eq_refl) as [b Hb]. rewrite Hf in Hfl. rewrite Hpc in Hsh.
    destruct l1 as [|z l1]; injection Hfl as -> Hr.
    + exists PLeaving. subst l2. eapply move_reply_stop; eauto.
    + apply Hx. by inversion Hall.
  - injection Hs as <- <- <- <-. exists ph. by apply move_free.
  - injection Hs as <- <- <- <-. assert (ph = PLeaving) as -> by (phases Hph Hpc; done).
    exists PDead. apply move_exit; try done; by rewrite Hpc.
Qed.
End moves.
