(* ===== verification/EngineLaunch.v ===== *)
(** * Start and Stop

    The invariant of EngineInv.v holds in every state the launcher, the
    engine and the clients can reach, and what follows from it: the
    handshake, the return of every call, and the service of the requests
    in the order they were posted. *)

From S2P Require Import Prelude Ipc FdTable FdSpec FdRefine Engine Tasks EngineTasks.
From S2P Require Import EngineInv EngineMoves.

Section launch.
Context {W : Type} `{TaskLaws W} (os : sdk) (me buf : Z) (B0 : gset Z).
Implicit Types (s : sys W).

Abbreviation vw s := (view (s_w s)).
Abbreviation rport s := (g_request_port (s_g s)).

(** ** Steps of the engine *)

Lemma held_move rb sb X ph ph' s s' :
  moves me ph ph' s s' -> held me B0 rb sb X s -> held me B0 rb sb X s'.
Proof.
  intros Hm. unfold held. destruct (mv_launcher _ _ _ _ _ Hm) as (-> & -> & ->).
  by rewrite (mv_bits _ _ _ _ _ Hm).
Qed.

Lemma launch_asker ph s : launch_ok me B0 ph s -> asker me ph s.
Proof.
  intros Hl p ->. unfold launch_ok in Hl.
  destruct (s_l s); try (exfalso; naive_solver).
  destruct Hl as (_ & rb & sb & b & _ & Hown & [[Heq _]|[_ [[? _]|[? _]]]]); try done.
  injection Heq as ->. eauto.
Qed.

Lemma lsig_quiet ph ph' s s' i :
  moves me ph ph' s s' -> (forall p, ph <> PAsked p) -> (forall i, sent s ph ph' i = false) ->
  lsig me s' i = lsig me s i.
Proof.
  intros Hm Hna Hs. rewrite (mv_sig _ _ _ _ _ Hm i) by (intros p Hp; by destruct (Hna p)).
  by rewrite Hs, orb_false_r.
Qed.

(** While the launcher waits for the reply to its request. *)
Definition reply_ok (ph : phase) s reply : Prop :=
  exists rb sb b, held me B0 rb sb {[b]} s /\ own_port me reply b s /\
    ((ph = PAsked reply /\ lsig me s sb = false) \/
     (k_queue (vw s) reply <> [] /\
      ((ph = PLeaving /\ lsig me s sb = false) \/ (ph = PDead /\ lsig me s sb = true)))).

Lemma reply_move ph ph' s s' reply :
  moves me ph ph' s s' -> reply_ok ph s reply -> reply_ok ph' s' reply.
Proof.
  intros Hm (rb & sb & b & Hh & Ho & HL). exists rb, sb, b.
  pose proof (mv_next _ _ _ _ _ Hm) as Hn.
  split; [by eapply held_move|]. split; [by eapply mv_own|].
  pose proof (mv_queue _ _ _ _ _ Hm _ _ Ho) as Hq.
  pose proof Hh as (_ & _ & Hsm' & _ & Hsb & _ & _ & Hdis & _).
  destruct HL as [[-> Hs]|[Hne HL]].
  - assert (Hs' : lsig me s' sb = false).
    { rewrite (mv_sig _ _ _ _ _ Hm); [rewrite Hs; by inversion Hn|]. intros p [= <-].
      destruct Ho as (_ & _ & ->). cbn. set_solver. }
    inversion Hn; subst; [by left|]. right. destruct Hq as [(_ & _ & Hq)|[Hn' _]]; [auto|].
    by exfalso; apply Hn'.
  - right. split; [destruct Hq as [(_ & _ & Hq)|[_ ->]]; done|].
    destruct HL as [[-> Hs]|[-> Hs]]; inversion Hn; subst;
      rewrite ?(lsig_quiet _ _ _ _ _ Hm) by done; auto.
    right. split; [done|]. rewrite (mv_sig _ _ _ _ _ Hm) by done. cbn [sent].
    rewrite Hsm', testbit_shiftl1, bool_decide_true, orb_true_r by (done || lia). done.
Qed.

Lemma launch_move ph ph' s s' :
  moves me ph ph' s s' -> s_l s' = s_l s -> launch_ok me B0 ph s -> launch_ok me B0 ph' s'.
Proof.
  intros Hm Hl. pose proof (mv_task _ _ _ _ _ Hm) as [Ht Het].
  pose proof (mv_next _ _ _ _ _ Hm) as Hn. pose proof (mv_bits _ _ _ _ _ Hm) as Hb.
  pose proof (mv_launcher _ _ _ _ _ Hm) as (Hlt & Hrm & Hsm).
  assert (Hheld : forall rb sb X, held me B0 rb sb X s -> held me B0 rb sb X s')
    by (intros; by eapply held_move).
  pose proof (fun i => lsig_quiet _ _ _ _ i Hm) as Hquiet.
  unfold launch_ok. rewrite Hl. destruct (s_l s); rewrite ?Ht, ?Het, ?Hb, ?Hlt; intros HL.
  - destruct HL as [(? & -> & ?)|(? & -> & rb & sb & Hh & Hs)]; inversion Hn; subst; [by left|].
    right. split_and!; try done. exists rb, sb. rewrite Hquiet by done. auto.
  - destruct HL as (-> & ?). by inversion Hn; subst.
  - destruct HL as (-> & ? & ? & HL). inversion Hn; subst. by rewrite Hquiet by done.
  - destruct HL as (-> & ? & Hh & ? & ?). inversion Hn; subst. rewrite !Hquiet by done. auto.
  - destruct HL as (? & Hh & Hs & HL).
    pose proof Hh as (_ & Hrm' & _ & Hrb & Hsb & Hne & _).
    assert (Hr : forall i, Z.testbit (g_launcher_ready_mask (s_g s)) i = bool_decide (i = rb))
      by (intros i; rewrite Hrm'; apply testbit_shiftl1; lia).
    destruct HL as [[-> Hz]|[[-> | ->] Hz]]; inversion Hn; subst;
      (split; [done|]; split; [by auto|]); rewrite !(mv_sig _ _ _ _ _ Hm) by done; cbn [sent];
      rewrite ?Hr, Hs, Hz, ?(bool_decide_true (rb = rb)), ?(bool_decide_false (sb = rb)) by done;
      auto 6.
  - destruct HL as (? & -> & rb & sb & Hh & Hs). inversion Hn; subst.
    split_and!; try done. exists rb, sb. rewrite Hquiet by done. auto.
  - destruct HL as (? & -> & rb & sb & b & Hh & Hs & Ho & Hq). inversion Hn; subst.
    split_and!; try done. exists rb, sb, b. rewrite Hquiet by done. split_and!; auto.
    + by eapply mv_own.
    + destruct (mv_queue _ _ _ _ _ Hm _ _ Ho) as [(? & _)|[_ ->]]; done.
  - destruct HL as (? & HL). split; [done|]. by eapply reply_move.
  - destruct HL as (? & -> & rb & sb & Hh & Hs). inversion Hn; subst.
    split_and!; try done. exists rb, sb. rewrite Hquiet by done. auto.
  - destruct HL as (? & rb & sb & Hh & HL). split; [done|]. exists rb, sb. split; [auto|].
    pose proof Hh as (_ & _ & Hsm' & _ & Hsb & _).
    destruct HL as [[[-> | ->] Hs]|[-> Hs]]; inversion Hn; subst; rewrite ?Hquiet by done; auto.
    right. split; [done|]. rewrite (mv_sig _ _ _ _ _ Hm) by done. cbn [sent].
    rewrite Hsm', testbit_shiftl1, bool_decide_true, orb_true_r by (done || lia). done.
Qed.

Lemma inv_engine s e' g' w' a :
  inv me B0 s -> engine_step (s_t s) (s_e s) (s_g s) (s_w s) = Some (e', g', w', a) ->
  inv me B0 (after s e' g' w' a).
Proof.
  intros (He & ph & Hph & Hl) Hs.
  destruct (engine_moves me s ph e' g' w' a He Hph (launch_asker _ _ Hl) Hs) as [ph' Hm].
  split; [by eapply mv_ok|]. exists ph'. split; [by eapply mv_phase|].
  by eapply launch_move.
Qed.

(** ** Steps of the launcher *)

(** Changes that concern no engine. *)
Lemma dead_ok s s' :
  eng_ok me s -> dead (s_e s) = true -> s_e s' = s_e s ->
  g_fdtable (s_g s') = g_fdtable (s_g s) -> rport s' = rport s ->
  g_engine_ready (s_g s') = false -> k_tasks (vw s') = k_tasks (vw s) -> eng_ok me s'.
Proof.
  intros [Ewf Erd Ecl Ept Epd Ewt Etk Eme] Hd He Hf Hp Hr Ht.
  split; rewrite ?He, ?Hf, ?Hp, ?Hr, ?Ht; destruct (s_e s); try done; auto.
Qed.

Lemma dead_ready s : eng_ok me s -> dead (s_e s) = true -> g_engine_ready (s_g s) = false.
Proof. intros He Hd. rewrite (eo_ready _ _ He). by destruct (s_e s). Qed.

(** A port that the engine needs: its own, and that of a client whose request is in
    flight. *)
Definition needed (p : Z) s : Prop :=
  (open (s_e s) = true /\ p = rport s) \/
  exists x, x ∈ flight s /\ client_msg me (s_t s) (vw s) x /\ p = mn_ReplyPort (msg (snd x)).

(** Changes to signals and ports of the launcher, or of another task that is not
    the engine. *)
Record mine s s' : Prop := {
  mi_e : s_e s' = s_e s;
  mi_t : s_t s' = s_t s;
  mi_g : g_fdtable (s_g s') = g_fdtable (s_g s) /\ rport s' = rport s /\
    g_engine_ready (s_g s') = g_engine_ready (s_g s) /\
    g_engine_shutdown (s_g s') = g_engine_shutdown (s_g s) /\
    g_launcher_task (s_g s') = g_launcher_task (s_g s);
  mi_tasks : k_tasks (vw s') = k_tasks (vw s);
  mi_sig : dead (s_e s) = false -> s_t s <> me -> k_sig (vw s') (s_t s) = k_sig (vw s) (s_t s);
  mi_ports : forall p, needed p s -> p ∈ k_ports (vw s) -> fst (k_owner (vw s) p) <> me ->
    p ∈ k_ports (vw s') /\ k_owner (vw s') p = k_owner (vw s) p;
  mi_queue : open (s_e s) = true -> k_queue (vw s') (rport s) = k_queue (vw s) (rport s)
}.

(** The request port belongs to the engine. *)
Lemma request_port_other s :
  eng_ok me s -> open (s_e s) = true ->
  rport s ∈ k_ports (vw s) /\ fst (k_owner (vw s) (rport s)) = s_t s /\ s_t s <> me.
Proof.
  intros He Ho. destruct (eo_port _ _ He Ho) as (_ & ? & ? & _). split_and!; try done.
  apply (eo_task _ _ He). by destruct (s_e s).
Qed.

Lemma mine_requests s s' : mine s s' -> eng_ok me s -> requests s' = requests s.
Proof.
  intros [He Ht (Hf & Hp & _) Hk Hs Hpo Hqu] _.
  unfold requests. rewrite He, Hp. destruct (open (s_e s)) eqn:Ho; [|done]. by apply Hqu.
Qed.

Lemma mine_ok s s' : mine s s' -> eng_ok me s -> eng_ok me s'.
Proof.
  intros Hm He. pose proof (mine_requests _ _ Hm He) as Hr.
  destruct Hm as [Hee Ht (Hf & Hp & Hrd & Hsh & Hlt) Hk Hs Hpo Hqu].
  pose proof He as [Ewf Erd Ecl Ept Epd Ewt Etk Eme].
  assert (Hport : open (s_e s) = true -> rport s ∈ k_ports (vw s') /\
    k_owner (vw s') (rport s) = k_owner (vw s) (rport s) /\ s_t s <> me).
  { intros Ho. destruct (Ept Ho) as (_ & Hpp & Hpt & _).
    assert (s_t s <> me) by (apply Etk; by destruct (s_e s)).
    destruct (Hpo (rport s)) as (? & ?); [by left|done|by rewrite Hpt|done]. }
  split; rewrite ?Hee, ?Hf, ?Hp, ?Hrd, ?Hsh, ?Hk, ?Ht, ?Hlt, ?Hr; try done.
  - intros Ho. destruct (Hport Ho) as (? & Hoo & _). rewrite Hoo. split_and!; try done; by apply Ept.
  - intros Hre. assert (Ho : open (s_e s) = true) by (by destruct (s_e s)).
    destruct (Hport Ho) as (_ & Hoo & Hne). rewrite Hoo, Hs by (done || by destruct (s_e s)). auto.
Qed.

Lemma mine_phase ph s s' :
  mine s s' -> eng_ok me s -> (forall p, ph = PAsked p -> k_queue (vw s') p = k_queue (vw s) p) ->
  in_phase me ph s -> in_phase me ph s'.
Proof.
  intros Hm He Hq. pose proof (mine_requests _ _ Hm He) as Hr.
  destruct Hm as [Hee Ht (Hf & Hp & Hrd & Hsh & Hlt) Hk Hs Hpo Hqu].
  assert (Hfl : flight s' = flight s) by (unfold flight; by rewrite Hee, Hr).
  assert (Hmsg : forall l, l ⊆ flight s -> Forall (client_msg me (s_t s) (vw s)) l ->
    Forall (client_msg me (s_t s) (vw s')) l).
  { intros l Hin. rewrite !Forall_forall. intros Hall x Hx.
    pose proof (Hall x Hx) as Hc. pose proof Hc as (? & ? & ? & Hpp & Hne & ?).
    destruct (Hpo (mn_ReplyPort (msg (snd x)))) as (? & Heq); [right; eauto|done|done|].
    unfold client_msg. by rewrite Heq. }
  assert (Hcl : clients me s -> clients me s').
  { unfold clients. rewrite Hfl, Ht. by apply Hmsg. }
  assert (Hcc : dead (s_e s) = false -> ctrl_c s' = ctrl_c s).
  { intros Hd. unfold ctrl_c. rewrite Ht, Hs; [done..|]. by apply (eo_task _ _ He). }
  destruct ph; sc; rewrite ?Hee, ?Hsh; intros Hph; try done.
  - rewrite Hcc by (destruct Hph as [Hb _]; by destruct (s_e s)). tauto.
  - rewrite Hcc by (destruct Hph as [Hb _]; by destruct (s_e s)). tauto.
  - rewrite Hcc by (destruct Hph as [Hb _]; by destruct (s_e s)). rewrite Hq by done.
    destruct Hph as (? & ? & ? & l1 & x & l2 & Hf1 & Hst & Hall & Hs1). split_and!; try done.
    exists l1, x, l2. rewrite Hfl, Ht, Hsh, Hee. split_and!; try done.
    apply Hmsg; [|done]. rewrite Hf1. intros y. rewrite !elem_of_app, elem_of_cons. tauto.
  - rewrite Hcc by (destruct Hph as [Hb _]; by destruct (s_e s)). tauto.
  - tauto.
Qed.

(** A message put at the request port. *)
Lemma put_ok s s' x :
  eng_ok me s -> open (s_e s) = true ->
  s_g s' = s_g s -> s_t s' = s_t s -> s_e s' = s_e s ->
  vw s' = kv_put (rport s) x (vw s) ->
  eng_ok me s' /\ flight s' = flight s ++ [x] /\ ctrl_c s' = ctrl_c s /\
  (forall i, lsig me s' i = lsig me s i).
Proof.
  intros He Ho Hg Ht Hee Hv. pose proof He as [Ewf Erd Ecl Ept Epd Ewt Etk Eme].
  destruct (Ept Ho) as (Hp0 & Hpp & Hpt & Hpb).
  assert (Hd : dead (s_e s) = false) by (by destruct (s_e s)). destruct (Etk Hd) as (? & Hne & _).
  split_and!.
  - split; rewrite ?Hg, ?Ht, ?Hee, ?Hv; try done. intros _ _. kv. rewrite Hpt. kv.
    rewrite Z.lor_spec, testbit_shiftl1, bool_decide_true, orb_true_r by (done || lia). done.
  - unfold flight, requests. rewrite Hee, Hg, Hv, Ho. kv. by rewrite app_assoc.
  - unfold ctrl_c. rewrite Ht, Hv. kv. rewrite Hpt. kv.
    rewrite Z.lor_spec, testbit_shiftl1, bool_decide_false, orb_false_r;
      [done|unfold SIGBREAKB_CTRL_C; lia|lia].
  - intros i. unfold lsig. rewrite Hv. by kv.
Qed.

(** The loop at the end of Stop frees the two bits, found again from the masks. *)
Lemma free_bits_view g rb sb n : forall b w,
  g_launcher_ready_mask g = Z.shiftl 1 rb -> g_launcher_stopped_mask g = Z.shiftl 1 sb ->
  0 <= b -> 0 <= rb -> 0 <= sb ->
  let v' := view (free_bits me g n b w) in
  k_sig v' = k_sig (view w) /\ k_queue v' = k_queue (view w) /\ k_ports v' = k_ports (view w) /\
  k_owner v' = k_owner (view w) /\ k_tasks v' = k_tasks (view w) /\
  forall x, x ∈ k_bits v' me <->
    x ∈ k_bits (view w) me /\ ~ (b <= x < b + Z.of_nat n /\ (x = rb \/ x = sb)).
Proof.
  induction n as [|n IH]; intros b w Hr Hs Hb Hrb Hsb.
  { cbn. split_and!; try done. intros x. split; [|tauto]. intros Hx. split; [done|lia]. }
  assert (Hmask : forall c, 0 <= c -> (Z.shiftl 1 c =? Z.shiftl 1 b) = bool_decide (c = b)).
  { intros c Hc. destruct (Z.eqb_spec (Z.shiftl 1 c) (Z.shiftl 1 b)) as [Heq|Hne].
    - apply shiftl1_inj in Heq; [|done..]. by rewrite bool_decide_true.
    - symmetry. apply bool_decide_false. by intros ->. }
  assert (Hone : forall c w, let w' := if bool_decide (c = b) then FreeSignal me b w else w in
    k_sig (view w') = k_sig (view w) /\ k_queue (view w') = k_queue (view w) /\
    k_ports (view w') = k_ports (view w) /\ k_owner (view w') = k_owner (view w) /\
    k_tasks (view w') = k_tasks (view w) /\
    forall x, x ∈ k_bits (view w') me <-> x ∈ k_bits (view w) me /\ ~ (x = b /\ x = c)).
  { intros c w1. cbv zeta. case_bool_decide as Hc; [|split_and!; try done; intros x; lia || naive_solver].
    rewrite free_signal_law. kv. split_and!; try done. intros x. set_solver. }
  cbn [free_bits]. cbv zeta. rewrite Hr, Hs, !Hmask by done.
  set (w1 := if bool_decide (rb = b) then _ else w).
  set (w2 := if bool_decide (sb = b) then _ else w1).
  destruct (Hone rb w) as (A1 & A2 & A3 & A4 & A5 & A6).
  destruct (Hone sb w1) as (C1 & C2 & C3 & C4 & C5 & C6).
  fold w1 in A1, A2, A3, A4, A5, A6. fold w2 in C1, C2, C3, C4, C5, C6.
  destruct (IH (b + 1) w2 Hr Hs) as (D1 & D2 & D3 & D4 & D5 & D6); try lia.
  split_and!; try congruence. intros x. rewrite D6, C6, A6. split.
  - intros [[[? ?] ?] ?]. split; [done|lia].
  - intros [? ?]. split_and!; [done|lia..].
Qed.

Lemma free_bits_held rb sb s w :
  held me B0 rb sb ∅ s -> k_bits (view w) me = k_bits (vw s) me ->
  k_bits (view (free_bits me (s_g s) 32 0 w)) me = B0.
Proof.
  intros (_ & Hr & Hs & Hrb & Hsb & _ & Hd & _ & Hb) Hw.
  destruct (free_bits_view (s_g s) rb sb 32 0 w Hr Hs) as (_ & _ & _ & _ & _ & Hx); try lia.
  assert (Hn1 : rb ∉ B0 /\ sb ∉ B0) by (clear -Hd; set_solver).
  apply set_eq. intros x. rewrite Hx, Hw, Hb, !elem_of_union, !elem_of_singleton.
  split.
  - intros [[[[-> | ->]|He]|HB] Hn]; [lia..|by apply elem_of_empty in He|done].
  - intros HB. split; [by right|]. intros [_ [->| ->]]; by destruct Hn1.
Qed.

(** The state after a step of the launcher. *)
Definition launched s (l' : lpc) (g' : engine) (w' : W) (o : option Z) : sys W :=
  mk_sys g' w' (default (s_t s) o) (if o then EInit else s_e s) l'
    (s_posted s ++ asked os buf (s_l s)) (s_taken s) (s_replied s) (s_lost s).

Ltac lc := cbn [s_e s_g s_w s_t s_l launched default launch_ok in_phase
    g_fdtable g_engine_task g_launcher_task g_launcher_ready_mask g_launcher_stopped_mask
    g_engine_ready g_engine_shutdown g_request_port set_request_port set_ready set_shutdown
    set_engine_task set_masks set_launcher_task] in *.

(** A bit just allocated is clear; the others are as before. *)
Lemma alloc_sig t b v i :
  0 <= b -> Z.testbit (k_sig (kv_alloc_bit t b v) t) i = Z.testbit (k_sig v t) i && negb (bool_decide (i = b)).
Proof. intros Hb. kv. by rewrite Z.ldiff_spec, testbit_shiftl1. Qed.

Lemma taken_sig t b v i :
  0 <= b -> Z.testbit (k_sig (kv_take t (Z.shiftl 1 b) v) t) i =
    Z.testbit (k_sig v t) i && negb (bool_decide (i = b)).
Proof. intros Hb. kv. by rewrite Z.ldiff_spec, testbit_shiftl1. Qed.

Lemma start_alloc1 s cfg rb w' :
  inv me B0 s -> s_l s = SAlloc1 cfg -> AllocSignal me (s_w s) = (rb, w') ->
  inv me B0 (launched s (SAlloc2 cfg rb) (s_g s) w' None).
Proof.
  intros (He & ph & Hph & Hl) Hpc Hw. unfold launch_ok in Hl. rewrite Hpc in Hl.
  destruct Hl as (-> & Hlt & Het & Hb). pose proof (alloc_signal_law me (s_w s)) as Hv.
  rewrite Hw in Hv. split.
  - apply (dead_ok s); lc; try done; [by apply dead_ready|].
    by destruct Hv as [[_ ->]|[_ ->]].
  - exists PDead. split; [done|]. unfold launch_ok, lsig. lc. split_and!; try done.
    destruct Hv as [[-> ->]|[[Hr Hf] ->]]; [by left|right].
    rewrite alloc_sig by lia. rewrite bool_decide_true, andb_false_r by done.
    rewrite Hb in Hf. split_and!; try done; try lia. kv. by rewrite Hb.
Qed.

Lemma start_alloc2 s cfg rb l' g' w' o :
  inv me B0 s -> s_l s = SAlloc2 cfg rb ->
  launcher_step os me buf (SAlloc2 cfg rb) (s_g s) (s_w s) = Some (l', g', w', o) ->
  inv me B0 (launched s l' g' w' o).
Proof.
  intros (He & ph & Hph & Hl) Hpc Hs. unfold launch_ok in Hl. rewrite Hpc in Hl.
  destruct Hl as (-> & Hlt & Het & Hrb). cbn in Hs.
  pose proof (alloc_signal_law me (s_w s)) as Hv. destruct (AllocSignal me (s_w s)) as [sb w1].
  assert (Hdead : forall l g w, g_fdtable g = g_fdtable (s_g s) -> g_request_port g = rport s ->
    g_engine_ready g = false -> k_tasks (view w) = k_tasks (vw s) ->
    eng_ok me (launched s l g w None)) by (intros; by apply (dead_ok s)).
  pose proof (dead_ready s He Hph) as Hrd.
  assert (Hidle : forall w, k_tasks (view w) = k_tasks (vw s) -> k_bits (view w) me = B0 ->
    inv me B0 (launched s (LIdle (-1)) (s_g s) w None)).
  { intros w Hk Hb. split; [by apply Hdead|]. exists PDead. split; [done|]. by left. }
  destruct Hrb as [[-> Hb]|(Hr & Hrf & Hb & Hz)].
  - cbn in Hs. destruct Hv as [[-> Hv]|[[Hs1 Hs2] Hv]]; cbn in Hs.
    + injection Hs as <- <- <- <-. apply Hidle; by rewrite Hv.
    + rewrite (proj2 (Z.leb_le 0 sb)) in Hs by lia. injection Hs as <- <- <- <-. rewrite Hb in Hs2.
      apply Hidle; rewrite free_signal_law, Hv; kv; [done|]. rewrite Hb. set_solver.
  - rewrite (proj2 (Z.ltb_ge rb 0)), (proj2 (Z.leb_le 0 rb)) in Hs by lia. cbn in Hs.
    destruct Hv as [[-> Hv]|[[Hs1 Hs2] Hv]]; cbn in Hs.
    + injection Hs as <- <- <- <-. apply Hidle; rewrite free_signal_law, Hv; kv; [done|].
      rewrite Hb. set_solver.
    + rewrite (proj2 (Z.ltb_ge sb 0)) in Hs by lia. injection Hs as <- <- <- <-.
      rewrite Hb in Hs2. apply not_elem_of_union in Hs2 as [Hs2 Hs3].
      rewrite not_elem_of_singleton in Hs2.
      split; [apply Hdead; try done; by rewrite Hv|]. exists PDead. split; [done|].
      unfold launch_ok, lsig in *. lc. rewrite Hv, !alloc_sig by lia.
      rewrite Hz, (bool_decide_true (sb = sb)), andb_false_r by done. split_and!; try done.
      unfold held. lc. rewrite Hv. kv. rewrite Hb. split_and!; try done; try lia; set_solver.
Qed.

(** Both bits freed, as the error paths of Start do. *)
Lemma free_both rb sb s w :
  held me B0 rb sb ∅ s -> k_bits (view w) me = k_bits (vw s) me ->
  k_bits (view (FreeSignal me sb (FreeSignal me rb w))) me = B0 /\
  k_tasks (view (FreeSignal me sb (FreeSignal me rb w))) = k_tasks (view w).
Proof.
  intros (_ & _ & _ & _ & _ & _ & Hd & _ & Hb) Hw. rewrite !free_signal_law. kv.
  rewrite Hw, Hb. split; [|done]. clear -Hd. set_solver.
Qed.

Lemma start_create s cfg rb sb l' g' w' o :
  inv me B0 s -> s_l s = SCreate cfg rb sb ->
  launcher_step os me buf (SCreate cfg rb sb) (s_g s) (s_w s) = Some (l', g', w', o) ->
  inv me B0 (launched s l' g' w' o).
Proof.
  intros (He & ph & Hph & Hl) Hpc Hs. unfold launch_ok in Hl. rewrite Hpc in Hl.
  destruct Hl as (-> & Het & Hh & Hr & Hsb). cbn in Hs.
  pose proof (create_law (priority cfg) (s_w s)) as Hv.
  destruct (CreateTask (priority cfg) (s_w s)) as [t w1]. pose proof (dead_ready s He Hph) as Hrd.
  assert (Hp0 : rport s = 0) by (apply (eo_closed _ _ He); cbn in Hph; by destruct (s_e s)).
  destruct Hv as [[-> Hv]|(Ht0 & Htf & Hv)].
  - cbn in Hs. injection Hs as <- <- <- <-.
    destruct (free_both rb sb s w1 Hh) as [Hb Hk]; [by rewrite Hv|]. rewrite Hv in Hk.
    split; [by apply (dead_ok s)|]. exists PDead. split; [done|]. by left.
  - rewrite (proj2 (Z.eqb_neq t 0) Ht0) in Hs. injection Hs as <- <- <- <-.
    assert (Hne : t <> me) by (intros ->; apply Htf, (eo_me _ _ He)).
    pose proof Hh as (Hlt & _). split.
    + split; lc; rewrite ?Hv; kv; try done.
      * by apply He.
      * intros _. split_and!; try done. set_solver.
      * apply elem_of_union_r, (eo_me _ _ He).
    + exists PBoot. split.
      * split_and!; try done; [|by apply clients_nil]. unfold ctrl_c. lc. rewrite Hv. by kv.
      * unfold launch_ok, lsig, held in *. lc. rewrite Hv. kv. split; [done|]. split; [exact Hh|]. auto.
Qed.

(** A [Wait] of the launcher that returns has found its bit. *)
Lemma launcher_woken b s got w' :
  0 <= b -> Wait me (Z.shiftl 1 b) (s_w s) = Some (got, w') ->
  lsig me s b = true /\ view w' = kv_take me (Z.shiftl 1 b) (vw s).
Proof.
  intros Hb Hw. destruct (wait_law _ _ _ _ _ Hw) as [_ Hv]. split; [|done].
  destruct (lsig me s b) eqn:Hz; [done|]. apply land_bit in Hz; [|done].
  apply wait_blocked in Hz. congruence.
Qed.

Lemma mine_take s l g w b t :
  view w = kv_take me b (vw s) -> g_fdtable g = g_fdtable (s_g s) ->
  g_request_port g = rport s -> g_engine_ready g = g_engine_ready (s_g s) ->
  g_engine_shutdown g = g_engine_shutdown (s_g s) -> g_launcher_task g = g_launcher_task (s_g s) ->
  t = None -> mine s (launched s l g w t).
Proof.
  intros Hv ? ? ? ? ? ->. split; lc; rewrite ?Hv; try done. intros _ Hne. by kv.
Qed.

Lemma start_wait s rb sb l' g' w' o :
  inv me B0 s -> s_l s = SWait rb sb ->
  launcher_step os me buf (SWait rb sb) (s_g s) (s_w s) = Some (l', g', w', o) ->
  inv me B0 (launched s l' g' w' o).
Proof.
  intros (He & ph & Hph & Hl) Hpc Hs. unfold launch_ok in Hl. rewrite Hpc in Hl.
  destruct Hl as (Het & Hh & Hsb & Hl). pose proof Hh as (Hlt & Hrm & _ & Hrb & _). cbn in Hs.
  destruct (Wait me _ (s_w s)) as [[got w1]|] eqn:Hw; [|done]. cbn in Hs. rewrite Hrm in Hw.
  destruct (launcher_woken rb s got w1 ltac:(lia) Hw) as [Hz Hv].
  destruct Hl as [[_ Hz']|[Hdc _]]; [congruence|].
  destruct Hdc as [-> | ->].
  - assert (Hrd : g_engine_ready (s_g s) = true).
    { rewrite (eo_ready _ _ He). destruct Hph as [Hlp _]. by destruct (s_e s). }
    rewrite Hrd in Hs. injection Hs as <- <- <- <-.
    assert (Hm : mine s (launched s (LIdle 0) (s_g s) w1 None)) by (by eapply mine_take).
    split; [by apply (mine_ok s)|]. exists PCalm. split; [by eapply mine_phase|]. right.
    lc. split_and!; try done. exists rb, sb. unfold held, lsig in *. lc. rewrite Hv, taken_sig by lia.
    rewrite Hsb. split; [|done]. kv. done.
  - rewrite (dead_ready s He Hph) in Hs. cbn in Hs. injection Hs as <- <- <- <-.
    destruct (free_both rb sb s w1 Hh) as [Hb Hk]; [rewrite Hv; by kv|]. rewrite Hv in Hk.
    split; [apply (dead_ok s); lc; try done; by apply dead_ready|]. exists PDead. split; [done|]. by left.
Qed.

Lemma stop_alloc s p w' :
  inv me B0 s -> s_l s = TAlloc -> AllocSysPort me false (s_w s) = (p, w') ->
  inv me B0 (launched s (if p =? 0 then TBreak else TPut p) (s_g s) w' None).
Proof.
  intros (He & ph & Hph & Hl) Hpc Hw. unfold launch_ok in Hl. rewrite Hpc in Hl.
  destruct Hl as (Het & -> & rb & sb & Hh & Hsb).
  pose proof (alloc_port_law me false (s_w s)) as Hv. rewrite Hw in Hv.
  assert (Hm : forall l, mine s (launched s l (s_g s) w' None)).
  { intros l. split; lc; try done.
    - destruct Hv as [[_ ->]|(_ & _ & b & _ & ->)]; done.
    - intros _ Hne. destruct Hv as [[_ ->]|(_ & _ & b & _ & ->)]; [done|]. by kv.
    - intros q _ Hq _. destruct Hv as [[_ ->]|(_ & Hf & b & _ & ->)]; [done|].
      assert (p <> q) by (by intros ->). kv. set_solver.
    - intros Ho. destruct (request_port_other s He Ho) as (Hq & _).
      destruct Hv as [[_ ->]|(_ & Hf & b & _ & ->)]; [done|].
      assert (p <> rport s) by (by intros ->). by kv. }
  split; [by apply (mine_ok s)|]. exists PCalm. split; [by apply (mine_phase _ s)|].
  destruct Hv as [[-> Hv]|(Hp0 & Hf & b & [Hb Hbf] & Hv)].
  - cbn [Z.eqb]. unfold launch_ok, lsig, held in *. lc. rewrite Hv. eauto 6.
  - rewrite (proj2 (Z.eqb_neq p 0) Hp0). unfold launch_ok. lc. split_and!; try done.
    pose proof Hh as (? & ? & ? & ? & ? & ? & Hd1 & _ & Hbits). rewrite Hbits in Hbf.
    exists rb, sb, b. unfold held, lsig, own_port in *. lc. rewrite Hv. split_and!; try done; try lia; try (kv; done).
    + clear -Hd1 Hbf. set_solver.
    + clear -Hbf. set_solver.
    + kv. rewrite Hbits. clear. set_solver.
    + kv. rewrite Z.ldiff_spec, Hsb. done.
    + kv. set_solver.
Qed.

Lemma shutdown_stop reply : stop_msg reply (buf, shutdown_req os reply).
Proof. split; [|done]. cbn. eauto with words. Qed.

Lemma stop_put s p l' g' w' o :
  inv me B0 s -> s_l s = TPut p ->
  launcher_step os me buf (TPut p) (s_g s) (s_w s) = Some (l', g', w', o) ->
  inv me B0 (launched s l' g' w' o).
Proof.
  intros (He & ph & Hph & Hl) Hpc Hs. unfold launch_ok in Hl. rewrite Hpc in Hl.
  destruct Hl as (Het & -> & rb & sb & b & Hh & Hsb & Hown & Hq). cbn in Hs.
  destruct Hph as (Hlp & Hsh & Hcc & Hcl). assert (Ho : open (s_e s) = true) by (by destruct (s_e s)).
  destruct (eo_port _ _ He Ho) as (Hp0 & _ & Hpt & _). rewrite (proj2 (Z.eqb_neq _ 0) Hp0) in Hs.
  injection Hs as <- <- <- <-. set (x := (buf, shutdown_req os p)) in *.
  pose proof (put_law (rport s) x (s_w s)) as Hv. set (w1 := PutMsg _ _ _) in *.
  destruct (put_ok s (launched s (TReply p) (s_g s) w1 None) x He Ho eq_refl eq_refl eq_refl Hv)
    as (He' & Hfl & Hcc' & Hls).
  pose proof (own_not_request me p b s He Ho Hown) as Hne.
  split; [done|]. exists (PAsked p). split.
  - unfold in_phase. rewrite Hcc'. lc. split_and!; try done.
    + rewrite Hv. by kv.
    + exists (flight s), x, []. split; [done|]. split; [apply shutdown_stop|]. split.
      * rewrite app_nil_r. unfold clients in Hcl. lc. eapply Forall_impl; [exact Hcl|].
        intros y. apply client_msg_ext; by rewrite Hv.
      * lc. rewrite Hsh. unfold flight. destruct (s_e s); done.
  - unfold launch_ok. lc. split; [done|]. exists rb, sb, b. split.
    + unfold held in *. lc. rewrite Hv. by kv.
    + split; [unfold own_port in *; lc; rewrite Hv; by kv|]. left. split; [done|]. by rewrite Hls.
Qed.

Lemma stop_reply s p l' g' w' o :
  inv me B0 s -> s_l s = TReply p ->
  launcher_step os me buf (TReply p) (s_g s) (s_w s) = Some (l', g', w', o) ->
  inv me B0 (launched s l' g' w' o).
Proof.
  intros (He & ph & Hph & Hl) Hpc Hs. unfold launch_ok in Hl. rewrite Hpc in Hl.
  destruct Hl as (Het & rb & sb & b & Hh & Hown & Hl). cbn in Hs.
  destruct (WaitPort p (s_w s)) as [w1|] eqn:Hw; [|done]. cbn in Hs.
  destruct Hl as [[-> _]|[Hne Hl]].
  { destruct Hph as (_ & _ & Hq & _). apply wait_port_blocked in Hq. congruence. }
  pose proof (get_law p w1) as Hg. destruct (GetMsg p w1) as [m w2]. destruct Hg as [_ Hg].
  injection Hs as <- <- <- <-. pose proof (free_port_law p w2) as Hf. set (w3 := FreeSysPort p w2) in *.
  pose proof Hown as (_ & _ & Hbo). apply wait_port_law in Hw. rewrite Hbo in Hw. cbn in Hw.
  assert (Hv : (forall i, i <> b -> Z.testbit (k_sig (view w3) me) i = lsig me s i) /\
    (forall t, t <> me -> k_sig (view w3) t = k_sig (vw s) t) /\
    k_bits (view w3) me = k_bits (vw s) me ∖ {[b]} /\
    k_ports (view w3) = k_ports (vw s) ∖ {[p]} /\ k_owner (view w3) = k_owner (vw s) /\
    k_tasks (view w3) = k_tasks (vw s) /\ forall q, q <> p -> k_queue (view w3) q = k_queue (vw s) q).
  { destruct Hw as [Hw|Hw]; rewrite Hf, Hg, Hw; kv; rewrite Hbo; cbn [fst snd]; kv;
      (split_and!; try done; [..|intros q Hq; by kv]).
    - intros i Hi. unfold lsig. by rewrite Z.ldiff_spec, shiftl1_other, andb_true_r.
    - intros t Ht. by kv. }
  destruct Hv as (V1 & V2 & V3 & V4 & V5 & V6 & V7).
  assert (Hm : mine s (launched s TWait (s_g s) w3 None)).
  { split; lc; try done; [by auto|..].
    - intros q _ Hq Hqm. rewrite V4, V5.
      assert (q <> p) by (intros ->; by rewrite Hbo in Hqm).
      split; [apply elem_of_difference; by rewrite not_elem_of_singleton|done].
    - intros Ho. destruct (request_port_other s He Ho) as (_ & Hrt & Hrm). apply V7.
      intros Heq. rewrite Heq, Hbo in Hrt. cbn in Hrt. congruence. }
  pose proof Hh as (? & ? & ? & ? & ? & ? & Hd1 & Hd2 & Hbits).
  split; [by apply (mine_ok s)|]. exists ph. split.
  { apply (mine_phase _ s); try done. intros q ->. by destruct Hl as [[? _]|[? _]]. }
  unfold launch_ok. lc. split; [done|]. exists rb, sb. split.
  - unfold held. lc. rewrite V3, Hbits. split_and!; try done; try lia.
    + clear -Hd1. set_solver.
    + clear -Hd1 Hd2. set_solver.
  - assert (Hsb : lsig me (launched s TWait (s_g s) w3 None) sb = lsig me s sb).
    { apply V1. clear -Hd2. set_solver. }
    rewrite Hsb. destruct Hl as [[-> ?]|[-> ?]]; auto.
Qed.

Lemma stop_break s :
  inv me B0 s -> s_l s = TBreak ->
  inv me B0 (launched s TWait (s_g s) (Signal (g_engine_task (s_g s)) SIGBREAKF_CTRL_C (s_w s)) None).
Proof.
  intros (He & ph & Hph & Hl) Hpc. unfold launch_ok in Hl. rewrite Hpc in Hl.
  destruct Hl as (Het & -> & rb & sb & Hh & Hsb). rewrite Het.
  pose proof (signal_law (s_t s) SIGBREAKF_CTRL_C (s_w s)) as Hv. set (w1 := Signal _ _ _) in *.
  destruct Hph as (Hlp & Hsh & Hcc & Hcl). pose proof He as [Ewf Erd Ecl Ept Epd Ewt Etk Eme].
  assert (Hne : s_t s <> me) by (apply Etk; by destruct (s_e s)).
  split.
  - split; lc; rewrite ?Hv; try done. unfold requests in *. lc. rewrite Hv. kv.
    intros Hr Hq. by rewrite Z.lor_spec, Epd.
  - exists PBroken. split.
    + lc. split_and!; try done.
      * unfold ctrl_c. lc. rewrite Hv. kv. rewrite Z.lor_spec. by rewrite orb_true_r.
      * revert Hcl. apply clients_ext; lc; rewrite ?Hv; try done.
        unfold flight, requests. lc. rewrite Hv. by kv.
    + unfold launch_ok. lc. split; [done|]. exists rb, sb. split.
      * unfold held in *. lc. rewrite Hv. by kv.
      * left. split; [by left|]. unfold lsig in *. lc. rewrite Hv. by kv.
Qed.

Lemma stop_wait s l' g' w' o :
  inv me B0 s -> s_l s = TWait ->
  launcher_step os me buf TWait (s_g s) (s_w s) = Some (l', g', w', o) ->
  inv me B0 (launched s l' g' w' o).
Proof.
  intros (He & ph & Hph & Hl) Hpc Hs. unfold launch_ok in Hl. rewrite Hpc in Hl.
  destruct Hl as (Het & rb & sb & Hh & Hl). cbn [launcher_step] in Hs.
  destruct (Wait me _ (s_w s)) as [[got w1]|] eqn:Hw; [|done]. cbn [mbind option_bind] in Hs.
  pose proof Hh as (_ & Hr & Hsm & Hrb & Hsb & _). rewrite Hsm in Hw.
  destruct (launcher_woken sb s got w1 ltac:(lia) Hw) as [Hz Hv].
  destruct Hl as [[_ Hz']|[-> _]]; [congruence|].
  pose proof (free_bits_held rb sb s w1 Hh ltac:(rewrite Hv; by kv)) as Hb.
  destruct (free_bits_view (s_g s) rb sb 32 0 w1 Hr Hsm) as (_ & _ & _ & _ & Hk & _); try lia.
  generalize dependent (free_bits me (s_g s) 32 0 w1). intros w2 Hs Hb Hk.
  injection Hs as <- <- <- <-.
  rewrite Hv in Hk. split.
  - apply (dead_ok s); lc; try done. by apply dead_ready.
  - exists PDead. split; [done|]. by left.
Qed.

Lemma inv_launcher s l' g' w' o :
  inv me B0 s -> launcher_step os me buf (s_l s) (s_g s) (s_w s) = Some (l', g', w', o) ->
  inv me B0 (launched s l' g' w' o).
Proof.
  intros Hi Hs. destruct (s_l s) eqn:Hpc.
  - done.
  - cbn in Hs. destruct (AllocSignal me (s_w s)) as [b w1] eqn:Hw. injection Hs as <- <- <- <-.
    by apply (start_alloc1 s cfg).
  - by eapply start_alloc2.
  - by eapply start_create.
  - by eapply start_wait.
  - cbn in Hs. destruct (AllocSysPort me false (s_w s)) as [p w1] eqn:Hw.
    injection Hs as <- <- <- <-. by apply stop_alloc.
  - by eapply stop_put.
  - by eapply stop_reply.
  - cbn in Hs. injection Hs as <- <- <- <-. by apply stop_break.
  - by eapply stop_wait.
Qed.

(** ** Calls and clients *)

(** Nothing of the launcher's changes. *)
Lemma launch_frame ph s s' :
  s_l s' = s_l s -> s_g s' = s_g s -> s_t s' = s_t s ->
  k_bits (vw s') me = k_bits (vw s) me -> (forall i, lsig me s' i = lsig me s i) ->
  (forall p b, own_port me p b s ->
     own_port me p b s' /\ k_queue (vw s') p = k_queue (vw s) p) ->
  launch_ok me B0 ph s -> launch_ok me B0 ph s'.
Proof.
  intros Hll Hg Ht Hbits Hls Hq.
  assert (Hh : forall rb sb X, held me B0 rb sb X s -> held me B0 rb sb X s')
    by (intros; unfold held in *; by rewrite Hg, Hbits).
  unfold launch_ok. rewrite Hll, Hg, Ht, Hbits. destruct (s_l s); rewrite ?Hls; intros Hl.
  - destruct Hl as [?|(? & ? & rb & sb & ? & ?)]; [by left|]. right. rewrite <- Hls in *. eauto 8.
  - done.
  - done.
  - destruct Hl as (? & ? & ? & ? & ?). auto 8.
  - destruct Hl as (? & ? & ? & ?). auto 8.
  - destruct Hl as (? & ? & rb & sb & ? & ?). rewrite <- Hls in *. eauto 8.
  - destruct Hl as (? & ? & rb & sb & b & ? & ? & Hp & Hqp). destruct (Hq _ _ Hp) as [Hp' Hq'].
    rewrite <- Hls in *. rewrite Hq'. eauto 12.
  - destruct Hl as (? & rb & sb & b & ? & Hp & Hlr). destruct (Hq _ _ Hp) as [Hp' Hq'].
    rewrite <- Hls in *. rewrite Hq'. eauto 12.
  - destruct Hl as (? & ? & rb & sb & ? & ?). rewrite <- Hls in *. eauto 8.
  - destruct Hl as (? & rb & sb & ? & ?). rewrite <- Hls in *. eauto 8.
Qed.

Lemma inv_call s s' rv :
  inv me B0 s -> s_l s = LIdle rv -> s_w s' = s_w s -> s_t s' = s_t s -> s_e s' = s_e s ->
  (exists cfg, (s_l s', s_g s') = start_call me cfg (s_g s)) \/
  (s_l s' = stop_call (s_g s) /\ s_g s' = s_g s) ->
  inv me B0 s'.
Proof.
  intros (He & ph & Hph & Hl) Hpc Hw Ht Hee Hcall. unfold launch_ok in Hl. rewrite Hpc in Hl.
  assert (Hsame : s_g s' = s_g s -> mine s s').
  { intros Hg. split; rewrite ?Hw, ?Hg; done. }
  destruct Hl as [(Het & -> & Hb)|(Het & -> & rb & sb & Hh & Hsb)].
  - destruct Hcall as [[cfg Hc]|[Hc Hg]].
    + unfold start_call in Hc. rewrite Het in Hc. cbn in Hc. injection Hc as Hl' Hg.
      split; [apply (dead_ok s); try done; rewrite ?Hg, ?Hw; try done; by apply (dead_ready s)|].
      exists PDead. split; [cbn; by rewrite Hee|]. unfold launch_ok. rewrite Hl', Hg, Hw. done.
    + unfold stop_call in Hc. rewrite Het in Hc. cbn in Hc.
      split; [by apply (mine_ok s); auto|]. exists PDead. split; [cbn; by rewrite Hee|].
      unfold launch_ok. rewrite Hc, Hg, Hw. by left.
  - assert (Hd : dead (s_e s) = false) by (destruct Hph as [Hlp _]; by destruct (s_e s)).
    destruct (eo_task _ _ He Hd) as (Ht0 & _).
    assert (Hg : s_g s' = s_g s /\ (s_l s' = LIdle (-1) \/ s_l s' = TAlloc)).
    { destruct Hcall as [[cfg Hc]|[Hc Hg]].
      - unfold start_call in Hc. rewrite Het, (proj2 (Z.eqb_neq _ 0) Ht0) in Hc. cbn in Hc.
        injection Hc as -> ->. auto.
      - split; [done|]. right. unfold stop_call in Hc.
        rewrite Het, (proj2 (Z.eqb_neq _ 0) Ht0) in Hc.
        destruct (eo_port _ _ He) as (Hp & _); [destruct Hph as [Hlp _]; by destruct (s_e s)|].
        by rewrite (proj2 (Z.eqb_neq _ 0) Hp) in Hc. }
    destruct Hg as [Hg Hl']. specialize (Hsame Hg). split; [by apply (mine_ok s)|].
    exists PCalm. split; [by apply (mine_phase _ s)|].
    assert (Hheld : exists rb sb, held me B0 rb sb ∅ s' /\ lsig me s' sb = false).
    { exists rb, sb. unfold held, lsig in *. rewrite Hg, Hw. done. }
    unfold launch_ok. rewrite Hg, Ht. destruct Hl' as [-> | ->]; auto.
Qed.

Lemma inv_post s x :
  inv me B0 s -> open (s_e s) = true -> client_msg me (s_t s) (vw s) x ->
  inv me B0 (mk_sys (s_g s) (PutMsg (rport s) x (s_w s)) (s_t s) (s_e s) (s_l s)
    (s_posted s ++ [x]) (s_taken s) (s_replied s) (s_lost s)).
Proof.
  intros (He & ph & Hph & Hl) Ho Hx. pose proof (put_law (rport s) x (s_w s)) as Hv.
  set (w1 := PutMsg _ _ _) in *. set (s' := mk_sys _ _ _ _ _ _ _ _ _).
  destruct (put_ok s s' x He Ho eq_refl eq_refl eq_refl Hv) as (He' & Hfl & Hcc & Hls).
  assert (Hmsg : forall y, client_msg me (s_t s) (vw s) y -> client_msg me (s_t s) (vw s') y).
  { intros y. apply client_msg_ext; unfold s'; cbn [s_w]; rewrite Hv; by kv. }
  assert (Hcl : clients me s -> clients me s').
  { unfold clients. rewrite Hfl, Forall_app, Forall_singleton. intros Hc.
    split; [eapply Forall_impl; [exact Hc|done]|by apply Hmsg]. }
  assert (Hown : forall p b, own_port me p b s -> p <> rport s)
    by (intros; eapply own_not_request; eauto).
  assert (Hq : forall p b, own_port me p b s -> own_port me p b s' /\ k_queue (vw s') p = k_queue (vw s) p).
  { intros p b Hp. pose proof (Hown p b Hp). unfold own_port in *. unfold s'. cbn [s_w].
    rewrite Hv. kv. done. }
  split; [done|]. exists ph. split.
  - pose proof (launch_asker _ _ Hl) as Hask. unfold in_phase in *. rewrite Hcc. destruct ph; try tauto.
    destruct Hph as (? & ? & Hqe & l1 & y & l2 & Hf & Hst & Hall & Hsh). split_and!; try done.
    + destruct (Hask _ eq_refl) as [b Hb]. destruct (Hq _ _ Hb) as [_ ->]. done.
    + exists l1, y, (l2 ++ [x]). rewrite Hfl, Hf, <- app_assoc. split_and!; try done.
      rewrite app_assoc, Forall_app, Forall_singleton.
      split; [eapply Forall_impl; [exact Hall|done]|by apply Hmsg].
  - apply (launch_frame ph s); try done. unfold s'. cbn [s_w]. by rewrite Hv.
Qed.

Lemma inv_step s s' : inv me B0 s -> sys_step os me buf s s' -> inv me B0 s'.
Proof.
  intros Hi [Hs|Hs]; revert Hi.
  - destruct Hs as [s e' g' w' a Hs|s l' g' w' o Hs]; intros Hi; [by apply inv_engine|by apply inv_launcher].
  - destruct Hs as [s rv cfg Hpc|s rv Hpc|s x Ho Hx]; intros Hi; [| |by apply inv_post].
    + apply (inv_call s _ rv); try done. left. exists cfg. cbn [s_l s_g]. by destruct (start_call _ _ _).
    + apply (inv_call s _ rv); try done. by right.
Qed.
End launch.
