(* ===== verification/EngineProc.v ===== *)
(** * What netstack.process guarantees

    Consequences of the invariant: the results of Start and Stop, the order
    in which requests are served, and that every call returns. *)

From S2P Require Import Prelude Ipc FdTable FdSpec FdRefine Engine Tasks EngineTasks.
From S2P Require Import EngineInv EngineMoves EngineLaunch.

Section proc.
Context {W : Type} `{TaskLaws W} (os : sdk) (me buf : Z).
Implicit Types (s : sys W).

Abbreviation vw s := (view (s_w s)).
Abbreviation rport s := (g_request_port (s_g s)).

(** ** Reachable states *)

Lemma boot_inv (w : W) : me ∈ k_tasks (view w) -> inv me (k_bits (view w) me) (boot w).
Proof.
  intros Hme. split.
  - split; try done. apply wf_init.
  - exists PDead. split; [done|]. by left.
Qed.

Lemma reach_ind (P : sys W -> Prop) (w : W) s :
  me ∈ k_tasks (view w) -> P (boot w) ->
  (forall s s', inv me (k_bits (view w) me) s -> P s -> sys_step os me buf s s' -> P s') ->
  reachable os me buf w s -> inv me (k_bits (view w) me) s /\ P s.
Proof.
  intros Hme Hboot Hstep Hr. unfold reachable in Hr.
  apply (rtc_ind_r (R := sys_step os me buf) (fun s => inv me (k_bits (view w) me) s /\ P s) (boot w)); [|  |exact Hr].
  - split; [by apply boot_inv|done].
  - intros s1 s2 _ H12 [Hi HP]. split; [by eapply inv_step|]. by eapply Hstep.
Qed.

Lemma reach_inv (w : W) s :
  me ∈ k_tasks (view w) -> reachable os me buf w s -> inv me (k_bits (view w) me) s.
Proof. intros Hme Hr. by apply (reach_ind (fun _ => True) w s). Qed.

(** ** The request queue *)

(** A reply never lands in the request queue. *)
Lemma reply_elsewhere B0 s x :
  inv me B0 s -> s_e s = EReply x ->
  k_queue (view (ReplyMsg x (s_w s))) (rport s) = k_queue (vw s) (rport s) /\
  k_sig (view (ReplyMsg x (s_w s))) (s_t s) = k_sig (vw s) (s_t s) /\
  k_owner (view (ReplyMsg x (s_w s))) = k_owner (vw s).
Proof.
  intros (He & ph & Hph & Hl) Hpc.
  destruct (eo_port _ _ He) as (_ & _ & Hpt & _); [by rewrite Hpc|].
  assert (Hcl : client_msg me (s_t s) (vw s) x ->
    k_queue (view (ReplyMsg x (s_w s))) (rport s) = k_queue (vw s) (rport s) /\
    k_sig (view (ReplyMsg x (s_w s))) (s_t s) = k_sig (vw s) (s_t s) /\
    k_owner (view (ReplyMsg x (s_w s))) = k_owner (vw s)).
  { intros Hx. destruct (reply_client me s x Hx) as (_ & V1 & _ & _ & V2 & _ & V3). auto. }
  assert (Hf : flight s = x :: requests s) by (unfold flight; by rewrite Hpc).
  assert (Hc : clients me s -> client_msg me (s_t s) (vw s) x)
    by (unfold clients; rewrite Hf; intros Hc; by inversion Hc).
  phases Hph Hpc; try (apply Hcl, Hc, Hph).
  destruct Hph as (_ & _ & Hq & l1 & y & l2 & Hfl & Hst & Hall & Hsh).
  destruct (launch_asker _ _ _ _ Hl _ eq_refl) as [b Hb]. rewrite Hf in Hfl.
  destruct l1 as [|z l1]; injection Hfl as -> Hr; [|apply Hcl; by inversion Hall].
  pose proof (own_not_request me _ _ _ He ltac:(by rewrite Hpc) Hb) as Hne.
  destruct (eo_task _ _ He) as (_ & Htm & _); [by rewrite Hpc|].
  destruct Hb as (Hp0 & _ & Hbo), Hst as (_ & _ & Hm). rewrite reply_law, Hm.
  rewrite (proj2 (Z.eqb_neq _ 0) Hp0). kv. rewrite Hbo. cbn [fst]. by kv.
Qed.

Lemma engine_requests B0 s e' g' w' a :
  inv me B0 s -> engine_step (s_t s) (s_e s) (s_g s) (s_w s) = Some (e', g', w', a) ->
  requests s = took a ++ dropped s ++ requests (after s e' g' w' a).
Proof.
  intros Hi Hs. pose proof Hi as (He & ph & Hph & Hl).
  unfold requests, dropped. sc. destruct (s_e s) as [| | | | | | |[ad r]|x| | |] eqn:Hpc; cbn in Hs; try done.
  - pose proof (alloc_port_law (s_t s) true (s_w s)) as Hv.
    destruct (AllocSysPort _ _ _) as [p w1]. destruct (Z.eqb_spec p 0) as [->|Hp0]; injection Hs as <- <- <- <-.
    + done.
    + destruct Hv as [[? _]|(_ & _ & b & _ & ->)]; [done|]. cbn. by kv.
  - by injection Hs as <- <- <- <-.
  - injection Hs as <- <- <- <-. cbn. by rewrite signal_law.
  - injection Hs as <- <- <- <-. cbn. by destruct (g_engine_shutdown (s_g s)).
  - destruct (Wait _ _ _) as [[got w1]|] eqn:Hw; [|done]. cbn in Hs. injection Hs as <- <- <- <-.
    destruct (wait_law _ _ _ _ _ Hw) as [_ ->]. cbn. repeat case_match; done.
  - pose proof (get_law (rport s) (s_w s)) as Hg. destruct (GetMsg _ _) as [o w1].
    destruct Hg as [Ho Hv]. destruct (k_queue (vw s) (rport s)) as [|y q] eqn:Hq; cbn in Ho; subst o;
      injection Hs as <- <- <- <-; cbn; rewrite Hv; by kv.
  - destruct (dispatch_request r (s_g s)) as [[r' g1]|] eqn:Hd; [|done]. cbn in Hs.
    injection Hs as <- <- <- <-.
    assert (Hw : wf_req r).
    { apply (flight_wf me ph s (ad, r) Hph); [by rewrite Hpc|]. unfold flight. rewrite Hpc. left. }
    destruct (serve_request r (s_g s) (eo_wf _ _ He) Hw) as (r2 & g2 & Hd2 & Hsv).
    rewrite Hd in Hd2. injection Hd2 as <- <-. cbn. by rewrite (serves_globals _ _ _ _ Hsv).
  - injection Hs as <- <- <- <-. cbn. symmetry. by eapply reply_elsewhere.
  - injection Hs as <- <- <- <-. cbn. unfold requests. rewrite Hpc. cbn. by rewrite app_nil_r.
  - by injection Hs as <- <- <- <-.
Qed.

(** The launcher's calls other than [PutMsg] leave the queue alone. *)
Lemma launcher_queue B0 s l' g' w' o :
  inv me B0 s -> launcher_step os me buf (s_l s) (s_g s) (s_w s) = Some (l', g', w', o) ->
  rport s <> 0 -> (forall p, s_l s <> TPut p) -> dead (s_e s) = false ->
  o = None /\ g_request_port g' = rport s /\
  k_queue (view w') (rport s) = k_queue (vw s) (rport s).
Proof.
  intros (He & ph & Hph & Hl) Hs Hp0 Hnp Hd. unfold launch_ok in Hl.
  assert (Ho : open (s_e s) = true).
  { destruct (open (s_e s)) eqn:Ho; [done|]. by rewrite (eo_closed _ _ He Ho) in Hp0. }
  destruct (eo_port _ _ He Ho) as (_ & Hpp & _).
  destruct (s_l s) eqn:Hpc; cbn [launcher_step] in Hs.
  - done.
  - destruct Hl as (-> & _). cbn in Hph. congruence.
  - destruct Hl as (-> & _). cbn in Hph. congruence.
  - destruct Hl as (-> & _). cbn in Hph. congruence.
  - destruct (Wait me _ _) as [[got w1]|] eqn:Hw; [|done]. cbn in Hs.
    apply wait_law in Hw as [_ Hv]. destruct (g_engine_ready (s_g s)); injection Hs as <- <- <- <-;
      rewrite ?free_signal_law, Hv; by kv.
  - pose proof (alloc_port_law me false (s_w s)) as Hv. destruct (AllocSysPort _ _ _) as [p w1].
    injection Hs as <- <- <- <-. destruct Hv as [[_ ->]|(_ & Hf & b & _ & ->)]; [done|].
    assert (p <> rport s) by (by intros ->). by kv.
  - by destruct (Hnp reply).
  - destruct Hl as (_ & rb & sb & b & _ & Hown & _).
    pose proof (own_not_request me _ _ _ He Ho Hown) as Hne.
    destruct (WaitPort reply (s_w s)) as [w1|] eqn:Hw; [|done]. cbn in Hs.
    pose proof (get_law reply w1) as Hg. destruct (GetMsg reply w1) as [m w2]. destruct Hg as [_ Hg].
    injection Hs as <- <- <- <-. rewrite free_port_law, Hg.
    apply wait_port_law in Hw as [-> | ->]; by kv.
  - injection Hs as <- <- <- <-. rewrite signal_law. by kv.
  - destruct (Wait me _ _) as [[got w1]|] eqn:Hw; [|done]. cbn [mbind option_bind] in Hs.
    destruct Hl as (_ & rb & sb & (_ & Hr & Hsm & ? & ? & _) & _).
    destruct (free_bits_view me (s_g s) rb sb 32 0 w1 Hr Hsm) as (_ & Hq & _); try lia.
    generalize dependent (free_bits me (s_g s) 32 0 w1). intros w2 Hs Hq.
    injection Hs as <- <- <- <-. apply wait_law in Hw as [_ Hv]. rewrite Hq, Hv. by kv.
Qed.

Lemma launcher_requests B0 s l' g' w' o :
  inv me B0 s -> launcher_step os me buf (s_l s) (s_g s) (s_w s) = Some (l', g', w', o) ->
  requests (launched os buf s l' g' w' o) = requests s ++ asked os buf (s_l s).
Proof.
  intros Hi Hs. pose proof Hi as (He & ph & Hph & Hl).
  assert (Hcase : (exists p, s_l s = TPut p) \/ (forall p, s_l s <> TPut p))
    by (destruct (s_l s); eauto).
  destruct Hcase as [[p Hpc]|Hn].
  - rewrite Hpc in *. cbn in Hs. unfold launch_ok in Hl. rewrite Hpc in Hl.
    destruct Hl as (_ & -> & _). destruct Hph as [Hlp _].
    assert (Ho : open (s_e s) = true) by (by destruct (s_e s)).
    destruct (eo_port _ _ He Ho) as (Hp0 & _). rewrite (proj2 (Z.eqb_neq _ 0) Hp0) in Hs.
    injection Hs as <- <- <- <-. unfold requests. cbn. rewrite Ho, put_law. by kv.
  - assert (asked os buf (s_l s) = []) as -> by (destruct (s_l s); try done; by destruct (Hn reply)).
    rewrite app_nil_r. destruct (open (s_e s)) eqn:Ho.
    + destruct (eo_port _ _ He Ho) as (Hp0 & _).
      destruct (launcher_queue B0 s l' g' w' o Hi Hs Hp0) as (-> & Hg & Hq);
        [done|by destruct (s_e s)|]. unfold requests. cbn. rewrite Ho. by rewrite Hg.
    + unfold requests. rewrite Ho. cbn. destruct o; [done|]. by rewrite Ho.
Qed.

(** ** Order of service *)

(** Messages are taken in the order they were posted, and none disappears but
    those still queued when the port is freed. *)
Definition fifo s : Prop :=
  s_taken s ++ requests s `sublist_of` s_posted s /\
  s_posted s ≡ₚ s_taken s ++ s_lost s ++ requests s.

Definition to_dispatch (e : epc) : list message := match e with EDispatch x => [x] | _ => [] end.
Definition to_reply (e : epc) : list message := match e with EReply x => [x] | _ => [] end.

(** The replies are those of a sequential run of [dispatch_request]. *)
Definition sequential s : Prop :=
  exists ms rs g0,
    dispatch_all (snd <$> ms) engine_init = Some (rs, g0) /\ length rs = length ms /\
    g_fdtable g0 = g_fdtable (s_g s) /\ s_taken s = ms ++ to_dispatch (s_e s) /\
    zip (fst <$> ms) rs = s_replied s ++ to_reply (s_e s).

Lemma fifo_step B0 s s' : inv me B0 s -> fifo s -> sys_step os me buf s s' -> fifo s'.
Proof.
  intros Hi Hf [Hs|Hs]; revert Hi Hf; unfold fifo.
  - destruct Hs as [s e' g' w' a Hs|s l' g' w' o Hs]; intros Hi [Hsub Hperm].
    + pose proof (engine_requests B0 s e' g' w' a Hi Hs) as Hr. unfold after in Hr.
      cbn [s_taken s_posted s_lost].
      set (s' := mk_sys _ _ _ _ _ _ _ _ _) in *. rewrite Hr in Hsub, Hperm. split.
      * etrans; [|exact Hsub]. rewrite <- app_assoc. apply sublist_app; [done|].
        apply sublist_app; [done|]. by apply sublist_inserts_l.
      * rewrite Hperm. rewrite <- !app_assoc. solve_Permutation.
    + pose proof (launcher_requests B0 s l' g' w' o Hi Hs) as Hr. unfold launched in Hr.
      cbn [s_taken s_posted s_lost]. set (s' := mk_sys _ _ _ _ _ _ _ _ _) in *. rewrite Hr. split.
      * rewrite app_assoc. by apply sublist_app.
      * rewrite Hperm. by rewrite <- !app_assoc.
  - destruct Hs as [s rv cfg Hpc|s rv Hpc|s x Ho Hx]; intros Hi [Hsub Hperm];
      cbn [s_taken s_posted s_lost].
    + unfold requests, start_call in *. cbn. destruct (negb _); done.
    + done.
    + assert (Hr : requests (mk_sys (s_g s) (PutMsg (rport s) x (s_w s)) (s_t s) (s_e s) (s_l s)
        (s_posted s ++ [x]) (s_taken s) (s_replied s) (s_lost s)) = requests s ++ [x]).
      { unfold requests. cbn. rewrite Ho, put_law. by kv. }
      rewrite Hr. split; [rewrite app_assoc; by apply sublist_app|]. rewrite Hperm.
      by rewrite <- !app_assoc.
Qed.

Lemma dispatch_all_snoc rs r g rs' g1 r' g2 :
  dispatch_all rs g = Some (rs', g1) -> dispatch_request r g1 = Some (r', g2) ->
  dispatch_all (rs ++ [r]) g = Some (rs' ++ [r'], g2).
Proof.
  revert g rs'. induction rs as [|r0 rs IH]; intros g rs' Hall Hr.
  { cbn in Hall. injection Hall as <- <-. cbn. by rewrite (bind_some _ _ _ _ _ Hr). }
  cbn in Hall |- *. apply bind_inv in Hall as (r1 & g0 & H1' & Hall).
  apply bind_inv in Hall as (rs1 & g3 & H2' & Hall). injection Hall as <- <-.
  rewrite (bind_some _ _ _ _ _ H1'). by rewrite (bind_some _ _ _ _ _ (IH _ _ H2' Hr)).
Qed.

Lemma sequential_same s s' :
  g_fdtable (s_g s') = g_fdtable (s_g s) -> s_taken s' = s_taken s ->
  s_replied s' = s_replied s -> to_dispatch (s_e s') = to_dispatch (s_e s) ->
  to_reply (s_e s') = to_reply (s_e s) -> sequential s -> sequential s'.
Proof. unfold sequential. by intros -> -> -> -> ->. Qed.

Lemma sequential_engine B0 s e' g' w' a :
  inv me B0 s -> engine_step (s_t s) (s_e s) (s_g s) (s_w s) = Some (e', g', w', a) ->
  sequential s -> sequential (after s e' g' w' a).
Proof.
  intros Hi Hs Hq. pose proof Hi as (He & ph & Hph & Hl).
  assert (Hplain : to_dispatch e' = to_dispatch (s_e s) -> to_reply e' = to_reply (s_e s) ->
    g_fdtable g' = g_fdtable (s_g s) -> a = ANone -> sequential (after s e' g' w' a)).
  { intros H1' H2' H3' ->. revert Hq. apply sequential_same; cbn; rewrite ?app_nil_r; done. }
  destruct (s_e s) as [| | | | | | |[ad r]|x| | |] eqn:Hpc; cbn in Hs; try done.
  - destruct (AllocSysPort _ _ _) as [p w1]. destruct (p =? 0); injection Hs as <- <- <- <-; auto.
  - injection Hs as <- <- <- <-; auto.
  - injection Hs as <- <- <- <-; auto.
  - injection Hs as <- <- <- <-. apply Hplain; try done; by destruct (g_engine_shutdown _).
  - destruct (Wait _ _ _) as [[got w1]|] eqn:Hw; [|done]. cbn in Hs. injection Hs as <- <- <- <-.
    apply Hplain; try done; by repeat case_match.
  - destruct (GetMsg _ _) as [[y|] w1]; injection Hs as <- <- <- <-; [|auto].
    destruct Hq as (ms & rs & g0 & Hd & Hlen & Hf & Ht & Hz). exists ms, rs, g0.
    rewrite Hpc in Ht, Hz. cbn in *. rewrite !app_nil_r in *. rewrite Ht. by split_and!.
  - destruct (dispatch_request r (s_g s)) as [[r' g1]|] eqn:Hd; [|done]. cbn in Hs.
    injection Hs as <- <- <- <-. destruct Hq as (ms & rs & g0 & Hd0 & Hlen & Hf & Ht & Hz).
    destruct (dispatch_frame r (s_g s) g0 r' g1 Hf Hd) as (g2 & Hd2 & Hf2).
    exists (ms ++ [(ad, r)]), (rs ++ [r']), g2. rewrite Hpc in Ht, Hz. cbn in *.
    rewrite !app_nil_r in *. rewrite !fmap_app. cbn. split_and!; try done.
    + by eapply dispatch_all_snoc.
    + rewrite !length_app. cbn. lia.
    + rewrite zip_with_app by (by rewrite length_fmap). by rewrite Hz.
  - injection Hs as <- <- <- <-. destruct Hq as (ms & rs & g0 & Hd0 & Hlen & Hf & Ht & Hz).
    exists ms, rs, g0. rewrite Hpc in Ht, Hz. cbn in *. rewrite !app_nil_r in *. done.
  - injection Hs as <- <- <- <-; auto.
  - injection Hs as <- <- <- <-; auto.
Qed.

(** What a step of the launcher keeps: the table, the port; and it creates a task
    only when none runs. *)
Lemma launcher_keeps B0 s l' g' w' o :
  inv me B0 s -> launcher_step os me buf (s_l s) (s_g s) (s_w s) = Some (l', g', w', o) ->
  g_fdtable g' = g_fdtable (s_g s) /\ g_request_port g' = rport s /\
  (is_Some o -> dead (s_e s) = true).
Proof.
  intros (_ & ph & Hph & Hl) Hs. unfold launch_ok in Hl.
  destruct (s_l s); cbn [launcher_step] in Hs; try done.
  - destruct (AllocSignal _ _). injection Hs as <- <- <- <-.  by split_and!.
  - destruct (AllocSignal _ _). destruct (_ || _); injection Hs as <- <- <- <-;
      by split_and!.
  - destruct (CreateTask _ _) as [t w1]. destruct Hl as (-> & _).
    destruct (t =? 0); injection Hs as <- <- <- <-; done.
  - destruct (Wait _ _ _) as [[got w1]|]; [|done]. cbn in Hs.
    destruct (negb _); injection Hs as <- <- <- <-; by split_and!.
  - destruct (AllocSysPort _ _ _). injection Hs as <- <- <- <-.  by split_and!.
  - destruct (_ =? _); [done|]. injection Hs as <- <- <- <-.  by split_and!.
  - destruct (WaitPort _ _); [|done]. cbn in Hs. destruct (GetMsg _ _).
    injection Hs as <- <- <- <-.  by split_and!.
  - injection Hs as <- <- <- <-.  by split_and!.
  - destruct (Wait _ _ _) as [[got w1]|]; [|done]. cbn [mbind option_bind] in Hs.
    generalize dependent (free_bits me (s_g s) 32 0 w1). intros w2 Hs.
    injection Hs as <- <- <- <-.  by split_and!.
Qed.

Lemma sequential_step B0 s s' : inv me B0 s -> sequential s -> sys_step os me buf s s' -> sequential s'.
Proof.
  intros Hi Hq [Hs|Hs]; revert Hi Hq.
  - destruct Hs as [s e' g' w' a Hs|s l' g' w' o Hs]; intros Hi Hq; [by eapply sequential_engine|].
    destruct (launcher_keeps B0 s l' g' w' o Hi Hs) as (Hf & _ & Hd). revert Hq.
    apply sequential_same; cbn; try done; (destruct o; [|done]);
      specialize (Hd (mk_is_Some _ _ eq_refl)); by destruct (s_e s).
  - destruct Hs as [s rv cfg Hpc|s rv Hpc|s x Ho Hx]; intros Hi; apply sequential_same; try done.
    unfold start_call. cbn. by destruct (negb _).
Qed.

(** ** Every call returns *)

Lemma engine_defined B0 s :
  inv me B0 s -> dead (s_e s) = false ->
  (s_e s = EWait -> ctrl_c s = true \/ requests s <> []) ->
  exists s', task_step os me buf s s'.
Proof.
  intros Hi Hd Hw. pose proof Hi as (He & ph & Hph & Hl).
  assert (Hdef : is_Some (engine_step (s_t s) (s_e s) (s_g s) (s_w s))).
  { destruct (s_e s) as [| | | | | | |[ad r]|x| | |] eqn:Hpc; cbn; try done.
    - destruct (AllocSysPort _ _ _) as [p w1]. by destruct (p =? 0).
    - destruct (Wait _ _ _) as [[got w1]|] eqn:Hwt; [done|]. exfalso.
      apply wait_blocked in Hwt. rewrite sig_bit_law, Z.land_lor_distr_r in Hwt.
      apply Z.lor_eq_0_iff in Hwt as [Hp Hc]. destruct (eo_port _ _ He) as (_ & _ & _ & Hb); [by rewrite Hpc|].
      rewrite land_bit in Hp by lia. change SIGBREAKF_CTRL_C with (Z.shiftl 1 SIGBREAKB_CTRL_C) in Hc.
      rewrite land_bit in Hc by done. destruct (Hw eq_refl) as [Hcc|Hr].
      + unfold ctrl_c in Hcc. congruence.
      + rewrite (eo_pend _ _ He) in Hp; [done|by rewrite Hpc|done].
    - by destruct (GetMsg _ _) as [[y|] w1].
    - assert (Hwr : wf_req r).
      { apply (flight_wf me ph s (ad, r) Hph); [by rewrite Hpc|]. unfold flight. rewrite Hpc. left. }
      destruct (serve_request r (s_g s) (eo_wf _ _ He) Hwr) as (r' & g' & -> & _). done. }
  destruct Hdef as [[[[e' g'] w'] a] Hs]. eexists. by apply step_engine.
Qed.

Lemma launcher_defined s :
  is_Some (launcher_step os me buf (s_l s) (s_g s) (s_w s)) -> exists s', task_step os me buf s s'.
Proof. intros [[[[l' g'] w'] o] Hs]. eexists. by apply step_launcher. Qed.

(** While a call is under way one of the two tasks can go on. *)
Lemma progress B0 s :
  inv me B0 s -> (forall rv, s_l s <> LIdle rv) -> exists s', task_step os me buf s s'.
Proof.
  intros Hi Hn. pose proof Hi as (He & ph & Hph & Hl). unfold launch_ok in Hl.
  assert (Hgo : forall b m, lsig me s b = true -> m = Z.shiftl 1 b -> 0 <= b ->
    is_Some (Wait me m (s_w s))).
  { intros b m Hb -> Hb0. destruct (Wait me _ (s_w s)) as [?|] eqn:Hw; [done|]. exfalso.
    apply wait_blocked, land_bit in Hw; [|done]. unfold lsig in Hb. congruence. }
  destruct (s_l s) eqn:Hpc.
  - by destruct (Hn rv).
  - apply launcher_defined. rewrite Hpc. cbn. by destruct (AllocSignal _ _).
  - apply launcher_defined. rewrite Hpc. cbn. destruct (AllocSignal _ _). by destruct (_ || _).
  - apply launcher_defined. rewrite Hpc. cbn. destruct (CreateTask _ _) as [t w1]. by destruct (t =? 0).
  - destruct Hl as (_ & (_ & Hr & _ & Hrb & _) & _ & [[-> _]|[_ Hz]]).
    + apply (engine_defined B0); [done|..]; destruct Hph as [Hb _]; by destruct (s_e s).
    + apply launcher_defined. rewrite Hpc. cbn. destruct (Hgo rb _ Hz Hr ltac:(lia)) as [[got w1] ->].
      cbn. by destruct (negb _).
  - apply launcher_defined. rewrite Hpc. cbn. by destruct (AllocSysPort _ _ _).
  - destruct Hl as (_ & -> & _). apply launcher_defined. rewrite Hpc. cbn.
    destruct (eo_port _ _ He) as (Hp & _); [destruct Hph as [Hlp _]; by destruct (s_e s)|].
    by rewrite (proj2 (Z.eqb_neq _ 0) Hp).
  - destruct Hl as (_ & rb & sb & b & _ & _ & [[-> _]|[Hq _]]).
    + destruct Hph as (Hlp & Hcc & _ & l1 & x & l2 & Hf & _). apply (engine_defined B0); [done|by destruct (s_e s)|].
      intros Hw. right. unfold flight in Hf. rewrite Hw in Hf. cbn [in_hand app] in Hf. rewrite Hf.
      by destruct l1.
    + apply launcher_defined. rewrite Hpc. cbn. destruct (WaitPort _ _) as [w1|] eqn:Hw.
      * cbn. by destruct (GetMsg _ _).
      * by apply wait_port_blocked in Hw.
  - apply launcher_defined. by rewrite Hpc.
  - destruct Hl as (_ & rb & sb & (_ & _ & Hsm & _ & Hsb & _) & [[[-> | ->] _]|[_ Hz]]).
    + destruct Hph as (Hlp & _ & Hcc & _). apply (engine_defined B0); auto. by destruct (s_e s).
    + destruct Hph as (Hlv & _). apply (engine_defined B0); [done|..]; by destruct (s_e s).
    + apply launcher_defined. rewrite Hpc. cbn [launcher_step].
      destruct (Hgo sb _ Hz Hsm ltac:(lia)) as [[got w1] ->]. done.
Qed.

(** A bound on the steps left: the launcher's calls, the messages, whether the
    engine will be woken again, and the rest of its loop body. *)
Definition lrank (l : lpc) : nat :=
  match l with
  | LIdle _ => 0 | TWait => 1 | TReply _ => 2 | TPut _ | TBreak => 3 | TAlloc => 4
  | SWait _ _ => 5 | SCreate _ _ _ => 6 | SAlloc2 _ _ => 7 | SAlloc1 _ => 8
  end.
Definition erank (e : epc) : nat :=
  match e with
  | ENone | EExited => 0 | EStopped | EFail => 1 | EFree => 2 | EWait => 3 | ELoop => 4
  | EGet => 5 | EReply _ => 6 | EDispatch _ => 7 | EReady => 9 | EInit => 20
  end.
Definition woken s : bool :=
  open (s_e s) && Z.testbit (k_sig (vw s) (s_t s)) (snd (k_owner (vw s) (rport s))).
Definition steps_left s : nat :=
  40 * lrank (s_l s) + 6 * length (requests s) + (if woken s then 5 else 0) + erank (s_e s).

Lemma engine_woken B0 s e' g' w' a :
  inv me B0 s -> engine_step (s_t s) (s_e s) (s_g s) (s_w s) = Some (e', g', w', a) ->
  (woken (after s e' g' w' a) = true -> woken s = true) /\
  (s_e s = EWait -> e' = EFree \/ (e' = EGet /\ woken s = true /\ woken (after s e' g' w' a) = false)).
Proof.
  intros Hi Hs. pose proof Hi as (He & ph & Hph & Hl).
  unfold woken. sc. destruct (s_e s) as [| | | | | | |[ad r]|x| | |] eqn:Hpc; cbn in Hs; try done.
  - pose proof (alloc_port_law (s_t s) true (s_w s)) as Hv. split; [|done].
    destruct (AllocSysPort _ _ _) as [p w1]. destruct (Z.eqb_spec p 0) as [->|Hp0]; injection Hs as <- <- <- <-.
    + done.
    + destruct Hv as [[? _]|(_ & _ & b & [Hb _] & ->)]; [done|]. cbn [open andb]. kv. cbn [snd].
      by rewrite Z.ldiff_spec, testbit_shiftl1, bool_decide_true, andb_false_r by (done || lia).
  - by injection Hs as <- <- <- <-.
  - injection Hs as <- <- <- <-. split; [|done]. destruct (eo_task _ _ He) as (_ & Hne & _ & ->); [by rewrite Hpc|].
    rewrite signal_law. kv. done.
  - injection Hs as <- <- <- <-. split; [|done]. by destruct (g_engine_shutdown _).
  - destruct (eo_port _ _ He) as (_ & _ & Hpt & Hb); [by rewrite Hpc|].
    destruct (Wait _ _ _) as [[got w1]|] eqn:Hw; [|done]. cbn in Hs. injection Hs as <- <- <- <-.
    assert (Hnb : Wait (s_t s) (Z.lor (Z.shiftl 1 (mp_SigBit (rport s) (s_w s))) SIGBREAKF_CTRL_C) (s_w s) <> None)
      by (by rewrite Hw).
    rewrite wait_blocked in Hnb. apply wait_law in Hw as [-> Hv]. rewrite Hv, sig_bit_law in *.
    set (b := snd (k_owner (vw s) (rport s))) in *. set (sg := k_sig (vw s) (s_t s)) in *.
    kv. fold b. rewrite Z.ldiff_spec, Z.lor_spec, (testbit_shiftl1 b b), bool_decide_true by (done || lia).
    cbn [negb orb andb open]. rewrite andb_false_r. split; [by rewrite andb_false_r|]. intros _.
    assert (Hin : forall m, m = Z.shiftl 1 b \/ m = SIGBREAKF_CTRL_C ->
      Z.land (Z.land sg (Z.lor (Z.shiftl 1 b) SIGBREAKF_CTRL_C)) m = Z.land sg m).
    { intros m Hm. rewrite <- Z.land_assoc. f_equal. rewrite Z.land_lor_distr_l.
      apply Z.bits_inj'. intros i _. rewrite !Z.lor_spec, !Z.land_spec.
      destruct Hm as [-> | ->]; destruct (Z.testbit (Z.shiftl 1 b) i), (Z.testbit SIGBREAKF_CTRL_C i); done. }
    rewrite !Hin by auto. rewrite Z.land_lor_distr_r in Hnb.
    destruct (Z.eqb_spec (Z.land sg SIGBREAKF_CTRL_C) 0) as [Hz|_]; [|by left]. right.
    rewrite Hz, Z.lor_0_r in Hnb. rewrite (proj2 (Z.eqb_neq _ 0) Hnb). cbn [negb].
    split_and!; try done.
    destruct (Z.testbit sg b) eqn:Hsb; [done|]. apply land_bit in Hsb; [done|lia].
  - pose proof (get_law (rport s) (s_w s)) as Hg. destruct (GetMsg _ _) as [o w1].
    destruct Hg as [Ho Hv]. split; [|done]. destruct o; injection Hs as <- <- <- <-; by rewrite Hv.
  - destruct (dispatch_request r (s_g s)) as [[r' g1]|] eqn:Hd; [|done]. cbn in Hs.
    injection Hs as <- <- <- <-.
    assert (Hw : wf_req r).
    { apply (flight_wf me ph s (ad, r) Hph); [by rewrite Hpc|]. unfold flight. rewrite Hpc. left. }
    destruct (serve_request r (s_g s) (eo_wf _ _ He) Hw) as (r2 & g2 & Hd2 & Hsv).
    rewrite Hd in Hd2. injection Hd2 as <- <-. split; [|done]. by rewrite (serves_globals _ _ _ _ Hsv).
  - injection Hs as <- <- <- <-. split; [|done].
    destruct (reply_elsewhere B0 s x Hi Hpc) as (_ & -> & ->). done.
  - by injection Hs as <- <- <- <-.
  - by injection Hs as <- <- <- <-.
Qed.

Lemma engine_decreases B0 s e' g' w' a :
  inv me B0 s -> engine_step (s_t s) (s_e s) (s_g s) (s_w s) = Some (e', g', w', a) ->
  (steps_left (after s e' g' w' a) < steps_left s)%nat.
Proof.
  intros Hi Hs. pose proof (engine_requests B0 s e' g' w' a Hi Hs) as Hr.
  destruct (engine_woken B0 s e' g' w' a Hi Hs) as [Hw Hwait].
  apply (f_equal length) in Hr. rewrite !length_app in Hr. unfold steps_left.
  change (s_l (after s e' g' w' a)) with (s_l s). change (s_e (after s e' g' w' a)) with e'.
  assert (Hle : ((if woken (after s e' g' w' a) then 5 else 0) <= (if woken s then 5 else 0))%nat).
  { destruct (woken (after s e' g' w' a)); [rewrite Hw by done; done|]. lia. }
  destruct (s_e s) as [| | | | | | |[ad r]|x| | |] eqn:Hpc; cbn in Hs; try done.
  - destruct (AllocSysPort _ _ _) as [p w1]. destruct (p =? 0); injection Hs as <- <- <- <-; cbn [erank] in *; lia.
  - injection Hs as <- <- <- <-. cbn [erank] in *. lia.
  - injection Hs as <- <- <- <-. cbn [erank] in *. lia.
  - injection Hs as <- <- <- <-. destruct (g_engine_shutdown _); cbn [erank] in *; lia.
  - destruct (Hwait eq_refl) as [-> | (-> & Hw1 & Hw2)]; cbn [erank]; [lia|].
    rewrite Hw1, Hw2. lia.
  - destruct (GetMsg _ _) as [[y|] w1]; injection Hs as <- <- <- <-; cbn [erank took length] in *; lia.
  - destruct (dispatch_request r (s_g s)) as [[r' g1]|]; [|done]. cbn in Hs.
    injection Hs as <- <- <- <-. cbn [erank] in *. lia.
  - injection Hs as <- <- <- <-. cbn [erank] in *. lia.
  - injection Hs as <- <- <- <-. cbn [erank] in *. lia.
  - injection Hs as <- <- <- <-. cbn [erank] in *. lia.
Qed.

Lemma launcher_rank l g w l' g' w' o :
  launcher_step os me buf l g w = Some (l', g', w', o) ->
  (lrank l' < lrank l)%nat /\ (length (asked os buf l) <= 1)%nat.
Proof.
  intros Hs. destruct l; cbn [launcher_step] in Hs; try done; (split; [|cbn; lia]).
  - destruct (AllocSignal _ _). injection Hs as <- <- <- <-. cbn. lia.
  - destruct (AllocSignal _ _). destruct (_ || _); injection Hs as <- <- <- <-; cbn; lia.
  - destruct (CreateTask _ _) as [t w1]. destruct (t =? 0); injection Hs as <- <- <- <-; cbn; lia.
  - destruct (Wait _ _ _) as [[got w1]|]; [|done]. cbn in Hs.
    destruct (negb _); injection Hs as <- <- <- <-; cbn; lia.
  - destruct (AllocSysPort _ _ _) as [p w1]. injection Hs as <- <- <- <-. destruct (p =? 0); cbn; lia.
  - destruct (_ =? _); [done|]. injection Hs as <- <- <- <-. cbn. lia.
  - destruct (WaitPort _ _); [|done]. cbn in Hs. destruct (GetMsg _ _).
    injection Hs as <- <- <- <-. cbn. lia.
  - injection Hs as <- <- <- <-. cbn. lia.
  - destruct (Wait _ _ _) as [[got w1]|]; [|done]. cbn [mbind option_bind] in Hs.
    generalize dependent (free_bits me g 32 0 w1). intros w2 Hs.
    injection Hs as <- <- <- <-. cbn. lia.
Qed.

Lemma steps_decrease B0 s s' :
  inv me B0 s -> task_step os me buf s s' -> (steps_left s' < steps_left s)%nat.
Proof.
  intros Hi Hs. revert Hi. destruct Hs as [s e' g' w' a Hs|s l' g' w' o Hs]; intros Hi.
  { by eapply engine_decreases. }
  pose proof (launcher_requests B0 s l' g' w' o Hi Hs) as Hr. unfold launched in Hr.
  destruct (launcher_keeps B0 s l' g' w' o Hi Hs) as (_ & _ & Hd).
  destruct (launcher_rank _ _ _ _ _ _ _ Hs) as [Hl Ha].
  set (s' := mk_sys _ _ _ _ _ _ _ _ _) in *. apply (f_equal length) in Hr. rewrite length_app in Hr.
  unfold steps_left. change (s_l s') with l'.
  assert (He : (erank (s_e s') <= 20 + erank (s_e s))%nat).
  { unfold s'. cbn [s_e]. destruct o; cbn [erank]; lia. }
  destruct (woken s'), (woken s); lia.
Qed.

(** ** The guarantees *)

(** The engine runs and serves: what a successful Start leaves. *)
Definition running s : Prop :=
  NetstackEngine_IsRunning (s_g s) = true /\ g_engine_task (s_g s) = s_t s /\
  looping (s_e s) = true /\ g_engine_shutdown (s_g s) = false /\
  rport s ∈ k_ports (vw s) /\ fst (k_owner (vw s) (rport s)) = s_t s.

(** Nothing runs, and the launcher's signal bits are [B]: what Stop, or a Start
    that failed, leaves. *)
Definition stopped (B : gset Z) s : Prop :=
  NetstackEngine_IsRunning (s_g s) = false /\ g_engine_task (s_g s) = 0 /\
  dead (s_e s) = true /\ rport s = 0 /\ k_bits (vw s) me = B.

Lemma idle_states B0 s rv :
  inv me B0 s -> s_l s = LIdle rv ->
  (stopped B0 s /\ g_engine_ready (s_g s) = false) \/ (running s /\ g_engine_ready (s_g s) = true).
Proof.
  intros (He & ph & Hph & Hl) Hpc. unfold launch_ok in Hl. rewrite Hpc in Hl.
  destruct Hl as [(Het & -> & Hb)|(Het & -> & rb & sb & _)].
  - left. pose proof (dead_ready _ _ He Hph) as Hr. split; [|done].
    assert (Hcl : rport s = 0) by (apply (eo_closed _ _ He); cbn in Hph; by destruct (s_e s)).
    unfold stopped, NetstackEngine_IsRunning. by rewrite Het.
  - right. destruct Hph as (Hlp & Hsh & _). assert (Ho : open (s_e s) = true) by (by destruct (s_e s)).
    assert (Hr : g_engine_ready (s_g s) = true) by (by rewrite (eo_ready _ _ He)).
    destruct (eo_port _ _ He Ho) as (_ & ? & ? & _).
    destruct (eo_task _ _ He) as (Ht & _); [by destruct (s_e s)|].
    unfold running, NetstackEngine_IsRunning. rewrite Het, Hr, (proj2 (Z.eqb_neq _ 0) Ht). done.
Qed.

Definition in_start (l : lpc) : bool :=
  match l with SAlloc1 _ | SAlloc2 _ _ | SCreate _ _ _ | SWait _ _ => true | _ => false end.
Definition in_stop (l : lpc) : bool :=
  match l with TAlloc | TPut _ | TReply _ | TBreak | TWait => true | _ => false end.

(** What the last step of a call returns, by whether the engine is ready. *)
Lemma last_step B0 s s' rv :
  inv me B0 s -> task_step os me buf s s' -> s_l s' = LIdle rv ->
  (in_start (s_l s) = true -> rv = if g_engine_ready (s_g s') then 0 else -1) /\
  (in_stop (s_l s) = true -> rv = 0 /\ g_engine_task (s_g s') = 0).
Proof.
  intros Hi Hs. revert Hi. destruct Hs as [s e' g' w' a Hs|s l' g' w' o Hs]; intros Hi Hpc; cbn [s_l s_g] in *.
  { by rewrite Hpc. }
  destruct Hi as (He & ph & Hph & Hl). unfold launch_ok in Hl.
  destruct (s_l s); cbn [launcher_step] in Hs; try done; (split; [|done]) || (split; [done|]); intros _.
  - destruct (AllocSignal _ _). injection Hs as <- <- <- <-. done.
  - destruct (AllocSignal _ _). destruct Hl as (-> & _). pose proof (dead_ready _ _ He Hph) as Hr.
    destruct (_ || _); injection Hs as <- <- <- <-; [|done]. injection Hpc as <-. by rewrite Hr.
  - destruct (CreateTask _ _) as [t w1]. destruct Hl as (-> & _). pose proof (dead_ready _ _ He Hph) as Hr.
    destruct (t =? 0); injection Hs as <- <- <- <-; [|done]. injection Hpc as <-. cbn. by rewrite Hr.
  - destruct (Wait _ _ _) as [[got w1]|]; [|done]. cbn in Hs.
    destruct (g_engine_ready (s_g s)) eqn:Hr; cbn in Hs; injection Hs as <- <- <- <-;
      injection Hpc as <-; cbn; by rewrite Hr.
  - destruct (AllocSysPort _ _ _) as [p w1]. injection Hs as <- <- <- <-. by destruct (p =? 0).
  - destruct (_ =? _); [done|]. by injection Hs as <- <- <- <-.
  - destruct (WaitPort _ _); [|done]. cbn in Hs. destruct (GetMsg _ _). by injection Hs as <- <- <- <-.
  - by injection Hs as <- <- <- <-.
  - destruct (Wait _ _ _) as [[got w1]|]; [|done]. cbn [mbind option_bind] in Hs.
    generalize dependent (free_bits me (s_g s) 32 0 w1). intros w2 Hs.
    injection Hs as <- <- <- <-. by injection Hpc as <-.
Qed.

(** C6. The handshake.  In every interleaving of the launcher, the engine and
    any clients, when [NetstackEngine_Start] returns 0 the engine is in its loop
    with its port published, when it returns anything else (-1) no engine runs,
    and when [NetstackEngine_Stop] returns (0) the engine has ended and its port
    is gone; in the last two cases the launcher holds exactly the signal bits it
    held before anything was started. *)
Theorem start_stop_handshake (w : W) s s' rv :
  me ∈ k_tasks (view w) -> reachable os me buf w s -> task_step os me buf s s' ->
  s_l s' = LIdle rv ->
  (in_start (s_l s) = true ->
     (rv = 0 /\ running s') \/ (rv = -1 /\ stopped (k_bits (view w) me) s')) /\
  (in_stop (s_l s) = true -> rv = 0 /\ stopped (k_bits (view w) me) s').
Proof.
  intros Hme Hr Hs Hpc. pose proof (reach_inv w s Hme Hr) as Hi.
  assert (Hi' : inv me (k_bits (view w) me) s') by (eapply inv_step; [exact Hi|by left]).
  destruct (last_step _ _ _ _ Hi Hs Hpc) as [Hstart Hstop]. split; intros Hin.
  - specialize (Hstart Hin). destruct (idle_states _ _ _ Hi' Hpc) as [[Hst Hrd]|[Hru Hrd]];
      rewrite Hrd in Hstart; auto.
  - destruct (Hstop Hin) as [-> Ht]. split; [done|].
    destruct (idle_states _ _ _ Hi' Hpc) as [[Hst _]|[Hru _]]; [done|].
    destruct Hru as (Hrun & _). unfold NetstackEngine_IsRunning in Hrun. by rewrite Ht in Hrun.
Qed.

(** C7. The engine serves one message at a time in the order of arrival.  In
    every reachable state the replies sent so far are, address by address, those
    of one sequential run of [dispatch_request] over the messages taken so far
    (the one in hand excepted); the messages are taken in the order they were
    posted; every message taken is replied exactly once; and a message that was
    posted is taken, still queued, or was queued when the port was freed. *)
Theorem engine_linearizes (w : W) s :
  me ∈ k_tasks (view w) -> reachable os me buf w s ->
  sequential s /\ fifo s /\
  fst <$> (s_replied s ++ to_reply (s_e s)) ++ to_dispatch (s_e s) = fst <$> s_taken s.
Proof.
  intros Hme Hr.
  destruct (reach_ind (fun s => sequential s /\ fifo s) w s Hme) as (_ & Hseq & Hf); try done.
  { split; [|split; [apply sublist_nil_l|done]]. exists [], [], engine_init. done. }
  { intros s1 s2 Hi [Hq Hff] H12. split; [by eapply sequential_step|by eapply fifo_step]. }
  split_and!; try done. destruct Hseq as (ms & rs & g0 & _ & Hlen & _ & -> & <-).
  rewrite !fmap_app. f_equal. rewrite fst_zip; [done|]. rewrite length_fmap. lia.
Qed.

(** C8. Every call returns: whenever the launcher is inside Start or Stop, every
    schedule of the launcher's and the engine's steps brings it out again (the
    clients posting nothing further). *)
Theorem calls_return (w : W) s :
  me ∈ k_tasks (view w) -> reachable os me buf w s ->
  must_reach (task_step os me buf) (fun s' => exists rv, s_l s' = LIdle rv) s.
Proof.
  intros Hme Hr. set (B := k_bits (view w) me).
  apply (must_reach_measure _ _ (inv me B) steps_left).
  - intros s1. destruct (s_l s1); eauto; right; by intros [? ?].
  - intros s1 s2 Hi H12. eapply inv_step; [exact Hi|by left].
  - intros s1 Hi Hn. apply (progress B s1 Hi). intros rv Hpc. apply Hn. eauto.
  - intros s1 s2 Hi _ H12. by eapply steps_decrease.
  - by apply reach_inv.
Qed.
End proc.
