(* ===== verification/TaskSim.v ===== *)
(** * A system in which the engine runs

    An instance of the calls of Tasks.v whose world is the view itself,
    concrete runs of the launcher, the engine and a client in it, and from
    them the witnesses of the theorems of EngineProc.v. *)

From S2P Require Import Prelude Ipc FdTable FdSpec FdRefine Engine Tasks EngineTasks.
From S2P Require Import EngineInv EngineMoves EngineLaunch EngineProc Client.

(** The lowest free bit among 16..31, or -1. *)
Definition pick_bit (B : gset Z) : Z :=
  match list_find (fun b => b ∉ B) (seqZ 16 16) with Some (_, b) => b | None => -1 end.

Lemma pick_bit_spec t (v : kview) :
  pick_bit (k_bits v t) = -1 \/ free_bit t (pick_bit (k_bits v t)) v.
Proof.
  unfold pick_bit, free_bit. destruct (list_find _ _) as [[i b]|] eqn:Hf; [right|by left].
  apply list_find_Some in Hf as (Hl & Hb & _). apply lookup_seqZ in Hl. split; [lia|done].
Qed.

#[global] Instance view_tasks : Tasks kview := {
  AllocSignal t v :=
    let b := pick_bit (k_bits v t) in if b =? -1 then (-1, v) else (b, kv_alloc_bit t b v);
  FreeSignal := kv_free_bit;
  Signal := kv_raise;
  Wait t m v :=
    let got := Z.land (k_sig v t) m in if got =? 0 then None else Some (got, kv_take t m v);
  AllocSysPort t pub v :=
    let b := pick_bit (k_bits v t) in
    if b =? -1 then (0, v)
    else let p := fresh ({[0]} ∪ k_ports v) in (p, kv_open t pub p b v);
  FreeSysPort := kv_close;
  FindNamedPort := k_public;
  mp_SigBit p v := snd (k_owner v p);
  PutMsg := kv_put;
  GetMsg p v := (head (k_queue v p), kv_queue p (tail (k_queue v p)) v);
  WaitPort p v := if k_queue v p is [] then None else Some v;
  ReplyMsg x v := let p := mn_ReplyPort (msg (snd x)) in if p =? 0 then v else kv_put p x v;
  CreateTask _ v := let t := fresh ({[0]} ∪ k_tasks v) in (t, kv_spawn t v);
  ExitTask t v := kv_tasks (k_tasks v ∖ {[t]}) v
}.

#[global] Instance view_view : TaskView kview := { view v := v }.

Lemma fresh_pos (X : gset Z) : fresh ({[0]} ∪ X) <> 0 /\ fresh ({[0]} ∪ X) ∉ X.
Proof.
  pose proof (is_fresh ({[0]} ∪ X)) as Hf. rewrite not_elem_of_union, not_elem_of_singleton in Hf.
  exact Hf.
Qed.

#[global] Instance view_laws : TaskLaws kview.
Proof.
  split; cbn; try done.
  - intros t v. destruct (Z.eqb_spec (pick_bit (k_bits v t)) (-1)) as [_|Hn]; [by left|].
    right. by destruct (pick_bit_spec t v).
  - intros t m v. destruct (Z.eqb_spec (Z.land (k_sig v t) m) 0); naive_solver.
  - intros t m v got v'. destruct (Z.eqb_spec (Z.land (k_sig v t) m) 0); naive_solver.
  - intros t pub v. destruct (Z.eqb_spec (pick_bit (k_bits v t)) (-1)) as [_|Hn]; [by left|].
    right. destruct (fresh_pos (k_ports v)). split_and!; try done. eexists. split; [|done].
    by destruct (pick_bit_spec t v).
  - intros p v. destruct (k_queue v p); naive_solver.
  - intros p v v'. destruct (k_queue v p); naive_solver.
  - intros _ v. right. destruct (fresh_pos (k_tasks v)). done.
Qed.

(** *** With something else in the world *)

Section pair.
Context {X : Type}.

Definition lift (f : kview -> kview) (w : kview * X) : kview * X := (f (fst w), snd w).
Definition lift_run {A} (f : kview -> A * kview) (w : kview * X) : A * (kview * X) :=
  (fst (f (fst w)), (snd (f (fst w)), snd w)).

#[export] Instance pair_tasks : Tasks (kview * X) := {
  AllocSignal t := lift_run (AllocSignal t);
  FreeSignal t b := lift (FreeSignal t b);
  Signal t m := lift (Signal t m);
  Wait t m w := '(got, v) ← Wait t m (fst w); Some (got, (v, snd w));
  AllocSysPort t pub := lift_run (AllocSysPort t pub);
  FreeSysPort p := lift (FreeSysPort p);
  FindNamedPort w := FindNamedPort (fst w);
  mp_SigBit p w := mp_SigBit p (fst w);
  PutMsg p x := lift (PutMsg p x);
  GetMsg p := lift_run (GetMsg p);
  WaitPort p w := v ← WaitPort p (fst w); Some (v, snd w);
  ReplyMsg x := lift (ReplyMsg x);
  CreateTask pri := lift_run (CreateTask pri);
  ExitTask t := lift (ExitTask t)
}.

#[export] Instance pair_view : TaskView (kview * X) := { view w := view (fst w) }.

#[export] Instance pair_laws : TaskLaws (kview * X).
Proof.
  split.
  - intros t [v g]. pose proof (alloc_signal_law t v) as Hl.
    change (AllocSignal t (v, g)) with (lift_run (AllocSignal t) (v, g)). unfold lift_run.
    cbn [fst snd]. destruct (AllocSignal t v). exact Hl.
  - intros t b [v g]. exact (free_signal_law t b v).
  - intros t m [v g]. exact (signal_law t m v).
  - intros t m [v g]. change (k_sig (view (v, g)) t) with (k_sig (view v) t).
    rewrite <- (wait_blocked t m v).
    change (Wait t m (v, g)) with ('(got, v') ← Wait t m v; Some (got, (v', g))).
    destruct (Wait t m v) as [[? ?]|]; naive_solver.
  - intros t m [v g] got w'.
    change (Wait t m (v, g)) with ('(got, v') ← Wait t m v; Some (got, (v', g))).
    destruct (Wait t m v) as [[x v']|] eqn:Hw; [|done]. intros [= <- <-]. exact (wait_law t m v x v' Hw).
  - intros t pub [v g]. pose proof (alloc_port_law t pub v) as Hl.
    change (AllocSysPort t pub (v, g)) with (lift_run (AllocSysPort t pub) (v, g)). unfold lift_run.
    cbn [fst snd]. destruct (AllocSysPort t pub v). exact Hl.
  - intros p [v g]. exact (free_port_law p v).
  - intros [v g]. exact (find_named_law v).
  - intros p [v g]. exact (sig_bit_law p v).
  - intros p x [v g]. exact (put_law p x v).
  - intros p [v g]. pose proof (get_law p v) as Hl.
    change (GetMsg p (v, g)) with (lift_run (GetMsg p) (v, g)). unfold lift_run.
    cbn [fst snd]. destruct (GetMsg p v). exact Hl.
  - intros p [v g]. change (k_queue (view (v, g)) p) with (k_queue (view v) p).
    rewrite <- (wait_port_blocked p v).
    change (WaitPort p (v, g)) with (v' ← WaitPort p v; Some (v', g)).
    destruct (WaitPort p v); naive_solver.
  - intros p [v g] w'. change (WaitPort p (v, g)) with (v' ← WaitPort p v; Some (v', g)).
    destruct (WaitPort p v) as [v'|] eqn:Hw; [|done]. intros [= <-]. exact (wait_port_law p v v' Hw).
  - intros x [v g]. exact (reply_law x v).
  - intros pri [v g]. pose proof (create_law pri v) as Hl.
    change (CreateTask pri (v, g)) with (lift_run (CreateTask pri) (v, g)). unfold lift_run.
    cbn [fst snd]. destruct (CreateTask pri v). exact Hl.
  - intros t [v g]. exact (exit_law t v).
Qed.

End pair.

(** ** Runs *)

Inductive action := DoEngine | DoLauncher | DoStart (cfg : option Z) | DoStop.

Section run.
Context {W : Type} `{!Tasks W, !TaskView W} (os : sdk) (me buf : Z).

Definition act (a : action) (s : sys W) : option (sys W) :=
  match a with
  | DoEngine =>
    '(e', g', w', x) ← engine_step (s_t s) (s_e s) (s_g s) (s_w s);
    Some (mk_sys g' w' (s_t s) e' (s_l s) (s_posted s) (s_taken s ++ took x)
      (s_replied s ++ answered x) (s_lost s ++ dropped s))
  | DoLauncher =>
    '(l', g', w', o) ← launcher_step os me buf (s_l s) (s_g s) (s_w s);
    Some (mk_sys g' w' (default (s_t s) o) (if o is Some _ then EInit else s_e s) l'
      (s_posted s ++ asked os buf (s_l s)) (s_taken s) (s_replied s) (s_lost s))
  | DoStart cfg =>
    if s_l s is LIdle _ then
      Some (mk_sys (snd (start_call me cfg (s_g s))) (s_w s) (s_t s) (s_e s)
        (fst (start_call me cfg (s_g s))) (s_posted s) (s_taken s) (s_replied s) (s_lost s))
    else None
  | DoStop =>
    if s_l s is LIdle _ then
      Some (mk_sys (s_g s) (s_w s) (s_t s) (s_e s) (stop_call (s_g s))
        (s_posted s) (s_taken s) (s_replied s) (s_lost s))
    else None
  end.

Lemma act_step a s s' : act a s = Some s' -> sys_step os me buf s s'.
Proof.
  destruct a; cbn [act].
  - destruct (engine_step _ _ _ _) as [[[[e' g'] w'] x]|] eqn:Hs; [|done].
    intros [= <-]. left. by apply step_engine.
  - destruct (launcher_step _ _ _ _ _ _) as [[[[l' g'] w'] o]|] eqn:Hs; [|done].
    intros [= <-]. left. apply (step_launcher _ _ _ s). done.
  - destruct (s_l s) eqn:Hl; try done. intros [= <-]. right. by eapply step_start.
  - destruct (s_l s) eqn:Hl; try done. intros [= <-]. right. by eapply step_stop.
Qed.

Fixpoint run (l : list action) (s : sys W) : option (sys W) :=
  match l with [] => Some s | a :: l' => s' ← act a s; run l' s' end.

Lemma run_steps l s s' : run l s = Some s' -> rtc (sys_step os me buf) s s'.
Proof.
  revert s. induction l as [|a l IH]; intros s; cbn [run].
  - intros [= ->]. done.
  - destruct (act a s) as [s1|] eqn:Ha; [|done]. cbn. intros Hr.
    eapply rtc_l; [by eapply act_step|by apply IH].
Qed.
End run.

(** ** One session

    Task 1 launches, task 9 is a client with reply port 50. *)

Definition os0 : sdk := mk_sdk 5 20.
Definition w0 : kview :=
  mk_kview (fun _ => 0) (fun _ => ∅) (fun _ => []) {[50]} (fun _ => (9, 20)) {[1; 9]} 0.

Definition after_run (l : list action) (s : sys kview) : sys kview := default s (run os0 1 900 l s).

Lemma after_run_steps l s :
  (if run os0 1 900 l s is Some _ then true else false) = true ->
  rtc (sys_step os0 1 900) s (after_run l s).
Proof.
  intros Hr. unfold after_run. destruct (run os0 1 900 l s) as [s'|] eqn:He; [|done].
  by eapply run_steps.
Qed.

(** Start, up to the launcher's [Wait] and the engine's ready signal. *)
Definition s_starting : sys kview :=
  after_run [DoStart None; DoLauncher; DoLauncher; DoLauncher; DoEngine; DoEngine] (boot w0).

Lemma starting_reachable : reachable os0 1 900 w0 s_starting.
Proof. apply after_run_steps. vm_compute. reflexivity. Qed.

Definition s_up : sys kview := after_run [DoLauncher] s_starting.

Lemma up_reachable : reachable os0 1 900 w0 s_up.
Proof.
  unfold reachable; etrans; [exact starting_reachable|]. apply after_run_steps. vm_compute. reflexivity.
Qed.

(** A client posts a PING from address 800. *)
Definition ping_msg : message := (800, set_msg (mk_Message 5 1116 50) (ping_req 3 41)).
Definition s_posted1 : sys kview :=
  mk_sys (s_g s_up) (PutMsg (g_request_port (s_g s_up)) ping_msg (s_w s_up)) (s_t s_up) (s_e s_up)
    (s_l s_up) (s_posted s_up ++ [ping_msg]) (s_taken s_up) (s_replied s_up) (s_lost s_up).

Lemma ping_client : client_msg 1 (s_t s_up) (view (s_w s_up)) ping_msg.
Proof.
  split; [cbn; eauto with words|]. split; [done|]. split; [done|].
  split; [change (50 ∈ k_ports (view (s_w s_up))); apply (bool_decide_unpack _); vm_compute; exact I|].
  split; vm_compute; discriminate.
Qed.

Lemma posted_reachable : reachable os0 1 900 w0 s_posted1.
Proof.
  eapply rtc_r; [exact up_reachable|]. right. apply step_post; [vm_compute; reflexivity|].
  exact ping_client.
Qed.

(** The engine serves it, then Stop: request, reply, teardown, stopped signal. *)
Definition s_served : sys kview := after_run (replicate 6 DoEngine) s_posted1.

Lemma served_reachable : reachable os0 1 900 w0 s_served.
Proof.
  unfold reachable; etrans; [exact posted_reachable|]. apply after_run_steps. vm_compute. reflexivity.
Qed.

Definition s_stopping : sys kview :=
  after_run ([DoStop; DoLauncher; DoLauncher] ++ replicate 8 DoEngine ++ [DoLauncher; DoEngine])
    s_served.

Lemma stopping_reachable : reachable os0 1 900 w0 s_stopping.
Proof.
  unfold reachable; etrans; [exact served_reachable|]. apply after_run_steps. vm_compute. reflexivity.
Qed.

Lemma launcher_goes s :
  (if act os0 1 900 DoLauncher s is Some _ then true else false) = true ->
  task_step os0 1 900 s (after_run [DoLauncher] s).
Proof.
  intros Ha. unfold after_run. cbn [run]. destruct (act os0 1 900 DoLauncher s) as [s'|] eqn:He; [|done].
  cbn [act] in He.
  destruct (launcher_step _ _ _ _ _ _) as [[[[l' g'] w'] o]|] eqn:Hs; [|done].
  injection He as <-. apply (step_launcher _ _ _ s). exact Hs.
Qed.

Definition s_down : sys kview := after_run [DoLauncher] s_stopping.

Lemma start_stop_handshake_witness : running s_up /\ stopped 1 ∅ s_down.
Proof.
  assert (Hme : 1 ∈ k_tasks (view w0)) by (apply (bool_decide_unpack _); vm_compute; exact I).
  assert (Hup : s_l s_up = LIdle 0) by (vm_compute; reflexivity).
  assert (Hdown : s_l s_down = LIdle 0) by (vm_compute; reflexivity).
  assert (G1 : task_step os0 1 900 s_starting s_up) by (apply launcher_goes; vm_compute; reflexivity).
  assert (G2 : task_step os0 1 900 s_stopping s_down) by (apply launcher_goes; vm_compute; reflexivity).
  destruct (start_stop_handshake os0 1 900 w0 s_starting s_up 0 Hme starting_reachable G1 Hup) as [Hs _].
  destruct (start_stop_handshake os0 1 900 w0 s_stopping s_down 0 Hme stopping_reachable G2 Hdown) as [_ Ht].
  split.
  - destruct Hs as [[_ Hr]|[Hn _]]; [vm_compute; reflexivity|exact Hr|discriminate Hn].
  - apply Ht. vm_compute. reflexivity.
Defined.

Lemma engine_linearizes_witness :
  sequential s_stopping /\ fifo s_stopping /\ fst <$> s_replied s_stopping = [800; 900].
Proof.
  assert (Hme : 1 ∈ k_tasks (view w0)) by (apply (bool_decide_unpack _); vm_compute; exact I).
  destruct (engine_linearizes os0 1 900 w0 s_stopping Hme stopping_reachable) as (Hq & Hf & _).
  split; [exact Hq|]. split; [exact Hf|]. vm_compute. reflexivity.
Defined.

Lemma stop_called_reachable : reachable os0 1 900 w0 (after_run [DoStop] s_served).
Proof.
  unfold reachable; etrans; [exact served_reachable|]. apply after_run_steps. vm_compute. reflexivity.
Qed.

Lemma calls_return_witness :
  must_reach (task_step os0 1 900) (fun s' => exists rv, s_l s' = LIdle rv)
    (after_run [DoStop] s_served).
Proof.
  apply (calls_return os0 1 900 w0); [|exact stop_called_reachable].
  apply (bool_decide_unpack _). vm_compute. exact I.
Defined.

(** ** A request that is never answered *)

(** Stop has been answered and the engine is about to free its port. *)
Definition s_freeing : sys kview :=
  after_run ([DoStop; DoLauncher; DoLauncher] ++ replicate 7 DoEngine) s_up.

Definition s_late : sys kview :=
  mk_sys (s_g s_freeing) (PutMsg (g_request_port (s_g s_freeing)) ping_msg (s_w s_freeing))
    (s_t s_freeing) (s_e s_freeing) (s_l s_freeing) (s_posted s_freeing ++ [ping_msg])
    (s_taken s_freeing) (s_replied s_freeing) (s_lost s_freeing).

Definition s_gone : sys kview := after_run [DoEngine; DoEngine; DoLauncher; DoLauncher] s_late.

(** A request that a client posts after the engine's last [GetMsg] and before it
    frees the port is neither served nor answered: Stop returns, the engine has
    ended, and the client waits at its reply port for ever. *)
Theorem late_request_lost :
  reachable os0 1 900 w0 s_gone /\ s_l s_gone = LIdle 0 /\ dead (s_e s_gone) = true /\
  fst <$> s_posted s_gone = [900; 800] /\ fst <$> s_replied s_gone = [900] /\
  fst <$> s_lost s_gone = [800] /\ k_queue (view (s_w s_gone)) 50 = [].
Proof.
  split; [|split_and!; vm_compute; reflexivity].
  assert (Hf : reachable os0 1 900 w0 s_freeing).
  { unfold reachable; etrans; [exact up_reachable|]. apply after_run_steps. vm_compute. reflexivity. }
  unfold reachable. etrans; [eapply rtc_r; [exact Hf|]|].
  - right. apply (step_post _ s_freeing ping_msg); [vm_compute; reflexivity|].
    split; [cbn; eauto with words|]. split; [done|]. split; [done|].
    split; [change (50 ∈ k_ports (view (s_w s_freeing))); apply (bool_decide_unpack _); vm_compute; exact I|].
    split; vm_compute; discriminate.
  - apply after_run_steps. vm_compute. reflexivity.
Qed.

(** ** Stop in another task *)

Lemma run_default who l (s : sys kview) : rtc (sys_step os0 who 900) s (default s (run os0 who 900 l s)).
Proof. destruct (run os0 who 900 l s) as [s'|] eqn:Hr; [by eapply run_steps|done]. Qed.

(** Task 1 started the engine and task 2 calls Stop: the request is answered and the
    engine ends, but its signal goes to task 1, and task 2 waits for ever. *)
Theorem stop_elsewhere_hangs :
  exists s, rtc (sys_step os0 2 900) s_up s /\ s_l s = TWait /\ dead (s_e s) = true /\
    launcher_step os0 2 900 (s_l s) (s_g s) (s_w s) = None /\
    Z.testbit (k_sig (view (s_w s)) 1) 17 = true.
Proof.
  eexists. split.
  { exact (run_default 2 ([DoStop; DoLauncher; DoLauncher] ++ replicate 8 DoEngine ++
      [DoLauncher; DoEngine]) s_up). }
  split_and!; vm_compute; reflexivity.
Qed.
