(* ===== verification/Bsdsocket.v ===== *)
(** * bsdsocket library shell (src/phase3_bsdsocket/bsdsocket_library.c)

    The library base with its open count, the lifecycle entries exec calls,
    the lazy start of the engine, and the BSD calls that wrap the client
    library.  The engine's launcher and exec's library list are the class
    [Host]; the client library is that of Client.v. *)

From S2P Require Import Prelude Ipc FdTable FdSpec Exec Service Client ClientReqs.
From S2P Require Import ClientProps ClientApi.

(** ** State *)

(** Values of exec/libraries.h and exec/nodes.h. *)
Definition LIBF_CHANGED : Z := 2.
Definition LIBF_SUMUSED : Z := 4.
Definition LIBF_DELEXP : Z := 8.
Definition NT_LIBRARY : Z := 9.

Definition BSDLIBNAME : string := "netstack.library".
Definition BSDLIBVER : Z := 4.
Definition BSDLIBREV : Z := 0.
Definition BSDLIBVERSTR : string := "netstack.library 4.0 (bsdsocket-compatible scaffold)".

(** [struct Library], the fields the file touches. *)
Record Library := mk_Library {
  lib_ln_Type : Z;
  lib_ln_Pri : Z;
  lib_ln_Name : string;
  lib_Flags : Z;
  lib_Version : Z;
  lib_Revision : Z;
  lib_IdString : string;
  lib_OpenCnt : Z
}.

Record BsdsocketBase := mk_BsdsocketBase { lib : Library; seglist : Z; base_IExec : Z }.

(** The base, unless it was deleted, and the file's globals. *)
Record bsd := mk_bsd {
  base : option BsdsocketBase;
  g_IExec : Z;
  g_engine_started : bool
}.

Definition set_OpenCnt (n : Z) (l : Library) : Library :=
  mk_Library (lib_ln_Type l) (lib_ln_Pri l) (lib_ln_Name l) (lib_Flags l) (lib_Version l)
    (lib_Revision l) (lib_IdString l) n.
Definition set_Flags (f : Z) (l : Library) : Library :=
  mk_Library (lib_ln_Type l) (lib_ln_Pri l) (lib_ln_Name l) f (lib_Version l)
    (lib_Revision l) (lib_IdString l) (lib_OpenCnt l).

(** What the shell calls outside the client library. *)
Class Host (W : Type) := {
  (** [NetstackEngine_Start(NULL)] *)
  EngineStart : W -> Z * W;
  (** [NetstackEngine_Stop()] *)
  EngineStop : W -> W;
  (** [Remove(&base->lib.lib_Node)], [DeleteLibrary(&base->lib)] *)
  RemoveNode : W -> W;
  DeleteLibrary : W -> W
}.

(** ** Interface reference counts *)

(** The count of [Self->Data.RefCount] after the call, which is also returned. *)
Definition _default_Obtain (RefCount : Z) : Z := u32 (RefCount + 1).
Definition _default_Release (RefCount : Z) : Z := u32 (RefCount - 1).
Definition _mgr_Obtain (RefCount : Z) : Z := u32 (RefCount + 1).
Definition _mgr_Release (RefCount : Z) : Z := u32 (RefCount - 1).

(** ** Lifecycle *)

(** [_bsd_Init] on the memory exec allocated for the base. *)
Definition _bsd_Init (l : Library) (sl exec : Z) (b : bsd) : bsd :=
  mk_bsd
    (Some (mk_BsdsocketBase
       (mk_Library NT_LIBRARY 0 BSDLIBNAME (Z.lor LIBF_SUMUSED LIBF_CHANGED) BSDLIBVER BSDLIBREV
          BSDLIBVERSTR (lib_OpenCnt l)) sl exec))
    exec (g_engine_started b).

Section shell.
Context {W : Type} `{!Exec W, !Host W} (os : sdk).

(** Programs over the shell's state, the client library's and the world. *)
Notation Q := (M (bsd * (client * W))).

Definition call_client {A} (m : M (client * W) A) : Q A := fun '(b, cw) =>
  match m cw with Some (a, cw') => Some (a, (b, cw')) | None => None end.
Definition host_do (f : W -> W) : Q unit := fun '(b, (c, w)) => Some (tt, (b, (c, f w))).
Definition host_run {A} (f : W -> A * W) : Q A :=
  fun '(b, (c, w)) => let '(a, w') := f w in Some (a, (b, (c, w'))).
Definition get_b : Q bsd := fun '(b, cw) => Some (b, (b, cw)).
Definition put_b (b : bsd) : Q unit := fun '(_, cw) => Some (tt, (b, cw)).

(** [Self->Data.LibBase]: undefined once the base was deleted. *)
Definition get_base : Q BsdsocketBase :=
  b ← get_b; match base b with Some x => mret x | None => ub end.
Definition put_lib (l : Library) : Q unit :=
  b ← get_b; x ← get_base;
  put_b (mk_bsd (Some (mk_BsdsocketBase l (seglist x) (base_IExec x))) (g_IExec b) (g_engine_started b)).

Definition ensure_engine : Q Z :=
  b ← get_b;
  if g_engine_started b then mret 0 else
  rv ← host_run EngineStart;
  if negb (rv =? 0) then mret (-1) else
  rv ← call_client netstack_client_init;
  if negb (rv =? 0) then mret (-1) else
  b ← get_b;
  put_b (mk_bsd (base b) (g_IExec b) true);;
  mret 0.

(** The returned pointer, the base itself, is not modelled. *)
Definition _mgr_Open : Q unit :=
  x ← get_base;
  put_lib (set_Flags (Z.land (lib_Flags (lib x)) (u8 (Z.lnot LIBF_DELEXP)))
             (set_OpenCnt (u16 (lib_OpenCnt (lib x) + 1)) (lib x))).

(** 0, or the segment list for exec to unload. *)
Definition _mgr_Expunge : Q Z :=
  x ← get_base;
  if 0 <? lib_OpenCnt (lib x) then
    put_lib (set_Flags (Z.lor (lib_Flags (lib x)) LIBF_DELEXP) (lib x));;
    mret 0
  else
  let sl := seglist x in
  call_client netstack_client_shutdown;;
  host_do EngineStop;;
  host_do RemoveNode;;
  host_do DeleteLibrary;;
  b ← get_b;
  put_b (mk_bsd None (g_IExec b) (g_engine_started b));;
  mret sl.

Definition _mgr_Close : Q Z :=
  x ← get_base;
  put_lib (set_OpenCnt (u16 (lib_OpenCnt (lib x) - 1)) (lib x));;
  x ← get_base;
  if (lib_OpenCnt (lib x) =? 0) && negb (Z.land (lib_Flags (lib x)) LIBF_DELEXP =? 0)
  then _mgr_Expunge
  else mret 0.

(** ** BSD calls *)

(** [addr] is the memory behind the pointer, [None] for a null pointer. *)
Definition extract_port (addr : option (list Z)) (addrlen : Z) : option Z :=
  match addr with
  | None => Some 0
  | Some p =>
    if addrlen <? 4 then Some 0 else
    b2 ← lookupZ p 2; b3 ← lookupZ p 3;
    Some (u16 (Z.lor (Z.shiftl b2 8) b3))
  end.

(** A call that needs the engine. *)
Definition with_engine {A} (fail : A) (m : Q A) : Q A :=
  rv ← ensure_engine; if negb (rv =? 0) then mret fail else m.

Definition bs_socket (domain type proto : Z) : Q Z :=
  with_engine (-1) (
  '(rv, sock) ← call_client (netstack_socket os domain type proto true);
  if negb (rv =? NETSTACK_OK) then mret (-1) else
  mret (default (-1) sock)).

Definition bs_bind (s : Z) (addr : option (list Z)) (addrlen : Z) : Q Z :=
  with_engine (-1) (
  port ← liftO (extract_port addr addrlen);
  rv ← call_client (netstack_bind os s port);
  mret (if rv =? NETSTACK_OK then 0 else -1)).

Definition bs_connect (s : Z) (addr : option (list Z)) (addrlen : Z) : Q Z :=
  with_engine (-1) (
  port ← liftO (extract_port addr addrlen);
  rv ← call_client (netstack_connect os s port);
  mret (if rv =? NETSTACK_OK then 0 else -1)).

Definition bs_listen (s backlog : Z) : Q Z :=
  with_engine (-1) (
  rv ← call_client (netstack_listen os s backlog);
  mret (if rv =? NETSTACK_OK then 0 else -1)).

(** [for (int i = 4; i < 16 && i < *addrlen; i++) p[i] = 0;], [n] iterations at most. *)
Fixpoint zero_fill (n : nat) (i len : Z) (p : list Z) : option (list Z) :=
  match n with
  | O => Some p
  | S n' => if i <? len then p ← storeZ p i 0; zero_fill n' (i + 1) len p else Some p
  end.

(** The peer's address: the memory and [*addrlen] afterwards. *)
Definition write_peer (peer_port : Z) (p : list Z) (len : Z) : option (list Z * Z) :=
  p ← storeZ p 0 16;
  p ← storeZ p 1 2;
  p ← storeZ p 2 (u8 (Z.shiftr peer_port 8));
  p ← storeZ p 3 (u8 (Z.land peer_port 0xFF));
  p ← zero_fill 12 4 len p;
  Some (p, 16).

(** The result, the memory behind [addr] and [*addrlen]. *)
Definition bs_accept (s : Z) (addr : option (list Z)) (addrlen : option Z)
  : Q (Z * option (list Z) * option Z) :=
  with_engine (-1, addr, addrlen) (
  '(rv, new_sock, peer_port) ← call_client (netstack_accept os s true true);
  if negb (rv =? NETSTACK_OK) then mret (-1, addr, addrlen) else
  match addr, addrlen with
  | Some p, Some len =>
    if 8 <=? len then
      '(p, len) ← liftO (write_peer (default 0 peer_port) p len);
      mret (default (-1) new_sock, Some p, Some len)
    else mret (default (-1) new_sock, addr, addrlen)
  | _, _ => mret (default (-1) new_sock, addr, addrlen)
  end).

Definition bs_send (s : Z) (buf : list Z) (len flags : Z) : Q Z :=
  with_engine (-1) (
  rv ← call_client (netstack_send os s buf len);
  mret (if 0 <=? rv then rv else -1)).

Definition bs_recv (s : Z) (buf : option (list Z)) (len flags : Z) : Q (Z * option (list Z)) :=
  with_engine (-1, buf) (
  '(rv, b) ← call_client (netstack_recv os s buf len);
  mret (if 0 <=? rv then rv else -1, b)).

Definition bs_CloseSocket (s : Z) : Q Z :=
  with_engine (-1) (
  rv ← call_client (netstack_close os s);
  mret (if rv =? NETSTACK_OK then 0 else -1)).
End shell.
