(* ===== verification/BsdProps.v ===== *)
(** * The bsdsocket shell: what it promises

    The lifecycle of the library base against an abstract machine, the BSD
    calls against the socket specification, and the address format. *)

From S2P Require Import Prelude Ipc FdTable FdSpec Exec Service Client ClientReqs.
From S2P Require Import ClientProps ClientApi Bsdsocket.

(** ** Addresses *)

(** The sixteen bytes of a [sockaddr_in] with a port. *)
Definition sockaddr_in (port : Z) : list Z := [16; 2] ++ be_encode 2 port ++ replicate 12 0.

Lemma zero_fill_run n : forall i len p,
  0 <= i -> Z.min (i + Z.of_nat n) len <= Z.of_nat (length p) ->
  exists k, zero_fill n i len p =
    Some (list_inserts (Z.to_nat i) (replicate k 0) p) /\
    Z.of_nat k = Z.max 0 (Z.min (Z.of_nat n) (len - i)).
Proof.
  induction n as [|n IH]; intros i len p Hi Hl; cbn [zero_fill].
  { exists O. split; [done|lia]. }
  destruct (Z.ltb_spec i len) as [Hlt|Hge]; [|exists O; split; [done|lia]].
  rewrite storeZ_run by lia. cbn [mbind option_bind].
  destruct (IH (i + 1) len (<[Z.to_nat i:=0]> p)) as (k & -> & Hk); [lia|rewrite length_insert; lia|].
  exists (S k). split; [|lia]. cbn [replicate list_inserts]. f_equal.
  replace (Z.to_nat (i + 1)) with (S (Z.to_nat i)) by lia.
  apply list_eq. intros j. destruct (decide (j = Z.to_nat i)) as [->|Hne].
  - rewrite list_lookup_inserts_lt by lia.
    rewrite !list_lookup_insert_eq by (rewrite ?length_inserts; lia). done.
  - rewrite (list_lookup_insert_ne (list_inserts _ _ _)) by done.
    destruct (decide (S (Z.to_nat i) <= j < S (Z.to_nat i) + k)%nat) as [Hin|Hout].
    + rewrite !list_lookup_inserts by (rewrite ?length_insert, ?length_replicate; lia). done.
    + destruct (decide (j < S (Z.to_nat i))%nat).
      * rewrite !list_lookup_inserts_lt by lia. by rewrite list_lookup_insert_ne.
      * rewrite !list_lookup_inserts_ge by (rewrite length_replicate; lia).
        by rewrite list_lookup_insert_ne.
Qed.

Lemma lor_bytes hi lo : is_u8 lo -> Z.lor (Z.shiftl hi 8) lo = hi * 256 + lo.
Proof.
  intros Hlo. rewrite Z.shiftl_mul_pow2 by lia. change (2 ^ 8) with 256.
  pose proof (Z.add_lor_land (hi * 256) lo) as Hs.
  assert (Hz : Z.land (hi * 256) lo = 0); [|lia].
  apply Z.bits_inj'. intros i Hi. rewrite Z.land_spec, Z.bits_0.
  change 256 with (2 ^ 8). rewrite <- Z.shiftl_mul_pow2, Z.shiftl_spec by lia.
  destruct (decide (i < 8)); [by rewrite Z.testbit_neg_r by lia|].
  rewrite <- (u8_id lo) by done. unfold u8. change 256 with (2 ^ 8).
  rewrite (Z.mod_pow2_bits_high _ 8 i) by lia. apply andb_false_r.
Qed.

Lemma port_bytes port :
  be_encode 2 port = [u8 (Z.shiftr port 8); u8 (Z.land port 0xFF)].
Proof.
  cbn [be_encode app]. change 0xFF with (Z.ones 8). rewrite Z.land_ones, Z.shiftr_div_pow2 by lia.
  change (2 ^ 8) with 256. unfold u8. f_equal. by rewrite Z.mod_mod.
Qed.

Lemma list_inserts_cons {A} i (a : A) l q : list_inserts (S i) l (a :: q) = a :: list_inserts i l q.
Proof. revert i. induction l as [|x l IH]; intros i; [done|]. cbn [list_inserts]. by rewrite IH. Qed.

Lemma write_peer_run port p len :
  8 <= len <= Z.of_nat (length p) ->
  let n := Z.to_nat (Z.min 16 len) in
  write_peer port p len = Some (take n (sockaddr_in port) ++ drop n p, 16).
Proof.
  intros Hlen n. unfold write_peer.
  destruct p as [|x0 [|x1 [|x2 [|x3 p]]]]; cbn [length] in Hlen; try lia.
  rewrite (storeZ_run _ 0) by (cbn [length]; lia). cbn [mbind option_bind].
  rewrite (storeZ_run _ 1) by (rewrite ?length_insert; cbn [length]; lia). cbn [mbind option_bind].
  rewrite (storeZ_run _ 2) by (rewrite ?length_insert; cbn [length]; lia). cbn [mbind option_bind].
  rewrite (storeZ_run _ 3) by (rewrite ?length_insert; cbn [length]; lia). cbn [mbind option_bind].
  destruct (zero_fill_run 12 4 len (16 :: 2 :: u8 (Z.shiftr port 8) :: u8 (Z.land port 0xFF) :: p))
    as (k & Hz & Hk); [lia|cbn [length]; lia|].
  change (Z.to_nat 0) with 0%nat. change (Z.to_nat 1) with 1%nat.
  change (Z.to_nat 2) with 2%nat. change (Z.to_nat 3) with 3%nat.
  cbn [mbind option_bind insert list_insert]. rewrite Hz. cbn [mbind option_bind]. do 2 f_equal.
  assert (Hn : n = (4 + k)%nat) by lia. rewrite Hn. clear Hz Hn n.
  unfold sockaddr_in. rewrite port_bytes. change (Z.to_nat 4) with 4%nat.
  cbn [app firstn skipn Nat.add]. rewrite take_replicate, Nat.min_l by lia.
  rewrite !list_inserts_cons. do 4 f_equal. apply list_eq. intros j.
  destruct (decide (j < k)%nat).
  - rewrite list_lookup_inserts by (rewrite ?length_replicate; lia).
    rewrite lookup_app_l by (rewrite length_replicate; lia). by rewrite Nat.sub_0_r.
  - rewrite list_lookup_inserts_ge by (rewrite length_replicate; lia).
    rewrite lookup_app_r by (rewrite ?length_replicate; lia). rewrite length_replicate, lookup_drop.
    f_equal. lia.
Qed.

(** C22. The port [bs_accept] stores is the port [bs_bind] and [bs_connect] read
    back from the same memory, for every buffer it accepts; the memory past the
    address is untouched, and sixteen bytes give a whole [sockaddr_in]. *)
Theorem peer_addr_roundtrip port p len :
  is_u16 port -> 8 <= len <= Z.of_nat (length p) ->
  exists p', write_peer port p len = Some (p', 16) /\ length p' = length p /\
    extract_port (Some p') len = Some port /\
    (16 <= len -> p' = sockaddr_in port ++ drop 16 p) /\
    (forall i, 16 <= i -> lookupZ p' i = lookupZ p i).
Proof.
  intros Hp Hlen. rewrite (write_peer_run port p len Hlen). cbv zeta.
  set (n := Z.to_nat (Z.min 16 len)).
  assert (Hn : (8 <= n <= 16)%nat /\ (n <= length p)%nat) by lia.
  assert (Hls : length (sockaddr_in port) = 16%nat) by (unfold sockaddr_in; by rewrite port_bytes).
  assert (Htk : length (take n (sockaddr_in port)) = n) by (rewrite length_take; lia).
  eexists. split; [reflexivity|]. split; [rewrite length_app, Htk, length_drop; lia|]. split; [|split].
  - unfold extract_port. destruct (Z.ltb_spec len 4); [lia|].
    rewrite !lookupZ_nat by lia. change (Z.to_nat 2) with 2%nat. change (Z.to_nat 3) with 3%nat.
    rewrite !lookup_app_l, !lookup_take_lt by lia. unfold sockaddr_in. rewrite port_bytes. cbn.
    f_equal. rewrite lor_bytes by apply is_u8_u8.
    change 0xFF with (Z.ones 8). rewrite Z.land_ones, Z.shiftr_div_pow2 by lia.
    change (2 ^ 8) with 256. word.
  - intros H16. replace n with 16%nat by lia. done.
  - intros i Hi. rewrite !lookupZ_nat by lia. rewrite lookup_app_r by lia.
    rewrite Htk, lookup_drop. f_equal. lia.
Qed.

Lemma peer_addr_roundtrip_witness :
  exists p', write_peer 0x1F90 (replicate 16 7) 16 = Some (p', 16) /\
    extract_port (Some p') 16 = Some 0x1F90.
Proof.
  destruct (peer_addr_roundtrip 0x1F90 (replicate 16 7) 16) as (p' & Hw & _ & He & _).
  - word.
  - cbn. lia.
  - exists p'. split; [exact Hw|exact He].
Defined.
