(* ===== verification/BsdCalls.v ===== *)
(** * BSD calls refine the socket specification

    The eight calls of bsdsocket_library.c as one family: each has the effect
    of one operation of the socket specification, with the result folded into
    the BSD convention (-1 for every error) and the caller's memory changed as
    its answer says. *)

From S2P Require Import Prelude Ipc FdTable FdSpec Exec Service Client ClientReqs.
From S2P Require Import ClientProps ClientApi Bsdsocket BsdProps.

(** ** Shape of the answers *)

(** The answers an operation can have. *)
Definition answers (o : sockop) (x : sockres) : Prop :=
  match o, x with
  | _, RErr e => e < 0
  | OpSocket _ _ _, RSock _ | OpAccept _, RAccepted _ _ | OpRecv _ _, RData _ => True
  | OpClose _, ROk | OpBind _ _, ROk | OpListen _, ROk | OpConnect _ _, ROk => True
  | OpSend _ _ _, RSent n => 0 <= n
  | _, _ => False
  end.

Lemma spec_answers o a x a' : spec_step o a = (x, a') -> answers o x.
Proof.
  destruct o; cbn [spec_step]; unfold spec_socket, spec_close, spec_bind, spec_listen,
    spec_connect, spec_accept, spec_send, spec_recv; cbv zeta;
    repeat case_match; intros [= <- _]; cbn [answers]; try done.
  repeat match goal with
  | H : (_ || _) = false |- _ => apply orb_false_iff in H as [? ?]
  | H : (_ <? _) = false |- _ => apply Z.ltb_ge in H
  | H : (_ <=? _) = false |- _ => apply Z.leb_gt in H
  end. lia.
Qed.

(** ** The calls *)

Inductive bsdcall :=
  | BSocket (domain type proto : Z)
  | BBind (s : Z) (addr : option (list Z)) (addrlen : Z)
  | BConnect (s : Z) (addr : option (list Z)) (addrlen : Z)
  | BListen (s backlog : Z)
  | BAccept (s : Z) (addr : option (list Z)) (addrlen : option Z)
  | BSend (s : Z) (buf : list Z) (len flags : Z)
  | BRecv (s : Z) (buf : list Z) (len flags : Z)
  | BClose (s : Z).

(** The call of the client library it makes; [None]: it reads outside the
    address. *)
Definition api_of (call : bsdcall) : option apicall :=
  match call with
  | BSocket d ty p => Some (ASocket d ty p)
  | BBind s addr n => ABind s <$> extract_port addr n
  | BConnect s addr n => AConnect s <$> extract_port addr n
  | BListen s b => Some (AListen s b)
  | BAccept s _ _ => Some (AAccept s)
  | BSend s buf len _ => Some (ASend s buf len)
  | BRecv s buf len _ => Some (ARecv s buf len)
  | BClose s => Some (AClose s)
  end.

(** The caller's memory behind the output pointers: the address or the buffer,
    and the address length. *)
Abbreviation outmem := (option (list Z) * option Z)%type.

Definition mem_before (call : bsdcall) : outmem :=
  match call with
  | BAccept _ addr n => (addr, n)
  | BRecv _ buf _ _ => (Some buf, None)
  | _ => (None, None)
  end.

(** The address buffer is as long as [*addrlen] says. *)
Definition mem_ok (call : bsdcall) : Prop :=
  match call with
  | BAccept _ (Some p) (Some n) => n <= Z.of_nat (length p)
  | _ => True
  end.

(** What a call returns when its operation was answered [x] ... *)
Definition bsd_value (x : sockres) : Z :=
  match x with
  | RErr _ | RMalformed => -1
  | ROk => 0
  | RSock fd | RAccepted fd _ => fd
  | RSent n => n
  | RData bs => Z.of_nat (length bs)
  end.

(** ... and what it leaves in the caller's memory. *)
Definition mem_after (call : bsdcall) (x : sockres) : outmem :=
  match call, x with
  | BAccept _ (Some p) (Some n), RAccepted _ port =>
    if 8 <=? n then
      let k := Z.to_nat (Z.min 16 n) in
      (Some (take k (sockaddr_in port) ++ drop k p), Some 16)
    else mem_before call
  | BRecv _ buf _ _, RData bs => (Some (bs ++ drop (length bs) buf), None)
  | _, _ => mem_before call
  end.

Section calls.
Context {W : Type} `{!Exec W, !ExecViews W, !Service W, !ExecLaws W, !ServiceLaws W, !Host W}.
Context (os : sdk).
Implicit Types (b : bsd) (c : client) (w : W).

Notation Q := (M (bsd * (client * W))).

Definition run_bsd (call : bsdcall) : Q (Z * outmem) :=
  match call with
  | BSocket d ty p => rv ← bs_socket os d ty p; mret (rv, mem_before call)
  | BBind s addr n => rv ← bs_bind os s addr n; mret (rv, mem_before call)
  | BConnect s addr n => rv ← bs_connect os s addr n; mret (rv, mem_before call)
  | BListen s k => rv ← bs_listen os s k; mret (rv, mem_before call)
  | BAccept s addr n => '(rv, addr, n) ← bs_accept os s addr n; mret (rv, (addr, n))
  | BSend s buf len fl => rv ← bs_send os s buf len fl; mret (rv, mem_before call)
  | BRecv s buf len fl => '(rv, o) ← bs_recv os s (Some buf) len fl; mret (rv, (o, None))
  | BClose s => rv ← bs_CloseSocket os s; mret (rv, mem_before call)
  end.

(** What every call ends with. *)
Definition bsd_done (call : bsdcall) (a : apicall) b c w : Prop :=
  exists v m c' w', run_bsd call (b, (c, w)) = Some ((v, m), (b, (c', w'))) /\
    wf_client c' w' /\ up w' /\
    ((v = -1 /\ m = mem_before call /\ sockets w' = sockets w /\
      (bad_length a = true \/ ~ (FindPort w <> 0 /\ has_port c w))) \/
     (bad_length a = false /\ has_port c' w' /\ exists x, served (op_of a) w w' x /\
      v = bsd_value x /\ m = mem_after call x)).

Lemma with_engine_started {A} (fail : A) (m : Q A) b cw :
  g_engine_started b = true -> with_engine fail m (b, cw) = m (b, cw).
Proof.
  intros Hb. unfold with_engine, ensure_engine, mbind, M_bind, get_b. by rewrite Hb.
Qed.

Lemma call_client_run {A} (m : M (client * W) A) b c w x c' w' :
  m (c, w) = Some (x, (c', w')) -> call_client m (b, (c, w)) = Some (x, (b, (c', w'))).
Proof. unfold call_client. by intros ->. Qed.

(** A BSD call is a client call [m] and local code [post] on its result. *)
Lemma bsd_step {A} call a (m : M (client * W) A) (out : A -> Z * list Z)
    (post : A -> Q (Z * outmem)) b c w :
  wf_client c w -> up w -> args_ok a ->
  (forall st, run_api os a st = (x ← m; mret (out x)) st) ->
  run_bsd call (b, (c, w)) = (call_client m ≫= post) (b, (c, w)) ->
  (forall x st cw, m (c, w) = Some (x, cw) -> fst (out x) < 0 ->
     post x st = Some ((-1, mem_before call), st)) ->
  (forall x y st cw, m (c, w) = Some (x, cw) -> answers (op_of a) y ->
     result_is a y (out x) -> 0 <= fst (out x) ->
     post x st = Some ((bsd_value y, mem_after call y), st)) ->
  (forall e, mem_after call (RErr e) = mem_before call) ->
  (bad_length a = true -> exists x, m (c, w) = Some (x, (c, w)) /\ fst (out x) < 0) ->
  bsd_done call a b c w.
Proof.
  intros Hw Hu Ha Hapi Hrun Hfail Hok Hmem Hbad. unfold bsd_done. rewrite Hrun.
  destruct (bad_length a) eqn:Hb.
  { destruct (Hbad eq_refl) as (x & Hx & Hneg).
    rewrite (bind_some _ _ _ _ _ (call_client_run m b _ _ _ _ _ Hx)).
    rewrite (Hfail _ _ _ Hx) by done.
    exists (-1), (mem_before call), c, w. split; [done|]. split; [done|]. split; [done|].
    left. split; [done|]. split; [done|]. split; [done|]. by left. }
  destruct (call_done os a c w Hw Hu Ha Hb) as (v & c' & w' & Hr & Hw' & Hu' & _ & _ & Hc).
  rewrite Hapi in Hr. apply bind_inv in Hr as (x & [c1 w1] & Hx & [= Hv -> ->]).
  rewrite (bind_some _ _ _ _ _ (call_client_run m b _ _ _ _ _ Hx)). subst v.
  destruct Hc as [(Hv & Hs & Hno)|(Hh & y & Hsv & Hy)].
  { rewrite (Hfail _ _ _ Hx) by lia. exists (-1), (mem_before call), c', w'. do 3 (split; [done|]).
    left. split; [done|]. split; [done|]. split; [done|]. by right. }
  pose proof Hsv as (s & s' & _ & Hstep & _). apply spec_answers in Hstep.
  destruct (decide (fst (out x) < 0)) as [Hneg|Hneg].
  - assert (exists e, y = RErr e) as [e ->].
    { destruct a, y; cbn in Hstep, Hy; try done; eauto;
        rewrite Hy in Hneg; cbn in Hneg; unfold NETSTACK_OK in *; lia. }
    rewrite (Hfail _ _ _ Hx) by done. exists (-1), (mem_before call), c', w'.
    do 3 (split; [done|]). right. do 2 (split; [done|]). exists (RErr e). by rewrite Hmem.
  - rewrite (Hok x y _ _ Hx) by (done || lia). exists (bsd_value y), (mem_after call y), c', w'.
    do 3 (split; [done|]). right. do 2 (split; [done|]). by exists y.
Qed.

(** The plain calls: the client's verdict, 0 or -1. *)
Lemma verdict_step call a (m : M (client * W) Z) b c w :
  wf_client c w -> up w -> args_ok a ->
  match a with AClose _ | ABind _ _ | AListen _ _ | AConnect _ _ => True | _ => False end ->
  (forall st, run_api os a st = (rc ← m; mret (rc, [])) st) ->
  run_bsd call (b, (c, w)) = (rv ← call_client m;
     mret (if rv =? NETSTACK_OK then 0 else -1, mem_before call)) (b, (c, w)) ->
  (forall x, mem_after call x = mem_before call) ->
  bsd_done call a b c w.
Proof.
  intros Hw Hu Ha Hk Hapi Hr Hmem.
  eapply (bsd_step call a m (fun rc => (rc, []))); try done.
  - intros rc st cw Hrun Hrc. cbn in *. destruct (Z.eqb_spec rc NETSTACK_OK); [unfold NETSTACK_OK in *; lia|done].
  - intros rc y st cw Hrun Hans Hy Hrc. rewrite Hmem.
    destruct a; try done; destruct y; cbn in *; try done; try lia; by injection Hy as ->.
  - by destruct a.
Qed.

Ltac open_call Hb := unfold run_bsd, bs_socket, bs_bind, bs_connect, bs_listen, bs_accept, bs_send,
  bs_recv, bs_CloseSocket; unfold mbind at 1, M_bind at 1; rewrite with_engine_started by exact Hb.

Ltac run_both m := unfold mbind, M_bind, mret, M_ret, liftO;
  destruct (m _) as [[? ?]|]; reflexivity.

(** [netstack_recv] hands a buffer back, changed only by a positive count. *)
Lemma recv_inv s buf max st rc o st' :
  netstack_recv os s (Some buf) max st = Some ((rc, o), st') ->
  is_Some o /\ (rc < 0 -> o = Some buf).
Proof.
  unfold netstack_recv. destruct (max <? 0); [by intros [= <- <- _]|]. cbv zeta.
  intros Hr. apply bind_inv in Hr as ([rc1 r1] & st1 & _ & Hr).
  destruct (negb _); [by injection Hr as <- <- _|].
  destruct (negb _); [by injection Hr as <- <- _|].
  destruct (Z.ltb_spec 0 (recv_len_out r1)); [|by injection Hr as <- <- _].
  apply bind_inv in Hr as (b' & st2 & _ & [= <- <- _]). split; [done|lia].
Qed.

Lemma accept_step s addr addrlen b c w :
  g_engine_started b = true -> wf_client c w -> up w -> is_s32 s ->
  mem_ok (BAccept s addr addrlen) -> bsd_done (BAccept s addr addrlen) (AAccept s) b c w.
Proof.
  intros Hb Hw Hu Hargs Hm.
  apply (bsd_step _ _ (netstack_accept os s true true)
    (fun x => (fst (fst x), option_list (snd (fst x)) ++ option_list (snd x)))
    (fun x => let '(rv, new_sock, peer_port) := x in
      if negb (rv =? NETSTACK_OK) then mret (-1, (addr, addrlen)) else
      match addr, addrlen with
      | Some p, Some len =>
        if 8 <=? len then
          '(p, len) ← liftO (write_peer (default 0 peer_port) p len);
          mret (default (-1) new_sock, (Some p, Some len))
        else mret (default (-1) new_sock, (addr, addrlen))
      | _, _ => mret (default (-1) new_sock, (addr, addrlen))
      end)); try done.
  - intros st. cbn [run_api]. apply bind_ext_run. by intros [[rc o] o2] ?.
  - open_call Hb. unfold mbind, M_bind, mret, M_ret, liftO.
    destruct (call_client _ _) as [[[[rv o1] o2] ?]|]; [|done].
    repeat case_match; simplify_eq; done.
  - intros [[rc o1] o2] st cw Hrun Hrc. cbn in *. by destruct (Z.eqb_spec rc NETSTACK_OK); [unfold NETSTACK_OK in *; lia|].
  - intros [[rc o1] o2] y st cw Hrun Hans Hy Hrc. destruct y; cbn in Hans, Hy, Hrc; try done; [lia|].
    injection Hy as -> Ho. destruct o1 as [x1|], o2 as [x2|]; try done. injection Ho as -> ->.
    cbn. destruct addr as [p|], addrlen as [n|]; try done.
    destruct (Z.leb_spec 8 n); [|done]. cbn in Hm. rewrite write_peer_run by lia. done.
  - intros e. by destruct addr, addrlen.
Qed.

Lemma bs_calls_done call a b c w :
  g_engine_started b = true -> wf_client c w -> up w ->
  api_of call = Some a -> args_ok a -> mem_ok call -> bsd_done call a b c w.
Proof.
  intros Hb Hw Hu Ha Hargs Hm. destruct call; cbn [api_of] in Ha.
  all: try (apply fmap_Some in Ha as (port & Hport & ->)); try injection Ha as <-.
  - apply (bsd_step _ _ (netstack_socket os domain type proto true)
      (fun x => (fst x, option_list (snd x)))
      (fun x => mret (if negb (fst x =? NETSTACK_OK) then -1 else default (-1) (snd x), (None, None))));
      try done.
    + intros st. cbn [run_api]. apply bind_ext_run. by intros [rc o] ?.
    + open_call Hb. unfold mbind, M_bind, mret, M_ret.
      destruct (call_client _ _) as [[[rv sock] ?]|]; [|done]. cbn. by destruct (negb _).
    + intros [rc o] st cw Hrun Hrc. cbn in *. by destruct (Z.eqb_spec rc NETSTACK_OK); [unfold NETSTACK_OK in *; lia|].
    + intros [rc o] y st cw Hrun Hans Hy Hrc. destruct y; cbn in Hans, Hy, Hrc; try done; [lia|].
      injection Hy as -> Ho. destruct o; [|done]. by injection Ho as ->.
  - apply (verdict_step _ _ (netstack_bind os s port)); try done. open_call Hb.
    rewrite Hport. run_both (call_client (W:=W) (netstack_bind os s port)).
  - apply (verdict_step _ _ (netstack_connect os s port)); try done. open_call Hb.
    rewrite Hport. run_both (call_client (W:=W) (netstack_connect os s port)).
  - apply (verdict_step _ _ (netstack_listen os s backlog)); try done. open_call Hb.
    run_both (call_client (W:=W) (netstack_listen os s backlog)).
  - by apply accept_step.
  - apply (bsd_step _ _ (netstack_send os s buf len) (fun rc => (rc, []))
      (fun rv => mret (if 0 <=? rv then rv else -1, (None, None)))); try done.
    + open_call Hb. run_both (call_client (W:=W) (netstack_send os s buf len)).
    + intros rc st cw Hrun Hrc. cbn in *. by destruct (Z.leb_spec 0 rc); [lia|].
    + intros rc y st cw Hrun Hans Hy Hrc. cbn in *. destruct (Z.leb_spec 0 rc); [|lia].
      destruct y; cbn in Hans, Hy; try done; [lia|]. by injection Hy as ->.
    + cbn [bad_length]. intros Hbad. unfold netstack_send. rewrite Hbad. by eexists.
  - apply (bsd_step _ _ (netstack_recv os s (Some buf) len) (fun x => (fst x, default [] (snd x)))
      (fun x => mret (if 0 <=? fst x then fst x else -1, (snd x, None)))); try done.
    + intros st. cbn [run_api]. apply bind_ext_run. by intros [rc o] ?.
    + open_call Hb. unfold mbind, M_bind, mret, M_ret.
      by destruct (call_client _ _) as [[[rv o] ?]|].
    + intros [rc o] st cw Hrun Hrc. cbn in *. destruct (Z.leb_spec 0 rc); [lia|].
      by rewrite (proj2 (recv_inv _ _ _ _ _ _ _ Hrun)) by lia.
    + intros [rc o] y st cw Hrun Hans Hy Hrc. cbn in *. destruct (Z.leb_spec 0 rc); [|lia].
      destruct y; cbn in Hans, Hy; try done; [lia|]. injection Hy as -> Ho.
      destruct (proj1 (recv_inv _ _ _ _ _ _ _ Hrun)) as [b' ->]. cbn in Ho. by subst b'.
    + cbn [bad_length]. intros Hbad. unfold netstack_recv. rewrite Hbad. by eexists.
  - apply (verdict_step _ _ (netstack_close os s)); try done. open_call Hb.
    run_both (call_client (W:=W) (netstack_close os s)).
Qed.
End calls.

(** C18. Every BSD call, once the engine was started, is one operation of the
    socket specification.  The call always returns and leaves the shell's state
    alone, and: -1 with the caller's memory and every socket untouched, because
    of a length the library rejects or an engine it cannot reach; or the
    operation took effect exactly once, the result is the descriptor, the byte
    count, 0, or -1 for any error of the engine, and the memory behind the output
    pointers is what the answer says (a [sockaddr_in] with the peer's port cut to
    the caller's length, or the bytes received). *)
Theorem bs_calls_refine {W} `{ExecLaws W, Service W, !ServiceLaws W, Host W} (os : sdk)
    (call : bsdcall) (a : apicall) (b : bsd) (c : client) (w : W) :
  g_engine_started b = true -> wf_client c w -> up w ->
  api_of call = Some a -> args_ok a -> mem_ok call ->
  exists v m c' w', run_bsd os call (b, (c, w)) = Some ((v, m), (b, (c', w'))) /\
    wf_client c' w' /\ up w' /\
    ((v = -1 /\ m = mem_before call /\ sockets w' = sockets w /\
      (bad_length a = true \/ ~ (FindPort w <> 0 /\ has_port c w))) \/
     (bad_length a = false /\ has_port c' w' /\ exists x, served (op_of a) w w' x /\
      v = bsd_value x /\ m = mem_after call x)).
Proof. apply bs_calls_done. Qed.

(** ** The types a caller relies on *)

(** The values a call can return beside -1. *)
Definition in_range (call : bsdcall) (v : Z) : Prop :=
  match call with
  | BSocket _ _ _ | BAccept _ _ _ => FD_FIRST <= v
  | BBind _ _ _ | BConnect _ _ _ | BListen _ _ | BClose _ => v = 0
  | BSend _ _ len _ | BRecv _ _ len _ => 0 <= v <= Z.min len NETSTACK_MAX_PAYLOAD
  end.

(** Memory objects keep their size, and a pointer stays the pointer it was. *)
Definition same_shape (m m' : outmem) : Prop :=
  (length <$> fst m) = (length <$> fst m') /\ (is_Some (snd m) <-> is_Some (snd m')).

Lemma free_slot_first a fd : free_slot a = Some fd -> FD_FIRST <= fd.
Proof.
  unfold free_slot, first_fd. destruct (list_find _ _) as [[j s]|]; [|done].
  intros [= <-]. lia.
Qed.

Lemma spec_range o a x a' : spec_step o a = (x, a') ->
  match x with
  | RSock fd | RAccepted fd _ => FD_FIRST <= fd
  | RSent n => match o with OpSend _ len _ => n <= len | _ => True end
  | RData bs => match o with OpRecv _ want => Z.of_nat (length bs) <= Z.max want 0 | _ => True end
  | _ => True
  end.
Proof.
  intros Hs. pose proof (spec_answers _ _ _ _ Hs) as Hans.
  destruct o, x; cbn [answers] in Hans; try done; cbn [spec_step] in Hs.
  - unfold spec_socket in Hs. destruct (free_slot a) eqn:Hf; [|done].
    injection Hs as <- _. by eapply free_slot_first.
  - unfold spec_accept in Hs. cbv zeta in Hs. destruct (live a fd) as [l|]; [|done].
    destruct (negb _); [done|]. destruct (aqueue l); [done|].
    destruct (free_slot a) eqn:Hf; [|done]. injection Hs as <- _ _. by eapply free_slot_first.
  - unfold spec_send in Hs. cbv zeta in Hs. repeat case_match; try done. injection Hs as <- _. lia.
  - by pose proof (spec_recv_answer _ _ _ _ _ Hs).
Qed.

Lemma result_in_range call a0 a x a' :
  api_of call = Some a0 -> bad_length a0 = false -> spec_step (op_of a0) a = (x, a') ->
  bsd_value x = -1 \/ in_range call (bsd_value x).
Proof.
  intros Ha Hb Hs. pose proof (spec_answers _ _ _ _ Hs) as Hans.
  pose proof (spec_range _ _ _ _ Hs) as Hr.
  destruct call; cbn [api_of] in Ha;
    try (apply fmap_Some in Ha as (? & _ & ->)); try injection Ha as <-;
    cbn [op_of] in *; destruct x; cbn in Hans, Hr, Hb |- *; try done; try (by left); right;
    try done; unfold NETSTACK_MAX_PAYLOAD in *.
  - destruct (Z.ltb_spec len 0), (Z.ltb_spec 1024 len); try done. lia.
  - destruct (Z.ltb_spec len 0); [done|]. lia.
Qed.

Lemma mem_shape call a0 a x a' :
  api_of call = Some a0 -> args_ok a0 -> mem_ok call -> bad_length a0 = false ->
  spec_step (op_of a0) a = (x, a') -> same_shape (mem_before call) (mem_after call x).
Proof.
  intros Ha Hargs Hm Hb Hs. pose proof (spec_range _ _ _ _ Hs) as Hr.
  assert (H0 : same_shape (mem_before call) (mem_before call)) by done.
  destruct call; cbn [api_of] in Ha; try exact H0; cbn [mem_after].
  - destruct addr as [p|], addrlen as [n|], x; try exact H0.
    destruct (Z.leb_spec 8 n); [|exact H0]. cbn in Hm. split; [|cbn; split; by eexists].
    cbn. f_equal. rewrite length_app, length_take, length_drop.
    cbn [length]. lia.
  - injection Ha as <-. cbn in Hargs, Hb. destruct Hargs as [_ Hlen]. destruct (Z.ltb_spec len 0); [done|].
    cbn in Hr. destruct x; try exact H0. split; [|done]. cbn. f_equal.
    unfold NETSTACK_MAX_PAYLOAD in *. rewrite length_app, length_drop. lia.
Qed.

(** C19. The types of the BSD calls.  Every call on arguments of its C types returns
    -1 or a value of its own range (a descriptor from 3 on, 0, or a byte count
    between 0 and the length asked, at most 1024), keeps every memory object it
    was given at its size and every output pointer defined, and leaves the client
    library and the engine in the states the next call needs. *)
Theorem bs_results_typed {W} `{ExecLaws W, Service W, !ServiceLaws W, Host W} (os : sdk)
    (call : bsdcall) (a : apicall) (b : bsd) (c : client) (w : W) :
  g_engine_started b = true -> wf_client c w -> up w ->
  api_of call = Some a -> args_ok a -> mem_ok call ->
  exists v m c' w', run_bsd os call (b, (c, w)) = Some ((v, m), (b, (c', w'))) /\
    wf_client c' w' /\ up w' /\ (v = -1 \/ in_range call v) /\ same_shape (mem_before call) m.
Proof.
  intros Hb Hw Hu Ha Hargs Hm.
  destruct (bs_calls_done os call a b c w Hb Hw Hu Ha Hargs Hm)
    as (v & m & c' & w' & Hr & Hw' & Hu' & Hc).
  exists v, m, c', w'. do 3 (split; [done|]).
  destruct Hc as [(-> & -> & _)|(Hbad & _ & x & Hsv & -> & ->)]; [split; [by left|done]|].
  destruct Hsv as (s & s' & _ & Hstep & _). split; [by eapply result_in_range|by eapply mem_shape].
Qed.
