(* ===== verification/BsdLife.v ===== *)
(** * Life of the library base

    Open, close and expunge against an abstract machine with an open count and
    a deferred expunge; the lazy start of the engine; and a session of the BSD
    calls in the world of Sim.v. *)

From S2P Require Import Prelude Ipc FdTable FdSpec FdRefine Engine Exec Service.
From S2P Require Import Client ClientReqs.
From S2P Require Import ClientProps ClientApi Sim Bsdsocket BsdProps BsdCalls.

(** ** The abstract machine *)

Inductive lstate :=
  | LAlive (n : Z) (pending : bool)    (* open [n] times; an expunge is owed *)
  | LGone.                             (* torn down *)

Inductive lop := LibOpen | LibClose | LibExpunge.

(** The segment list is returned exactly when the library goes.  [None]: a close
    too many, an open past the 16-bit count, a call on a base that is gone. *)
Definition lib_spec (sl : Z) (o : lop) (s : lstate) : option (Z * lstate) :=
  match s, o with
  | LAlive n _, LibOpen => if n <? 65535 then Some (0, LAlive (n + 1) false) else None
  | LAlive n p, LibClose =>
    if n <? 1 then None
    else if (n =? 1) && p then Some (sl, LGone) else Some (0, LAlive (n - 1) p)
  | LAlive n p, LibExpunge => if 0 <? n then Some (0, LAlive n true) else Some (sl, LGone)
  | LGone, _ => None
  end.

Fixpoint lib_spec_run (sl : Z) (os : list lop) (s : lstate) : option (list Z * lstate) :=
  match os with
  | [] => Some ([], s)
  | o :: os' =>
    '(r, s) ← lib_spec sl o s;
    '(rs, s) ← lib_spec_run sl os' s;
    Some (r :: rs, s)
  end.

Section life.
Context {W : Type} `{!Exec W, !ExecViews W, !ExecLaws W, !Host W}.
Implicit Types (b : bsd) (c : client) (w : W).

Notation Q := (M (bsd * (client * W))).

Definition lib_call (o : lop) : Q Z :=
  match o with
  | LibOpen => _mgr_Open;; mret 0
  | LibClose => _mgr_Close
  | LibExpunge => _mgr_Expunge
  end.

Fixpoint lib_run (l : list lop) : Q (list Z) :=
  match l with
  | [] => mret []
  | o :: l' => r ← lib_call o; rs ← lib_run l'; mret (r :: rs)
  end.

(** What tearing down does: the client library first, then the engine, then the
    node and the memory of the base. *)
Definition torn c w c' w' : Prop :=
  exists w1, netstack_client_shutdown (c, w) = Some (tt, (c', w1)) /\
    w' = DeleteLibrary (RemoveNode (EngineStop w1)).

(** A base in an abstract state; [b0, c0, w0] is what the sequence began with. *)
Definition lib_is (sl : Z) b0 c0 w0 (s : lstate) b c w : Prop :=
  g_engine_started b = g_engine_started b0 /\ g_IExec b = g_IExec b0 /\
  match s with
  | LAlive n p => exists x, base b = Some x /\ lib_OpenCnt (lib x) = n /\ is_u16 n /\
      seglist x = sl /\ negb (Z.land (lib_Flags (lib x)) LIBF_DELEXP =? 0) = p /\
      c = c0 /\ w = w0
  | LGone => base b = None /\ torn c0 w0 c w
  end.

Lemma get_base_run b c w x :
  base b = Some x -> get_base (b, (c, w)) = Some (x, (b, (c, w))).
Proof. intros Hx. unfold get_base, mbind, M_bind, get_b. by rewrite Hx. Qed.

Lemma put_lib_run b c w x l :
  base b = Some x -> put_lib l (b, (c, w)) =
    Some (tt, (mk_bsd (Some (mk_BsdsocketBase l (seglist x) (base_IExec x))) (g_IExec b)
      (g_engine_started b), (c, w))).
Proof. intros Hx. unfold put_lib, get_base, mbind, M_bind, get_b. by rewrite Hx. Qed.

Lemma delexp_clear f : Z.land (Z.land f (u8 (Z.lnot LIBF_DELEXP))) LIBF_DELEXP = 0.
Proof. rewrite <- Z.land_assoc. change (Z.land _ LIBF_DELEXP) with 0. apply Z.land_0_r. Qed.

Lemma delexp_set f : negb (Z.land (Z.lor f LIBF_DELEXP) LIBF_DELEXP =? 0) = true.
Proof.
  rewrite Z.land_lor_distr_l. change (Z.land LIBF_DELEXP LIBF_DELEXP) with 8.
  destruct (Z.eqb_spec (Z.lor (Z.land f LIBF_DELEXP) 8) 0) as [He|]; [|done].
  by apply Z.lor_eq_0_iff in He as [_ ?].
Qed.

(** Expunge of a base that nobody has open. *)
Lemma expunge_run b c w x :
  wf_client c w -> base b = Some x -> lib_OpenCnt (lib x) = 0 ->
  exists c' w', _mgr_Expunge (b, (c, w)) =
    Some (seglist x, (mk_bsd None (g_IExec b) (g_engine_started b), (c', w'))) /\ torn c w c' w'.
Proof.
  intros Hw Hx H0. destruct (client_shutdown_run c w Hw) as (c' & w1 & Hs & _ & _).
  exists c', (DeleteLibrary (RemoveNode (EngineStop w1))). split; [|by exists w1].
  unfold _mgr_Expunge. rewrite (bind_some _ _ _ _ _ (get_base_run _ _ _ _ Hx)), H0.
  cbn [Z.ltb Z.compare]. cbv zeta.
  unfold mbind, M_bind, call_client, host_do, get_b, put_b, mret, M_ret. by rewrite Hs.
Qed.

Lemma lib_call_spec sl b0 c0 w0 o s b c w r s' :
  wf_client c0 w0 -> lib_is sl b0 c0 w0 s b c w -> lib_spec sl o s = Some (r, s') ->
  exists b' c' w', lib_call o (b, (c, w)) = Some (r, (b', (c', w'))) /\
    lib_is sl b0 c0 w0 s' b' c' w'.
Proof.
  intros Hw (He & Hi & Hs) Hspec. destruct s as [n p|]; [|by destruct o].
  destruct Hs as (x & Hx & Hn & Hr & Hsl & Hp & -> & ->). destruct o; cbn [lib_spec lib_call] in *.
  - destruct (Z.ltb_spec n 65535); [|done]. injection Hspec as <- <-.
    unfold _mgr_Open. unfold mbind at 1, M_bind at 1.
    rewrite (bind_some _ _ _ _ _ (get_base_run _ _ _ _ Hx)), (put_lib_run _ _ _ _ _ Hx).
    do 3 eexists. split; [reflexivity|]. split; [done|]. split; [done|]. eexists.
    split; [reflexivity|]. cbn. rewrite Hn, delexp_clear. split; [word|]. split; [word|]. done.
  - destruct (Z.ltb_spec n 1); [done|]. unfold _mgr_Close.
    rewrite (bind_some _ _ _ _ _ (get_base_run _ _ _ _ Hx)).
    rewrite (bind_some _ _ _ _ _ (put_lib_run _ _ _ _ _ Hx)).
    rewrite (bind_some _ _ _ _ _ 
      (get_base_run (mk_bsd (Some _) _ _) _ _ _ eq_refl)). cbn [lib set_OpenCnt
      lib_OpenCnt lib_Flags]. rewrite Hn, Hp.
    replace (u16 (n - 1) =? 0) with (n =? 1)
      by (destruct (Z.eqb_spec n 1), (Z.eqb_spec (u16 (n - 1)) 0); done || word).
    destruct ((n =? 1) && p) eqn:Hlast; injection Hspec as <- <-.
    + apply andb_true_iff in Hlast as [Hn1%Z.eqb_eq _].
      match goal with |- context [_mgr_Expunge (?bb, _)] =>
        destruct (expunge_run bb c0 w0 _ Hw eq_refl) as (c' & w' & Hex & Ht) end.
      { cbn. subst n. by rewrite Hn1. }
      rewrite Hex. do 3 eexists. split; [cbn; by rewrite Hsl|]. by repeat (split; [done|]).
    + do 3 eexists. split; [reflexivity|]. split; [done|]. split; [done|]. eexists.
      split; [reflexivity|]. cbn. split; [word|]. split; [word|]. done.
  - destruct (Z.ltb_spec 0 n); injection Hspec as <- <-.
    + unfold _mgr_Expunge. rewrite (bind_some _ _ _ _ _ (get_base_run _ _ _ _ Hx)), Hn.
      rewrite (proj2 (Z.ltb_lt _ _)) by lia.
      rewrite (bind_some _ _ _ _ _ (put_lib_run _ _ _ _ _ Hx)).
      do 3 eexists. split; [reflexivity|]. split; [done|]. split; [done|]. eexists.
      split; [reflexivity|]. cbn. split; [done|]. split; [done|]. split; [done|].
      split; [apply delexp_set|done].
    + destruct (expunge_run b c0 w0 x Hw Hx) as (c' & w' & Hex & Ht); [word|].
      rewrite Hex, Hsl. do 3 eexists. split; [reflexivity|]. by repeat (split; [done|]).
Qed.

Lemma lib_run_spec sl b0 c0 w0 l : forall s b c w rs s',
  wf_client c0 w0 -> lib_is sl b0 c0 w0 s b c w -> lib_spec_run sl l s = Some (rs, s') ->
  exists b' c' w', lib_run l (b, (c, w)) = Some (rs, (b', (c', w'))) /\
    lib_is sl b0 c0 w0 s' b' c' w'.
Proof.
  induction l as [|o l IH]; intros s b c w rs s' Hw Hs Hspec; cbn [lib_spec_run lib_run] in *.
  { injection Hspec as <- <-. eauto. }
  apply bind_Some in Hspec as ([r s1] & H1 & H2).
  apply bind_Some in H2 as ([rs1 s2] & H2 & [= <- <-]).
  destruct (lib_call_spec _ _ _ _ _ _ _ _ _ _ _ Hw Hs H1) as (b1 & c1 & w1 & Hr1 & Hs1).
  destruct (IH _ _ _ _ _ _ Hw Hs1 H2) as (b2 & c2 & w2 & Hr2 & Hs2).
  exists b2, c2, w2. split; [|done].
  by rewrite (bind_some _ _ _ _ _ Hr1), (bind_some _ _ _ _ _ Hr2).
Qed.
End life.

(** ** The lazy start *)

Section start.
Context {W : Type} `{!Exec W, !ExecViews W, !ExecLaws W, !Host W}.
Implicit Types (b : bsd) (c : client) (w : W).

Lemma client_init_run c w :
  wf_client c w ->
  exists c' w', netstack_client_init (c, w) =
      Some (if FindPort w =? 0 then -1 else 0, (c', w')) /\
    wf_client c' w' /\ local w w' /\ ports w' = ports w /\ g_engine_port c' = FindPort w /\
    g_reply_slots c' = g_reply_slots c.
Proof.
  intros Hw. unfold netstack_client_init.
  destruct (init_engine_sem_run c w Hw) as (w1 & H1 & Hw1 & Hl1 & Hp1).
  rewrite (bind_some _ _ _ _ _ H1).
  destruct (init_reply_sem_run _ w1 Hw1) as (w2 & H2 & Hw2 & Hl2 & Hp2).
  rewrite (bind_some _ _ _ _ _ H2).
  destruct (ensure_engine_port_run _ w2 Hw2) as (c3 & w3 & H3 & Hw3 & Hl3 & Hp3 & Hs3 & _ & He3).
  rewrite (bind_some _ _ _ _ _ H3).
  rewrite (local_FindPort _ _ Hl2), (local_FindPort _ _ Hl1) in *.
  exists c3, w3. split; [done|]. split; [done|].
  split; [by eapply local_trans; [exact Hl1|]; eapply local_trans|]. split; [congruence|]. done.
Qed.

(** What the first call of a task does: the outcome of Start decides, then whether
    the engine's port can be found. *)
Lemma ensure_engine_run b c w :
  g_engine_started b = false -> wf_client c (snd (EngineStart w)) ->
  let w1 := snd (EngineStart w) in
  if negb (fst (EngineStart w) =? 0) then
    ensure_engine (b, (c, w)) = Some (-1, (b, (c, w1)))
  else exists c' w',
    wf_client c' w' /\ local w1 w' /\ ports w' = ports w1 /\ g_engine_port c' = FindPort w1 /\
    g_reply_slots c' = g_reply_slots c /\
    ensure_engine (b, (c, w)) =
      if FindPort w1 =? 0 then Some (-1, (b, (c', w')))
      else Some (0, (mk_bsd (base b) (g_IExec b) true, (c', w'))).
Proof.
  intros Hb Hw. cbv zeta.
  assert (Hrun : ensure_engine (b, (c, w)) =
    (if negb (fst (EngineStart w) =? 0) then mret (-1) else
     rv ← call_client netstack_client_init;
     if negb (rv =? 0) then mret (-1) else
     b ← get_b; put_b (mk_bsd (base b) (g_IExec b) true);; mret 0)
    (b, (c, snd (EngineStart w)))).
  { unfold ensure_engine. unfold mbind at 1, M_bind at 1, get_b at 1. rewrite Hb.
    unfold mbind at 1, M_bind at 1, host_run. by destruct (EngineStart w). }
  rewrite !Hrun. clear Hrun. destruct (EngineStart w) as [rv w1]. cbn [fst snd] in *.
  destruct (negb (rv =? 0)); [done|].
  destruct (client_init_run c w1 Hw) as (c' & w' & Hi & Hw' & Hl & Hp & He & Hs).
  exists c', w'. do 5 (split; [done|]). rewrite (bind_some _ _ _ _ _ (call_client_run _ b _ _ _ _ _ Hi)).
  by destruct (FindPort w1 =? 0).
Qed.
End start.

(** C20. Every sequence of opens, closes and expunges that exec may make on a base
    that was just initialised behaves as the abstract machine: an open cancels a
    pending expunge, an expunge of an open library is deferred to its last close,
    the segment list given to Init is returned by exactly the call that tears the
    library down; until then neither the client library nor the engine is touched,
    and the teardown shuts the client down, stops the engine, removes the node and
    deletes the base in this order, once. *)
Theorem lib_lifecycle {W} `{ExecLaws W, Host W} (l : list lop) (l0 : Library)
    (sl exec : Z) (b : bsd) (c : client) (w : W) rs s' :
  wf_client c w -> lib_OpenCnt l0 = 0 ->
  lib_spec_run sl l (LAlive 0 false) = Some (rs, s') ->
  exists b' c' w', lib_run l (_bsd_Init l0 sl exec b, (c, w)) = Some (rs, (b', (c', w'))) /\
    lib_is sl (_bsd_Init l0 sl exec b) c w s' b' c' w'.
Proof.
  intros Hw Hcnt Hspec. eapply lib_run_spec; [exact Hw| |exact Hspec].
  split; [done|]. split; [done|]. eexists. split; [reflexivity|]. cbn. rewrite Hcnt.
  by repeat (split; [done|]).
Qed.

(** C21. The engine is started by the first BSD call only.  Start fails: -1, and
    nothing is remembered, so the next call tries again.  Start succeeds and the
    port can be found: 0, the port is cached, and every later call finds the
    engine started and changes nothing. *)
Theorem ensure_engine_once {W} `{ExecLaws W, Host W} (b : bsd) (c : client) (w : W) :
  wf_client c (snd (EngineStart w)) -> g_engine_started b = false ->
  exists rv b' c' w', ensure_engine (b, (c, w)) = Some (rv, (b', (c', w'))) /\
    wf_client c' w' /\
    (fst (EngineStart w) <> 0 ->
      rv = -1 /\ b' = b /\ c' = c /\ w' = snd (EngineStart w)) /\
    (fst (EngineStart w) = 0 -> FindPort (snd (EngineStart w)) = 0 -> rv = -1 /\ b' = b) /\
    (fst (EngineStart w) = 0 -> FindPort (snd (EngineStart w)) <> 0 ->
      rv = 0 /\ base b' = base b /\ g_engine_port c' = FindPort w' /\
      g_reply_slots c' = g_reply_slots c /\ ports w' = ports (snd (EngineStart w)) /\
      ensure_engine (b', (c', w')) = Some (0, (b', (c', w')))).
Proof.
  intros Hw Hb. pose proof (ensure_engine_run b c w Hb Hw) as Hr. cbv zeta in Hr.
  destruct (Z.eqb_spec (fst (EngineStart w)) 0) as [Hz|Hz]; cbn [negb] in Hr.
  - destruct Hr as (c' & w' & Hw' & Hl & Hp & He & Hs & Hr). rewrite Hr.
    destruct (Z.eqb_spec (FindPort (snd (EngineStart w))) 0) as [Hf|Hf].
    + exists (-1), b, c', w'. do 2 (split; [done|]). split; [done|]. split; [done|]. done.
    + eexists 0, _, c', w'. split; [reflexivity|]. split; [done|]. split; [done|]. split; [done|].
      intros _ _. do 2 (split; [done|]). split; [by rewrite (local_FindPort _ _ Hl)|]. done.
  - exists (-1), b, c, (snd (EngineStart w)). split; [done|]. split; [done|].
    split; [done|]. split; congruence.
Qed.

(** A task whose first call comes while another task has started the engine but
    not yet set the flag is refused: Start answers -1 to a second caller, and the
    call fails although the engine is up. *)
Theorem concurrent_first_call_refused {W} `{ExecLaws W, Host W} (os : sdk) (b : bsd)
    (c : client) (w : W) domain type proto :
  g_engine_started b = false -> EngineStart w = (-1, w) -> wf_client c w ->
  bs_socket os domain type proto (b, (c, w)) = Some (-1, (b, (c, w))).
Proof.
  intros Hb Hs Hw. pose proof (ensure_engine_run b c w Hb) as Hr. rewrite Hs in Hr.
  cbn [fst snd] in Hr. specialize (Hr Hw). cbn in Hr. unfold bs_socket, with_engine.
  by rewrite (bind_some _ _ _ _ _ Hr).
Qed.

(** ** A session in the world of Sim.v *)

(** Start registers the port unless it is registered already. *)
#[export] Instance sim_host : Host sim := {
  EngineStart w := if s_registered w =? 0
    then (0, mk_sim (s_engine w) 100 (s_ports w) (s_nest w) (s_task w)) else (-1, w);
  EngineStop w := mk_sim (s_engine w) 0 (s_ports w) (s_nest w) (s_task w);
  RemoveNode w := w;
  DeleteLibrary w := w
}.

Definition bsd_boot : bsd :=
  _bsd_Init (mk_Library 0 0 "" 0 0 0 "" 0) 777 4 (mk_bsd None 0 false).
Definition sim_off : sim := mk_sim engine_init 0 ∅ (fun _ => 0) 7.

Lemma lib_lifecycle_witness :
  exists b' c' w', lib_run [LibOpen; LibOpen; LibExpunge; LibClose; LibClose]
      (bsd_boot, (client_init, sim_off)) = Some ([0; 0; 0; 0; 777], (b', (c', w'))) /\
    base b' = None.
Proof.
  destruct (lib_lifecycle [LibOpen; LibOpen; LibExpunge; LibClose; LibClose]
    (mk_Library 0 0 "" 0 0 0 "" 0) 777 4 (mk_bsd None 0 false) client_init sim_off
    [0; 0; 0; 0; 777] LGone (wf_client_init _) eq_refl eq_refl)
    as (b' & c' & w' & Hr & _ & _ & Hb & _).
  exists b', c', w'. split; [exact Hr|exact Hb].
Defined.

Lemma ensure_engine_once_witness :
  exists b' c' w', ensure_engine (bsd_boot, (client_init, sim_off)) = Some (0, (b', (c', w'))) /\
    ensure_engine (b', (c', w')) = Some (0, (b', (c', w'))).
Proof.
  destruct (ensure_engine_once bsd_boot client_init sim_off (wf_client_init _) eq_refl)
    as (rv & b' & c' & w' & Hr & _ & _ & _ & Hok).
  destruct (Hok eq_refl ltac:(done)) as (-> & _ & _ & _ & _ & Hagain).
  exists b', c', w'. split; [exact Hr|exact Hagain].
Defined.

Lemma bs_calls_refine_witness :
  exists v m c' w',
    run_bsd sim_sdk (BSocket 2 1 0) (mk_bsd None 0 true, (client_init, sim_boot)) =
      Some ((v, m), (mk_bsd None 0 true, (c', w'))) /\
    v = 3 /\ sockets w' = snd (spec_socket 2 1 0 (abs g_fdtable_init)).
Proof.
  destruct (bs_calls_refine sim_sdk (BSocket 2 1 0) (ASocket 2 1 0) (mk_bsd None 0 true)
    client_init sim_boot eq_refl (wf_client_init _) up_boot eq_refl) as (v & m & c' & w' & Hr & _ & _ & Hc).
  { split; [word|]. split; word. }
  { exact I. }
  exists v, m, c', w'. split; [exact Hr|].
  assert (Hv : (fun x => fst (fst x)) <$> run_bsd sim_sdk (BSocket 2 1 0)
    (mk_bsd None 0 true, (client_init, sim_boot)) = Some 3) by (vm_compute; reflexivity).
  rewrite Hr in Hv. cbn in Hv. injection Hv as ->. split; [reflexivity|].
  destruct Hc as [(Hc & _)|(_ & _ & x & Hs & _)]; [discriminate Hc|].
  apply sim_served, (f_equal snd) in Hs. symmetry. exact Hs.
Defined.

Lemma bs_results_typed_witness :
  exists v m c' w',
    run_bsd sim_sdk (BListen 3 5) (mk_bsd None 0 true, (client_init, sim_boot)) =
      Some ((v, m), (mk_bsd None 0 true, (c', w'))) /\ (v = -1 \/ in_range (BListen 3 5) v).
Proof.
  destruct (bs_results_typed sim_sdk (BListen 3 5) (AListen 3 5) (mk_bsd None 0 true)
    client_init sim_boot eq_refl (wf_client_init _) up_boot eq_refl) as (v & m & c' & w' & Hr & _ & _ & Hv & _).
  { cbn [args_ok]. unfold is_s32. lia. }
  { exact I. }
  exists v, m, c', w'. split; [exact Hr|exact Hv].
Defined.
