(* ===== verification/TestRuns.v ===== *)
(** * The tests of the repository (tests/phase3)

    The three client tests, as programs over the library and the shell, run in the
    world of Sim.v: the definitions that the theorems are about do what the authors
    of the code expect of it.  A test answers its exit code, 0 or 20; what it prints
    is left out. *)

From S2P Require Import Prelude Ipc FdTable FdSpec FdRefine Engine.
From S2P Require Import Exec Service Client ClientProps Sim Bsdsocket BsdLife.

Definition text (s : string) : list Z :=
  (fun a => Z.of_nat (Ascii.nat_of_ascii a)) <$> String.list_ascii_of_string s.

(** The loop of [expect_eq_str] over [want], whose length is [got_len]. *)
Fixpoint same_bytes (got want : list Z) (i : Z) : option bool :=
  match want with
  | [] => Some true
  | x :: want' => y ← lookupZ got i; if negb (y =? x) then Some false else same_bytes got want' (i + 1)
  end.

Definition expect_eq_str (got : list Z) (got_len : Z) (want : list Z) : option bool :=
  if negb (got_len =? Z.of_nat (length want)) then Some false else same_bytes got want 0.

Section tests.
Context {W : Type} `{!Exec W, !Host W} (os : sdk).

Notation Q := (M (bsd * (client * W))).

(** [rxbuf] after a receive. *)
Definition recv_buf (s n : Z) : Q (Z * list Z) :=
  '(rv, b) ← call_client (netstack_recv os s (Some (replicate (Z.to_nat n) 0)) n);
  mret (rv, default [] b).

Definition close_if (s : Z) : Q unit :=
  if 0 <=? s then _ ← call_client (netstack_close os s); mret tt else mret tt.

Definition exit_code (ok : bool) : Z := if ok then 0 else 20.

(** The end of a test whose client is up. *)
Definition shut_down (ok : bool) : Q Z :=
  call_client netstack_client_shutdown;; host_do EngineStop;; mret (exit_code ok).

(** The start of a test: the engine, then the client. *)
Definition start_up (body : Q Z) : Q Z :=
  rv ← host_run EngineStart;
  if negb (rv =? 0) then mret 20 else
  rv ← call_client netstack_client_init;
  if negb (rv =? 0) then host_do EngineStop;; mret 20 else body.

(** ** test_client_rpc.c *)

Definition ping_ok (seq payload : Z) : Q bool :=
  '(rv, got) ← call_client (netstack_ping os seq payload true);
  mret ((rv =? NETSTACK_OK) && (default 0 got =? payload + 1)).

Definition socket_or (d : Z) : Q (Z * Z) :=
  '(rv, s) ← call_client (netstack_socket os 2 1 0 true); mret (rv, default d s).

Definition test_client_rpc : Q Z := start_up (
  ok0 ← ping_ok 0 42;
  '(r0, s0) ← socket_or (-99);
  '(r1, s1) ← socket_or (-99);
  '(r2, s2) ← socket_or (-99);
  let got rv s := (rv =? NETSTACK_OK) && negb (s <? 3) in
  let ok1 := got r0 s0 && got r1 s1 && got r2 s2 in
  let ok2 := negb ((s0 =? s1) || (s1 =? s2) || (s0 =? s2)) in
  rv ← call_client (netstack_close os s1);
  let ok3 := rv =? NETSTACK_OK in
  '(rv, reuse) ← socket_or (-99);
  let ok4 := (rv =? NETSTACK_OK) && (reuse =? s1) in
  call_client (netstack_close os s0);;
  call_client (netstack_close os s2);;
  call_client (netstack_close os reuse);;
  rv ← call_client (netstack_close os s0);
  let ok5 := rv =? NETSTACK_EBADF in
  ok6 ← ping_ok 1 100;
  shut_down (ok0 && ok1 && ok2 && ok3 && ok4 && ok5 && ok6)).

(** ** test_echo.c *)

(** [done:] *)
Definition echo_done (ok : bool) (server client accepted : Z) : Q Z :=
  close_if server;; close_if client;; close_if accepted;; shut_down ok.

(** One direction: a message sent on [s] and received on [p]. *)
Definition echo_way (s p : Z) (msg : list Z) : Q bool :=
  let n := Z.of_nat (length msg) in
  sent ← call_client (netstack_send os s msg n);
  '(got, rxbuf) ← recv_buf p 63;
  same ← liftO (expect_eq_str rxbuf got msg);
  mret ((sent =? n) && same).

Definition test_echo : Q Z := start_up (
  '(rv, probe) ← socket_or (-1);
  if negb (rv =? 0) then echo_done false (-1) (-1) (-1) else
  rv ← call_client (netstack_connect os probe 65535);
  let ok0 := rv =? NETSTACK_ECONNREFUSED in
  call_client (netstack_close os probe);;
  '(rv, server) ← socket_or (-1);
  if negb (rv =? 0) then echo_done false server (-1) (-1) else
  rv ← call_client (netstack_bind os server 1234);
  if negb (rv =? 0) then echo_done false server (-1) (-1) else
  rv ← call_client (netstack_listen os server 4);
  if negb (rv =? 0) then echo_done false server (-1) (-1) else
  '(rv, _, _) ← call_client (netstack_accept os server true false);
  let ok1 := rv =? NETSTACK_EAGAIN in
  '(rv, client) ← socket_or (-1);
  if negb (rv =? 0) then echo_done false server client (-1) else
  rv ← call_client (netstack_connect os client 1234);
  if negb (rv =? 0) then echo_done false server client (-1) else
  '(rv, new, _) ← call_client (netstack_accept os server true true);
  let accepted := default (-1) new in
  let ok2 := (rv =? NETSTACK_OK) && negb (accepted <? 0) in
  '(rv, _) ← recv_buf accepted 16;
  let ok3 := rv =? NETSTACK_EAGAIN in
  ok4 ← echo_way client accepted (text "hello world!");
  ok5 ← echo_way accepted client (text "pong");
  call_client (netstack_close os accepted);;
  '(rv, _) ← recv_buf client 16;
  let ok6 := rv =? 0 in
  echo_done (ok0 && ok1 && ok2 && ok3 && ok4 && ok5 && ok6) server client (-1)).

(** ** test_bsdlib.c, from the interface on *)

(** [mk_sockaddr]. *)
Definition mk_sockaddr (port : Z) : list Z :=
  [16; 2; u8 (Z.shiftr port 8); u8 (Z.land port 0xFF)] ++ replicate 12 0.

Definition test_bsdlib : Q Z :=
  _mgr_Open;;
  srv ← bs_socket os 2 1 0;
  cli ← bs_socket os 2 1 0;
  let ok0 := negb ((srv <? 0) || (cli <? 0)) in
  let addr := mk_sockaddr 4242 in
  rv ← bs_bind os srv (Some addr) 16;
  let ok1 := rv =? 0 in
  rv ← bs_listen os srv 4;
  let ok2 := rv =? 0 in
  rv ← bs_connect os cli (Some addr) 16;
  let ok3 := rv =? 0 in
  '(accepted, _, _) ← bs_accept os srv (Some (replicate 16 0)) (Some 16);
  let ok4 := negb (accepted <? 0) in
  let msg := text "via bsdsocket.library" in
  let n := Z.of_nat (length msg) in
  sent ← bs_send os cli msg n 0;
  let ok5 := sent =? n in
  '(got, rxbuf) ← bs_recv os accepted (Some (replicate 63 0)) 63 0;
  let ok6 := got =? n in
  ok7 ← liftO (same_bytes (default [] rxbuf) (take (Z.to_nat got) msg) 0);
  bs_CloseSocket os accepted;;
  bs_CloseSocket os cli;;
  bs_CloseSocket os srv;;
  _mgr_Close;;
  mret (exit_code (ok0 && ok1 && ok2 && ok3 && ok4 && ok5 && ok6 && ok7)).
End tests.

(** ** They pass

    And what they leave: the engine's port, whether every socket is free, and whether
    every port is. *)

Definition ends (r : option (Z * (bsd * (client * sim)))) : option (Z * Z * bool * bool) :=
  '(v, (_, (_, w))) ← r;
  Some (v, s_registered w, forallb (fun x => bool_decide (akind x = FD_FREE)) (sockets w),
        bool_decide (s_ports w = ∅)).

Theorem test_client_rpc_passes :
  ends (test_client_rpc sim_sdk (bsd_boot, (client_init, sim_off))) = Some (0, 0, true, true).
Proof. vm_compute. reflexivity. Qed.

Theorem test_echo_passes :
  ends (test_echo sim_sdk (bsd_boot, (client_init, sim_off))) = Some (0, 0, true, true).
Proof. vm_compute. reflexivity. Qed.

(** Closing the library does not stop the engine, and the port of the caller stays. *)
Theorem test_bsdlib_passes :
  ends (test_bsdlib sim_sdk (bsd_boot, (client_init, sim_off))) = Some (0, 100, true, false).
Proof. vm_compute. reflexivity. Qed.
