(* ===== verification/Stubs.v ===== *)
(** * What is still to be written

    The functions of mbuf_pool.c, engine_init.c, sana2_bridge.c, bench_stub.c and the
    timers of osal_timer.c, as they are: each answers a constant and touches nothing.
    A pointer is a [Z]. *)

From S2P Require Import Prelude NetDevRegistry RefDriver.

Section stubs.
Context {S : Type}.

(** ** src/phase1_osal/mbuf_pool.c *)

Definition netstack_mbuf_pool_init
    (cluster_size initial_clusters max_clusters dma_alignment : Z) : M S Z := mret 0.
Definition netstack_mbuf_pool_shutdown : M S unit := mret tt.
Definition netstack_mbuf_from_netdevbuf (b : Z) : M S Z := mret 0.
Definition netstack_mbuf_to_netdevbuf (m : Z) : M S Z := mret 0.

(** ** src/phase2_engine/engine_init.c *)

Definition netstack_init_ifaces : M S Z := mret 0.
Definition netstack_init_sysctl : M S Z := mret 0.

(** ** src/phase1_osal/osal_timer.c *)

Definition osal_timer_new (fn arg : Z) : M S Z := mret 0.
Definition osal_timer_free (t : Z) : M S unit := mret tt.
Definition osal_timer_schedule (t delay : Z) : M S unit := mret tt.
Definition osal_timer_cancel (t : Z) : M S unit := mret tt.

(** ** src/phase5_testing *)

Definition netstack_bench_placeholder : M S Z := mret 0.

Record sana2_bridge (D : Type) := mk_sana2_bridge {
  b_iface : NetDevIF D;
  b_port : Z;
  b_device_name : string;
  b_unit : Z
}.

Definition b_Open (self unit flags : Z) : M S Z := mret (-1).

(** Nothing is allocated, and nothing is registered under [bridge_name]. *)
Definition sana2_bridge_create (device_name : string) (unit : Z) (bridge_name : string) : M S Z :=
  mret 0.
End stubs.

(** A buffer of a driver cannot become an mbuf, though the pool reports that it is ready:
    the answer is null for every buffer, and no reference is counted. *)
Lemma pool_without_mbufs {S} cluster initial most align b (s : S) :
  (rc ← netstack_mbuf_pool_init cluster initial most align;
   m ← netstack_mbuf_from_netdevbuf b; mret (rc, m)) s = Some ((0, 0), s).
Proof. reflexivity. Qed.
