(* ===== verification/OsalTimer.v ===== *)
(** * Clock and sleep (src/phase1_osal/osal_timer.c)

    Every task that sleeps has a slot with a reply port and an open
    timer.device request of its own; the table of sixteen slots is searched
    and grown under a semaphore.  What the file uses of the device is the
    class [TimerDev]. *)

From S2P Require Import Prelude Ipc Exec ClientProps.

(** ** timer.device *)

Class TimerDev (W : Type) := {
  (** [AllocSysObjectTags(ASOT_IOREQUEST, ASOIOR_ReplyPort, port, ...)] *)
  AllocIORequest : Z -> W -> Z * W;
  FreeIORequest : Z -> W -> W;
  (** [OpenDevice("timer.device", UNIT_MICROHZ, req, 0)] *)
  OpenDevice : Z -> W -> Z * W;
  (** [DoIO(req)], TR_ADDREQUEST with its seconds and microseconds *)
  DoIO : Z -> Z -> Z -> W -> W;
  (** [Wait(0)]; [None] while the task is blocked *)
  Wait0 : W -> option W
}.

Class DevViews (W : Type) := {
  iorequests : W -> gset Z;   (* requests allocated and not freed *)
  opened : W -> gset Z        (* requests the device was opened with *)
}.

Inductive dev_call {W} `{TimerDev W} : (W -> W) -> Prop :=
  | dc_alloc p : dev_call (fun w => snd (AllocIORequest p w))
  | dc_free r : dev_call (FreeIORequest r)
  | dc_open r : dev_call (fun w => snd (OpenDevice r w))
  | dc_io r s us : dev_call (DoIO r s us).

#[export] Hint Constructors dev_call : exec.

Class DevLaws (W : Type) `{Exec W, ExecViews W, TimerDev W, DevViews W} := {
  ioreq_fresh : forall p w, fst (AllocIORequest p w) <> 0 ->
    fst (AllocIORequest p w) ∉ iorequests w /\
    iorequests (snd (AllocIORequest p w)) = {[fst (AllocIORequest p w)]} ∪ iorequests w;
  ioreq_null : forall p w, fst (AllocIORequest p w) = 0 ->
    iorequests (snd (AllocIORequest p w)) = iorequests w;
  ioreq_alloc_opened : forall p w, opened (snd (AllocIORequest p w)) = opened w;
  ioreq_free : forall r w, iorequests (FreeIORequest r w) = iorequests w ∖ {[r]};
  ioreq_free_opened : forall r w, opened (FreeIORequest r w) = opened w;
  open_reqs : forall r w, iorequests (snd (OpenDevice r w)) = iorequests w;
  open_opened : forall r w, opened (snd (OpenDevice r w)) =
    if fst (OpenDevice r w) =? 0 then {[r]} ∪ opened w else opened w;
  io_frame : forall r s us w, iorequests (DoIO r s us w) = iorequests w /\
    opened (DoIO r s us w) = opened w;
  (** no signal is in an empty mask *)
  wait0_blocks : forall w, Wait0 w = None;
  dev_local : forall f w, dev_call f -> FindTask (f w) = FindTask w /\ ports (f w) = ports w /\
    forall s, sem_nest (f w) s = sem_nest w s;
  local_dev : forall f w, local_call f -> iorequests (f w) = iorequests w /\ opened (f w) = opened w
}.

(** ** State *)

Definition TIMER_SLOT_MAX : Z := 16.
Definition TB_HZ : Z := 100000000.

Record timer_slot := mk_timer_slot { t_owner : Z; t_port : Z; t_req : Z }.

Record timer := mk_timer { g_timer_sem_init : bool; g_timer_slots : list timer_slot }.

Definition no_slot : timer_slot := mk_timer_slot 0 0 0.
Definition timer_init : timer := mk_timer false (replicate 16 no_slot).
Definition g_timer_sem : Z := 3.

#[global] Instance timer_slot_eq_dec : EqDecision timer_slot.
Proof. solve_decision. Defined.

(** ** The clock *)

(** [tb] is the time base register. *)
Definition osal_clock_monotonic_ns (tb : Z) : Z := u64 (tb * 10).

(** What is stored through the two pointers, if they are not null. *)
Definition rumpuser_clock_gettime (tb : Z) (sec nsec : bool) : option Z * option Z :=
  let ns := osal_clock_monotonic_ns tb in
  (if sec then Some (ns / 1000000000) else None, if nsec then Some (ns mod 1000000000) else None).

(** ** Sleeping *)

Section timer.
Context {W : Type} `{!Exec W, !TimerDev W}.

Notation P := (M (timer * W)).

Definition t_do (f : W -> W) : P unit := fun '(t, w) => Some (tt, (t, f w)).
Definition t_run {A} (f : W -> A * W) : P A :=
  fun '(t, w) => let '(a, w') := f w in Some (a, (t, w')).
Definition get_t : P timer := fun '(t, w) => Some (t, (t, w)).
Definition put_t (t : timer) : P unit := fun '(_, w) => Some (tt, (t, w)).

(** [g_timer_slots[j] = ...] *)
Definition put_slot (j : nat) (s : timer_slot) : P unit :=
  t ← get_t;
  l ← liftO (storeZ (g_timer_slots t) (Z.of_nat j) s);
  put_t (mk_timer (g_timer_sem_init t) l).

Definition release : P unit := t_do (ReleaseSemaphore g_timer_sem).

(** The first slot with a given owner, the two loops of the search. *)
Definition slot_at (o : Z) (l : list timer_slot) : option nat :=
  fst <$> list_find (fun s => t_owner s = o) l.

(** The second loop's body for the free slot [j]: its end, from OpenDevice on... *)
Definition open_slot (me : Z) (j : nat) (p r : Z) : P (option nat) :=
  e ← t_run (OpenDevice r);
  if negb (e =? 0) then
    t_do (FreeIORequest r);;
    t_do (FreePort p);;
    put_slot j (mk_timer_slot 0 0 0);;
    release;;
    mret None
  else
  put_slot j (mk_timer_slot me p r);;
  release;;
  mret (Some j).

(** ... and all of it. *)
Definition new_slot (me : Z) (j : nat) : P (option nat) :=
  p ← t_run AllocPort;
  put_slot j (mk_timer_slot 0 p 0);;
  if p =? 0 then release;; mret None else
  r ← t_run (AllocIORequest p);
  put_slot j (mk_timer_slot 0 p r);;
  if r =? 0 then
    t_do (FreePort p);;
    put_slot j (mk_timer_slot 0 0 r);;
    release;;
    mret None
  else open_slot me j p r.

(** The index of the caller's slot; [None]: the null pointer. *)
Definition timer_slot_for_current_task : P (option nat) :=
  me ← t_run (fun w => (FindTask w, w));
  t ← get_t;
  (if g_timer_sem_init t then mret tt else
   t_do (InitSemaphore g_timer_sem);;
   put_t (mk_timer true (g_timer_slots t)));;
  t_do (ObtainSemaphore g_timer_sem);;
  t ← get_t;
  match slot_at me (g_timer_slots t) with
  | Some i => release;; mret (Some i)
  | None =>
    match slot_at 0 (g_timer_slots t) with
    | Some j => new_slot me j
    | None => release;; mret None
    end
  end.

(** [for (i = 0; i < ns / 100; i++) IExec->Wait(0);] *)
Fixpoint busy_yield (n : nat) (w : W) : option W :=
  match n with
  | O => Some w
  | S n' => w ← Wait0 w; busy_yield n' w
  end.

(** The time asked of the device, in seconds and microseconds. *)
Definition sleep_time (ns : Z) : Z * Z :=
  let us := ns / 1000 in
  let us := if us =? 0 then 1 else us in
  (u32 (us / 1000000), us mod 1000000).

(** [None]: blocked for ever. *)
Definition osal_sleep_ns (ns : Z) : P unit :=
  s ← timer_slot_for_current_task;
  match s with
  | None => fun '(t, w) => w ← busy_yield (Z.to_nat (ns / 100)) w; Some (tt, (t, w))
  | Some i =>
    t ← get_t;
    s ← liftO (g_timer_slots t !! i);
    t_do (DoIO (t_req s) (fst (sleep_time ns)) (snd (sleep_time ns)))
  end.

Definition rumpuser_clock_sleep (sec nsec : Z) : P Z :=
  osal_sleep_ns (u64 (u64 sec * 1000000000 + u64 nsec));; mret 0.
End timer.

(** ** Invariant *)

Definition holds {W} `{ExecViews W, DevViews W} (s : timer_slot) (w : W) : Prop :=
  t_port s <> 0 /\ t_req s <> 0 /\ t_port s ∈ ports w /\ t_req s ∈ iorequests w /\
  t_req s ∈ opened w.

Record wf_timer {W} `{ExecViews W, DevViews W} (t : timer) (w : W) : Prop := {
  wt_len : length (g_timer_slots t) = 16%nat;
  wt_free : forall i s, g_timer_slots t !! i = Some s -> t_owner s = 0 -> s = no_slot;
  wt_holds : forall i s, g_timer_slots t !! i = Some s -> t_owner s <> 0 -> holds s w;
  wt_owner : forall i j s s', g_timer_slots t !! i = Some s -> g_timer_slots t !! j = Some s' ->
    t_owner s <> 0 -> t_owner s' <> 0 ->
    t_owner s = t_owner s' \/ t_port s = t_port s' \/ t_req s = t_req s' -> i = j;
  wt_sem : g_timer_sem_init t = true -> sem_nest w g_timer_sem = 0
}.

(** What the search answers: [r] from the slots [l] to [l'], ports [ps] to [ps'],
    requests [rs] to [rs'], opened requests [os] to [os']. *)
Definition slot_spec (me : Z) (l l' : list timer_slot) (r : option nat)
    (ps ps' rs rs' os os' : gset Z) : Prop :=
  match slot_at me l with
  | Some i => r = Some i /\ l' = l /\ ps' = ps /\ rs' = rs /\ os' = os
  | None =>
    match r with
    | None => l' = l /\ ps' = ps /\ rs' = rs /\ os' = os
    | Some j => slot_at 0 l = Some j /\ exists p q, p <> 0 /\ q <> 0 /\ p ∉ ps /\ q ∉ rs /\
        l' = <[j := mk_timer_slot me p q]> l /\
        ps' = {[p]} ∪ ps /\ rs' = {[q]} ∪ rs /\ os' = {[q]} ∪ os
    end
  end.

Lemma slot_at_Some o l i : slot_at o l = Some i -> exists s, l !! i = Some s /\ t_owner s = o.
Proof.
  unfold slot_at. intros ([k s] & Hx & ->)%fmap_Some.
  apply list_find_Some in Hx as (Hl & Ho & _). by exists s.
Qed.

Lemma slot_at_None o l i s : slot_at o l = None -> l !! i = Some s -> t_owner s <> o.
Proof.
  unfold slot_at. intros Hn%fmap_None Hl. apply list_find_None in Hn.
  rewrite Forall_lookup in Hn. eauto.
Qed.

Lemma slot_at_mine l i s me :
  l !! i = Some s -> t_owner s = me ->
  (forall j s', l !! j = Some s' -> t_owner s' = me -> j = i) -> slot_at me l = Some i.
Proof.
  intros Hl Ho Hu. destruct (slot_at me l) as [j|] eqn:Hj.
  - destruct (slot_at_Some _ _ _ Hj) as (s' & Hs' & Ho'). by rewrite (Hu _ _ Hs' Ho').
  - by destruct (slot_at_None _ _ _ _ Hj Hl).
Qed.

Section run.
Context {W : Type} `{!Exec W, !ExecViews W, !ExecLaws W, !TimerDev W, !DevViews W, !DevLaws W}.
Implicit Types (t : timer) (w : W).

Lemma put_slot_run j s t w :
  (j < length (g_timer_slots t))%nat ->
  put_slot j s (t, w) = Some (tt, (mk_timer (g_timer_sem_init t) (<[j:=s]> (g_timer_slots t)), w)).
Proof.
  intros Hj. unfold put_slot, mbind, M_bind, get_t, liftO, put_t.
  rewrite storeZ_run by lia. by rewrite Nat2Z.id.
Qed.

(** What the caller's world shows of a program that only did local work. *)
Definition same_view w w' : Prop :=
  FindTask w' = FindTask w /\ ports w' = ports w /\ iorequests w' = iorequests w /\
  opened w' = opened w /\ forall s, sem_nest w' s = sem_nest w s.

Lemma union_minus (X : gset Z) x : x ∉ X -> ({[x]} ∪ X) ∖ {[x]} = X.
Proof. intros. clear -H. set_solver. Qed.

(** What a call shows, as one tuple. *)
Definition seen w : Z * gset Z * gset Z * gset Z := (FindTask w, ports w, iorequests w, opened w).

Lemma seen_sem s w : seen (ObtainSemaphore s w) = seen w /\ seen (ReleaseSemaphore s w) = seen w /\
  seen (InitSemaphore s w) = seen w.
Proof.
  unfold seen. rewrite obtain_ports, release_ports, init_ports.
  rewrite !local_task by eauto with exec.
  destruct (local_dev _ w (lc_obtain s)) as [-> ->].
  destruct (local_dev _ w (lc_release s)) as [-> ->].
  by destruct (local_dev _ w (lc_init s)) as [-> ->].
Qed.

Lemma seen_port w : seen (snd (AllocPort w)) =
  (FindTask w, if fst (AllocPort w) =? 0 then ports w else {[fst (AllocPort w)]} ∪ ports w,
   iorequests w, opened w) /\ (fst (AllocPort w) <> 0 -> fst (AllocPort w) ∉ ports w).
Proof.
  unfold seen. destruct (local_dev (fun w => snd (AllocPort w)) w lc_alloc) as [-> ->].
  pose proof (local_task (fun w => snd (AllocPort w)) w lc_alloc) as Ht. cbn in Ht. rewrite Ht.
  destruct (Z.eqb_spec (fst (AllocPort w)) 0) as [Hz|Hz].
  - by rewrite alloc_null.
  - destruct (alloc_fresh w Hz) as [Hf ->]. done.
Qed.

Lemma seen_free p w : seen (FreePort p w) = (FindTask w, ports w ∖ {[p]}, iorequests w, opened w).
Proof.
  unfold seen. destruct (local_dev (FreePort p) w (lc_free p)) as [-> ->].
  by rewrite free_port, local_task by eauto with exec.
Qed.

Lemma seen_ioreq p w : seen (snd (AllocIORequest p w)) =
  (FindTask w, ports w, if fst (AllocIORequest p w) =? 0 then iorequests w
   else {[fst (AllocIORequest p w)]} ∪ iorequests w, opened w) /\
  (fst (AllocIORequest p w) <> 0 -> fst (AllocIORequest p w) ∉ iorequests w).
Proof.
  unfold seen. destruct (dev_local _ w (dc_alloc p)) as (-> & -> & _).
  rewrite ioreq_alloc_opened. destruct (Z.eqb_spec (fst (AllocIORequest p w)) 0) as [Hz|Hz].
  - by rewrite ioreq_null.
  - destruct (ioreq_fresh p w Hz) as [Hf ->]. done.
Qed.

Lemma seen_freereq r w : seen (FreeIORequest r w) =
  (FindTask w, ports w, iorequests w ∖ {[r]}, opened w).
Proof.
  unfold seen. destruct (dev_local _ w (dc_free r)) as (-> & -> & _).
  by rewrite ioreq_free, ioreq_free_opened.
Qed.

Lemma seen_open r w : seen (snd (OpenDevice r w)) =
  (FindTask w, ports w, iorequests w,
   if fst (OpenDevice r w) =? 0 then {[r]} ∪ opened w else opened w).
Proof.
  unfold seen. destruct (dev_local _ w (dc_open r)) as (-> & -> & _).
  by rewrite open_reqs, open_opened.
Qed.

Lemma seen_release w : seen (ReleaseSemaphore g_timer_sem w) = seen w.
Proof. apply seen_sem. Qed.

Lemma open_slot_run me j p r t w :
  (j < length (g_timer_slots t))%nat ->
  exists o t' w', open_slot me j p r (t, w) = Some (o, (t', w')) /\
    g_timer_sem_init t' = g_timer_sem_init t /\
    (exists w1, w' = ReleaseSemaphore g_timer_sem w1 /\ forall s, sem_nest w1 s = sem_nest w s) /\
    match o with
    | None => g_timer_slots t' = <[j := no_slot]> (g_timer_slots t) /\
        seen w' = (FindTask w, ports w ∖ {[p]}, iorequests w ∖ {[r]}, opened w)
    | Some k => k = j /\ g_timer_slots t' = <[j := mk_timer_slot me p r]> (g_timer_slots t) /\
        seen w' = (FindTask w, ports w, iorequests w, {[r]} ∪ opened w)
    end.
Proof.
  intros Hlt. unfold open_slot. unfold mbind at 1, M_bind at 1, t_run at 1.
  pose proof (seen_open r w) as Hs. pose proof (dev_local _ w (dc_open r)) as (_ & _ & Hn).
  destruct (OpenDevice r w) as [e w1]. cbn [fst snd] in *. unfold seen in Hs.
  destruct (Z.eqb_spec e 0) as [->|He]; cbn [negb]; injection Hs as Ht Hp Hr Ho.
  - rewrite (bind_some _ _ _ _ _ (put_slot_run j _ t w1 Hlt)). eexists (Some j), _, _.
    split; [reflexivity|]. split; [done|]. split; [by eexists|]. split; [done|]. split; [done|].
    rewrite seen_release. unfold seen. by rewrite Ht, Hp, Hr, Ho.
  - unfold mbind at 1 2, M_bind at 1 2, t_do at 1 2.
    rewrite (bind_some _ _ _ _ _ (put_slot_run j _ t _ Hlt)). eexists None, _, _.
    split; [reflexivity|]. split; [done|]. split.
    { eexists. split; [reflexivity|]. intros s. pose proof (dev_local _ w1 (dc_free r)) as (_ & _ & Hn5).
      by rewrite free_nest, Hn5, Hn. }
    split; [done|]. rewrite seen_release, seen_free.
    pose proof (seen_freereq r w1) as Hs5. unfold seen in Hs5. injection Hs5 as -> -> -> ->.
    by rewrite Ht, Hp, Hr, Ho.
Qed.

(** What a caller that holds the semaphore gets for the free slot [j]. *)
Definition slot_made me j t w (o : option nat) t' w' : Prop :=
  match o with
  | None => g_timer_slots t' = g_timer_slots t /\ seen w' = seen w
  | Some k => k = j /\ exists p q, p <> 0 /\ q <> 0 /\ p ∉ ports w /\ q ∉ iorequests w /\
      g_timer_slots t' = <[j := mk_timer_slot me p q]> (g_timer_slots t) /\
      seen w' = (FindTask w, {[p]} ∪ ports w, {[q]} ∪ iorequests w, {[q]} ∪ opened w)
  end.

(** From the request on, with the new port [p] in the slot. *)
Lemma request_run me j p t w :
  (j < length (g_timer_slots t))%nat -> p ∈ ports w ->
  exists o t' w',
    (r ← t_run (AllocIORequest p);
     put_slot j (mk_timer_slot 0 p r);;
     if r =? 0 then
       t_do (FreePort p);; put_slot j (mk_timer_slot 0 0 r);; release;; mret None
     else open_slot me j p r) (t, w) = Some (o, (t', w')) /\
    g_timer_sem_init t' = g_timer_sem_init t /\
    (exists w1, w' = ReleaseSemaphore g_timer_sem w1 /\ forall s, sem_nest w1 s = sem_nest w s) /\
    match o with
    | None => g_timer_slots t' = <[j := no_slot]> (g_timer_slots t) /\
        seen w' = (FindTask w, ports w ∖ {[p]}, iorequests w, opened w)
    | Some k => k = j /\ exists q, q <> 0 /\ q ∉ iorequests w /\
        g_timer_slots t' = <[j := mk_timer_slot me p q]> (g_timer_slots t) /\
        seen w' = (FindTask w, ports w, {[q]} ∪ iorequests w, {[q]} ∪ opened w)
    end.
Proof.
  intros Hlt Hp. unfold mbind at 1, M_bind at 1, t_run at 1.
  destruct (seen_ioreq p w) as [Hs Hf]. pose proof (dev_local _ w (dc_alloc p)) as (_ & _ & Hn).
  destruct (AllocIORequest p w) as [r w1]. cbn [fst snd] in *. unfold seen in Hs.
  injection Hs as Ht1 Hp1 Hr1 Ho1.
  rewrite (bind_some _ _ _ _ _ (put_slot_run j _ t w1 Hlt)).
  set (t1 := mk_timer _ _). assert (Hlt1 : (j < length (g_timer_slots t1))%nat)
    by (unfold t1; cbn; by rewrite length_insert).
  destruct (Z.eqb_spec r 0) as [->|Hr].
  { unfold mbind at 1, M_bind at 1, t_do at 1.
    rewrite (bind_some _ _ _ _ _ (put_slot_run j _ t1 (FreePort p w1) Hlt1)). eexists None, _, _.
    split; [reflexivity|]. split; [done|]. split.
    { eexists. split; [reflexivity|]. intros s. by rewrite free_nest. }
    split; [cbn; by rewrite list_insert_insert_eq|].
    by rewrite seen_release, seen_free, Ht1, Hp1, Hr1, Ho1. }
  destruct (open_slot_run me j p r t1 w1 Hlt1) as (o & t' & w' & Hrun & Hi & (w2 & -> & Hn2) & Ho).
  exists o, t', (ReleaseSemaphore g_timer_sem w2). split; [exact Hrun|]. split; [done|]. split.
  { exists w2. split; [done|]. intros s. by rewrite Hn2, Hn. }
  rewrite Ht1, Hp1, Hr1, Ho1 in Ho. destruct o as [k|]; destruct Ho as (Ho & Hse).
  - destruct Hse as [Hl Hse]. split; [done|]. exists r. split; [done|]. split; [by apply Hf|].
    rewrite Hl. split; [cbn; by rewrite list_insert_insert_eq|done].
  - rewrite Ho, Hse, union_minus by (by apply Hf). split; [cbn; by rewrite list_insert_insert_eq|done].
Qed.

Lemma new_slot_run me j t w :
  g_timer_slots t !! j = Some no_slot ->
  exists r t' w', new_slot me j (t, ObtainSemaphore g_timer_sem w) = Some (r, (t', w')) /\
    g_timer_sem_init t' = g_timer_sem_init t /\ (forall s, sem_nest w' s = sem_nest w s) /\
    slot_made me j t w r t' w'.
Proof.
  intros Hj. pose proof (lookup_lt_Some _ _ _ Hj) as Hlt. unfold new_slot.
  set (w1 := ObtainSemaphore g_timer_sem w).
  assert (Hs1 : seen w1 = seen w) by apply seen_sem. unfold seen in Hs1.
  injection Hs1 as Ht1 Hp1 Hr1 Ho1.
  unfold mbind at 1, M_bind at 1, t_run at 1.
  destruct (seen_port w1) as [Hs2 Hf2]. pose proof (alloc_nest w1) as Hn2.
  destruct (AllocPort w1) as [p w2]. cbn [fst snd] in *. rewrite Ht1, Hp1, Hr1, Ho1 in Hs2.
  rewrite Hp1 in Hf2.
  rewrite (bind_some _ _ _ _ _ (put_slot_run j _ t w2 Hlt)).
  set (t2 := mk_timer _ _). assert (Hlt2 : (j < length (g_timer_slots t2))%nat)
    by (unfold t2; cbn; by rewrite length_insert).
  destruct (Z.eqb_spec p 0) as [->|Hp].
  { eexists None, _, (ReleaseSemaphore g_timer_sem w2). split; [reflexivity|]. split; [done|].
    split; [by apply sem_balanced|]. cbn. rewrite seen_release.
    split; [by rewrite list_insert_id|]. by rewrite Hs2. }
  specialize (Hf2 Hp). unfold seen in Hs2. injection Hs2 as Ht2 Hp2 Hr2 Ho2.
  destruct (request_run me j p t2 w2 Hlt2) as (o & t' & w' & Hrun & Hi & (w3 & -> & Hn3) & Ho);
    [rewrite Hp2; set_solver|].
  exists o, t', (ReleaseSemaphore g_timer_sem w3). split; [exact Hrun|]. split; [done|]. split.
  { apply sem_balanced. intros s. by rewrite Hn3, Hn2. }
  rewrite Ht2, Hp2, Hr2, Ho2 in Ho. destruct o as [k|]; cbn [slot_made].
  - destruct Ho as (-> & q & Hq & Hqf & Hl & Hse). split; [done|]. exists p, q.
    do 4 (split; [done|]). rewrite Hl. split; [cbn; by rewrite list_insert_insert_eq|done].
  - destruct Ho as [Hl Hse]. rewrite Hl, Hse, union_minus by done.
    split; [|done]. cbn. rewrite list_insert_insert_eq. by apply list_insert_id.
Qed.

Lemma seen_eq w w' : seen w' = seen w ->
  FindTask w' = FindTask w /\ ports w' = ports w /\ iorequests w' = iorequests w /\
  opened w' = opened w.
Proof. unfold seen. by intros [= -> -> -> ->]. Qed.

(** The invariant in a world that still has everything the slots hold. *)
Lemma wf_timer_world t w t' w' :
  wf_timer t w -> g_timer_slots t' = g_timer_slots t ->
  ports w ⊆ ports w' -> iorequests w ⊆ iorequests w' -> opened w ⊆ opened w' ->
  (g_timer_sem_init t' = true -> sem_nest w' g_timer_sem = 0) -> wf_timer t' w'.
Proof.
  intros [] Hs Hp Hr Ho Hn. split; rewrite ?Hs; try done.
  intros i s Hi Hnz. destruct (wt_holds0 i s Hi Hnz) as (H1 & H2 & H3 & H4 & H5).
  split; [done|]. split; [done|]. auto.
Qed.

Lemma wf_timer_new t w t' w' j me p q :
  wf_timer t w -> slot_at 0 (g_timer_slots t) = Some j -> slot_at me (g_timer_slots t) = None ->
  me <> 0 -> p <> 0 -> q <> 0 -> p ∉ ports w -> q ∉ iorequests w ->
  g_timer_slots t' = <[j := mk_timer_slot me p q]> (g_timer_slots t) ->
  ports w' = {[p]} ∪ ports w -> iorequests w' = {[q]} ∪ iorequests w ->
  opened w' = {[q]} ∪ opened w ->
  (g_timer_sem_init t' = true -> sem_nest w' g_timer_sem = 0) -> wf_timer t' w'.
Proof.
  intros Hw Hj Hme Hmz Hp Hq Hpf Hqf Hs Hps Hrs Hos Hn.
  destruct (slot_at_Some _ _ _ Hj) as (s0 & Hl & _). pose proof (lookup_lt_Some _ _ _ Hl).
  assert (Hat : forall i s, g_timer_slots t' !! i = Some s ->
    (i = j /\ s = mk_timer_slot me p q) \/ (i <> j /\ g_timer_slots t !! i = Some s)).
  { intros i s. rewrite Hs. destruct (decide (i = j)) as [->|Hne].
    - rewrite list_lookup_insert_eq by done. intros [= <-]. by left.
    - rewrite list_lookup_insert_ne by done. by right. }
  assert (Hold : forall i s, g_timer_slots t !! i = Some s -> t_owner s <> 0 ->
    t_owner s <> me /\ t_port s <> p /\ t_req s <> q).
  { intros i s Hi Hnz. destruct (wt_holds _ _ Hw i s Hi Hnz) as (_ & _ & H3 & H4 & _).
    split; [by eapply slot_at_None|]. split; congruence. }
  split; [by rewrite Hs, length_insert, (wt_len _ _ Hw)| | | |done].
  - intros i s [[_ ->]|[_ Hi]]%Hat; [done|]. by apply (wt_free _ _ Hw i).
  - intros i s [[_ ->]|[_ Hi]]%Hat Hnz.
    + unfold holds. rewrite Hps, Hrs, Hos. cbn. split; [done|]. split; [done|]. clear. set_solver.
    + destruct (wt_holds _ _ Hw i s Hi Hnz) as (H1 & H2 & H3 & H4 & H5).
      unfold holds. rewrite Hps, Hrs, Hos, !elem_of_union. auto 10.
  - intros i k s s' [[-> ->]|[Hi0 Hi]]%Hat [[-> ->]|[Hk0 Hk]]%Hat Hnz Hnz' Heq; [done| | |].
    + destruct (Hold _ _ Hk Hnz') as (? & ? & ?). cbn in Heq. naive_solver.
    + destruct (Hold _ _ Hi Hnz) as (? & ? & ?). cbn in Heq. naive_solver.
    + by eapply (wt_owner _ _ Hw i k s s').
Qed.

(** The semaphore is initialised by the first call. *)
Lemma ready_run t w :
  wf_timer t w ->
  exists w1, (if g_timer_sem_init t then mret tt else
     t_do (InitSemaphore g_timer_sem);; put_t (mk_timer true (g_timer_slots t))) (t, w) =
       Some (tt, (mk_timer true (g_timer_slots t), w1)) /\
    seen w1 = seen w /\ wf_timer (mk_timer true (g_timer_slots t)) w1.
Proof.
  intros Hw. destruct (g_timer_sem_init t) eqn:Hi.
  - exists w. split; [destruct t; cbn in *; by subst|]. split; [done|].
    eapply wf_timer_world; eauto. intros _. by apply (wt_sem _ _ Hw).
  - exists (InitSemaphore g_timer_sem w). split; [done|]. split; [apply seen_sem|].
    destruct (seen_eq _ _ (proj2 (proj2 (seen_sem g_timer_sem w)))) as (_ & Hp & Hr & Ho).
    eapply wf_timer_world; [exact Hw|done|by rewrite Hp|by rewrite Hr|by rewrite Ho|].
    intros _. by rewrite init_nest, decide_True.
Qed.

Lemma timer_slot_run t w :
  wf_timer t w ->
  exists r t' w', timer_slot_for_current_task (t, w) = Some (r, (t', w')) /\
    wf_timer t' w' /\ FindTask w' = FindTask w /\
    slot_spec (FindTask w) (g_timer_slots t) (g_timer_slots t') r (ports w) (ports w')
      (iorequests w) (iorequests w') (opened w) (opened w') /\
    (forall i, r = Some i -> exists s, g_timer_slots t' !! i = Some s /\ t_owner s = FindTask w).
Proof.
  intros Hw. unfold timer_slot_for_current_task. unfold mbind at 1, M_bind at 1, t_run at 1.
  unfold mbind at 1, M_bind at 1, get_t at 1.
  set (t1 := mk_timer true (g_timer_slots t)).
  destruct (ready_run t w Hw) as (w1 & Hi & Hs1 & Hw1). fold t1 in Hi, Hw1. rewrite (bind_some _ _ _ _ _ Hi).
  destruct (seen_eq _ _ Hs1) as (Ht & Hp & Hr & Ho).
  unfold mbind at 1, M_bind at 1, t_do at 1. unfold mbind at 1, M_bind at 1, get_t at 1.
  rewrite <- Ht, <- Hp, <- Hr, <- Ho. change (g_timer_slots t) with (g_timer_slots t1).
  assert (Hrel : forall r : option nat, (release;; mret r : M (timer * W) _) (t1, ObtainSemaphore g_timer_sem w1) =
    Some (r, (t1, ReleaseSemaphore g_timer_sem (ObtainSemaphore g_timer_sem w1)))) by done.
  set (w2 := ReleaseSemaphore g_timer_sem (ObtainSemaphore g_timer_sem w1)) in *.
  assert (Hs2 : seen w2 = seen w1).
  { unfold w2. by rewrite (proj1 (proj2 (seen_sem _ _))), (proj1 (seen_sem _ _)). }
  destruct (seen_eq _ _ Hs2) as (Ht2 & Hp2 & Hr2 & Ho2).
  assert (Hw2 : wf_timer t1 w2).
  { eapply wf_timer_world; [exact Hw1|done|by rewrite Hp2|by rewrite Hr2|by rewrite Ho2|].
    intros _. unfold w2. rewrite (sem_balanced _ w1) by done. by apply (wt_sem _ _ Hw1). }
  unfold slot_spec. destruct (slot_at (FindTask w1) (g_timer_slots t1)) as [i|] eqn:Hme.
  { rewrite Hrel. eexists _, _, _. split; [reflexivity|]. split; [done|]. split; [done|].
    split; [done|]. intros i' [= <-]. by apply slot_at_Some. }
  destruct (slot_at 0 (g_timer_slots t1)) as [j|] eqn:H0; cycle 1.
  { rewrite Hrel. eexists _, _, _. by split; [reflexivity|]. }
  destruct (slot_at_Some _ _ _ H0) as (s & Hs & Hso).
  rewrite (wt_free _ _ Hw1 _ _ Hs Hso) in Hs.
  destruct (new_slot_run (FindTask w1) j t1 w1 Hs) as (r & t' & w' & Hn & Hinit & Hnest & Hcase).
  exists r, t', w'. split; [exact Hn|].
  assert (Hsem : g_timer_sem_init t' = true -> sem_nest w' g_timer_sem = 0).
  { intros _. rewrite Hnest. by apply (wt_sem _ _ Hw1). }
  destruct r as [k|].
  - destruct Hcase as (-> & p & q & Hpz & Hqz & Hpf & Hqf & Hl & Hse).
    unfold seen in Hse. injection Hse as Ht' Hp' Hr' Ho'. split.
    { eapply (wf_timer_new t1 w1 t' w' j (FindTask w1) p q); eauto using find_task_nonnull. }
    split; [done|]. split; [split; [done|]; by exists p, q|].
    intros i [= <-]. exists (mk_timer_slot (FindTask w1) p q). rewrite Hl. split; [|reflexivity].
    apply list_lookup_insert_eq. by eapply lookup_lt_Some.
  - destruct Hcase as (Hl & Hse). destruct (seen_eq _ _ Hse) as (Ht' & Hp' & Hr' & Ho').
    split.
    { eapply wf_timer_world; [exact Hw1|done|by rewrite Hp'|by rewrite Hr'|by rewrite Ho'|done]. }
    by split.
Qed.
End run.

(** ** What a sleep asks for *)

Lemma sleep_time_ok ns :
  is_u64 ns -> is_u32 (fst (sleep_time ns)) /\ 0 <= snd (sleep_time ns) < 1000000 /\
  (ns < 4294967296 * 1000000000 ->
   fst (sleep_time ns) * 1000000 + snd (sleep_time ns) = Z.max 1 (ns / 1000)).
Proof.
  intros Hns. unfold sleep_time. cbv zeta. cbn [fst snd].
  replace (if ns / 1000 =? 0 then 1 else ns / 1000) with (Z.max 1 (ns / 1000))
    by (destruct (Z.eqb_spec (ns / 1000) 0); word).
  split; [apply is_u32_u32|]. split; [apply Z.mod_pos_bound; lia|]. intros Hlt.
  rewrite u32_id by word. pose proof (Z.div_mod (Z.max 1 (ns / 1000)) 1000000). lia.
Qed.

(** The timer slots are private.  For a task that has a slot the search
    answers that slot and changes nothing; for a new task it claims the first
    free slot with a new port and a new request opened on the device; when all
    sixteen are taken, or the port, the request or the device is refused, it
    answers the null pointer with the table, the ports, the requests and the open
    devices as they were.  On every path the invariant holds again (no two tasks
    share a slot, a port or a request) and the semaphore is released. *)
Theorem timer_slot_private {W} `{ExecLaws W, TimerDev W, DevViews W, !DevLaws W}
    (t : timer) (w : W) :
  wf_timer t w ->
  exists r t' w', timer_slot_for_current_task (t, w) = Some (r, (t', w')) /\
    wf_timer t' w' /\ FindTask w' = FindTask w /\
    slot_spec (FindTask w) (g_timer_slots t) (g_timer_slots t') r (ports w) (ports w')
      (iorequests w) (iorequests w') (opened w) (opened w') /\
    (forall i, r = Some i -> exists s, g_timer_slots t' !! i = Some s /\ t_owner s = FindTask w).
Proof. apply timer_slot_run. Qed.

(** C36. A sleep is one request to the device.  With a slot, [osal_sleep_ns] makes
    exactly one timer request, the caller's own, with microseconds in range and,
    below 2^32 seconds, a total of the whole microseconds of [ns], at least one.
    Without a slot a sleep below 100 ns returns at once, and a longer one never
    returns: the yield loop waits for an empty signal mask. *)
Theorem sleep_one_request {W} `{ExecLaws W, TimerDev W, DevViews W, !DevLaws W}
    (ns : Z) (t : timer) (w : W) :
  wf_timer t w -> is_u64 ns ->
  exists r t' w1, timer_slot_for_current_task (t, w) = Some (r, (t', w1)) /\
    match r with
    | Some i => exists s sec us, g_timer_slots t' !! i = Some s /\ t_owner s = FindTask w /\
        osal_sleep_ns ns (t, w) = Some (tt, (t', DoIO (t_req s) sec us w1)) /\
        is_u32 sec /\ 0 <= us < 1000000 /\
        (ns < 4294967296 * 1000000000 -> sec * 1000000 + us = Z.max 1 (ns / 1000))
    | None => osal_sleep_ns ns (t, w) = if ns <? 100 then Some (tt, (t', w1)) else None
    end.
Proof.
  intros Hw Hns. destruct (timer_slot_run t w Hw) as (r & t' & w1 & Hr & _ & _ & _ & Hmine).
  exists r, t', w1. split; [done|]. unfold osal_sleep_ns. rewrite (bind_some _ _ _ _ _ Hr).
  destruct r as [i|].
  - destruct (Hmine i eq_refl) as (s & Hs & Ho).
    destruct (sleep_time_ok ns Hns) as (H1' & H2' & H3').
    exists s, (fst (sleep_time ns)), (snd (sleep_time ns)). do 2 (split; [done|]).
    split; [|done]. unfold mbind, M_bind, get_t, liftO, t_do. by rewrite Hs.
  - destruct (Z.ltb_spec ns 100).
    + replace (ns / 100) with 0 by word. done.
    + destruct (Z.to_nat (ns / 100)) as [|n] eqn:Hn; [exfalso; word|]. cbn [busy_yield].
      by rewrite wait0_blocks.
Qed.

(** ** What the code does not keep *)

(** The time base is 32 bits wide: the clock of osal.h goes back every 43 seconds. *)
Theorem clock_goes_back :
  osal_clock_monotonic_ns 0 < osal_clock_monotonic_ns 4294967295.
Proof. vm_compute. reflexivity. Qed.

(** From 2^32 seconds on the seconds are cut to 32 bits: a sleep that returns at
    once. *)
Theorem long_sleep_truncated : sleep_time (4294967296 * 1000000000) = (0, 0).
Proof. vm_compute. reflexivity. Qed.

Lemma clock_gettime_ok tb :
  is_u32 tb -> exists sec nsec, rumpuser_clock_gettime tb true true = (Some sec, Some nsec) /\
    sec * 1000000000 + nsec = tb * 10 /\ 0 <= nsec < 1000000000 /\ 0 <= sec <= 42.
Proof.
  intros Htb. unfold rumpuser_clock_gettime, osal_clock_monotonic_ns. rewrite u64_id by word.
  do 2 eexists. split; [reflexivity|]. word.
Qed.

(** ** A world with sixteen requests *)

Record dev_world := mk_dev_world {
  dw_ports : gset Z;
  dw_reqs : gset Z;
  dw_open : gset Z;
  dw_nest : Z -> Z;
  dw_task : positive;
  dw_io : list (Z * Z * Z)
}.

Definition dw_fresh (X : gset Z) : Z := fresh ({[0]} ∪ X).

Definition dw_sem (s : Z) (f : Z -> Z) (w : dev_world) : dev_world :=
  mk_dev_world (dw_ports w) (dw_reqs w) (dw_open w)
    (fun s' => if decide (s = s') then f (dw_nest w s') else dw_nest w s') (dw_task w) (dw_io w).
Definition dw_set_ports (X : gset Z) (w : dev_world) : dev_world :=
  mk_dev_world X (dw_reqs w) (dw_open w) (dw_nest w) (dw_task w) (dw_io w).
Definition dw_set_reqs (X : gset Z) (w : dev_world) : dev_world :=
  mk_dev_world (dw_ports w) X (dw_open w) (dw_nest w) (dw_task w) (dw_io w).

#[global] Instance dev_world_exec : Exec dev_world := {
  FindTask w := Zpos (dw_task w);
  InitSemaphore s := dw_sem s (fun _ => 0);
  ObtainSemaphore s := dw_sem s (fun n => n + 1);
  ReleaseSemaphore s := dw_sem s (fun n => n - 1);
  FindPort _ := 0;
  AllocPort w := let p := dw_fresh (dw_ports w) in (p, dw_set_ports ({[p]} ∪ dw_ports w) w);
  FreePort p w := dw_set_ports (dw_ports w ∖ {[p]}) w;
  Exchange _ _ r w := (r, w)
}.

#[global] Instance dev_world_views : ExecViews dev_world :=
  { sem_nest := dw_nest; ports := dw_ports }.

#[global] Instance dev_world_dev : TimerDev dev_world := {
  AllocIORequest _ w := if decide (size (dw_reqs w) < 16)%nat
    then let r := dw_fresh (dw_reqs w) in (r, dw_set_reqs ({[r]} ∪ dw_reqs w) w) else (0, w);
  FreeIORequest r w := dw_set_reqs (dw_reqs w ∖ {[r]}) w;
  OpenDevice r w := (0, mk_dev_world (dw_ports w) (dw_reqs w) ({[r]} ∪ dw_open w) (dw_nest w)
                          (dw_task w) (dw_io w));
  DoIO r s us w := mk_dev_world (dw_ports w) (dw_reqs w) (dw_open w) (dw_nest w) (dw_task w)
                     (dw_io w ++ [(r, s, us)]);
  Wait0 _ := None
}.

#[global] Instance dev_world_dviews : DevViews dev_world :=
  { iorequests := dw_reqs; opened := dw_open }.

Lemma dw_fresh_ok X : dw_fresh X <> 0 /\ dw_fresh X ∉ X.
Proof.
  unfold dw_fresh. pose proof (is_fresh ({[0]} ∪ X)) as Hf.
  rewrite not_elem_of_union, elem_of_singleton in Hf. done.
Qed.

#[global] Instance dev_world_laws : ExecLaws dev_world.
Proof.
  split; try done; cbn.
  - intros w _. split; [apply dw_fresh_ok|done].
  - intros w Hw. by destruct (dw_fresh_ok (dw_ports w)).
  - intros f w []; done.
Qed.

#[global] Instance dev_world_dlaws : DevLaws dev_world.
Proof.
  split; try done; cbn.
  - intros _ w. case_decide; [|done]. intros _. split; [apply dw_fresh_ok|done].
  - intros _ w. case_decide; [|done]. intros Hw. by destruct (dw_fresh_ok (dw_reqs w)).
  - intros _ w. by case_decide.
  - intros f w []; cbn; try done. by case_decide.
  - intros f w []; done.
Qed.

Definition dw0 : dev_world := mk_dev_world ∅ ∅ ∅ (fun _ => 0) 7 [].

Lemma wf_timer_init : wf_timer timer_init dw0.
Proof.
  split; cbn [timer_init g_timer_slots g_timer_sem_init]; try done.
  - by intros i s [-> _]%lookup_replicate.
  - by intros i s [-> _]%lookup_replicate.
  - by intros i j s s' [-> _]%lookup_replicate.
Qed.

Lemma timer_slot_private_witness :
  exists t' w', timer_slot_for_current_task (timer_init, dw0) = Some (Some 0%nat, (t', w')) /\
    wf_timer t' w' /\ size (iorequests w') = 1%nat.
Proof.
  destruct (timer_slot_private timer_init dw0 wf_timer_init) as (r & t' & w' & Hr & Hw & _).
  assert (Hv : (fun x => (fst x, size (iorequests (snd (snd x))))) <$>
    timer_slot_for_current_task (timer_init, dw0) = Some (Some 0%nat, 1%nat))
    by (vm_compute; reflexivity).
  rewrite Hr in Hv. cbn [fmap option_fmap option_map fst snd] in Hv. injection Hv as -> Hs.
  exists t', w'. split; [exact Hr|]. split; [exact Hw|exact Hs].
Defined.

Lemma sleep_one_request_witness :
  exists t' w', osal_sleep_ns 1500000000 (timer_init, dw0) = Some (tt, (t', w')) /\
    dw_io w' = [(1, 1, 500000)].
Proof.
  destruct (sleep_one_request 1500000000 timer_init dw0 wf_timer_init) as (r & t' & w1 & Hr & Hc).
  { word. }
  assert (Hv : fst <$> timer_slot_for_current_task (timer_init, dw0) = Some (Some 0%nat))
    by (vm_compute; reflexivity).
  rewrite Hr in Hv. cbn in Hv. injection Hv as ->.
  destruct Hc as (s & sec & us & _ & _ & Hsl & _).
  assert (Hv : (fun x => dw_io (snd (snd x))) <$> osal_sleep_ns 1500000000 (timer_init, dw0) =
    Some [(1, 1, 500000)]) by (vm_compute; reflexivity).
  rewrite Hsl in Hv. exists t', (DoIO (t_req s) sec us w1). split; [exact Hsl|].
  cbn [fmap option_fmap option_map fst snd] in Hv. by injection Hv.
Defined.
