(* ===== verification/OsalTimedWait.v ===== *)
(** * Timed waits on condition variables (osal_cv_timedwait in src/phase1_osal/osal_lock.c)

    A timed wait polls: it lists its caller, and looks for its signal every ten
    milliseconds.  The naps between the polls are those of osal_timer.c, so the
    state is that of the variable together with the timer slots and the world, and
    a nap that never comes back leaves the wait where it is.  What [SetSignal]
    answers at a poll, and whether the mutex is granted at the end, are parameters,
    and other tasks run during the naps. *)

From S2P Require Import Prelude Ring Ipc Exec ClientProps OsalCv OsalTimer.

Section program.
Context {W : Type} `{!Exec W, !TimerDev W}.

(** The variable and the calls made so far; the timer slots and the world. *)
Abbreviation state := (cvst * (timer * W))%type.

Definition on_cv {A} (m : M cvst A) : M state A :=
  fun '(c, s) => '(a, c) ← m c; Some (a, (c, s)).
Definition on_timer {A} (m : M (timer * W) A) : M state A :=
  fun '(c, s) => '(a, s) ← m s; Some (a, (c, s)).

(** The polling loop from iteration [k] on; [sigs k] is what [SetSignal(0, 0)]
    answers there.  [None] when the fuel runs out, or when a nap never returns. *)
Fixpoint cv_poll (sigs : nat -> Z) (others : nat -> M state unit) (timeout mask : Z)
    (fuel : nat) (k : nat) (elapsed : Z) : M state Z :=
  match fuel with
  | O => ub
  | S fuel' =>
    if elapsed <? timeout then
      on_cv (emit (ESetSignal 0 0));;
      if negb (Z.land (sigs k) mask =? 0) then on_cv (emit (ESetSignal 0 mask));; mret 0 else
      on_cv (emit (ESleep poll_ns));;
      on_timer (osal_sleep_ns poll_ns);;
      others k;;
      cv_poll sigs others timeout mask fuel' (S k) (u64 (elapsed + poll_ns))
    else mret (-60)
  end.

(** [osal_mutex_lock(mtx)]: it does not return when the mutex is never [granted]. *)
Definition relock (granted : bool) : M state unit := if granted then on_cv (emit ELock) else ub.

Definition osal_cv_timedwait (timeout_ns : Z) (sigs : nat -> Z) (others : nat -> M state unit)
    (granted : bool) (fuel : nat) : M state Z :=
  me ← on_timer (t_run (fun w => (FindTask w, w)));
  let mask := SIGF_SINGLE in
  on_cv (emit (ESetSignal 0 mask));;
  on_cv (cv_enqueue me mask);;
  on_cv (emit EUnlock);;
  rv ← cv_poll sigs others timeout_ns mask fuel 0 0;
  (if negb (rv =? 0) then on_cv (cv_cancel me mask) else mret tt);;
  relock granted;;
  mret rv.

(** [rumpuser_cv_timedwait]: the time in nanoseconds, in unsigned 64-bit
    arithmetic. *)
Definition rump_timeout (sec nsec : Z) : Z := u64 (u64 (u64 sec * 1000000000) + u64 nsec).

Definition rumpuser_cv_timedwait (sec nsec : Z) (sigs : nat -> Z)
    (others : nat -> M state unit) (granted : bool) (fuel : nat) : M state Z :=
  osal_cv_timedwait (rump_timeout sec nsec) sigs others granted fuel.
End program.

(** ** What a wait comes to *)

Lemma remove_first_last w q : w ∉ q -> remove_first w (q ++ [w]) = q.
Proof.
  intros Hn. unfold remove_first.
  rewrite (proj2 (list_find_Some (fun x => x = w) (q ++ [w]) (length q) w)).
  - rewrite delete_take_drop, take_app_length, drop_ge by (rewrite length_app; cbn; lia).
    apply app_nil_r.
  - split; [by rewrite lookup_app_r, Nat.sub_diag by lia|]. split; [done|].
    intros j y Hj Hlt ->. rewrite lookup_app_l in Hj by done.
    apply Hn. by eapply list_elem_of_lookup_2.
Qed.

(** Polls before the time is over. *)
Definition polls (timeout : Z) : nat := Z.to_nat ((timeout + poll_ns - 1) / poll_ns).

(** The first poll from [k] on, [n] at most, that sees the signal. *)
Fixpoint first_signal (sigs : nat -> Z) (n k : nat) : option nat :=
  match n with
  | O => None
  | S n' => if negb (Z.land (sigs k) SIGF_SINGLE =? 0) then Some k
            else first_signal sigs n' (S k)
  end.

Definition poll_result (sigs : nat -> Z) (n k : nat) : Z :=
  match first_signal sigs n k with Some _ => 0 | None => -60 end.

Lemma polls_step timeout elapsed :
  0 <= elapsed < timeout ->
  polls (timeout - elapsed) = S (polls (timeout - (elapsed + poll_ns))).
Proof. intros H. unfold polls, poll_ns. zlia. Qed.

Lemma polls_0 timeout elapsed : timeout <= elapsed -> polls (timeout - elapsed) = 0%nat.
Proof. intros H. unfold polls, poll_ns. zlia. Qed.

Section run.
Context {W : Type} `{!Exec W, !ExecViews W, !ExecLaws W, !TimerDev W, !DevViews W, !DevLaws W}.
Implicit Types (t : timer) (w : W) (cv : osal_cv).

Lemma on_cv_run {A} (m : M cvst A) c (s : timer * W) a c' :
  m c = Some (a, c') -> on_cv m (c, s) = Some (a, (c', s)).
Proof. intros Hm. unfold on_cv. by rewrite Hm. Qed.

(** The search for a timer slot finds or makes one for the running task. *)
Definition gets_slot t w : Prop :=
  exists i t' w', timer_slot_for_current_task (t, w) = Some (Some i, (t', w')).

(** Other tasks run to completion, leave the structures sound, and take no slot away
    from [me]. *)
Definition others_ok (me : Z) (others : nat -> M (cvst * (timer * W)) unit) : Prop :=
  forall k cv tr t w, wf_cv cv -> wf_timer t w -> FindTask w = me ->
  exists cv' tr' t' w', others k ((cv, tr), (t, w)) = Some (tt, ((cv', tr'), (t', w'))) /\
    wf_cv cv' /\ wf_timer t' w' /\ FindTask w' = me /\
    (is_Some (slot_at me (g_timer_slots t)) -> is_Some (slot_at me (g_timer_slots t'))).

(** A task that has a slot gets it. *)
Lemma owner_gets t w :
  wf_timer t w -> is_Some (slot_at (FindTask w) (g_timer_slots t)) -> gets_slot t w.
Proof.
  intros Hw [i Hi]. destruct (timer_slot_run t w Hw) as (r & t' & w' & Hr & _ & _ & Hs & _).
  unfold slot_spec in Hs. rewrite Hi in Hs. destruct Hs as [-> _]. by exists i, t', w'.
Qed.

(** A nap comes back with the slot kept, or never. *)
Lemma nap_run t w :
  wf_timer t w -> gets_slot t w ->
  exists t' w', osal_sleep_ns poll_ns (t, w) = Some (tt, (t', w')) /\ wf_timer t' w' /\
    FindTask w' = FindTask w /\ is_Some (slot_at (FindTask w) (g_timer_slots t')).
Proof.
  intros Hw (i & t1 & w1 & Hr). destruct (timer_slot_run t w Hw) as (r & t' & w' & Hr' & Hw' & Ht & _ & Hm).
  rewrite Hr in Hr'. simplify_eq. destruct (Hm i eq_refl) as (s & Hs & Ho).
  set (w2 := DoIO (t_req s) (fst (sleep_time poll_ns)) (snd (sleep_time poll_ns)) w').
  exists t', w2. unfold osal_sleep_ns. rewrite (bind_some _ _ _ _ _ Hr).
  unfold mbind, M_bind, get_t, liftO, t_do. rewrite Hs. split; [done|].
  destruct (dev_local _ w' (dc_io (t_req s) (fst (sleep_time poll_ns)) (snd (sleep_time poll_ns))))
    as (Hf & Hp & Hn). fold w2 in Hf, Hp, Hn.
  destruct (io_frame (t_req s) (fst (sleep_time poll_ns)) (snd (sleep_time poll_ns)) w') as [Hi Hop].
  fold w2 in Hi, Hop. split; [|split; [by rewrite Hf|]].
  - eapply wf_timer_world; [exact Hw'|done|by rewrite Hp|by rewrite Hi|by rewrite Hop|].
    intros Hinit. rewrite Hn. by apply (wt_sem _ _ Hw').
  - destruct (slot_at (FindTask w) (g_timer_slots t')) as [j|] eqn:Hj; [by eexists|].
    by destruct (slot_at_None _ _ _ _ Hj Hs).
Qed.

Lemma nap_hangs t w : wf_timer t w -> ~ gets_slot t w -> osal_sleep_ns poll_ns (t, w) = None.
Proof.
  intros Hw Hno. destruct (timer_slot_run t w Hw) as (r & t' & w' & Hr & _).
  unfold osal_sleep_ns. rewrite (bind_some _ _ _ _ _ Hr).
  destruct r as [i|]; [destruct Hno; by exists i, t', w'|].
  change (Z.to_nat (poll_ns / 100)) with (S (Z.to_nat (poll_ns / 100 - 1))). cbn [busy_yield].
  by rewrite wait0_blocks.
Qed.

(** Poll [k] with [elapsed] behind it ends the loop, or its nap comes back. *)
Definition goes_on (sigs : nat -> Z) timeout (k : nat) elapsed t w : Prop :=
  timeout <= elapsed \/ Z.land (sigs k) SIGF_SINGLE <> 0 \/ gets_slot t w.

(** One round of the loop that naps. *)
Lemma poll_round sigs others timeout fuel k elapsed cv tr t w t' w' :
  elapsed < timeout -> Z.land (sigs k) SIGF_SINGLE = 0 ->
  osal_sleep_ns poll_ns (t, w) = Some (tt, (t', w')) ->
  cv_poll sigs others timeout SIGF_SINGLE (S fuel) k elapsed ((cv, tr), (t, w)) =
  (others k;; cv_poll sigs others timeout SIGF_SINGLE fuel (S k) (u64 (elapsed + poll_ns)))
    ((cv, tr ++ [ESetSignal 0 0; ESleep poll_ns]), (t', w')).
Proof.
  intros Hlt Hz Hnap. cbn [cv_poll]. rewrite (proj2 (Z.ltb_lt _ _) Hlt), Hz. cbn [Z.eqb negb].
  unfold mbind at 1 2 3, M_bind at 1 2 3, on_cv, on_timer, emit. cbn [mbind option_bind].
  rewrite Hnap. cbn [mbind option_bind]. by rewrite <- app_assoc.
Qed.

Lemma poll_run sigs others timeout me :
  others_ok me others -> timeout <= 18446744073709551616 - poll_ns ->
  forall fuel k elapsed cv tr t w, wf_cv cv -> wf_timer t w -> FindTask w = me -> 0 <= elapsed ->
  (polls (timeout - elapsed) < fuel)%nat -> goes_on sigs timeout k elapsed t w ->
  exists cv' tr' s', cv_poll sigs others timeout SIGF_SINGLE fuel k elapsed ((cv, tr), (t, w)) =
      Some (poll_result sigs (polls (timeout - elapsed)) k, ((cv', tr'), s')) /\ wf_cv cv'.
Proof.
  intros Ho Ht. induction fuel as [|fuel IH]; intros k elapsed cv tr t w Hw Hwt Hme He Hf Hg; [lia|].
  destruct (Z.ltb_spec elapsed timeout) as [Hlt|Hge]; cycle 1.
  { cbn [cv_poll]. rewrite (proj2 (Z.ltb_ge _ _) Hge), polls_0 by done. by exists cv, tr, (t, w). }
  rewrite (polls_step timeout elapsed) in Hf |- * by done. unfold poll_result. cbn [first_signal].
  destruct (Z.eqb_spec (Z.land (sigs k) SIGF_SINGLE) 0) as [Hz|Hz]; cbn [negb].
  - destruct Hg as [?|[?|Hg]]; [lia|done|].
    destruct (nap_run t w Hwt Hg) as (t1 & w1 & Hnap & Hwt1 & Hme1 & Hs1).
    rewrite (poll_round _ _ _ _ _ _ _ _ _ _ _ _ Hlt Hz Hnap).
    destruct (Ho k cv (tr ++ [ESetSignal 0 0; ESleep poll_ns]) t1 w1 Hw Hwt1)
      as (cv2 & tr2 & t2 & w2 & Hr & Hw2 & Hwt2 & Hme2 & Hs2); [congruence|].
    rewrite (bind_some _ _ _ _ _ Hr), u64_id by (unfold is_u64, poll_ns in *; lia).
    apply IH; [done..|unfold poll_ns; lia|lia|]. right. right. apply owner_gets; [done|].
    rewrite Hme2. apply Hs2. by rewrite <- Hme.
  - cbn [cv_poll]. rewrite (proj2 (Z.ltb_lt _ _) Hlt), (proj2 (Z.eqb_neq _ _) Hz). cbn [negb].
    eexists _, _, _. by split.
Qed.

(** The first nap never comes back. *)
Lemma poll_hangs sigs others timeout fuel cv tr t w :
  wf_timer t w -> ~ goes_on sigs timeout 0 0 t w ->
  cv_poll sigs others timeout SIGF_SINGLE fuel 0 0 ((cv, tr), (t, w)) = None.
Proof.
  intros Hwt Hn. destruct fuel as [|fuel]; [done|].
  assert (Hlt : 0 < timeout) by (apply Z.nle_gt; intros ?; apply Hn; by left).
  assert (Hz : Z.land (sigs 0%nat) SIGF_SINGLE = 0)
    by (apply dec_stable; intros ?; apply Hn; by right; left).
  cbn [cv_poll]. rewrite (proj2 (Z.ltb_lt _ _) Hlt), Hz. cbn [Z.eqb negb].
  unfold mbind, M_bind, on_cv, on_timer, emit. cbn [mbind option_bind].
  rewrite nap_hangs; [done..|]. intros Hg. apply Hn. by right; right.
Qed.

(** Up to the polling loop, a timed wait only queues its caller. *)
Lemma timedwait_start timeout sigs others granted fuel cv tr t w :
  wf_cv cv -> cv_count cv < 32 ->
  exists cv1, wf_cv cv1 /\ cv_queue cv1 = cv_queue cv ++ [single (FindTask w)] /\
    osal_cv_timedwait timeout sigs others granted fuel ((cv, tr), (t, w)) =
    (rv ← cv_poll sigs others timeout SIGF_SINGLE fuel 0 0;
     (if negb (rv =? 0) then on_cv (cv_cancel (FindTask w) SIGF_SINGLE) else mret tt);;
     relock granted;; mret rv)
      ((cv1, tr ++ [ESetSignal 0 SIGF_SINGLE; EObtain; ERelease; EUnlock]), (t, w)).
Proof.
  intros Hw Hc.
  destruct (enqueue_run cv (tr ++ [ESetSignal 0 SIGF_SINGLE]) (FindTask w) SIGF_SINGLE Hw Hc)
    as (cv1 & Hr & Hw1 & Hq1). exists cv1. split; [done|]. split; [done|].
  unfold osal_cv_timedwait. unfold mbind at 1 2 3 4, M_bind at 1 2 3 4, on_cv at 1 2 3.
  unfold on_timer, t_run, emit. cbn [mbind option_bind]. rewrite Hr. cbn [mbind option_bind].
  by rewrite <- !app_assoc.
Qed.


(** Nobody else runs. *)
Definition quiet : nat -> M (cvst * (timer * W)) unit := fun _ => mret tt.

Lemma quiet_ok me : others_ok me quiet.
Proof. intros k cv tr t w Hw Hwt Hme. by exists cv, tr, t, w. Qed.

(** What [n] polls that see nothing do. *)
Lemma poll_silent sigs timeout n : forall fuel k elapsed cv tr t w,
  (forall i, Z.land (sigs i) SIGF_SINGLE = 0) -> wf_timer t w -> gets_slot t w ->
  timeout <= 18446744073709551616 - poll_ns -> 0 <= elapsed ->
  polls (timeout - elapsed) = n -> (n < fuel)%nat ->
  exists s', cv_poll sigs quiet timeout SIGF_SINGLE fuel k elapsed ((cv, tr), (t, w)) =
  Some (-60, ((cv, tr ++ concat (replicate n [ESetSignal 0 0; ESleep poll_ns])), s')).
Proof.
  induction n as [|n IH]; intros fuel k elapsed cv tr t w Hs Hwt Hg Ht He Hp Hf;
    (destruct fuel as [|fuel]; [lia|]).
  - cbn [cv_poll]. destruct (Z.ltb_spec elapsed timeout) as [Hlt|_].
    + rewrite polls_step in Hp by done. done.
    + exists (t, w). cbn. by rewrite app_nil_r.
  - destruct (Z.ltb_spec elapsed timeout) as [Hlt|Hge]; [|by rewrite polls_0 in Hp].
    rewrite polls_step in Hp by done. injection Hp as Hp.
    destruct (nap_run t w Hwt Hg) as (t1 & w1 & Hnap & Hwt1 & Hme1 & Hs1).
    rewrite (poll_round _ _ _ _ _ _ _ _ _ _ _ _ Hlt (Hs k) Hnap).
    unfold mbind at 1, M_bind at 1, quiet at 1. unfold mret at 1, M_ret at 1.
    rewrite u64_id by (unfold is_u64, poll_ns in *; lia).
    destruct (IH fuel (S k) (elapsed + poll_ns) cv (tr ++ [ESetSignal 0 0; ESleep poll_ns]) t1 w1)
      as (s' & Hr); try done; [by apply owner_gets; [|rewrite Hme1]|unfold poll_ns in *; lia|lia|].
    exists s'. rewrite Hr. cbn. by rewrite <- !app_assoc.
Qed.

(** When nobody signals, a timed wait makes exactly ceil(timeout / 10 ms)
    polls, so it sleeps at least the time-out and less than 10 ms more, returns
    -60 with the mutex taken again, and leaves the waiter list as it was. *)
Theorem timedwait_timeout timeout sigs fuel cv tr t w :
  wf_cv cv -> cv_count cv < OSAL_CV_MAX_WAITERS -> single (FindTask w) ∉ cv_queue cv ->
  wf_timer t w -> gets_slot t w -> (forall i, Z.land (sigs i) SIGF_SINGLE = 0) ->
  0 <= timeout <= 18446744073709551616 - poll_ns -> (polls timeout < fuel)%nat ->
  exists cv' s',
    osal_cv_timedwait timeout sigs quiet true fuel ((cv, tr), (t, w)) =
      Some (-60, ((cv', tr ++ [ESetSignal 0 SIGF_SINGLE; EObtain; ERelease; EUnlock] ++
        concat (replicate (polls timeout) [ESetSignal 0 0; ESleep poll_ns]) ++
        [EObtain; ERelease; ELock]), s')) /\
    wf_cv cv' /\ cv_queue cv' = cv_queue cv /\
    timeout <= Z.of_nat (polls timeout) * poll_ns < timeout + poll_ns.
Proof.
  intros Hw Hc Hn Hwt Hg Hs Ht Hf.
  destruct (timedwait_start timeout sigs quiet true fuel cv tr t w Hw Hc) as (cv1 & Hw1 & Hq1 & ->).
  set (tr0 := tr ++ _).
  destruct (poll_silent sigs timeout (polls timeout) fuel 0 0 cv1 tr0 t w Hs Hwt Hg)
    as (s1 & Hp); [lia|lia|by rewrite Z.sub_0_r|done|].
  rewrite (bind_some _ _ _ _ _ Hp). cbn [Z.eqb negb]. set (tr1 := tr0 ++ _).
  destruct (cancel_run cv1 tr1 (FindTask w) SIGF_SINGLE Hw1) as (cv' & Hr' & Hw' & Hq').
  exists cv', s1. split.
  { rewrite (bind_some _ _ _ _ _ (on_cv_run _ _ s1 _ _ Hr')).
    unfold mbind, M_bind, relock, on_cv, emit, mret, M_ret. cbn [mbind option_bind].
    unfold tr1, tr0. by rewrite <- !app_assoc. }
  split; [done|]. split.
  - rewrite Hq', Hq1. by apply remove_first_last.
  - unfold polls, poll_ns. zlia.
Qed.
End run.

(** ** Runs *)

Definition signalled_second (k : nat) : Z := if (k =? 1)%nat then 16 else 0.

Lemma gets_slot_init : gets_slot timer_init dw0.
Proof. eexists 0%nat, _, _. vm_compute. reflexivity. Qed.


Lemma timedwait_timeout_witness :
  exists cv' s', osal_cv_timedwait 15000000 (fun _ => 0) quiet true 5
      ((empty_cv, []), (timer_init, dw0)) = Some (-60, (cv', s')) /\ cv_queue (fst cv') = [].
Proof.
  destruct (timedwait_timeout 15000000 (fun _ => 0) 5 empty_cv [] timer_init dw0)
    as (cv' & s' & Hr & _ & Hq & _).
  - apply wf_empty_cv.
  - vm_compute. reflexivity.
  - change (cv_queue empty_cv) with (@nil osal_cv_waiter). apply not_elem_of_nil.
  - exact wf_timer_init.
  - exact gets_slot_init.
  - intros i. reflexivity.
  - vm_compute. split; discriminate.
  - vm_compute. lia.
  - eexists (cv', _), s'. split; [exact Hr|exact Hq].
Defined.

(** A table whose sixteen slots are other tasks'. *)
Definition full_timer : timer := mk_timer true ((fun i => mk_timer_slot (100 + i) i i) <$> seqZ 1 16).

(** A timed wait of a task that gets no slot hangs in its first nap, however short the
    time-out. *)
Theorem timedwait_hangs fuel :
  osal_cv_timedwait 1 (fun _ => 0) quiet true (S fuel) ((empty_cv, []), (full_timer, dw0)) = None.
Proof. vm_compute. reflexivity. Qed.

(** A signal that arrives between the last poll and the removal is consumed by the
    waiter that then reports a time-out: task 7 is signalled and returns -60,
    task 8, which waits behind it, is not woken. *)
Theorem timedwait_lost_wakeup :
  exists cv' tr' s', osal_cv_timedwait 1 (fun _ => 0)
      (fun _ => on_cv (cv_enqueue 8 SIGF_SINGLE;; osal_cv_signal)) true 5
      ((empty_cv, []), (timer_init, dw0)) =
    Some (-60, ((cv', tr'), s')) /\ woken tr' = [7] /\ cv_queue cv' = [single 8].
Proof. eexists _, _, _. split; [vm_compute; reflexivity|]. split; vm_compute; reflexivity. Qed.
