(* ===== verification/OsalMemory.v ===== *)
(** * Memory hypercalls (src/phase1_osal/osal_memory.c)

    [osal_malloc] and the rump kernel's allocators over exec's vectors.  The
    allocator is the class [Vec], called with the tags the code gives it; what the
    code relies on is that a vector is new, apart from the others, aligned as its tags
    ask, and cleared if they ask for that. *)

From S2P Require Import Prelude.

(** The tags of [AllocVecTags], up to [TAG_END]. *)
Inductive vec_tag := AVT_Type (type : Z) | AVT_Alignment (align : Z) | AVT_ClearWithValue (v : Z).

Definition MEMF_SHARED : Z := 4096.

Definition tag_align (tags : list vec_tag) : option Z :=
  head (omap (fun g => match g with AVT_Alignment a => Some a | _ => None end) tags).
Definition tag_clear (tags : list vec_tag) : option Z :=
  head (omap (fun g => match g with AVT_ClearWithValue v => Some v | _ => None end) tags).

Class Vec (W : Type) := {
  AllocVecTags : Z -> list vec_tag -> W -> Z * W;
  FreeVec : Z -> W -> W;
  (** vectors allocated and not freed, with their bytes *)
  vectors : W -> gmap Z (list Z)
}.

Definition pow2 (a : Z) : Prop := exists k, 0 <= k /\ a = 2 ^ k.

(** The blocks of [n] bytes at [p] and of [m] bytes at [q] have no byte in common. *)
Definition disjoint (p n q m : Z) : Prop := p + n <= q \/ q + m <= p.

Class VecLaws (W : Type) `{Vec W} := {
  vec_new : forall size tags a w, tag_align tags = Some a -> pow2 a ->
    let '(p, w') := AllocVecTags size tags w in
    (p = 0 /\ vectors w' = vectors w) \/
    (p <> 0 /\ vectors w !! p = None /\ p mod a = 0 /\
     (forall q bs, vectors w !! q = Some bs -> disjoint p size q (Z.of_nat (length bs))) /\
     exists bs, length bs = Z.to_nat size /\
       (forall v, tag_clear tags = Some v -> bs = replicate (Z.to_nat size) (u8 v)) /\
       vectors w' = <[p := bs]> (vectors w));
  vec_free : forall p w, vectors (FreeVec p w) = delete p (vectors w)
}.

Definition ENOMEM : Z := 12.

Section memory.
Context {W : Type} `{!Vec W}.
Implicit Types (w : W).

Definition osal_malloc (size align : Z) w : Z * W :=
  let align := if align =? 0 then 16 else align in
  AllocVecTags size [AVT_Type MEMF_SHARED; AVT_Alignment align; AVT_ClearWithValue 0] w.

Definition osal_free (ptr : Z) w : W := if negb (ptr =? 0) then FreeVec ptr w else w.

Definition osal_dma_malloc (size align : Z) w : Z * W := osal_malloc size align w.
Definition osal_dma_free (ptr : Z) w : W := osal_free ptr w.

(** The result and what is stored through [memp], if anything is. *)
Definition rumpuser_malloc (howmuch alignment : Z) w : Z * option Z * W :=
  let '(p, w) := osal_malloc howmuch (if 0 <? alignment then alignment else 16) w in
  if p =? 0 then (ENOMEM, None, w) else (0, Some p, w).

Definition rumpuser_free (ptr size : Z) w : W := osal_free ptr w.

(** [None]: a shift by the width of [size_t] or more. *)
Definition rumpuser_anonmmap (size alignbit : Z) w : option (Z * option Z * W) :=
  align ← (if 0 <? alignbit then
             if alignbit <? 32 then Some (Z.shiftl 1 alignbit) else None
           else Some 4096);
  let '(p, w) := osal_malloc size align w in
  Some (if p =? 0 then (ENOMEM, None, w) else (0, Some p, w)).

Definition rumpuser_unmap (addr size : Z) w : W := osal_free addr w.

(** ** What a caller gets *)

Context `{!VecLaws W}.

(** The answer of the two allocators: ENOMEM with nothing changed and nothing
    stored, or a new cleared vector on the alignment, apart from all others. *)
Definition allocated (size align : Z) w (a : Z * option Z * W) : Prop :=
  let '(rv, memp, w') := a in
  (rv = ENOMEM /\ memp = None /\ vectors w' = vectors w) \/
  (exists p, rv = 0 /\ memp = Some p /\ p <> 0 /\ vectors w !! p = None /\ p mod align = 0 /\
     (forall q bs, vectors w !! q = Some bs -> disjoint p size q (Z.of_nat (length bs))) /\
     vectors w' = <[p := replicate (Z.to_nat size) 0]> (vectors w)).

Lemma malloc_run size align w :
  pow2 align ->
  let '(p, w') := osal_malloc size align w in
  allocated size align w (if p =? 0 then (ENOMEM, None, w') else (0, Some p, w')).
Proof.
  intros Ha. assert (align <> 0) as Hz.
  { destruct Ha as (k & ? & ->). pose proof (Z.pow_pos_nonneg 2 k). lia. }
  unfold osal_malloc. rewrite (proj2 (Z.eqb_neq _ _) Hz).
  pose proof (vec_new size [AVT_Type MEMF_SHARED; AVT_Alignment align; AVT_ClearWithValue 0] align w
    eq_refl Ha) as Hn.
  destruct (AllocVecTags _ _ w) as [p w']. unfold allocated.
  destruct (Z.eqb_spec p 0); [left; naive_solver|right; exists p].
  destruct Hn as [[? _]|(_ & H2 & H3 & H4 & bs & _ & Hb & Hv)]; [done|].
  by rewrite Hv, (Hb 0 eq_refl).
Qed.

Lemma rumpuser_malloc_run size alignment w :
  (0 < alignment -> pow2 alignment) ->
  allocated size (if 0 <? alignment then alignment else 16) w (rumpuser_malloc size alignment w).
Proof.
  intros Hal. set (al := if 0 <? alignment then alignment else 16).
  assert (Hp : pow2 al).
  { unfold al. destruct (Z.ltb_spec 0 alignment); [by apply Hal|by exists 4]. }
  pose proof (malloc_run size al w Hp) as Hm. unfold rumpuser_malloc. fold al.
  destruct (osal_malloc size al w) as [p w']. by destruct (p =? 0).
Qed.

Lemma rumpuser_anonmmap_run size alignbit w :
  alignbit < 32 ->
  exists a, rumpuser_anonmmap size alignbit w = Some a /\
    allocated size (if 0 <? alignbit then 2 ^ alignbit else 4096) w a.
Proof.
  intros Hbit. set (ab := if 0 <? alignbit then 2 ^ alignbit else 4096).
  assert (Hb : pow2 ab).
  { unfold ab. destruct (Z.ltb_spec 0 alignbit); [exists alignbit; lia|by exists 12]. }
  pose proof (malloc_run size ab w Hb) as Hm. unfold rumpuser_anonmmap.
  replace (if 0 <? alignbit then if alignbit <? 32 then Some (Z.shiftl 1 alignbit) else None
           else Some 4096) with (Some ab).
  2: { unfold ab. destruct (Z.ltb_spec 0 alignbit); [|done].
       destruct (Z.ltb_spec alignbit 32); [|lia]. by rewrite Z.shiftl_1_l. }
  cbn [mbind option_bind]. destruct (osal_malloc size ab w) as [p w'].
  eexists. split; [reflexivity|]. by destruct (p =? 0).
Qed.

(** ** Sequences of calls *)

(** A call of the kernel; what it frees is the [k]-th block it holds. *)
Inductive mem_op :=
  | MMalloc (size alignment : Z)
  | MMmap (size alignbit : Z)
  | MFree (k : nat)
  | MUnmap (k : nat).

(** A block that was granted: where, how long, and the alignment that was asked. *)
Record block := mk_block { b_ptr : Z; b_size : Z; b_align : Z }.

(** An alignment is a power of two, if it is positive; a shift stays in the width. *)
Definition legal (o : mem_op) : Prop :=
  match o with
  | MMalloc size alignment => is_u32 size /\ (0 < alignment -> pow2 alignment)
  | MMmap size alignbit => is_u32 size /\ alignbit < 32
  | _ => True
  end.

Definition granted (size align : Z) (bs : list block) (a : Z * option Z * W) : list block * W :=
  let '(rv, memp, w) := a in
  (match memp with Some p => if rv =? 0 then bs ++ [mk_block p size align] else bs | None => bs end, w).

Definition freed (k : nat) (f : Z -> Z -> W -> W) (bs : list block) w : list block * W :=
  match bs !! k with
  | Some b => (delete k bs, f (b_ptr b) (b_size b) w)
  | None => (bs, w)
  end.

Definition mem_step (o : mem_op) (bs : list block) w : option (list block * W) :=
  match o with
  | MMalloc size al =>
    Some (granted size (if 0 <? al then al else 16) bs (rumpuser_malloc size al w))
  | MMmap size bit =>
    a ← rumpuser_anonmmap size bit w;
    Some (granted size (if 0 <? bit then 2 ^ bit else 4096) bs a)
  | MFree k => Some (freed k rumpuser_free bs w)
  | MUnmap k => Some (freed k rumpuser_unmap bs w)
  end.

Fixpoint mem_run (os : list mem_op) (bs : list block) w : option (list block * W) :=
  match os with
  | [] => Some (bs, w)
  | o :: os' => '(bs, w) ← mem_step o bs w; mem_run os' bs w
  end.

(** The blocks held are vectors of their sizes, on their alignments, that were not there
    in [w0] and have no byte in common with each other or with what was there; and
    nothing else has changed since [w0]. *)
Record accounts w0 (bs : list block) w : Prop := {
  ac_block : forall k b, bs !! k = Some b -> b_ptr b <> 0 /\ vectors w0 !! b_ptr b = None /\
    b_ptr b mod b_align b = 0 /\ vectors w !! b_ptr b = Some (replicate (Z.to_nat (b_size b)) 0) /\
    0 <= b_size b /\
    forall q l, vectors w0 !! q = Some l -> disjoint (b_ptr b) (b_size b) q (Z.of_nat (length l));
  ac_apart : forall j k b c, bs !! j = Some b -> bs !! k = Some c -> j <> k ->
    b_ptr b <> b_ptr c /\ disjoint (b_ptr b) (b_size b) (b_ptr c) (b_size c);
  ac_rest : forall q, (forall b, b ∈ bs -> b_ptr b <> q) -> vectors w !! q = vectors w0 !! q
}.

Lemma disjoint_sym p n q m : disjoint p n q m -> disjoint q m p n.
Proof. unfold disjoint. tauto. Qed.

Lemma accounts_granted w0 bs w size align a :
  0 <= size -> accounts w0 bs w -> allocated size align w a ->
  let '(bs', w') := granted size align bs a in accounts w0 bs' w'.
Proof.
  destruct a as [[rv memp] w']. intros Hsz [A1 A2 A3] [(-> & -> & Hv)|(p & -> & -> & Hp & Hf & Ha & Hd & Hv)];
    cbn [granted Z.eqb].
  { split; [|done|]; [intros k b Hb; rewrite Hv; by apply (A1 k)|intros q Hq; rewrite Hv; by apply A3]. }
  assert (Hne : forall k b, bs !! k = Some b -> b_ptr b <> p).
  { intros k b Hb. destruct (A1 k b Hb) as (_ & _ & _ & Hin & _). congruence. }
  assert (Hat : forall k b, (bs ++ [mk_block p size align]) !! k = Some b ->
    bs !! k = Some b \/ (k = length bs /\ b = mk_block p size align)).
  { intros k b [?|[? Hk]]%lookup_app_Some; [by left|]. right.
    apply list_lookup_singleton_Some in Hk as [? <-]. split; [lia|done]. }
  assert (Hnew : forall k b, bs !! k = Some b -> disjoint p size (b_ptr b) (b_size b)).
  { intros k b Hb. destruct (A1 k b Hb) as (_ & _ & _ & Hin & Hs & _). apply Hd in Hin.
    rewrite length_replicate, Z2Nat.id in Hin by done. done. }
  split.
  - intros k b [Hb|[_ ->]]%Hat; cbn.
    + destruct (A1 k b Hb) as (? & ? & ? & ? & ? & ?). rewrite Hv, lookup_insert_ne by (by apply not_eq_sym, (Hne k)). done.
    + assert (Hf0 : vectors w0 !! p = None).
      { rewrite <- A3; [done|]. intros b [k' Hb]%list_elem_of_lookup. by apply (Hne k'). }
      rewrite Hv, lookup_insert_eq. split_and!; try done. intros q l Hq. apply Hd.
      rewrite A3; [done|]. intros b [k' Hb]%list_elem_of_lookup Heq.
      destruct (A1 k' b Hb) as (_ & Hn & _). congruence.
  - intros j k b c [Hb|[-> ->]]%Hat [Hc|[-> ->]]%Hat Hjk; cbn; [by apply (A2 j k)| | |done].
    + split; [by apply (Hne j)|]. by apply disjoint_sym, (Hnew j).
    + split; [by apply not_eq_sym, (Hne k)|by apply (Hnew k)].
  - intros q Hq. rewrite Hv, lookup_insert_ne; [apply A3; set_solver|].
    apply (Hq (mk_block p size align)). set_solver.
Qed.

(** An element of a list with one taken out, and where it was. *)
Lemma lookup_delete_list {A} (l : list A) k i x :
  delete k l !! i = Some x -> let i' := if decide (i < k)%nat then i else S i in i' <> k /\ l !! i' = Some x.
Proof.
  cbv zeta. case_decide.
  - rewrite list_lookup_delete_lt by done. split; [lia|done].
  - rewrite list_lookup_delete_ge by lia. split; [lia|done].
Qed.

Lemma accounts_freed w0 bs w k f :
  (forall p n w, p <> 0 -> vectors (f p n w) = delete p (vectors w)) ->
  accounts w0 bs w -> let '(bs', w') := freed k f bs w in accounts w0 bs' w'.
Proof.
  intros Hf [A1 A2 A3]. unfold freed. destruct (bs !! k) as [b0|] eqn:Hk; [|done].
  destruct (A1 k b0 Hk) as (Hz & Hn & _). split; rewrite ?Hf by done.
  - intros i b [Hi Hb]%lookup_delete_list. destruct (A1 _ b Hb) as (? & ? & ? & ? & ? & ?).
    rewrite lookup_delete_ne by (by apply (A2 k _ b0 b Hk Hb)). done.
  - intros i j b c [Hi Hb]%lookup_delete_list [Hj Hc]%lookup_delete_list Hij.
    apply (A2 _ _ b c Hb Hc). repeat case_decide; lia.
  - intros q Hq. destruct (decide (b_ptr b0 = q)) as [<-|Hne].
    + by rewrite lookup_delete_eq.
    + rewrite lookup_delete_ne by done. apply A3. intros b [i Hb]%list_elem_of_lookup.
      destruct (decide (i = k)) as [->|Hik]; [congruence|]. apply Hq.
      apply list_elem_of_lookup. destruct (decide (i < k)%nat).
      * exists i. by rewrite list_lookup_delete_lt.
      * exists (pred i). rewrite list_lookup_delete_ge by lia. by replace (S (pred i)) with i by lia.
Qed.

Lemma rumpuser_free_run p n w : p <> 0 -> vectors (rumpuser_free p n w) = delete p (vectors w).
Proof. intros Hp. unfold rumpuser_free, osal_free. rewrite (proj2 (Z.eqb_neq _ _) Hp). apply vec_free. Qed.

Lemma rumpuser_unmap_run p n w : p <> 0 -> vectors (rumpuser_unmap p n w) = delete p (vectors w).
Proof. apply rumpuser_free_run. Qed.

Lemma mem_step_run w0 o bs w :
  legal o -> accounts w0 bs w ->
  exists bs' w', mem_step o bs w = Some (bs', w') /\ accounts w0 bs' w'.
Proof.
  intros Hl Ha. destruct o as [size al|size bit|k|k]; cbn [mem_step legal] in *.
  - destruct Hl as [Hs Hal]. pose proof (accounts_granted w0 bs w size _ _ (proj1 Hs) Ha
      (rumpuser_malloc_run size al w Hal)) as Hg.
    destruct (granted _ _ _ _) as [bs' w']. by exists bs', w'.
  - destruct Hl as [Hs Hbit]. destruct (rumpuser_anonmmap_run size bit w Hbit) as (a & -> & Hall).
    pose proof (accounts_granted w0 bs w size _ _ (proj1 Hs) Ha Hall) as Hg.
    cbn [mbind option_bind]. destruct (granted _ _ _ _) as [bs' w']. by exists bs', w'.
  - pose proof (accounts_freed w0 bs w k rumpuser_free rumpuser_free_run Ha) as Hf.
    destruct (freed _ _ _ _) as [bs' w']. by exists bs', w'.
  - pose proof (accounts_freed w0 bs w k rumpuser_unmap rumpuser_unmap_run Ha) as Hf.
    destruct (freed _ _ _ _) as [bs' w']. by exists bs', w'.
Qed.

Lemma accounts_refl w : accounts w [] w.
Proof. split; done. Qed.

Lemma mem_run_accounts w0 os : forall bs w,
  Forall legal os -> accounts w0 bs w ->
  exists bs' w', mem_run os bs w = Some (bs', w') /\ accounts w0 bs' w'.
Proof.
  induction os as [|o os IH]; intros bs w Hl Ha; [by exists bs, w|].
  inversion Hl as [|? ? Ho Hos]; subst. cbn [mem_run].
  destruct (mem_step_run w0 o bs w Ho Ha) as (bs1 & w1 & -> & Ha1). by apply IH.
Qed.
End memory.


(** ** A concrete allocator *)

(** The first address behind all vectors. *)
Definition vec_top (w : gmap Z (list Z)) : Z :=
  foldr Z.max 0 ((fun '(q, bs) => q + Z.of_nat (length bs)) <$> map_to_list w).

(** Addresses grow; 65536 bytes are granted at most, and memory that is not cleared
    holds 165. *)
#[export] Instance bump_vec : Vec (gmap Z (list Z)) := {
  AllocVecTags size tags w :=
    let align := default 16 (tag_align tags) in
    let p := (vec_top w / align + 1) * align in
    if size <=? 65536 then
      (p, <[p := replicate (Z.to_nat size) (u8 (default 165 (tag_clear tags)))]> w)
    else (0, w);
  FreeVec p w := delete p w;
  vectors w := w
}.

Lemma top_bound (w : gmap Z (list Z)) p l :
  w !! p = Some l -> p + Z.of_nat (length l) <= vec_top w.
Proof.
  intros Hl. apply elem_of_map_to_list in Hl. unfold vec_top.
  assert (Hin : p + Z.of_nat (length l) ∈ (fun '(q, bs) => q + Z.of_nat (length bs)) <$> map_to_list w)
    by (apply list_elem_of_fmap; by exists (p, l)).
  clear Hl. induction ((_ : Z * list Z -> Z) <$> map_to_list w) as [|q qs IH]; [by apply elem_of_nil in Hin|].
  cbn [foldr]. apply elem_of_cons in Hin as [->|Hin]; [lia|]. specialize (IH Hin). lia.
Qed.

Lemma top_nonneg w : 0 <= vec_top w.
Proof. unfold vec_top. induction ((_ : Z * list Z -> Z) <$> _); cbn [foldr]; lia. Qed.

#[export] Instance bump_vec_laws : VecLaws (gmap Z (list Z)).
Proof.
  split; [|done]. intros size tags a w Ha (k & Hk & ->). cbn. rewrite Ha.
  change (default 16 (Some (2 ^ k))) with (2 ^ k).
  destruct (size <=? 65536); [right|by left].
  pose proof (top_nonneg w) as Ht.
  pose proof (Z.pow_pos_nonneg 2 k ltac:(lia) Hk) as Hpos.
  pose proof (Z.mul_succ_div_gt (vec_top w) (2 ^ k) Hpos) as Hgt.
  assert (Hp : vec_top w < (vec_top w / 2 ^ k + 1) * 2 ^ k) by lia.
  split; [lia|]. split; [|split; [apply Z.mod_mul; lia|split]].
  - destruct (w !! _) as [l|] eqn:He; [|done]. pose proof (top_bound w _ l He). lia.
  - intros q bs Hq. right. pose proof (top_bound w q bs Hq). lia.
  - eexists. split; [apply length_replicate|]. split; [|reflexivity]. by intros v ->.
Qed.

