(* ===== verification/OsalThread.v ===== *)
(** * Threads (src/phase1_osal/osal_thread.c)

    A thread is a task plus a block shared with whoever joins it.  The
    creator's code runs up to the point where the new task may run; the
    trampoline of each thread and each join are machines that make one step
    per access to shared memory or call into the system, so that they
    interleave everywhere.  An access to a block that was freed is an undefined
    step. *)

From S2P Require Import Prelude Ipc OsalMemory Tasks.

(** ** What the file uses of exec beside Tasks.v *)

Class ThreadOS (W : Type) := {
  (** [RemTask(task)] *)
  RemTask : Z -> W -> W
}.

Inductive task_call {W} `{Tasks W, ThreadOS W} : (W -> W) -> Prop :=
  | tc_alloc t : task_call (fun w => snd (AllocSignal t w))
  | tc_free t b : task_call (FreeSignal t b)
  | tc_signal t m : task_call (Signal t m)
  | tc_create pri : task_call (fun w => snd (CreateTask pri w))
  | tc_rem t : task_call (RemTask t).

#[export] Hint Constructors task_call : exec.

Class ThreadLaws (W : Type) `{Tasks W, TaskView W, ThreadOS W, Vec W} := {
  rem_law : forall t w, view (RemTask t w) = kv_tasks (k_tasks (view w) ∖ {[t]}) (view w);
  task_vectors : forall f w, task_call f -> vectors (f w) = vectors w;
  alloc_view : forall s tags w, view (snd (AllocVecTags s tags w)) = view w;
  free_view : forall p w, view (FreeVec p w) = view w
}.

(** ** State *)

(** A thread function: the shim of this file, or any other. *)
Inductive thread_fn := Shim | Fn (f : Z).

Record osal_thread := mk_thread {
  task : Z;
  joiner : Z;
  join_sigmask : Z;
  join_sigbit : Z;
  fn : thread_fn;
  arg : Z;
  done : bool
}.

Record rump_wrap := mk_wrap { rw_f : Z; rw_arg : Z }.

#[global] Instance thread_fn_eq_dec : EqDecision thread_fn.
Proof. solve_decision. Defined.

(** The blocks this file allocated, by address, and the [tc_UserData] of tasks. *)
Record heap := mk_heap {
  threads : gmap Z osal_thread;
  wraps : gmap Z rump_wrap;
  tc_UserData : gmap Z Z
}.

Definition set_threads (m : gmap Z osal_thread) (h : heap) : heap :=
  mk_heap m (wraps h) (tc_UserData h).
Definition set_wraps (m : gmap Z rump_wrap) (h : heap) : heap :=
  mk_heap (threads h) m (tc_UserData h).
Definition set_UserData (m : gmap Z Z) (h : heap) : heap :=
  mk_heap (threads h) (wraps h) m.

(** Sizes of the two structures on the target. *)
Definition sizeof_thread : Z := 28.
Definition sizeof_wrap : Z := 8.

Section program.
Context {W : Type} `{!Tasks W, !ThreadOS W, !Vec W}.
Implicit Types (h : heap) (w : W).

(** *** Creating *)

(** The caller is [me]; a null function or a null [out] is [None] resp. [false].
    The result, the cookie stored through [out], and the task that now runs. *)
Definition osal_thread_create (me : Z) (f : option thread_fn) (a priority : Z) (out : bool) h w
    : Z * option (Z * Z) * heap * W :=
  match f with
  | None => (-1, None, h, w)
  | Some f =>
    if negb out then (-1, None, h, w) else
    let priority := if (priority <? -128) || (127 <? priority) then 0 else priority in
    let '(t, w) := osal_malloc sizeof_thread 16 w in
    if t =? 0 then (-1, None, h, w) else
    let '(b, w) := AllocSignal me w in
    if b <? 0 then (-1, None, h, osal_free t w) else
    (* Forbid *)
    let '(k, w) := CreateTask priority w in
    let h := if k =? 0 then h else
      set_UserData (<[k := t]> (tc_UserData h))
        (set_threads (<[t := mk_thread k me (Z.shiftl 1 b) b f a false]> (threads h)) h) in
    (* Permit *)
    if k =? 0 then (-1, None, h, osal_free t (FreeSignal me b w))
    else (0, Some (t, k), h, w)
  end.

Definition rumpuser_thread_create (me f a priority : Z) h w : Z * option (Z * Z) * heap * W :=
  let '(rw, w) := osal_malloc sizeof_wrap 16 w in
  if rw =? 0 then (ENOMEM, None, h, w) else
  let h := set_wraps (<[rw := mk_wrap f a]> (wraps h)) h in
  let '(rc, out, h, w) := osal_thread_create me (Some Shim) rw priority true h w in
  if negb (rc =? 0) then (ENOMEM, None, set_wraps (delete rw (wraps h)) h, osal_free rw w)
  else (0, out, h, w).

(** *** The new task *)

Inductive tpc :=
  | TEntry                        (* self->tc_UserData *)
  | TFn (t : Z)                   (* t->fn(t->arg) *)
  | TShim (t rw : Z)              (* in rump_thread_shim *)
  | TRun (t : Z) (f a : Z)        (* in the function *)
  | TDone (t : Z)                 (* t->done = 1 *)
  | TSignal (t : Z)               (* Signal(t->joiner, t->join_sigmask) *)
  | TForever (t : Z).             (* for (;;) Wait(0) *)

(** One step of the task [k]; the last component is the function that returned.
    In [TForever] there is none: [Wait(0)] never returns. *)
Definition tramp_step (k : Z) (pc : tpc) h w : option (tpc * heap * W * option (Z * Z)) :=
  match pc with
  | TEntry => t ← tc_UserData h !! k; Some (TFn t, h, w, None)
  | TFn t =>
    b ← threads h !! t;
    Some (match fn b with Shim => TShim t (arg b) | Fn f => TRun t f (arg b) end, h, w, None)
  | TShim t rw =>
    x ← wraps h !! rw;
    Some (TRun t (rw_f x) (rw_arg x), set_wraps (delete rw (wraps h)) h, osal_free rw w, None)
  | TRun t f a => Some (TDone t, h, w, Some (f, a))
  | TDone t =>
    b ← threads h !! t;
    let b := mk_thread (task b) (joiner b) (join_sigmask b) (join_sigbit b) (fn b) (arg b) true in
    Some (TSignal t, set_threads (<[t := b]> (threads h)) h, w, None)
  | TSignal t =>
    b ← threads h !! t;
    Some (TForever t, h, Signal (joiner b) (join_sigmask b) w, None)
  | TForever _ => None
  end.

(** [rumpuser_thread_exit], called in the function: the task waits for ever. *)
Definition rumpuser_thread_exit (pc : tpc) : option tpc :=
  match pc with TRun t _ _ => Some (TForever t) | _ => None end.

(** *** Joining *)

Inductive jpc :=
  | JPoll      (* while (!t->done) *)
  | JSleep     (* osal_sleep_ns(10000000) *)
  | JRem       (* Forbid; RemTask(t->task); Permit *)
  | JSig       (* FreeSignal(t->join_sigbit) *)
  | JFree.     (* osal_free(t) *)

(** One step of [osal_thread_join(t)] in the task [me]: [inr] is its return value;
    the last component is the task that was removed. *)
Definition join_step (me t : Z) (pc : jpc) h w : option ((jpc + Z) * heap * W * option Z) :=
  match pc with
  | JPoll => b ← threads h !! t; Some (inl (if done b then JRem else JSleep), h, w, None)
  | JSleep => Some (inl JPoll, h, w, None)
  | JRem => b ← threads h !! t; Some (inl JSig, h, RemTask (task b) w, Some (task b))
  | JSig => b ← threads h !! t; Some (inl JFree, h, FreeSignal me (join_sigbit b) w, None)
  | JFree => Some (inr 0, set_threads (delete t (threads h)) h, osal_free t w, None)
  end.

Definition osal_thread_self (self : Z) h : option Z := tc_UserData h !! self.

(** *** The current lwp: one for all tasks *)

Definition rumpuser_curlwpop (op l : Z) (g_stub_curlwp : Z) : Z :=
  if op =? 2 then l else if op =? 3 then 0 else g_stub_curlwp.
Definition rumpuser_curlwp (g_stub_curlwp : Z) : Z := g_stub_curlwp.
End program.

(** ** All threads together *)

(** The blocks, the world, where each task and each join are; and the history: the
    function each block was created for, the one that returned in it, and both for
    every join that returned. *)
Record tsys (W : Type) := mk_tsys {
  ts_h : heap;
  ts_w : W;
  ts_tramp : gmap Z tpc;
  ts_join : gmap Z (Z * jpc);
  ts_want : gmap Z (Z * Z);
  ts_ran : gmap Z (Z * Z);
  ts_joined : list (option (Z * Z) * option (Z * Z))
}.
Arguments mk_tsys {W}. Arguments ts_h {W}. Arguments ts_w {W}. Arguments ts_tramp {W}.
Arguments ts_join {W}. Arguments ts_want {W}. Arguments ts_ran {W}. Arguments ts_joined {W}.

Definition block_of (pc : tpc) : Z :=
  match pc with
  | TEntry => 0
  | TFn t | TShim t _ | TRun t _ _ | TDone t | TSignal t | TForever t => t
  end.

Section system.
Context {W : Type} `{!Tasks W, !TaskView W, !ThreadOS W, !Vec W}.
Implicit Types (s : tsys W).

(** After a create for the function [f] with argument [a]. *)
Definition launched (f a : Z) (o : option (Z * Z)) h w s : tsys W :=
  match o with
  | Some (t, k) => mk_tsys h w (<[k := TEntry]> (ts_tramp s)) (ts_join s)
      (<[t := (f, a)]> (ts_want s)) (delete t (ts_ran s)) (ts_joined s)
  | None => mk_tsys h w (ts_tramp s) (ts_join s) (ts_want s) (ts_ran s) (ts_joined s)
  end.

Inductive thread_step : tsys W -> tsys W -> Prop :=
  | th_create s me f a pri out rv o h w :
      osal_thread_create me (Some (Fn f)) a pri out (ts_h s) (ts_w s) = (rv, o, h, w) ->
      thread_step s (launched f a o h w s)
  | th_rump_create s me f a pri rv o h w :
      rumpuser_thread_create me f a pri (ts_h s) (ts_w s) = (rv, o, h, w) ->
      thread_step s (launched f a o h w s)
  | th_task s k pc pc' h w r :
      ts_tramp s !! k = Some pc -> tramp_step k pc (ts_h s) (ts_w s) = Some (pc', h, w, r) ->
      thread_step s (mk_tsys h w (<[k := pc']> (ts_tramp s)) (ts_join s) (ts_want s)
        (match r with Some x => <[block_of pc := x]> (ts_ran s) | None => ts_ran s end)
        (ts_joined s))
  | th_exit s k pc pc' :
      ts_tramp s !! k = Some pc -> rumpuser_thread_exit pc = Some pc' ->
      thread_step s (mk_tsys (ts_h s) (ts_w s) (<[k := pc']> (ts_tramp s)) (ts_join s) (ts_want s)
        (ts_ran s) (ts_joined s))
  | th_join s t me :     (* a cookie is joined once *)
      is_Some (threads (ts_h s) !! t) -> ts_join s !! t = None ->
      thread_step s (mk_tsys (ts_h s) (ts_w s) (ts_tramp s) (<[t := (me, JPoll)]> (ts_join s))
        (ts_want s) (ts_ran s) (ts_joined s))
  | th_join_step s t me pc r h w k :
      ts_join s !! t = Some (me, pc) -> join_step me t pc (ts_h s) (ts_w s) = Some (r, h, w, k) ->
      thread_step s (mk_tsys h w
        (match k with Some k => delete k (ts_tramp s) | None => ts_tramp s end)
        (match r with inl pc' => <[t := (me, pc')]> (ts_join s) | inr _ => delete t (ts_join s) end)
        (ts_want s) (ts_ran s)
        (match r with inl _ => ts_joined s | inr _ => ts_joined s ++ [(ts_want s !! t, ts_ran s !! t)] end)).

Definition thread_boot w : tsys W := mk_tsys (mk_heap ∅ ∅ ∅) w ∅ ∅ ∅ ∅ [].

(** ** Invariant *)

(** The task of [t] was not removed yet. *)
Definition alive s t : Prop :=
  match ts_join s !! t with Some (_, JSig) | Some (_, JFree) => False | _ => True end.

Definition live s t b pc : Prop :=
  threads (ts_h s) !! t = Some b /\ alive s t /\ ts_tramp s !! task b = Some pc.

(** The task at [pc] still needs the wrapper [r]. *)
Definition uses_wrap (pc : tpc) b r : Prop :=
  fn b = Shim /\ arg b = r /\ match pc with TEntry | TFn _ | TShim _ _ => True | _ => False end.

(** The block still leads to the function it was created for. *)
Definition intended (want : gmap Z (Z * Z)) (wr : gmap Z rump_wrap) t b : Prop :=
  match fn b with
  | Fn f => want !! t = Some (f, arg b)
  | Shim => exists x, wr !! arg b = Some x /\ want !! t = Some (rw_f x, rw_arg x)
  end.

Definition finished (want ran : gmap Z (Z * Z)) t : Prop :=
  ran !! t = want !! t /\ is_Some (want !! t).

Definition thread_ok (want ran : gmap Z (Z * Z)) (wr : gmap Z rump_wrap) t b pc : Prop :=
  match pc with
  | TEntry => done b = false /\ intended want wr t b
  | TFn t' => t' = t /\ done b = false /\ intended want wr t b
  | TShim t' r => t' = t /\ done b = false /\ intended want wr t b /\ fn b = Shim /\ r = arg b
  | TRun t' f a => t' = t /\ done b = false /\ want !! t = Some (f, a)
  | TDone t' => t' = t /\ done b = false /\ finished want ran t
  | TSignal t' => t' = t /\ done b = true /\ finished want ran t
  | TForever t' => t' = t /\ (done b = true -> finished want ran t)
  end.

(** [V0]: the vectors that were allocated at boot. *)
Record tinv (V0 : gmap Z (list Z)) s : Prop := {
  ti_mem : forall p, is_Some (vectors (ts_w s) !! p) <->
    is_Some (V0 !! p) \/ is_Some (threads (ts_h s) !! p) \/ is_Some (wraps (ts_h s) !! p);
  ti_thr : forall t, is_Some (threads (ts_h s) !! t) ->
    t <> 0 /\ V0 !! t = None /\ wraps (ts_h s) !! t = None;
  ti_wrp : forall r, is_Some (wraps (ts_h s) !! r) -> r <> 0 /\ V0 !! r = None;
  ti_live : forall t b, threads (ts_h s) !! t = Some b -> alive s t ->
    exists pc, ts_tramp s !! task b = Some pc /\ tc_UserData (ts_h s) !! task b = Some t /\
      task b ∈ k_tasks (view (ts_w s)) /\
      thread_ok (ts_want s) (ts_ran s) (wraps (ts_h s)) t b pc;
  ti_tramp : forall k pc, ts_tramp s !! k = Some pc ->
    exists t b, threads (ts_h s) !! t = Some b /\ alive s t /\ task b = k;
  ti_own : forall t1 t2 b1 b2 pc1 pc2 r, live s t1 b1 pc1 -> live s t2 b2 pc2 ->
    uses_wrap pc1 b1 r -> uses_wrap pc2 b2 r -> t1 = t2;
  ti_leak : forall r, is_Some (wraps (ts_h s) !! r) ->
    exists t b pc, live s t b pc /\ uses_wrap pc b r;
  ti_join : forall t me pc, ts_join s !! t = Some (me, pc) ->
    exists b, threads (ts_h s) !! t = Some b /\
      match pc with
      | JRem | JSig | JFree => done b = true /\ finished (ts_want s) (ts_ran s) t
      | _ => True
      end;
  ti_joined : Forall (fun x => fst x = snd x /\ is_Some (fst x)) (ts_joined s)
}.

Lemma tinv_boot w : tinv (vectors w) (thread_boot w).
Proof.
  assert (He : forall {A} (k : Z), ~ is_Some ((∅ : gmap Z A) !! k)) by (intros A k [? ?]; done).
  split; unfold live; cbn; try done.
  - intros p. split; [by left|]. intros [?|[Hp|Hp]]; [done|by apply He in Hp..].
  - by intros t Ht%He.
  - by intros r Hr%He.
  - intros. naive_solver.
  - by intros r Hr%He.
Qed.

Lemma live_facts V0 s t b pc : tinv V0 s -> live s t b pc ->
  tc_UserData (ts_h s) !! task b = Some t /\ task b ∈ k_tasks (view (ts_w s)) /\
  thread_ok (ts_want s) (ts_ran s) (wraps (ts_h s)) t b pc.
Proof.
  intros Hi (Ht & Ha & Hpc). destruct (ti_live _ _ Hi t b Ht Ha) as (pc' & H1 & H2 & H3 & H4).
  rewrite Hpc in H1. by injection H1 as <-.
Qed.

Lemma live_inj V0 s t1 t2 b1 b2 pc1 pc2 : tinv V0 s -> live s t1 b1 pc1 -> live s t2 b2 pc2 ->
  task b1 = task b2 -> t1 = t2.
Proof.
  intros Hi H1 H2 Heq. destruct (live_facts _ _ _ _ _ Hi H1) as (U1 & _).
  destruct (live_facts _ _ _ _ _ Hi H2) as (U2 & _). rewrite Heq, U2 in U1. by injection U1.
Qed.

Lemma tramp_live V0 s k pc : tinv V0 s -> ts_tramp s !! k = Some pc ->
  exists t b, live s t b pc /\ task b = k.
Proof.
  intros Hi Hk. destruct (ti_tramp _ _ Hi k pc Hk) as (t & b & Ht & Ha & <-).
  exists t, b. done.
Qed.

Lemma thread_ok_mono want ran ran' wr wr' t b pc :
  thread_ok want ran wr t b pc -> ran' !! t = ran !! t ->
  (uses_wrap pc b (arg b) -> forall x, wr !! arg b = Some x -> wr' !! arg b = Some x) ->
  thread_ok want ran' wr' t b pc.
Proof.
  intros Hok Hr Hw. unfold thread_ok, finished, intended, uses_wrap in *.
  destruct pc, (fn b); rewrite ?Hr; naive_solver.
Qed.

(** Who is where after a step of the task of [t] from [pc] to [pc']. *)
Lemma tramp_live_after V0 s t b b' pc pc' h' w' ran' :
  tinv V0 s -> live s t b pc -> task b' = task b ->
  threads h' = <[t := b']> (threads (ts_h s)) ->
  forall t' b0 pc0, live (mk_tsys h' w' (<[task b := pc']> (ts_tramp s)) (ts_join s) (ts_want s)
      ran' (ts_joined s)) t' b0 pc0 <->
    (t' = t /\ b0 = b' /\ pc0 = pc') \/ (t' <> t /\ live s t' b0 pc0).
Proof.
  intros Hi Hl Htk Hth t' b0 pc0. pose proof Hl as (Ht & Ha & Hpc). unfold live at 1. cbn.
  rewrite Hth. change (alive (mk_tsys _ _ _ _ _ _ _) t') with (alive s t'). split.
  - intros (H1 & H2 & H3). destruct (decide (t' = t)) as [->|Hne].
    + rewrite lookup_insert_eq in H1. injection H1 as <-. rewrite Htk, lookup_insert_eq in H3.
      injection H3 as <-. by left.
    + right. split; [done|]. rewrite lookup_insert_ne in H1 by done.
      rewrite lookup_insert_ne in H3; [done|]. intros Heq.
      destruct (ti_live _ _ Hi t' b0 H1 H2) as (pc1 & H4 & _).
      by destruct (live_inj _ _ t' t b0 b pc1 pc Hi ltac:(done) Hl).
  - intros [(-> & -> & ->)|[Hne Hl0]].
    + by rewrite lookup_insert_eq, Htk, lookup_insert_eq.
    + pose proof Hl0 as (H1 & H2 & H3). rewrite !lookup_insert_ne; [done| |done]. intros Heq.
      by destruct (live_inj _ _ t' t b0 b pc0 pc Hi Hl0 Hl).
Qed.

(** The vectors after the wrapper [r] was freed. *)
Lemma wrap_freed V0 s r p :
  tinv V0 s -> is_Some (wraps (ts_h s) !! r) ->
  is_Some (delete r (vectors (ts_w s)) !! p) <->
    is_Some (V0 !! p) \/ is_Some (threads (ts_h s) !! p) \/ is_Some (delete r (wraps (ts_h s)) !! p).
Proof.
  intros Hi Hr. rewrite !lookup_delete_is_Some, (ti_mem _ _ Hi p).
  destruct (decide (p = r)) as [->|Hne]; [|naive_solver].
  destruct (ti_wrp _ _ Hi _ Hr) as (_ & HV). split; [tauto|].
  intros [Hv|[Hv|Hv]]; [by rewrite HV in Hv; destruct Hv| |tauto].
  destruct (ti_thr _ _ Hi _ Hv) as (_ & _ & Hn). by rewrite Hn in Hr; destruct Hr.
Qed.

(** A step of the task of [t]: its block, its place and the record of its function
    change, and possibly its wrapper goes. *)
Section update.
Context (V0 : gmap Z (list Z)) s (t : Z) (b b' : osal_thread) (pc pc' : tpc) (h' : heap) (w' : W).
Context (ran' : gmap Z (Z * Z)).
Hypothesis Hi : tinv V0 s.
Hypothesis Hl : live s t b pc.
Hypothesis Htk : task b' = task b.
Hypothesis Harg : arg b' = arg b.
Hypothesis Hfn : fn b' = fn b.
Hypothesis Hth : threads h' = <[t := b']> (threads (ts_h s)).
Hypothesis Hud : tc_UserData h' = tc_UserData (ts_h s).
Hypothesis Hwr : wraps h' = wraps (ts_h s) /\ vectors w' = vectors (ts_w s) \/
  uses_wrap pc b (arg b) /\ wraps h' = delete (arg b) (wraps (ts_h s)) /\
    vectors w' = delete (arg b) (vectors (ts_w s)) /\ is_Some (wraps (ts_h s) !! arg b).
Hypothesis Hk : k_tasks (view w') = k_tasks (view (ts_w s)).
Hypothesis Hran : forall t', t' <> t -> ran' !! t' = ts_ran s !! t'.
Hypothesis Hdone : done b = true -> done b' = true /\ ran' = ts_ran s.
Hypothesis Hok : thread_ok (ts_want s) ran' (wraps h') t b' pc'.
Hypothesis Huse : forall r, uses_wrap pc' b' r -> uses_wrap pc b r.
Hypothesis Hkeep : forall r, uses_wrap pc b r -> is_Some (wraps h' !! r) -> uses_wrap pc' b' r.

Abbreviation s' :=
  (mk_tsys h' w' (<[task b := pc']> (ts_tramp s)) (ts_join s) (ts_want s) ran' (ts_joined s)).

Lemma update_wraps r : is_Some (wraps h' !! r) -> is_Some (wraps (ts_h s) !! r).
Proof using Hwr.
  destruct Hwr as [[-> _]|(_ & -> & _)]; [done|]. rewrite lookup_delete_is_Some. tauto.
Qed.

Lemma update_block t' b0 :
  threads h' !! t' = Some b0 -> (t' = t /\ b0 = b') \/ (t' <> t /\ threads (ts_h s) !! t' = Some b0).
Proof using Hth.
  rewrite Hth. destruct (decide (t' = t)) as [->|Hne].
  - rewrite lookup_insert_eq. intros [= <-]. by left.
  - rewrite lookup_insert_ne by done. by right.
Qed.

Lemma update_ok t' b0 :
  threads h' !! t' = Some b0 -> alive s t' ->
  exists pc0, <[task b := pc']> (ts_tramp s) !! task b0 = Some pc0 /\
    tc_UserData h' !! task b0 = Some t' /\ task b0 ∈ k_tasks (view w') /\
    thread_ok (ts_want s) ran' (wraps h') t' b0 pc0.
Proof using Hi Hl Htk Hth Hud Hwr Hk Hran Hok.
  intros H1 H2. rewrite Hud, Hk. destruct (live_facts _ _ _ _ _ Hi Hl) as (Hu & Hkt & _).
  destruct (update_block _ _ H1) as [[-> ->]|[Hne H1']].
  - exists pc'. rewrite Htk, lookup_insert_eq. done.
  - destruct (ti_live _ _ Hi t' b0 H1' H2) as (pc0 & H3 & H4 & H5 & H6). exists pc0.
    assert (Hl0 : live s t' b0 pc0) by done. split.
    { apply (tramp_live_after V0 s t b b' pc pc' h' w' ran' Hi Hl Htk Hth t'). by right. }
    do 2 (split; [done|]). eapply thread_ok_mono; [exact H6|by apply Hran|].
    intros Hu0 x Hx. destruct Hwr as [[-> _]|(Hu1 & -> & _)]; [done|].
    rewrite lookup_delete_ne; [done|]. intros Heq.
    rewrite Heq in Hu1. exact (Hne (ti_own _ _ Hi t' t b0 b pc0 pc _ Hl0 Hl Hu0 Hu1)).
Qed.

Lemma update_tramp k pc0 :
  <[task b := pc']> (ts_tramp s) !! k = Some pc0 ->
  exists t0 b0, threads h' !! t0 = Some b0 /\ alive s t0 /\ task b0 = k.
Proof using Hi Hl Htk Hth.
  pose proof Hl as (Ht & Ha & _).
  intros Hk0. assert (Hex : exists t0 b0, threads (ts_h s) !! t0 = Some b0 /\ alive s t0 /\ task b0 = k).
  { destruct (decide (k = task b)) as [->|Hne]; [by exists t, b|].
    rewrite lookup_insert_ne in Hk0 by done. by apply (ti_tramp _ _ Hi k pc0). }
  destruct Hex as (t0 & b0 & H1 & H2 & H3). rewrite Hth. destruct (decide (t0 = t)) as [->|Hne].
  - exists t, b'. rewrite lookup_insert_eq. split; [done|]. split; [done|]. congruence.
  - exists t0, b0. by rewrite lookup_insert_ne.
Qed.

Lemma tramp_update : tinv V0 s'.
Proof.
  pose proof Hl as (Ht & Ha & Hpc).
  pose proof (tramp_live_after V0 s t b b' pc pc' h' w' ran' Hi Hl Htk Hth) as Hlive.
  assert (Hin : forall t', is_Some (threads h' !! t') <-> is_Some (threads (ts_h s) !! t')).
  { intros t'. rewrite Hth, lookup_insert_is_Some. destruct (decide (t = t')) as [->|]; naive_solver. }
  split; cbn [ts_h ts_w ts_tramp ts_join ts_want ts_ran ts_joined];
    [| | |exact update_ok|exact update_tramp| | | |apply Hi].
  - intros p. rewrite Hin. pose proof (ti_mem _ _ Hi p) as Hm.
    destruct Hwr as [[-> ->]|(_ & -> & -> & Hsw)]; [done|by apply wrap_freed].
  - intros t' [H1 [H2 H3]]%Hin%(ti_thr _ _ Hi). do 2 (split; [done|]).
    destruct (wraps h' !! t') eqn:Hw; [|done]. destruct (update_wraps t'); [by eexists|]. congruence.
  - intros r Hr%update_wraps. by apply (ti_wrp _ _ Hi).
  - intros t1 t2 b1 b2 pc1 pc2 r Hl1%Hlive Hl2%Hlive Hu1 Hu2.
    destruct Hl1 as [(-> & -> & ->)|[Hn1 Hl1]], Hl2 as [(-> & -> & ->)|[Hn2 Hl2]]; [done|..];
      eapply (ti_own _ _ Hi); eauto.
  - intros r Hr. destruct (ti_leak _ _ Hi r (update_wraps r Hr)) as (t0 & b0 & pc0 & Hl0 & Hu0).
    destruct (decide (t0 = t)) as [->|Hne].
    + destruct Hl0 as (H1 & _ & H3). rewrite Ht in H1. injection H1 as <-.
      rewrite Hpc in H3. injection H3 as <-. exists t, b', pc'.
      split; [|by apply Hkeep]. apply Hlive. by left.
    + exists t0, b0, pc0. split; [|done]. apply Hlive. by right.
  - intros t0 me jp Hj. destruct (ti_join _ _ Hi t0 me jp Hj) as (b0 & H1 & H2). rewrite Hth.
    destruct (decide (t0 = t)) as [->|Hne].
    + exists b'. rewrite lookup_insert_eq. split; [done|]. rewrite Ht in H1. injection H1 as <-.
      destruct jp; try done; destruct H2 as [Hd Hf]; destruct (Hdone Hd) as [? ->]; done.
    + exists b0. rewrite lookup_insert_ne by done. split; [done|].
      unfold finished in *. by rewrite Hran.
Qed.
End update.
End system.

Section steps.
Context {W : Type} `{!Tasks W, !TaskView W, !TaskLaws W, !ThreadOS W, !Vec W, !VecLaws W, !ThreadLaws W}.
Implicit Types (s : tsys W).

Lemma task_step_inv V0 s k pc pc' h w r :
  tinv V0 s -> ts_tramp s !! k = Some pc ->
  tramp_step k pc (ts_h s) (ts_w s) = Some (pc', h, w, r) ->
  tinv V0 (mk_tsys h w (<[k := pc']> (ts_tramp s)) (ts_join s) (ts_want s)
    (match r with Some x => <[block_of pc := x]> (ts_ran s) | None => ts_ran s end) (ts_joined s)).
Proof.
  intros Hi Hk Hstep. destruct (tramp_live _ _ _ _ Hi Hk) as (t & b & Hl & <-).
  destruct (live_facts _ _ _ _ _ Hi Hl) as (Hu & _ & Hok). pose proof Hl as (Ht & _ & _).
  assert (Hsame : <[t := b]> (threads (ts_h s)) = threads (ts_h s)) by (by apply insert_id).
  destruct pc as [|t0|t0 rw|t0 f a|t0|t0|t0]; cbn [tramp_step thread_ok block_of] in Hstep, Hok |- *.
  - rewrite Hu in Hstep. injection Hstep as <- <- <- <-.
    apply (tramp_update V0 s t b b TEntry (TFn t));
      eauto; try solve [unfold uses_wrap; cbn; naive_solver].
  - destruct Hok as (-> & Hd & Hint). rewrite Ht in Hstep. injection Hstep as <- <- <- <-.
    apply (tramp_update V0 s t b b (TFn t));
      eauto; try solve [unfold uses_wrap; cbn; naive_solver].
    + unfold intended in Hint. destruct (fn b) eqn:Hf; cbn; [|done].
      unfold intended. by rewrite Hf.
    + unfold uses_wrap. destruct (fn b); naive_solver.
  - destruct Hok as (-> & Hd & Hint & Hf & ->). unfold intended in Hint. rewrite Hf in Hint.
    destruct Hint as (x & Hx & Hwant). rewrite Hx in Hstep. injection Hstep as <- <- <- <-.
    assert (Hz : arg b <> 0) by (apply (ti_wrp _ _ Hi); by eexists).
    unfold osal_free. rewrite (proj2 (Z.eqb_neq _ _) Hz). cbn [negb].
    apply (tramp_update V0 s t b b (TShim t (arg b)));
      eauto; try solve [unfold uses_wrap; cbn; naive_solver].
    + right. cbn. rewrite vec_free. split; [done|]. split; [done|]. split; [done|]. by eexists.
    + by rewrite free_view.
    + unfold uses_wrap. cbn. intros r' (_ & <- & _). rewrite lookup_delete_eq. by intros [? ?].
  - destruct Hok as (-> & Hd & Hw). injection Hstep as <- <- <- <-.
    apply (tramp_update V0 s t b b (TRun t f a));
      eauto; try solve [unfold uses_wrap; cbn; naive_solver].
    + intros t' Hne. by rewrite lookup_insert_ne.
    + congruence.
    + cbn. unfold finished. rewrite lookup_insert_eq, Hw. eauto.
  - destruct Hok as (-> & Hd & Hfin). rewrite Ht in Hstep. injection Hstep as <- <- <- <-.
    match goal with |- context [set_threads (<[t := ?x]> _)] =>
      apply (tramp_update V0 s t b x (TDone t)) end;
      eauto; try solve [unfold uses_wrap; cbn; naive_solver].
  - destruct Hok as (-> & Hd & Hfin). rewrite Ht in Hstep. injection Hstep as <- <- <- <-.
    apply (tramp_update V0 s t b b (TSignal t));
      eauto; try solve [unfold uses_wrap; cbn; naive_solver].
    + left. split; [done|]. apply (task_vectors (Signal _ _)). constructor.
    + by rewrite signal_law.
  - discriminate Hstep.
Qed.

Lemma exit_inv V0 s k pc pc' :
  tinv V0 s -> ts_tramp s !! k = Some pc -> rumpuser_thread_exit pc = Some pc' ->
  tinv V0 (mk_tsys (ts_h s) (ts_w s) (<[k := pc']> (ts_tramp s)) (ts_join s) (ts_want s)
    (ts_ran s) (ts_joined s)).
Proof.
  intros Hi Hk Hstep. destruct (tramp_live _ _ _ _ Hi Hk) as (t & b & Hl & <-).
  destruct (live_facts _ _ _ _ _ Hi Hl) as (_ & _ & Hok). pose proof Hl as (Ht & _ & _).
  destruct pc as [| | |t0 f a| | |]; try discriminate. injection Hstep as <-.
  cbn in Hok. destruct Hok as (-> & Hd & _).
  assert (Hsame : <[t := b]> (threads (ts_h s)) = threads (ts_h s)) by (by apply insert_id).
  apply (tramp_update V0 s t b b (TRun t f a));
      eauto; try solve [unfold uses_wrap; cbn; naive_solver].
  - cbn. split; [done|]. congruence.
Qed.

(** ** Joins *)

(** A join that moves without removing anything. *)
Lemma join_move V0 s t me jp w' :
  tinv V0 s -> vectors w' = vectors (ts_w s) -> k_tasks (view w') = k_tasks (view (ts_w s)) ->
  (exists b, threads (ts_h s) !! t = Some b /\
     match jp with JRem | JSig | JFree => done b = true /\ finished (ts_want s) (ts_ran s) t | _ => True end) ->
  (forall t', alive (mk_tsys (ts_h s) w' (ts_tramp s) (<[t := (me, jp)]> (ts_join s)) (ts_want s)
     (ts_ran s) (ts_joined s)) t' <-> alive s t') ->
  tinv V0 (mk_tsys (ts_h s) w' (ts_tramp s) (<[t := (me, jp)]> (ts_join s)) (ts_want s)
    (ts_ran s) (ts_joined s)).
Proof.
  intros Hi Hv Hk (b & Hb & Hpast) Hal. set (s' := mk_tsys _ _ _ _ _ _ _) in *.
  assert (Hlive : forall t' b' pc', live s' t' b' pc' <-> live s t' b' pc').
  { intros t' b' pc'. unfold live. rewrite Hal. done. }
  split; cbn [s' ts_h ts_w ts_tramp ts_join ts_want ts_ran ts_joined]; try apply Hi.
  - rewrite Hv. apply Hi.
  - intros t' b' H1 H2%Hal. rewrite Hk. by apply (ti_live _ _ Hi).
  - intros k pc Hp. destruct (ti_tramp _ _ Hi k pc Hp) as (t' & b' & H1 & H2%Hal & H3). eauto.
  - intros t1 t2 b1 b2 pc1 pc2 r Hl1%Hlive Hl2%Hlive. by apply (ti_own _ _ Hi).
  - intros r Hr. destruct (ti_leak _ _ Hi r Hr) as (t' & b' & pc' & Hl%Hlive & Hu). eauto.
  - intros t' me' jp' Hj. destruct (decide (t' = t)) as [->|Hne].
    + rewrite lookup_insert_eq in Hj. injection Hj as <- <-. eauto.
    + rewrite lookup_insert_ne in Hj by done. by apply (ti_join _ _ Hi t' me').
Qed.

(** Where the thread of a finished block is. *)
Lemma done_place V0 s t b pc : tinv V0 s -> live s t b pc -> done b = true ->
  finished (ts_want s) (ts_ran s) t /\ forall r, ~ uses_wrap pc b r.
Proof.
  intros Hi Hl Hd. destruct (live_facts _ _ _ _ _ Hi Hl) as (_ & _ & Hok). unfold uses_wrap.
  destruct pc; cbn in Hok; try naive_solver congruence.
Qed.

(** The task is removed. *)
Lemma join_rem V0 s t me b :
  tinv V0 s -> ts_join s !! t = Some (me, JRem) -> threads (ts_h s) !! t = Some b ->
  tinv V0 (mk_tsys (ts_h s) (RemTask (task b) (ts_w s)) (delete (task b) (ts_tramp s))
    (<[t := (me, JSig)]> (ts_join s)) (ts_want s) (ts_ran s) (ts_joined s)).
Proof.
  intros Hi Hj Hb. destruct (ti_join _ _ Hi _ _ _ Hj) as (b0 & Hb0 & Hd & Hfin).
  rewrite Hb in Hb0. injection Hb0 as <-.
  assert (Ha : alive s t) by (unfold alive; by rewrite Hj).
  destruct (ti_live _ _ Hi t b Hb Ha) as (pc & Hpc & _). assert (Hl : live s t b pc) by done.
  destruct (done_place _ _ _ _ _ Hi Hl Hd) as [_ Hnu].
  set (s' := mk_tsys _ _ _ _ _ _ _) in *.
  assert (Hal : forall t', alive s' t' <-> t' <> t /\ alive s t').
  { intros t'. unfold alive. cbn. destruct (decide (t' = t)) as [->|Hne].
    - rewrite lookup_insert_eq. tauto.
    - rewrite lookup_insert_ne by done. tauto. }
  assert (Htask : forall t' b' pc', t' <> t -> live s t' b' pc' -> task b' <> task b).
  { intros t' b' pc' Hne Hl' Heq. by destruct (live_inj _ _ _ _ _ _ _ _ Hi Hl' Hl Heq). }
  assert (Hlive : forall t' b' pc', live s' t' b' pc' <-> t' <> t /\ live s t' b' pc').
  { intros t' b' pc'. unfold live at 1. rewrite Hal. cbn. split.
    - intros (H1 & (H2 & H3) & H4). split; [done|]. apply lookup_delete_Some in H4 as [_ H4]. done.
    - intros (H1 & Hl'). pose proof Hl' as (H2 & H3 & H4). split; [done|]. split; [done|].
      rewrite lookup_delete_ne; [done|]. symmetry. by eapply Htask. }
  split; cbn [s' ts_h ts_w ts_tramp ts_join ts_want ts_ran ts_joined]; try apply Hi.
  - rewrite (task_vectors (RemTask _)) by constructor. apply Hi.
  - intros t' b' H1 H2. apply Hal in H2 as [Hne H2].
    destruct (ti_live _ _ Hi t' b' H1 H2) as (pc' & H3 & H4 & H5 & H6).
    assert (Hl' : live s t' b' pc') by done. pose proof (Htask _ _ _ Hne Hl') as Hnt.
    exists pc'. rewrite lookup_delete_ne by done. split; [done|]. split; [done|].
    split; [|done]. rewrite rem_law. cbn. clear -H5 Hnt. set_solver.
  - intros k pc' [Hne Hk]%lookup_delete_Some.
    destruct (ti_tramp _ _ Hi k pc' Hk) as (t' & b' & H1 & H2 & H3). exists t', b'.
    split; [done|]. split; [|done]. apply Hal. split; [|done]. intros ->. congruence.
  - intros t1 t2 b1 b2 pc1 pc2 r [_ Hl1]%Hlive [_ Hl2]%Hlive. by apply (ti_own _ _ Hi).
  - intros r Hr. destruct (ti_leak _ _ Hi r Hr) as (t' & b' & pc' & Hl' & Hu).
    exists t', b', pc'. split; [|done]. apply Hlive. split; [|done]. intros ->.
    destruct Hl as (_ & _ & H1), Hl' as (H2 & _ & H3). rewrite Hb in H2. injection H2 as <-.
    rewrite H1 in H3. injection H3 as <-. by apply (Hnu r).
  - intros t' me' jp' Hj'. destruct (decide (t' = t)) as [->|Hne].
    + rewrite lookup_insert_eq in Hj'. injection Hj' as <- <-. eauto.
    + rewrite lookup_insert_ne in Hj' by done. by apply (ti_join _ _ Hi t' me').
Qed.

(** The block is freed and the join returns. *)
Lemma join_free V0 s t me :
  tinv V0 s -> ts_join s !! t = Some (me, JFree) ->
  tinv V0 (mk_tsys (set_threads (delete t (threads (ts_h s))) (ts_h s)) (osal_free t (ts_w s))
    (ts_tramp s) (delete t (ts_join s)) (ts_want s) (ts_ran s)
    (ts_joined s ++ [(ts_want s !! t, ts_ran s !! t)])).
Proof.
  intros Hi Hj. destruct (ti_join _ _ Hi _ _ _ Hj) as (b & Hb & Hd & Hfin).
  destruct (ti_thr _ _ Hi t ltac:(by eexists)) as (Hz & HV & Hw).
  assert (Hv : osal_free t (ts_w s) = FreeVec t (ts_w s)).
  { unfold osal_free. by rewrite (proj2 (Z.eqb_neq _ _) Hz). }
  rewrite Hv. set (s' := mk_tsys _ _ _ _ _ _ _) in *.
  assert (Hdead : ~ alive s t) by (unfold alive; rewrite Hj; tauto).
  assert (Hal : forall t', t' <> t -> alive s' t' <-> alive s t').
  { intros t' Hne. unfold alive. cbn. by rewrite lookup_delete_ne. }
  assert (Hlive : forall t' b' pc', live s' t' b' pc' <-> live s t' b' pc').
  { intros t' b' pc'. unfold live. cbn. destruct (decide (t' = t)) as [->|Hne].
    - rewrite lookup_delete_eq. naive_solver.
    - by rewrite lookup_delete_ne, Hal. }
  split; cbn [s' ts_h ts_w ts_tramp ts_join ts_want ts_ran ts_joined set_threads threads wraps
    tc_UserData]; try apply Hi.
  - intros p. rewrite vec_free, !lookup_delete_is_Some, (ti_mem _ _ Hi p).
    destruct (decide (p = t)) as [->|Hne]; [|naive_solver].
    rewrite HV, Hw. split; [tauto|]. intros [[? ?]|[?|[? ?]]]; done || tauto.
  - intros t' [_ H1]%lookup_delete_is_Some. by apply (ti_thr _ _ Hi).
  - intros t' b' [Hne H1]%lookup_delete_Some H2. rewrite free_view.
    apply Hal in H2; [|done]. by apply (ti_live _ _ Hi).
  - intros k pc Hk. destruct (ti_tramp _ _ Hi k pc Hk) as (t' & b' & H1 & H2 & H3).
    assert (t' <> t) by (by intros ->). exists t', b'. rewrite lookup_delete_ne, Hal by done. done.
  - intros t1 t2 b1 b2 pc1 pc2 r Hl1%Hlive Hl2%Hlive. by apply (ti_own _ _ Hi).
  - intros r Hr. destruct (ti_leak _ _ Hi r Hr) as (t' & b' & pc' & Hl%Hlive & Hu). eauto.
  - intros t' me' jp' [Hne Hj']%lookup_delete_Some.
    destruct (ti_join _ _ Hi t' me' jp' Hj') as (b' & H1 & H2). exists b'.
    by rewrite lookup_delete_ne.
  - apply Forall_app. split; [apply Hi|]. apply Forall_singleton. cbn. unfold finished in Hfin.
    naive_solver.
Qed.

Lemma alive_same s t me me' jp jp' (w' : W) :
  ts_join s !! t = Some (me, jp) -> (jp = JSig \/ jp = JFree <-> jp' = JSig \/ jp' = JFree) ->
  forall t', alive (mk_tsys (ts_h s) w' (ts_tramp s) (<[t := (me', jp')]> (ts_join s)) (ts_want s)
     (ts_ran s) (ts_joined s)) t' <-> alive s t'.
Proof.
  intros Hj Hjp t'. unfold alive. cbn. destruct (decide (t' = t)) as [->|Hne].
  - rewrite lookup_insert_eq, Hj. destruct jp, jp'; naive_solver.
  - by rewrite lookup_insert_ne.
Qed.

Lemma join_step_inv V0 s t me pc r h w k :
  tinv V0 s -> ts_join s !! t = Some (me, pc) ->
  join_step me t pc (ts_h s) (ts_w s) = Some (r, h, w, k) ->
  tinv V0 (mk_tsys h w
    (match k with Some k => delete k (ts_tramp s) | None => ts_tramp s end)
    (match r with inl pc' => <[t := (me, pc')]> (ts_join s) | inr _ => delete t (ts_join s) end)
    (ts_want s) (ts_ran s)
    (match r with inl _ => ts_joined s | inr _ => ts_joined s ++ [(ts_want s !! t, ts_ran s !! t)] end)).
Proof.
  intros Hi Hj Hstep. destruct (ti_join _ _ Hi _ _ _ Hj) as (b & Hb & Hpast).
  destruct pc; cbn [join_step] in Hstep; rewrite ?Hb in Hstep; cbn [mbind option_bind] in Hstep;
    injection Hstep as <- <- <- <-.
  - apply join_move; [done..| |].
    + exists b. split; [done|]. destruct (done b) eqn:Hd; [|done]. split; [done|].
      assert (Ha : alive s t) by (unfold alive; by rewrite Hj).
      destruct (ti_live _ _ Hi t b Hb Ha) as (pc & Hpc & _).
      by apply (done_place V0 s t b pc).
    + eapply alive_same; [exact Hj|]. destruct (done b); naive_solver.
  - apply join_move; [done..|eauto|]. eapply alive_same; [exact Hj|]. naive_solver.
  - by apply join_rem.
  - apply join_move; [done| | | |].
    + apply (task_vectors (FreeSignal _ _)). constructor.
    + by rewrite free_signal_law.
    + eauto.
    + eapply alive_same; [exact Hj|]. naive_solver.
  - by apply (join_free V0 s t me).
Qed.

Lemma join_begin_inv V0 s t me :
  tinv V0 s -> is_Some (threads (ts_h s) !! t) -> ts_join s !! t = None ->
  tinv V0 (mk_tsys (ts_h s) (ts_w s) (ts_tramp s) (<[t := (me, JPoll)]> (ts_join s))
        (ts_want s) (ts_ran s) (ts_joined s)).
Proof.
  intros Hi [b Hb] Hj. apply join_move; [done..|eauto|].
  intros t'. unfold alive. cbn. destruct (decide (t' = t)) as [->|Hne].
  - by rewrite lookup_insert_eq, Hj.
  - by rewrite lookup_insert_ne.
Qed.

(** ** Creation *)

(** An address the allocator may hand out is used nowhere. *)
Lemma not_used V0 s p : tinv V0 s -> vectors (ts_w s) !! p = None ->
  V0 !! p = None /\ threads (ts_h s) !! p = None /\ wraps (ts_h s) !! p = None /\
  ts_join s !! p = None.
Proof.
  intros Hi Hp. pose proof (proj2 (ti_mem _ _ Hi p)) as Hm. rewrite Hp in Hm.
  assert (Hn : threads (ts_h s) !! p = None).
  { apply eq_None_not_Some. intros Hx. by destruct Hm as [? ?]; [tauto|]. }
  split; [|split; [done|split]].
  - apply eq_None_not_Some. intros Hx. by destruct Hm as [? ?]; [tauto|].
  - apply eq_None_not_Some. intros Hx. by destruct Hm as [? ?]; [tauto|].
  - destruct (ts_join s !! p) as [[me jp]|] eqn:Hj; [|done].
    destruct (ti_join _ _ Hi _ _ _ Hj) as (b0 & Hb0 & _). congruence.
Qed.

(** A wrapper that is still needed exists. *)
Lemma uses_wrap_exists V0 s t b pc r : tinv V0 s -> live s t b pc -> uses_wrap pc b r ->
  is_Some (wraps (ts_h s) !! r).
Proof.
  intros Hi Hl (Hf & <- & Hp). destruct (live_facts _ _ _ _ _ Hi Hl) as (_ & _ & Hok).
  assert (Hit : intended (ts_want s) (wraps (ts_h s)) t b)
    by (destruct pc; cbn in Hok; naive_solver).
  unfold intended in Hit. rewrite Hf in Hit. destruct Hit as (x & -> & _). done.
Qed.

(** Who is where after the thread [t] was created in the task [k]. *)
Lemma launch_live V0 s t k b f a h w :
  tinv V0 s -> vectors (ts_w s) !! t = None -> k ∉ k_tasks (view (ts_w s)) -> task b = k ->
  threads h = <[t := b]> (threads (ts_h s)) ->
  forall t0 b0 pc0, live (launched f a (Some (t, k)) h w s) t0 b0 pc0 <->
    (t0 = t /\ b0 = b /\ pc0 = TEntry) \/ live s t0 b0 pc0.
Proof.
  intros Hi Htv Hk Htk Hh t0 b0 pc0. destruct (not_used _ _ _ Hi Htv) as (_ & Hth & _ & Hjt).
  unfold live at 1. cbn. rewrite Hh.
  change (alive (mk_tsys _ _ _ _ _ _ _) t0) with (alive s t0). split.
  - intros (H1 & H2 & H3). destruct (decide (t0 = t)) as [->|Hne].
    + rewrite lookup_insert_eq in H1. injection H1 as <-. rewrite Htk, lookup_insert_eq in H3.
      injection H3 as <-. by left.
    + rewrite lookup_insert_ne in H1 by done. right. split; [done|]. split; [done|].
      destruct (ti_live _ _ Hi t0 b0 H1 H2) as (pc & H4 & H5 & H6 & _).
      rewrite lookup_insert_ne in H3; [done|]. congruence.
  - intros [(-> & -> & ->)|Hl].
    + rewrite lookup_insert_eq. split; [done|]. split; [unfold alive; by rewrite Hjt|].
      by rewrite Htk, lookup_insert_eq.
    + destruct (live_facts _ _ _ _ _ Hi Hl) as (_ & Hin & _). destruct Hl as (H1 & H2 & H3).
      rewrite !lookup_insert_ne by congruence. done.
Qed.

(** A new thread [t] in task [k], with its block [b]. *)
Section launch.
Context (V0 : gmap Z (list Z)) s (t k : Z) (b : osal_thread) (f a : Z) (wr : gmap Z rump_wrap) (w : W).
Hypothesis Hi : tinv V0 s.
Hypothesis Htz : t <> 0.
Hypothesis Htv : vectors (ts_w s) !! t = None.
Hypothesis Hk : k ∉ k_tasks (view (ts_w s)).
Hypothesis Htk : task b = k.
Hypothesis Hd : done b = false.
Hypothesis Hkt : k_tasks (view w) = {[k]} ∪ k_tasks (view (ts_w s)).
Hypothesis Hv : forall p, is_Some (vectors w !! p) <->
  is_Some (vectors (ts_w s) !! p) \/ p = t \/ (fn b = Shim /\ p = arg b).
Hypothesis Hsh : fn b = Shim -> arg b <> 0 /\ arg b <> t /\ vectors (ts_w s) !! arg b = None.
Hypothesis Hwr : forall r, is_Some (wr !! r) <-> is_Some (wraps (ts_h s) !! r) \/ (fn b = Shim /\ r = arg b).
Hypothesis Hwk : forall r x, wraps (ts_h s) !! r = Some x -> wr !! r = Some x.
Hypothesis Hint : intended (<[t := (f, a)]> (ts_want s)) wr t b.

Abbreviation h' := (mk_heap (<[t := b]> (threads (ts_h s))) wr (<[k := t]> (tc_UserData (ts_h s)))).

Lemma launch_thr t0 :
  is_Some (<[t := b]> (threads (ts_h s)) !! t0) -> t0 <> 0 /\ V0 !! t0 = None /\ wr !! t0 = None.
Proof using Hi Htz Htv Hsh Hwr.
  destruct (not_used _ _ _ Hi Htv) as (HV & Hth & Hwt & _).
  intros [<-|H0]%lookup_insert_is_Some'.
  - split; [done|]. split; [done|]. rewrite eq_None_not_Some, Hwr.
    intros [Hx|[Hf Heq]]; [by rewrite Hwt in Hx; destruct Hx|]. destruct (Hsh Hf) as (_ & ? & _). congruence.
  - destruct (ti_thr _ _ Hi t0 H0) as (H1 & H2 & H3). do 2 (split; [done|]).
    rewrite eq_None_not_Some, Hwr. intros [Hx|[Hf ->]]; [by rewrite H3 in Hx; destruct Hx|].
    destruct (Hsh Hf) as (_ & _ & Hn). destruct (not_used _ _ _ Hi Hn) as (_ & Hx & _).
    rewrite Hx in H0. by destruct H0.
Qed.

Lemma launch_ok t0 b0 :
  <[t := b]> (threads (ts_h s)) !! t0 = Some b0 -> alive s t0 ->
  exists pc, <[k := TEntry]> (ts_tramp s) !! task b0 = Some pc /\
    <[k := t]> (tc_UserData (ts_h s)) !! task b0 = Some t0 /\ task b0 ∈ k_tasks (view w) /\
    thread_ok (<[t := (f, a)]> (ts_want s)) (delete t (ts_ran s)) wr t0 b0 pc.
Proof using Hi Hk Htk Hd Hkt Hwk Hint.
  intros H1 H2. destruct (decide (t0 = t)) as [->|Hne].
  - rewrite lookup_insert_eq in H1. injection H1 as <-. exists TEntry.
    rewrite Htk, !lookup_insert_eq. split; [done|]. split; [done|].
    split; [rewrite Hkt; clear; set_solver|done].
  - rewrite lookup_insert_ne in H1 by done.
    destruct (ti_live _ _ Hi t0 b0 H1 H2) as (pc & H3 & H4 & H5 & H6). exists pc.
    assert (task b0 <> k) by congruence. rewrite !lookup_insert_ne by done.
    split; [done|]. split; [done|]. split; [rewrite Hkt; clear -H5; set_solver|].
    apply (thread_ok_mono _ (ts_ran s) _ (wraps (ts_h s))).
    + unfold thread_ok, finished, intended in *. by rewrite lookup_insert_ne.
    + by rewrite lookup_delete_ne.
    + intros _ x. apply Hwk.
Qed.

Lemma launch_own t1 t2 b1 b2 pc1 pc2 r :
  live (launched f a (Some (t, k)) h' w s) t1 b1 pc1 ->
  live (launched f a (Some (t, k)) h' w s) t2 b2 pc2 ->
  uses_wrap pc1 b1 r -> uses_wrap pc2 b2 r -> t1 = t2.
Proof using Hi Htv Hk Htk Hsh.
  assert (Hnew : forall r, uses_wrap TEntry b r -> wraps (ts_h s) !! r = None).
  { intros r0 (Hf & <- & _). destruct (Hsh Hf) as (_ & _ & Hn). by apply (not_used _ _ _ Hi Hn). }
  pose proof (launch_live V0 s t k b f a h' w Hi Htv Hk Htk eq_refl) as Hlive.
  intros [(-> & -> & ->)|Hl1]%Hlive [(-> & -> & ->)|Hl2]%Hlive Hu1 Hu2; [done| | |].
  - destruct (uses_wrap_exists _ _ _ _ _ _ Hi Hl2 Hu2) as [? Hx]. by rewrite (Hnew _ Hu1) in Hx.
  - destruct (uses_wrap_exists _ _ _ _ _ _ Hi Hl1 Hu1) as [? Hx]. by rewrite (Hnew _ Hu2) in Hx.
  - by eapply (ti_own _ _ Hi).
Qed.

Lemma launch_inv : tinv V0 (launched f a (Some (t, k)) h' w s).
Proof.
  destruct (not_used _ _ _ Hi Htv) as (HV & Hth & Hwt & Hjt).
  pose proof (launch_live V0 s t k b f a h' w Hi Htv Hk Htk eq_refl) as Hlive.
  split; [| | | | |exact launch_own| | |apply Hi];
    cbn [launched ts_h ts_w ts_tramp ts_join ts_want ts_ran ts_joined threads wraps tc_UserData];
    [|exact launch_thr| |exact launch_ok| | |].
  - intros p. rewrite Hv, lookup_insert_is_Some', Hwr, (ti_mem _ _ Hi p). naive_solver.
  - intros r [Hr|[Hf ->]]%Hwr; [by apply (ti_wrp _ _ Hi)|].
    destruct (Hsh Hf) as (H1 & _ & Hn). split; [done|]. by apply (not_used _ _ _ Hi Hn).
  - intros k0 pc0 [[<- <-]|[Hne Hk0]]%lookup_insert_Some.
    + exists t, b. rewrite lookup_insert_eq. split; [done|]. split; [|done].
      unfold alive. cbn. by rewrite Hjt.
    + destruct (ti_tramp _ _ Hi k0 pc0 Hk0) as (t0 & b0 & H1 & H2 & H3). exists t0, b0.
      rewrite lookup_insert_ne by congruence. done.
  - intros r [Hr|[Hf ->]]%Hwr.
    + destruct (ti_leak _ _ Hi r Hr) as (t0 & b0 & pc0 & Hl & Hu). exists t0, b0, pc0.
      split; [|done]. apply Hlive. by right.
    + exists t, b, TEntry. split; [|done]. apply Hlive. by left.
  - intros t0 me jp Hj. destruct (ti_join _ _ Hi _ _ _ Hj) as (b0 & H1 & H2).
    assert (t0 <> t) by congruence. exists b0. rewrite lookup_insert_ne by done. split; [done|].
    unfold finished in *. by rewrite lookup_insert_ne, lookup_delete_ne.
Qed.
End launch.

(** Nothing is left of a create that failed. *)
Definition undone (h : heap) w (h' : heap) w' : Prop :=
  h' = h /\ vectors w' = vectors w /\ k_tasks (view w') = k_tasks (view w).

Lemma malloc16 size w :
  let '(p, w') := osal_malloc size 16 w in
  view w' = view w /\
  ((p = 0 /\ vectors w' = vectors w) \/
   (p <> 0 /\ vectors w !! p = None /\
    vectors w' = <[p := replicate (Z.to_nat size) 0]> (vectors w))).
Proof.
  pose proof (malloc_run size 16 w ltac:(by exists 4)) as Hm. unfold osal_malloc in *. cbn [Z.eqb] in *.
  match goal with |- context [AllocVecTags size ?tags w] =>
    pose proof (alloc_view size tags w) as Hv; destruct (AllocVecTags size tags w) as [p w'] end.
  cbn [snd] in Hv. split; [done|]. destruct (Z.eqb_spec p 0); cbn [allocated] in Hm; naive_solver.
Qed.

Lemma free_run t w : t <> 0 -> vectors (osal_free t w) = delete t (vectors w) /\
  view (osal_free t w) = view w.
Proof.
  intros Ht. unfold osal_free. rewrite (proj2 (Z.eqb_neq _ _) Ht). cbn [negb].
  by rewrite vec_free, free_view.
Qed.

Lemma create_run me f a pri out h w rv o h' w' :
  osal_thread_create me (Some f) a pri out h w = (rv, o, h', w') ->
  (rv = -1 /\ o = None /\ undone h w h' w') \/
  (exists t k b, rv = 0 /\ o = Some (t, k) /\ t <> 0 /\ vectors w !! t = None /\
     k ∉ k_tasks (view w) /\ task b = k /\ joiner b = me /\ done b = false /\ fn b = f /\ arg b = a /\
     h' = mk_heap (<[t := b]> (threads h)) (wraps h) (<[k := t]> (tc_UserData h)) /\
     k_tasks (view w') = {[k]} ∪ k_tasks (view w) /\
     (forall p, is_Some (vectors w' !! p) <-> is_Some (vectors w !! p) \/ p = t)).
Proof.
  unfold osal_thread_create, undone. destruct out; cbn [negb]; [|intros [= <- <- <- <-]; by left].
  pose proof (malloc16 sizeof_thread w) as Hm. destruct (osal_malloc sizeof_thread 16 w) as [t w1].
  destruct Hm as [Hv1 Hm]. destruct (Z.eqb_spec t 0) as [->|Ht].
  { intros [= <- <- <- <-]. left. rewrite Hv1. destruct Hm as [[_ ->]|[? _]]; done. }
  destruct Hm as [[? _]|(_ & Hnt & Hvt)]; [done|].
  pose proof (alloc_signal_law me w1) as Ha.
  pose proof (task_vectors (fun w => snd (AllocSignal me w)) w1 (tc_alloc me)) as Hva. cbn in Hva.
  destruct (AllocSignal me w1) as [bit w2]. cbn [snd] in Hva.
  assert (Hk2 : k_tasks (view w2) = k_tasks (view w)).
  { rewrite <- Hv1. by destruct Ha as [[_ ->]|[_ ->]]. }
  assert (Hdel : delete t (<[t := replicate (Z.to_nat sizeof_thread) 0]> (vectors w)) = vectors w)
    by (by apply delete_insert_id).
  destruct (bit <? 0).
  { intros [= <- <- <- <-]. left. destruct (free_run t w2 Ht) as [-> ->].
    rewrite Hva, Hvt, Hdel. done. }
  set (pri' := if (pri <? -128) || (127 <? pri) then 0 else pri).
  pose proof (create_law pri' w2) as Hc.
  pose proof (task_vectors (fun w => snd (CreateTask pri' w)) w2 (tc_create pri')) as Hvc. cbn in Hvc.
  destruct (CreateTask pri' w2) as [k w3]. cbn [snd] in Hvc.
  destruct (Z.eqb_spec k 0) as [->|Hk].
  - destruct Hc as [[_ Hc]|[? _]]; [|done]. intros [= <- <- <- <-]. left.
    destruct (free_run t (FreeSignal me bit w3) Ht) as [-> ->].
    rewrite (task_vectors (FreeSignal me bit)), free_signal_law by constructor.
    cbn. rewrite Hc, Hvc, Hva, Hvt, Hdel. done.
  - destruct Hc as [[? _]|(_ & Hnk & Hc)]; [done|]. intros [= <- <- <- <-]. right.
    exists t, k, (mk_thread k me (Z.shiftl 1 bit) bit f a false).
    split; [done|]. split; [reflexivity|]. split; [done|]. split; [done|].
    split; [by rewrite <- Hk2|]. do 5 (split; [reflexivity|]). split; [reflexivity|].
    split; [by rewrite Hc, <- Hk2|]. intros p. rewrite Hvc, Hva, Hvt, lookup_insert_is_Some'.
    naive_solver.
Qed.

Lemma undone_inv V0 s h' w' :
  tinv V0 s -> undone (ts_h s) (ts_w s) h' w' ->
  tinv V0 (mk_tsys h' w' (ts_tramp s) (ts_join s) (ts_want s) (ts_ran s) (ts_joined s)).
Proof.
  intros Hi (-> & Hv & Hk). destruct Hi. split; cbn; try done.
  - by rewrite Hv.
  - intros t b. rewrite Hk. apply ti_live0.
Qed.

Lemma create_inv V0 s me f a pri out rv o h w :
  tinv V0 s -> osal_thread_create me (Some (Fn f)) a pri out (ts_h s) (ts_w s) = (rv, o, h, w) ->
  tinv V0 (launched f a o h w s).
Proof.
  intros Hi [(_ & -> & Hu)|Hc]%create_run; [by apply undone_inv|].
  destruct Hc as (t & k & b & _ & -> & Ht & Hn & Hk & Htk & _ & Hd & Hf & Ha & -> & Hkt & Hv).
  eapply (launch_inv V0 s t k b); eauto.
  - intros p. rewrite Hv, Hf. naive_solver.
  - by rewrite Hf.
  - intros r. rewrite Hf. naive_solver.
  - unfold intended. by rewrite Hf, lookup_insert_eq, Ha.
Qed.

Lemma rump_create_inv V0 s me f a pri rv o h w :
  tinv V0 s -> rumpuser_thread_create me f a pri (ts_h s) (ts_w s) = (rv, o, h, w) ->
  tinv V0 (launched f a o h w s).
Proof.
  intros Hi. unfold rumpuser_thread_create.
  pose proof (malloc16 sizeof_wrap (ts_w s)) as Hm.
  destruct (osal_malloc sizeof_wrap 16 (ts_w s)) as [r w1]. destruct Hm as [Hv1 Hm].
  destruct (Z.eqb_spec r 0) as [->|Hr].
  { intros [= <- <- <- <-]. apply undone_inv; [done|]. unfold undone. rewrite Hv1.
    destruct Hm as [[_ ->]|[? _]]; done. }
  destruct Hm as [[? _]|(_ & Hnr & Hvr)]; [done|].
  assert (Hwn : wraps (ts_h s) !! r = None).
  { apply eq_None_not_Some. intros Hx.
    assert (Hy : is_Some (vectors (ts_w s) !! r)) by (apply (ti_mem _ _ Hi); auto).
    rewrite Hnr in Hy. by destruct Hy. }
  destruct (osal_thread_create _ _ _ _ _ _ _) as [[[rc oc] h2] w2] eqn:Hc.
  apply create_run in Hc as [(-> & -> & Hh & Hv & Hk)|Hc].
  - cbn [Z.eqb negb]. intros [= <- <- <- <-]. apply undone_inv; [done|].
    destruct (free_run r w2 Hr) as [Hf1 Hf2]. unfold undone. rewrite Hf1, Hf2, Hh, Hv, Hvr, Hk, Hv1.
    rewrite delete_insert_id by done. split; [|done]. destruct (ts_h s) as [m1 m2 m3].
    unfold set_wraps. cbn in *. by rewrite delete_insert_id.
  - destruct Hc as (t & k & b & -> & -> & Ht & Hn & Hk & Htk & _ & Hd & Hf & Ha & -> & Hkt & Hv).
    cbn [Z.eqb negb]. intros [= <- <- <- <-]. rewrite Hvr in Hn.
    apply lookup_insert_None in Hn as [Hn Hne]. rewrite Hv1 in Hk, Hkt.
    eapply (launch_inv V0 s t k b); eauto; cbn [set_wraps wraps threads tc_UserData].
    + intros p. rewrite Hf, Ha, (Hv p), Hvr, lookup_insert_is_Some'. clear. naive_solver.
    + rewrite Ha. done.
    + intros r'. rewrite Hf, Ha, lookup_insert_is_Some'. naive_solver.
    + intros r' x Hx. rewrite lookup_insert_ne; [done|]. congruence.
    + unfold intended. rewrite Hf, Ha. eexists. by rewrite !lookup_insert_eq.
Qed.

Lemma thread_step_inv V0 s s' : tinv V0 s -> thread_step s s' -> tinv V0 s'.
Proof.
  intros Hi Hs. destruct Hs.
  - by eapply create_inv.
  - by eapply rump_create_inv.
  - by eapply task_step_inv.
  - by eapply exit_inv.
  - by apply join_begin_inv.
  - by eapply join_step_inv.
Qed.

Lemma thread_reach_inv w s : rtc thread_step (thread_boot w) s -> tinv (vectors w) s.
Proof.
  intros Hr. remember (thread_boot w) as s0. assert (H0 : tinv (vectors w) s0).
  { subst. apply tinv_boot. }
  clear Heqs0. induction Hr; [done|]. eauto using thread_step_inv.
Qed.

(** Every step of a task or of a join is defined, but for a task that waits for ever. *)
Lemma thread_defined V0 s : tinv V0 s ->
  (forall k pc, ts_tramp s !! k = Some pc -> (exists t, pc = TForever t) \/
     is_Some (tramp_step k pc (ts_h s) (ts_w s))) /\
  (forall t me pc, ts_join s !! t = Some (me, pc) ->
     is_Some (join_step me t pc (ts_h s) (ts_w s))).
Proof.
  intros Hi. split.
  - intros k pc Hk. destruct (tramp_live _ _ _ _ Hi Hk) as (t & b & Hl & <-).
    destruct (live_facts _ _ _ _ _ Hi Hl) as (Hu & _ & Hok). destruct Hl as (Ht & _ & _).
    destruct pc; cbn [tramp_step thread_ok] in *; rewrite ?Hu; try (by eexists); try (left; by eexists);
      right; try (destruct Hok as (-> & Hok)); rewrite ?Ht; try by eexists.
    destruct Hok as (_ & Hint & Hf & ->). unfold intended in Hint. rewrite Hf in Hint.
    destruct Hint as (x & -> & _). by eexists.
  - intros t me pc Hj. destruct (ti_join _ _ Hi _ _ _ Hj) as (b & Hb & _).
    destruct pc; cbn [join_step]; rewrite ?Hb; by eexists.
Qed.
End steps.

(** C23. Threads are memory safe and joins mean what they say.  From boot, in every
    interleaving of creates, trampolines, exits and joins (each cookie joined
    once): no task and no join ever touches a block that was freed, whatever
    blocks and tasks are reused; a join that returned, returned after the function
    the thread was created for, with its argument, had returned; the memory in
    use is that of the threads not yet joined and of the wrappers their tasks will
    still free, so that nothing is left once all are joined. *)
Theorem thread_join_safe {W} `{TaskLaws W, ThreadOS W, VecLaws W, !ThreadLaws W} (w : W) (s : tsys W) :
  rtc thread_step (thread_boot w) s ->
  (forall k pc, ts_tramp s !! k = Some pc -> (exists t, pc = TForever t) \/
     is_Some (tramp_step k pc (ts_h s) (ts_w s))) /\
  (forall t me pc, ts_join s !! t = Some (me, pc) ->
     is_Some (join_step me t pc (ts_h s) (ts_w s))) /\
  (forall x, x ∈ ts_joined s -> exists f a, x = (Some (f, a), Some (f, a))) /\
  (forall p, is_Some (vectors (ts_w s) !! p) <-> is_Some (vectors w !! p) \/
     is_Some (threads (ts_h s) !! p) \/ is_Some (wraps (ts_h s) !! p)) /\
  (threads (ts_h s) = ∅ -> dom (vectors (ts_w s)) = dom (vectors w)).
Proof.
  intros Hr. pose proof (thread_reach_inv w s Hr) as Hi.
  destruct (thread_defined _ _ Hi) as [Hd1 Hd2]. do 2 (split; [done|]). split; [|split].
  - intros [x y] Hx. pose proof (ti_joined _ _ Hi) as Hj. rewrite Forall_forall in Hj.
    destruct (Hj _ Hx) as [Heq [[f a] Hf]]. cbn in *. subst y. rewrite Hf. by exists f, a.
  - apply Hi.
  - intros He. apply set_eq. intros p. rewrite !elem_of_dom, (ti_mem _ _ Hi p), He, lookup_empty.
    split; [|by left]. intros [?|[[? ?]|Hw]]; [done..|].
    destruct (ti_leak _ _ Hi p Hw) as (t & b & pc & (Ht & _) & _). by rewrite He in Ht.
Qed.
