(* ===== verification/ThreadSim.v ===== *)
(** * Threads at work

    A system with the tasks of TaskSim.v and the allocator of OsalMemory.v, a
    thread created, run and joined in it, and what the thread code does not
    promise: a thread that leaves through [rumpuser_thread_exit] is never joined,
    and a join in another task than the creator's frees the wrong signal. *)

From S2P Require Import Prelude Ipc Tasks TaskSim OsalMemory OsalThread.

(** ** The world *)

Abbreviation tworld := (kview * gmap Z (list Z))%type.

#[export] Instance tworld_os : ThreadOS tworld := {
  RemTask t := lift (fun v => kv_tasks (k_tasks v ∖ {[t]}) v)
}.

#[export] Instance tworld_vec : Vec tworld := {
  AllocVecTags size tags w :=
    let '(p, g) := AllocVecTags size tags (snd w) in (p, (fst w, g));
  FreeVec p w := (fst w, FreeVec p (snd w));
  vectors w := snd w
}.

#[export] Instance tworld_vec_laws : VecLaws tworld.
Proof.
  split; [|done]. intros size tags a [v g] Ht Ha. pose proof (vec_new size tags a g Ht Ha) as Hn.
  change (AllocVecTags size tags (v, g)) with
    (let '(p, g') := AllocVecTags size tags g in (p, (v, g'))).
  destruct (AllocVecTags size tags g). exact Hn.
Qed.

#[export] Instance tworld_thread_laws : ThreadLaws tworld.
Proof.
  split; try done.
  - intros f w []; done.
  - intros size tags [v g]. change (AllocVecTags size tags (v, g)) with
      (let '(p, g') := AllocVecTags size tags g in (p, (v, g'))).
    by destruct (AllocVecTags size tags g).
Qed.

(** ** A run: create, run, join *)

Definition tw0 : tworld := (mk_kview (fun _ => 0) (fun _ => ∅) (fun _ => []) ∅ (fun _ => (0, 0)) {[1]} 0, ∅).

(** Task 1 creates a rump thread for the function 500 with argument 9. *)
Definition created_in (w0 : tworld) : tsys tworld :=
  let '(_, o, h, w) := rumpuser_thread_create 1 500 9 0 (mk_heap ∅ ∅ ∅) w0 in
  launched 500 9 o h w (thread_boot w0).

Lemma created_reachable w0 : rtc thread_step (thread_boot w0) (created_in w0).
Proof.
  unfold created_in. destruct (rumpuser_thread_create _ _ _ _ _ _) as [[[rv o] h] w] eqn:Hc.
  apply rtc_once. by eapply th_rump_create.
Qed.

Definition created : tsys tworld := created_in tw0.

Inductive thread_action := TaskStep (k : Z) | TaskExit (k : Z) | JoinStart (t me : Z) | JoinStep (t : Z).

Definition thread_act (a : thread_action) (s : tsys tworld) : option (tsys tworld) :=
  match a with
  | TaskStep k =>
    pc ← ts_tramp s !! k;
    '(pc', h, w, r) ← tramp_step k pc (ts_h s) (ts_w s);
    Some (mk_tsys h w (<[k := pc']> (ts_tramp s)) (ts_join s) (ts_want s)
        (match r with Some x => <[block_of pc := x]> (ts_ran s) | None => ts_ran s end)
        (ts_joined s))
  | TaskExit k =>
    pc ← ts_tramp s !! k;
    pc' ← rumpuser_thread_exit pc;
    Some (mk_tsys (ts_h s) (ts_w s) (<[k := pc']> (ts_tramp s)) (ts_join s) (ts_want s)
        (ts_ran s) (ts_joined s))
  | JoinStart t me =>
    _ ← threads (ts_h s) !! t;
    match ts_join s !! t with
    | None => Some (mk_tsys (ts_h s) (ts_w s) (ts_tramp s) (<[t := (me, JPoll)]> (ts_join s))
                (ts_want s) (ts_ran s) (ts_joined s))
    | Some _ => None
    end
  | JoinStep t =>
    '(me, pc) ← ts_join s !! t;
    '(r, h, w, k) ← join_step me t pc (ts_h s) (ts_w s);
    Some (mk_tsys h w
        (match k with Some k => delete k (ts_tramp s) | None => ts_tramp s end)
        (match r with inl pc' => <[t := (me, pc')]> (ts_join s) | inr _ => delete t (ts_join s) end)
        (ts_want s) (ts_ran s)
        (match r with inl _ => ts_joined s | inr _ => ts_joined s ++ [(ts_want s !! t, ts_ran s !! t)] end))
  end.

Lemma thread_act_step a s s' : thread_act a s = Some s' -> thread_step s s'.
Proof.
  destruct a; cbn [thread_act].
  - intros (pc & Hk & Hs)%bind_Some. apply bind_Some in Hs as ([[[pc' h] w] r] & Hs & [= <-]).
    by eapply th_task.
  - intros (pc & Hk & Hs)%bind_Some. apply bind_Some in Hs as (pc' & Hs & [= <-]).
    by eapply th_exit.
  - intros (b & Hb & Hs)%bind_Some. destruct (ts_join s !! t) eqn:Hj; [done|].
    injection Hs as <-. apply th_join; [by eexists|done].
  - intros ([me pc] & Hj & Hs)%bind_Some. apply bind_Some in Hs as ([[[r h] w] k] & Hs & [= <-]).
    by eapply th_join_step.
Qed.

Fixpoint thread_run (l : list thread_action) (s : tsys tworld) : option (tsys tworld) :=
  match l with [] => Some s | a :: l' => s' ← thread_act a s; thread_run l' s' end.

Lemma thread_run_steps l : forall s s', thread_run l s = Some s' -> rtc thread_step s s'.
Proof.
  induction l as [|a l IH]; intros s s'; cbn [thread_run].
  - by intros [= ->].
  - intros (s1 & Ha & Hr)%bind_Some. eapply rtc_l; [by eapply thread_act_step|by apply IH].
Qed.

Definition after (l : list thread_action) (s : tsys tworld) : tsys tworld :=
  default s (thread_run l s).

Lemma after_steps l s :
  (if thread_run l s is Some _ then true else false) = true -> rtc thread_step s (after l s).
Proof.
  intros Hr. unfold after. destruct (thread_run l s) as [s'|] eqn:He; [|done].
  by eapply thread_run_steps.
Qed.

(** The task 2 runs to its end while task 1 joins its block. *)
Definition the_task : Z := default 0 (head (map_to_list (ts_tramp created)).*1).
Definition the_block : Z := default 0 (head (map_to_list (threads (ts_h created))).*1).

Definition all_joined : tsys tworld :=
  after ([JoinStart the_block 1; JoinStep the_block; JoinStep the_block]
    ++ replicate 6 (TaskStep the_task) ++ replicate 4 (JoinStep the_block)) created.

Lemma all_joined_reachable : rtc thread_step (thread_boot tw0) all_joined.
Proof.
  etrans; [exact (created_reachable tw0)|]. apply after_steps. vm_compute. reflexivity.
Qed.

Lemma thread_join_safe_witness :
  ts_joined all_joined = [(Some (500, 9), Some (500, 9))] /\
  dom (vectors (ts_w all_joined)) = dom (vectors tw0).
Proof.
  destruct (thread_join_safe tw0 all_joined all_joined_reachable) as (_ & _ & _ & _ & Hv).
  split; [vm_compute; reflexivity|]. apply Hv. apply map_eq. intros i.
  replace (threads (ts_h all_joined)) with (∅ : gmap Z osal_thread); [done|].
  vm_compute. reflexivity.
Defined.

(** ** What goes wrong *)

(** The thread of [t] waits for ever and did not say that it is done. *)
Definition hung {W} (s : tsys W) (t : Z) : Prop :=
  exists b, live s t b (TForever t) /\ done b = false.

Section hung.
Context {W : Type} `{TaskLaws W, ThreadOS W, VecLaws W, !ThreadLaws W}.
Implicit Types (s : tsys W).

Lemma launched_hung V0 s t f a t' k' b' h w :
  tinv V0 s -> hung s t -> threads h = <[t' := b']> (threads (ts_h s)) ->
  t' <> t -> k' ∉ k_tasks (view (ts_w s)) -> hung (launched f a (Some (t', k')) h w s) t.
Proof.
  intros Hi (b & Hl & Hd) Hh Hne Hk. exists b. split; [|done].
  destruct (live_facts _ _ _ _ _ Hi Hl) as (_ & Hin & _). destruct Hl as (Ht & Ha & Hp).
  split; [cbn; by rewrite Hh, lookup_insert_ne|]. split; [exact Ha|].
  cbn. rewrite lookup_insert_ne; [done|]. congruence.
Qed.

Lemma hung_known V0 s t : tinv V0 s -> hung s t -> is_Some (vectors (ts_w s) !! t).
Proof. intros Hi (b & (Ht & _) & _). apply (ti_mem _ _ Hi). right. left. by eexists. Qed.

Lemma hung_create V0 s t me f a pri rv o h w :
  tinv V0 s -> hung s t -> rumpuser_thread_create me f a pri (ts_h s) (ts_w s) = (rv, o, h, w) ->
  hung (launched f a o h w s) t.
Proof.
  intros Hi Hh Hc. pose proof (hung_known _ _ _ Hi Hh) as Hv. pose proof Hh as (b & Hl & Hd).
  unfold rumpuser_thread_create in Hc.
  pose proof (malloc16 sizeof_wrap (ts_w s)) as Hm.
  destruct (osal_malloc sizeof_wrap 16 (ts_w s)) as [q w1]. destruct Hm as [Hv1 Hm].
  destruct (q =? 0); [injection Hc as <- <- <- <-; by exists b|].
  destruct (osal_thread_create _ _ _ _ _ _ _) as [[[rc oc] h2] w2] eqn:Hcc.
  apply create_run in Hcc as [(-> & -> & (-> & _ & _))|Hcc].
  + injection Hc as <- <- <- <-. by exists b.
  + destruct Hcc as (t' & k' & b' & -> & -> & _ & Hn & Hk & _ & _ & _ & _ & _ & -> & _).
    injection Hc as <- <- <- <-. rewrite Hv1 in Hk. eapply launched_hung; eauto.
    intros ->. destruct Hm as [[_ Hm]|(_ & _ & Hm)]; rewrite Hm in Hn.
    * rewrite Hn in Hv. by destruct Hv.
    * apply lookup_insert_None in Hn as [Hn _]. rewrite Hn in Hv. by destruct Hv.
Qed.

(** Another task does not touch the block. *)
Lemma other_block V0 s k pc pc' h w r t b :
  tinv V0 s -> ts_tramp s !! k = Some pc -> tramp_step k pc (ts_h s) (ts_w s) = Some (pc', h, w, r) ->
  live s t b (TForever t) -> k <> task b -> threads h !! t = Some b.
Proof.
  intros Hi Hk Hst (Ht & _ & _) Hne.
  destruct (tramp_live _ _ _ _ Hi Hk) as (t0 & b0 & Hl0 & <-).
  assert (Hn : t0 <> t). { intros ->. destruct Hl0 as (H5 & _). congruence. }
  destruct (live_facts _ _ _ _ _ Hi Hl0) as (_ & _ & Hok).
  destruct pc; cbn [tramp_step thread_ok] in *; try discriminate Hst;
    try (by injection Hst as _ <- _ _);
    apply bind_Some in Hst as (? & _ & [= _ <- _ _]); try done.
  destruct Hok as (-> & _). cbn. by rewrite lookup_insert_ne.
Qed.

Lemma hung_join V0 s t t2 me pc r h w k :
  tinv V0 s -> hung s t -> ts_join s !! t2 = Some (me, pc) ->
  join_step me t2 pc (ts_h s) (ts_w s) = Some (r, h, w, k) ->
  hung (mk_tsys h w
    (match k with Some k => delete k (ts_tramp s) | None => ts_tramp s end)
    (match r with inl pc' => <[t2 := (me, pc')]> (ts_join s) | inr _ => delete t2 (ts_join s) end)
    (ts_want s) (ts_ran s)
    (match r with inl _ => ts_joined s | inr _ => ts_joined s ++ [(ts_want s !! t2, ts_ran s !! t2)] end)) t.
Proof.
  intros Hi Hh Hj Hst. pose proof Hh as (b & Hl & Hd). pose proof Hl as (Ht & Ha & Hp).
  destruct (ti_join _ _ Hi _ _ _ Hj) as (b2 & Hb2 & Hpast).
  assert (Hnd : t2 = t -> pc = JPoll \/ pc = JSleep).
  { intros ->. rewrite Ht in Hb2. injection Hb2 as <-. destruct pc; try tauto;
      destruct Hpast; congruence. }
  exists b. split; [|done].
  destruct pc; cbn [join_step] in Hst; rewrite ?Hb2 in Hst; cbn [mbind option_bind] in Hst;
    injection Hst as <- <- <- <-.
  1,2: split; [done|]; split; [|done]; unfold alive in *; cbn;
    destruct (decide (t2 = t)) as [->|Hne];
    [rewrite lookup_insert_eq|by rewrite lookup_insert_ne].
  + rewrite Ht in Hb2. injection Hb2 as <-. by rewrite Hd.
  + done.
  + assert (Hne : t2 <> t) by (intros Heq; by destruct (Hnd Heq)).
    split; [done|]. split; [unfold alive in *; cbn; by rewrite lookup_insert_ne|].
    cbn. rewrite lookup_delete_ne; [done|]. intros Heq. apply Hne.
    assert (Ha2 : alive s t2) by (unfold alive; by rewrite Hj).
    destruct (ti_live _ _ Hi t2 b2 Hb2 Ha2) as (pc2 & Hp2 & _).
    by apply (live_inj V0 s t2 t b2 b pc2 (TForever t)).
  + assert (Hne : t2 <> t) by (intros Heq; by destruct (Hnd Heq)).
    split; [done|]. split; [unfold alive in *; cbn; by rewrite lookup_insert_ne|done].
  + assert (Hne : t2 <> t) by (intros Heq; by destruct (Hnd Heq)).
    split; [cbn; by rewrite lookup_delete_ne|].
    split; [unfold alive in *; cbn; by rewrite lookup_delete_ne|done].
Qed.

Lemma hung_step V0 s s' t : tinv V0 s -> hung s t -> thread_step s s' -> hung s' t.
Proof.
  intros Hi Hh Hs. pose proof (hung_known _ _ _ Hi Hh) as Hv.
  pose proof Hh as (b & Hl & Hd). pose proof Hl as (Ht & Ha & Hp).
  destruct Hs as [s me f a pri out rv o h w Hc|s me f a pri rv o h w Hc|s k pc pc' h w r Hk Hst
    |s k pc pc' Hk Hst|s t2 me Ht2 Hj|s t2 me pc r h w k Hj Hst].
  - apply create_run in Hc as [(_ & -> & -> & _)|Hc]; [by exists b|].
    destruct Hc as (t' & k' & b' & _ & -> & _ & Hn & Hk & _ & _ & _ & _ & _ & -> & _).
    eapply launched_hung; eauto. intros ->. rewrite Hn in Hv. by destruct Hv.
  - by eapply hung_create.
  - assert (Hne : k <> task b) by (intros ->; rewrite Hp in Hk; injection Hk as <-; discriminate Hst).
    exists b. split; [|done]. split; [exact (other_block _ _ _ _ _ _ _ _ _ _ Hi Hk Hst Hl Hne)|].
    split; [exact Ha|].
    cbn. by rewrite lookup_insert_ne.
  - assert (Hne : k <> task b) by (intros ->; rewrite Hp in Hk; injection Hk as <-; discriminate Hst).
    exists b. split; [|done]. split; [done|]. split; [exact Ha|]. cbn. by rewrite lookup_insert_ne.
  - exists b. split; [|done]. split; [done|]. split; [|done]. unfold alive in *. cbn.
    destruct (decide (t2 = t)) as [->|Hne]; [by rewrite lookup_insert_eq|by rewrite lookup_insert_ne].
  - by eapply hung_join.
Qed.
End hung.

(** A thread that calls [rumpuser_thread_exit] never sets its flag: whatever happens
    afterwards, its block is never freed and a join of it never returns. *)
Theorem exit_never_joined {W} `{TaskLaws W, ThreadOS W, VecLaws W, !ThreadLaws W} (w : W)
    (s s' : tsys W) k t f a :
  rtc thread_step (thread_boot w) s -> ts_tramp s !! k = Some (TRun t f a) ->
  rtc thread_step (mk_tsys (ts_h s) (ts_w s) (<[k := TForever t]> (ts_tramp s)) (ts_join s)
    (ts_want s) (ts_ran s) (ts_joined s)) s' ->
  hung s' t.
Proof.
  intros Hr Hk Hr'. pose proof (thread_reach_inv w s Hr) as Hi.
  destruct (tramp_live _ _ _ _ Hi Hk) as (t0 & b & Hl & <-).
  destruct (live_facts _ _ _ _ _ Hi Hl) as (_ & _ & Hok). cbn in Hok. destruct Hok as (-> & Hd & _).
  pose proof (exit_inv _ s (task b) _ _ Hi Hk eq_refl) as Hi2.
  set (s2 := mk_tsys _ _ _ _ _ _ _) in *.
  assert (Hh : hung s2 t0).
  { exists b. split; [|done]. destruct Hl as (H1' & H2' & _). split; [done|]. split; [done|].
    cbn. by rewrite lookup_insert_eq. }
  clearbody s2. induction Hr' as [|s1 s2' s3 Hs _ IH]; [done|].
  apply IH; [by eapply thread_step_inv|by eapply hung_step].
Qed.

(** Task 3, which owns its signal bit 16, joins the thread that task 1 created with
    bit 16 of its own: task 3 loses its bit, and task 1 never gets its bit back. *)
Definition tw3 : tworld :=
  (mk_kview (fun _ => 0) (fun t => if t =? 3 then {[16]} else ∅) (fun _ => []) ∅ (fun _ => (0, 0)) {[1; 3]} 0, ∅).

Definition created3 : tsys tworld := created_in tw3.

Definition task3 : Z := default 0 (head (map_to_list (ts_tramp created3)).*1).
Definition block3 : Z := default 0 (head (map_to_list (threads (ts_h created3))).*1).

Definition joined_elsewhere : tsys tworld :=
  after (replicate 6 (TaskStep task3) ++ [JoinStart block3 3] ++ replicate 4 (JoinStep block3)) created3.

Theorem join_frees_wrong_bit :
  rtc thread_step (thread_boot tw3) joined_elsewhere /\
  ts_joined joined_elsewhere = [(Some (500, 9), Some (500, 9))] /\
  elements (k_bits (view (ts_w joined_elsewhere)) 1) = [16] /\
  elements (k_bits (view (ts_w joined_elsewhere)) 3) = [].
Proof.
  split; [|split; [|split]]; [|vm_compute; reflexivity..].
  etrans; [exact (created_reachable tw3)|]. apply after_steps. vm_compute. reflexivity.
Qed.
