(* ===== verification/OsalDiag.v ===== *)
(** * Parameters and entropy of the rump kernel (src/phase1_osal/osal_diag.c)

    [rumpuser_getparam] answers the few parameters [rump_init] asks for;
    [rumpuser_getrandom] fills a buffer from a counter.  The trace and the
    console output of the file are in OsalTrace.v. *)

From S2P Require Import Prelude.
From Stdlib Require Import Ascii.

Definition EINVAL : Z := 22.
Definition ENOENT : Z := 2.

(** The bytes of a C string literal, without and with the final NUL. *)
Fixpoint chars (s : string) : list Z :=
  match s with
  | EmptyString => []
  | String c s' => Z.of_nat (nat_of_ascii c) :: chars s'
  end.

Definition cstr (s : string) : list Z := chars s ++ [0].

(** What a reader of a C string finds in memory. *)
Fixpoint read_str (p : list Z) : option (list Z) :=
  match p with
  | [] => None
  | c :: p' => if c =? 0 then Some [] else l ← read_str p'; Some (c :: l)
  end.

(** [for (i = 0; i + 1 < buflen && s[i]; i++) b[i] = s[i];] from [i] on, [n]
    iterations at most; the last [i] and the buffer. *)
Fixpoint buf_write_loop (n : nat) (i buflen : Z) (s b : list Z) : option (Z * list Z) :=
  match n with
  | O => None
  | S n' =>
    if u32 (i + 1) <? buflen then
      c ← lookupZ s i;
      if c =? 0 then Some (i, b) else
      b ← storeZ b i c;
      buf_write_loop n' (u32 (i + 1)) buflen s b
    else Some (i, b)
  end.

Definition buf_write (buf : list Z) (buflen : Z) (s : string) : option (list Z) :=
  '(i, b) ← buf_write_loop (S (String.length s)) 0 buflen (cstr s) buf;
  storeZ b i 0.

(** A null pointer is [None]; the result and the buffer. *)
Definition rumpuser_getparam (name : option string) (buf : option (list Z)) (buflen : Z)
    : option (Z * option (list Z)) :=
  match name, buf with
  | Some name, Some b =>
    if buflen <? 2 then Some (EINVAL, buf) else
    let answer v := b ← buf_write b buflen v; Some (0, Some b) in
    if (name =? "_RUMPUSER_NCPU")%string then answer "1"%string
    else if (name =? "_RUMPUSER_HOSTNAME")%string then answer "netstack-os4"%string
    else if (name =? "RUMP_VERBOSE")%string then answer "0"%string
    else if (name =? "RUMP_THREADS")%string then answer "1"%string
    else if (name =? "RUMP_MEMLIMIT")%string then answer "33554432"%string
    else Some (ENOENT, buf)
  | _, _ => Some (EINVAL, buf)
  end.

(** [for (i = 0; i < buflen; i++) p[i] = ctr++;], [n] iterations left. *)
Fixpoint getrandom_loop (n : nat) (i ctr : Z) (p : list Z) : option (list Z * Z) :=
  match n with
  | O => Some (p, ctr)
  | S n' => p ← storeZ p i ctr; getrandom_loop n' (i + 1) (u8 (ctr + 1)) p
  end.

(** The buffer, the counter afterwards and what is stored through [retp]. *)
Definition rumpuser_getrandom (buf : list Z) (buflen ctr : Z) (retp : bool)
    : option (Z * list Z * Z * option Z) :=
  '(p, ctr) ← getrandom_loop (Z.to_nat buflen) 0 ctr buf;
  Some (0, p, ctr, if retp then Some buflen else None).

(** ** The parameters promised *)

Definition params : gmap string string := list_to_map
  [("_RUMPUSER_NCPU", "1"); ("_RUMPUSER_HOSTNAME", "netstack-os4"); ("RUMP_VERBOSE", "0");
   ("RUMP_THREADS", "1"); ("RUMP_MEMLIMIT", "33554432")]%string.

(** ** The loops *)

Lemma length_chars v : length (chars v) = String.length v.
Proof. induction v; cbn; congruence. Qed.

Lemma buf_write_loop_S n i buflen s b :
  buf_write_loop (S n) i buflen s b =
  if u32 (i + 1) <? buflen then
    c ← lookupZ s i;
    if c =? 0 then Some (i, b) else
    b ← storeZ b i c;
    buf_write_loop n (u32 (i + 1)) buflen s b
  else Some (i, b).
Proof. done. Qed.

Lemma buf_write_loop_run v buflen : forall m i b,
  Forall (fun c => c <> 0) v -> Z.of_nat (length b) = buflen -> 2 <= buflen < 4294967296 ->
  (i + m = length v)%nat -> let k := Nat.min (length v) (Z.to_nat buflen - 1) in (i <= k)%nat ->
  exists b', buf_write_loop (S m) (Z.of_nat i) buflen (v ++ [0]) b = Some (Z.of_nat k, b') /\
    length b' = length b /\
    forall j, b' !! j = if decide (i <= j < k)%nat then v !! j else b !! j.
Proof.
  induction m as [|m IH]; intros i b Hv Hb Hn Hi k Hk; rewrite buf_write_loop_S.
  all: rewrite u32_id by word; destruct (Z.ltb_spec (Z.of_nat i + 1) buflen) as [Hlt|Hge].
  2, 4: exists b; replace k with i by lia; split; [done|]; split; [done|]; intros j;
    by rewrite decide_False by lia.
  - rewrite lookupZ_nat, Nat2Z.id, lookup_app_r by lia. replace (i - length v)%nat with 0%nat by lia.
    cbn. exists b. replace k with i by lia. split; [done|]. split; [done|]. intros j.
    by rewrite decide_False by lia.
  - destruct (lookup_lt_is_Some_2 v i ltac:(lia)) as [c Hc].
    rewrite lookupZ_nat, Nat2Z.id, lookup_app_l, Hc by lia. cbn [mbind option_bind].
    rewrite (proj2 (Z.eqb_neq _ _)) by (by eapply (proj1 (Forall_lookup _ _) Hv)).
    rewrite storeZ_run by lia. cbn [mbind option_bind]. rewrite Nat2Z.id.
    replace (Z.of_nat i + 1) with (Z.of_nat (S i)) by lia.
    destruct (IH (S i) (<[i := c]> b) Hv) as (b' & Hr & Hl & Hj); [by rewrite length_insert|lia|lia|lia|].
    exists b'. split; [exact Hr|]. split; [by rewrite Hl, length_insert|].
    intros j. rewrite Hj. destruct (decide (j = i)) as [->|Hne].
    + rewrite decide_False, decide_True by lia. rewrite list_lookup_insert_eq by lia. done.
    + rewrite list_lookup_insert_ne by done. by repeat case_decide; try lia.
Qed.

Lemma read_str_app l p : Forall (fun c => c <> 0) l -> read_str (l ++ 0 :: p) = Some l.
Proof.
  induction 1 as [|c l Hc _ IH]; cbn; [done|]. rewrite (proj2 (Z.eqb_neq _ _) Hc).
  by rewrite IH.
Qed.

Lemma buf_write_run b v :
  Forall (fun c => c <> 0) (chars v) -> 2 <= Z.of_nat (length b) < 4294967296 ->
  let k := Nat.min (String.length v) (length b - 1) in
  buf_write b (Z.of_nat (length b)) v = Some (take k (chars v) ++ 0 :: drop (S k) b).
Proof.
  intros Hv Hb k. unfold buf_write, cstr.
  destruct (buf_write_loop_run (chars v) (Z.of_nat (length b)) (String.length v) 0 b)
    as (b' & Hr & Hl & Hj); [done|done|done|by rewrite length_chars|lia|].
  rewrite length_chars, Nat2Z.id in Hr, Hj. fold k in Hr, Hj.
  change (Z.of_nat 0) with 0 in Hr. rewrite Hr. cbn [mbind option_bind].
  rewrite storeZ_run by lia. rewrite Nat2Z.id. f_equal. apply list_eq. intros j.
  assert (Htk : length (take k (chars v)) = k) by (rewrite length_take, length_chars; lia).
  destruct (decide (j = k)) as [->|Hne].
  - rewrite list_lookup_insert_eq by lia. rewrite lookup_app_r by lia.
    by replace (k - length (take k (chars v)))%nat with 0%nat by lia.
  - rewrite list_lookup_insert_ne, Hj by done. destruct (decide (j < k)%nat).
    + rewrite decide_True by lia. rewrite lookup_app_l by lia. by rewrite lookup_take_lt.
    + rewrite decide_False by lia. rewrite lookup_app_r, Htk by lia.
      replace (j - k)%nat with (S (j - S k)) by lia.
      change ((0 :: drop (S k) b) !! S (j - S k)%nat) with (drop (S k) b !! (j - S k)%nat). rewrite lookup_drop. f_equal. lia.
Qed.

Lemma getrandom_run n : forall i ctr p,
  (i + n <= length p)%nat -> is_u8 ctr ->
  exists p', getrandom_loop n (Z.of_nat i) ctr p = Some (p', u8 (ctr + Z.of_nat n)) /\
    length p' = length p /\
    forall j, p' !! j = if decide (i <= j < i + n)%nat then Some (u8 (ctr + Z.of_nat (j - i))) else p !! j.
Proof.
  induction n as [|n IH]; intros i ctr p Hi Hc; cbn [getrandom_loop].
  { exists p. rewrite Z.add_0_r, u8_id by done. split; [done|]. split; [done|].
    intros j. by rewrite decide_False by lia. }
  rewrite storeZ_run by lia. cbn [mbind option_bind]. rewrite Nat2Z.id.
  replace (Z.of_nat i + 1) with (Z.of_nat (S i)) by lia.
  destruct (IH (S i) (u8 (ctr + 1)) (<[i := ctr]> p)) as (p' & -> & Hl & Hj);
    [rewrite length_insert; lia|word|].
  exists p'. split; [do 2 f_equal; word|]. split; [by rewrite Hl, length_insert|].
  intros j. rewrite Hj. destruct (decide (j = i)) as [->|Hne].
  - rewrite decide_False, decide_True by lia. rewrite list_lookup_insert_eq by lia.
    f_equal. rewrite Nat.sub_diag. by rewrite Z.add_0_r, u8_id.
  - rewrite list_lookup_insert_ne by done. repeat case_decide; try lia; [|done].
    f_equal. replace (j - i)%nat with (S (j - S i)) by lia. word.
Qed.

(** What the parameter call answers. *)
Lemma getparam_run (name : option string) (buf : option (list Z)) (buflen : Z) :
  (forall b, buf = Some b -> Z.of_nat (length b) = buflen) -> buflen < 4294967296 ->
  match name, buf with
  | Some n, Some b =>
    if buflen <? 2 then rumpuser_getparam name buf buflen = Some (EINVAL, buf) else
    match params !! n with
    | Some v =>
      let k := Nat.min (String.length v) (length b - 1) in
      let b' := take k (chars v) ++ 0 :: drop (S k) b in
      rumpuser_getparam name buf buflen = Some (0, Some b') /\
      read_str b' = Some (take k (chars v)) /\ length b' = length b
    | None => rumpuser_getparam name buf buflen = Some (ENOENT, buf)
    end
  | _, _ => rumpuser_getparam name buf buflen = Some (EINVAL, buf)
  end.
Proof.
  intros Hlen Hmax. destruct name as [n|], buf as [b|]; try done.
  specialize (Hlen b eq_refl). cbn [rumpuser_getparam].
  destruct (Z.ltb_spec buflen 2) as [|H2]; [done|].
  assert (Hans : forall v, Forall (fun c => c <> 0) (chars v) ->
    let k := Nat.min (String.length v) (length b - 1) in
    let b' := take k (chars v) ++ 0 :: drop (S k) b in
    (b ← buf_write b buflen v; Some (0, Some b)) = Some (0, Some b') /\
    read_str b' = Some (take k (chars v)) /\ length b' = length b).
  { intros v Hv k b'. rewrite <- Hlen, buf_write_run by (done || lia). fold k. split; [done|].
    split; [apply read_str_app; by apply Forall_take|].
    unfold b'. rewrite length_app, length_take, length_chars. cbn [length]. rewrite length_drop. lia. }
  unfold params. cbn [list_to_map foldr].
  repeat match goal with
  | |- context [(n =? ?x)%string] => destruct (String.eqb_spec n x) as [->|?]
  end;
  repeat first [rewrite lookup_insert_eq | rewrite lookup_insert_ne
    by (discriminate || apply not_eq_sym; assumption)];
  cbn [fst snd]; try (apply Hans; repeat constructor; discriminate).
  done.
Qed.

(** [rumpuser_getparam] answers exactly the five parameters: 0 and the value,
    cut to the buffer and terminated, with the memory behind it untouched, so that
    a reader of the string finds the value whenever it fits; ENOENT for any other
    name and EINVAL for a null pointer or a buffer below two bytes, both with the
    buffer untouched.  No byte outside the buffer is ever written. *)
Theorem getparam_answers (name : option string) (buf : option (list Z)) (buflen : Z) :
  (forall b, buf = Some b -> Z.of_nat (length b) = buflen) -> buflen < 4294967296 ->
  match name, buf with
  | Some n, Some b =>
    if buflen <? 2 then rumpuser_getparam name buf buflen = Some (EINVAL, buf) else
    match params !! n with
    | Some v =>
      let k := Nat.min (String.length v) (length b - 1) in
      let b' := take k (chars v) ++ 0 :: drop (S k) b in
      rumpuser_getparam name buf buflen = Some (0, Some b') /\
      read_str b' = Some (take k (chars v)) /\ length b' = length b
    | None => rumpuser_getparam name buf buflen = Some (ENOENT, buf)
    end
  | _, _ => rumpuser_getparam name buf buflen = Some (EINVAL, buf)
  end.
Proof. apply getparam_run. Qed.

Lemma getparam_answers_witness :
  rumpuser_getparam (Some "_RUMPUSER_HOSTNAME"%string) (Some (replicate 4 7)) 4 =
    Some (0, Some [110; 101; 116; 0]) /\ read_str [110; 101; 116; 0] = Some [110; 101; 116].
Proof.
  pose proof (getparam_answers (Some "_RUMPUSER_HOSTNAME"%string) (Some (replicate 4 7)) 4) as Hg.
  destruct Hg as (Hr & Hs & _).
  - intros b [= <-]. reflexivity.
  - lia.
  - split; [exact Hr|exact Hs].
Defined.
