(* ===== verification/OsalTrace.v ===== *)
(** * Trace file, console and panic (src/phase1_osal/osal_diag.c)

    [osal_trace] formats into a buffer of 256 characters and appends it to
    T:trumpinit.log through dos.library; the other routines print on the debug
    console.  What the file uses of dos.library is the class [Dos], of ExecSG
    [Debug]; a call of the file, whichever it is, is [diag_do]. *)

From Stdlib Require Import Ascii.
From stdpp Require Import pretty.
From S2P Require Import Prelude.
From S2P Require Import OsalDiag.

#[local] Open Scope Z_scope.

(** ** The system *)

Definition OFFSET_END : Z := 1.

Class Dos (W : Type) := {
  (** [Open("T:trumpinit.log", MODE_READWRITE)]: an existing file or a new one,
      with a shared lock, at its start *)
  OpenLog : W -> Z * W;
  ChangeFilePosition : Z -> Z -> Z -> W -> Z * W;
  WriteFile : Z -> list Z -> W -> Z * W;
  CloseFile : Z -> W -> W
}.

(** Bytes [b] written over [c] from position [p] on. *)
Definition splice (p : nat) (b c : list Z) : list Z := take p c ++ b ++ drop (p + length b) c.

Class DosViews (W : Type) := {
  log_file : W -> list Z;       (* contents of the file, empty when there is none *)
  handles : W -> gmap Z nat     (* its open handles and their positions *)
}.

Class DosLaws (W : Type) `{Dos W, DosViews W} := {
  open_law : forall (w : W) f w', OpenLog w = (f, w') -> log_file w' = log_file w /\
    if f =? 0 then handles w' = handles w
    else handles w !! f = None /\ handles w' = <[f := 0%nat]> (handles w);
  seek_law : forall f p (w : W) r w', handles w !! f = Some p ->
    ChangeFilePosition f 0 OFFSET_END w = (r, w') -> log_file w' = log_file w /\
    handles w' = if r =? 0 then handles w else <[f := length (log_file w)]> (handles w);
  (** an error may come after a part was written *)
  write_law : forall f p b (w : W) r w', handles w !! f = Some p -> WriteFile f b w = (r, w') ->
    exists k, (k <= length b)%nat /\ (r = Z.of_nat (length b) -> k = length b) /\
      log_file w' = splice p (take k b) (log_file w) /\
      handles w' = <[f := (p + k)%nat]> (handles w);
  close_law : forall f (w : W), log_file (CloseFile f w) = log_file w /\
    handles (CloseFile f w) = delete f (handles w)
}.

(** A task that calls [Wait] goes on, or is blocked in the world it left. *)
Inductive outcome (A : Type) := Returned (a : A) | Blocked (a : A).
Arguments Returned {A}. Arguments Blocked {A}.

Class Debug (W : Type) := {
  (** [DebugPrintF] of the text it formats *)
  DebugPrintF : list Z -> W -> W;
  Wait : Z -> W -> outcome W
}.

Class DebugViews (W : Type) := { console : W -> list Z }.

Class DebugLaws (W : Type) `{Dos W, DosViews W, Debug W, DebugViews W} := {
  print_law : forall t (w : W), console (DebugPrintF t w) = console w ++ t;
  print_files : forall t (w : W), log_file (DebugPrintF t w) = log_file w /\
    handles (DebugPrintF t w) = handles w;
  (** no signal is in an empty mask *)
  wait_none : forall (w : W), Wait 0 w = Blocked w;
  open_console : forall (w : W), console (snd (OpenLog w)) = console w;
  seek_console : forall f p m (w : W), console (snd (ChangeFilePosition f p m w)) = console w;
  write_console : forall f b (w : W), console (snd (WriteFile f b w)) = console w;
  close_console : forall f (w : W), console (CloseFile f w) = console w
}.

(** ** Formatting *)

Inductive farg := FStr (s : list Z) | FInt (v : Z) | FPtr (p : Z).

(** ['\n'] *)
Definition nl : string := String "010" EmptyString.

(** The text of the conversions %s, %d and %p; [show_ptr] is the C library's
    choice for %p.  [None]: arguments that do not match. *)
Fixpoint vformat (show_ptr : Z -> list Z) (fmt : string) (args : list farg) : option (list Z) :=
  match fmt with
  | EmptyString => Some []
  | String "%" (String "s" f) =>
    match args with FStr s :: args => t ← vformat show_ptr f args; Some (s ++ t) | _ => None end
  | String "%" (String "d" f) =>
    match args with
    | FInt v :: args => t ← vformat show_ptr f args; Some (chars (pretty v) ++ t)
    | _ => None
    end
  | String "%" (String "p" f) =>
    match args with FPtr p :: args => t ← vformat show_ptr f args; Some (show_ptr p ++ t) | _ => None end
  | String "%" _ => None
  | String c f => t ← vformat show_ptr f args; Some (Z.of_nat (nat_of_ascii c) :: t)
  end.

(** [vsnprintf(buf, size, ...)] of a text: the bytes stored and the value, the
    length the whole text has, negative if an int cannot hold it. *)
Definition vsnprintf (size : nat) (txt : list Z) : list Z * Z :=
  (take (size - 1) txt ++ [0],
   let n := Z.of_nat (length txt) in if 2147483647 <? n then -1 else n).

(** The first [n] bytes of a buffer; [None] past those that were stored. *)
Definition stored (n : Z) (buf : list Z) : option (list Z) :=
  if n <=? Z.of_nat (length buf) then Some (take (Z.to_nat n) buf) else None.

(** ** Routines *)

Section diag.
Context {W : Type} `{!Dos W, !Debug W}.
Context (show_ptr : Z -> list Z).

Definition osal_trace (fmt : string) (args : list farg) (w : W) : option W :=
  txt ← vformat show_ptr fmt args;
  let '(buf, n) := vsnprintf 256 txt in
  if n <=? 0 then Some w else
  let n := if 256 <? n then 256 else n in
  let '(f, w) := OpenLog w in
  if negb (f =? 0) then
    let '(_, w) := ChangeFilePosition f 0 OFFSET_END w in
    b ← stored n buf;
    let '(_, w) := WriteFile f b w in
    Some (CloseFile f w)
  else Some w.

(** The arguments after [msg] are not read.  [None]: [__builtin_unreachable]. *)
Definition osal_panic (msg : list Z) (args : list farg) (w : W) : option W :=
  let w := DebugPrintF (chars "netstack PANIC: ") w in
  let w := DebugPrintF (msg ++ chars nl) w in
  match Wait 0 w with Returned _ => None | Blocked w => Some w end.

Definition osal_log (fmt : list Z) (args : list farg) (w : W) : W :=
  let w := DebugPrintF (chars "[netstack] ") w in
  DebugPrintF (fmt ++ chars nl) w.

Definition rumpuser_dprintf (fmt : list Z) (args : list farg) (w : W) : W :=
  DebugPrintF (chars ("[rump] (dprintf: fmt suppressed)" ++ nl)) w.

Definition rumpuser_exit (rv : Z) (w : W) : option W :=
  osal_panic (chars "rumpuser_exit(%d)") [FInt rv] w.

Definition rumpuser_putchar (c : Z) (w : W) : option (Z * W) :=
  t ← read_str [u8 c; 0];
  Some (0, DebugPrintF t w).

(** [rumpuser_getparam] with its trace; the answers are those of OsalDiag.v. *)
Definition traced_getparam (name : option string) (buf : option (list Z)) (buflen : Z) (w : W)
    : option (Z * option (list Z) * W) :=
  match name, buf with
  | Some nm, Some _ =>
    if buflen <? 2 then Some (EINVAL, buf, w) else
    w ← osal_trace ("[getparam] %s" ++ nl) [FStr (chars nm)] w;
    '(rc, b) ← rumpuser_getparam name buf buflen;
    Some (rc, b, w)
  | _, _ => Some (EINVAL, buf, w)
  end.

Definition rumpuser_init (version hyp : Z) (w : W) : option (Z * W) :=
  w ← osal_trace ("[rumpuser_init] version=%d hyp=%p" ++ nl) [FInt version; FPtr hyp] w;
  Some (0, w).

Definition rumpuser_dl_bootstrap (w : W) : option (Z * W) :=
  w ← osal_trace ("[rumpuser_dl_bootstrap]" ++ nl) [] w;
  Some (0, w).

(** No file system: what the pointers designate is left alone. *)
Definition rumpuser_open (n m fdp : Z) : Z := -1.
Definition rumpuser_close (fd : Z) : Z := -1.
Definition rumpuser_read (fd buf n off r : Z) : Z := -1.
Definition rumpuser_write (fd buf n off r : Z) : Z := -1.

Definition rumpuser_daemonize_begin : Z := 0.
Definition rumpuser_daemonize_done (error : Z) : Z := 0.
Definition rumpuser_kill (pid sig : Z) : Z := 0.
End diag.

(** ** Calls of the file, in sequence *)

Inductive io_call :=
  | IoOpen (n m fdp : Z)
  | IoClose (fd : Z)
  | IoRead (fd buf n off r : Z)
  | IoWrite (fd buf n off r : Z)
  | IoDaemonizeBegin
  | IoDaemonizeDone (error : Z)
  | IoKill (pid sig : Z).

Definition io_do (c : io_call) : Z :=
  match c with
  | IoOpen n m fdp => rumpuser_open n m fdp
  | IoClose fd => rumpuser_close fd
  | IoRead fd buf n off r => rumpuser_read fd buf n off r
  | IoWrite fd buf n off r => rumpuser_write fd buf n off r
  | IoDaemonizeBegin => rumpuser_daemonize_begin
  | IoDaemonizeDone e => rumpuser_daemonize_done e
  | IoKill pid sig => rumpuser_kill pid sig
  end.

Inductive diag_call :=
  | DTrace (fmt : string) (args : list farg)
  | DLog (fmt : list Z) (args : list farg)
  | DDprintf (fmt : list Z) (args : list farg)
  | DPutchar (c : Z)
  | DInit (version hyp : Z)
  | DBootstrap
  | DGetparam (name : option string) (buf : option (list Z)) (buflen : Z)
  | DPanic (msg : list Z) (args : list farg)
  | DExit (rv : Z)
  | DIo (c : io_call).

Inductive diag_res := DVoid | DInt (rc : Z) | DParam (rc : Z) (buf : option (list Z)).

Section calls.
Context {W : Type} `{!Dos W, !Debug W}.
Context (show_ptr : Z -> list Z).

(** The result and the world; no result while the task is blocked. *)
Definition diag_do (c : diag_call) (w : W) : option (option diag_res * W) :=
  let int r := '(rc, w) ← r; Some (Some (DInt rc), w) in
  match c with
  | DTrace fmt args => w ← osal_trace show_ptr fmt args w; Some (Some DVoid, w)
  | DLog fmt args => Some (Some DVoid, osal_log fmt args w)
  | DDprintf fmt args => Some (Some DVoid, rumpuser_dprintf fmt args w)
  | DPutchar c => int (rumpuser_putchar c w)
  | DInit v h => int (rumpuser_init show_ptr v h w)
  | DBootstrap => int (rumpuser_dl_bootstrap show_ptr w)
  | DGetparam nm buf n =>
    '(rc, buf, w) ← traced_getparam show_ptr nm buf n w; Some (Some (DParam rc buf), w)
  | DPanic msg args => w ← osal_panic msg args w; Some (None, w)
  | DExit rv => w ← rumpuser_exit rv w; Some (None, w)
  | DIo c => Some (Some (DInt (io_do c)), w)
  end.

(** The results of the calls that returned; a blocked task makes no other call. *)
Fixpoint diag_run (cs : list diag_call) (w : W) : option (list diag_res * W) :=
  match cs with
  | [] => Some ([], w)
  | c :: cs' =>
    '(r, w) ← diag_do c w;
    match r with
    | None => Some ([], w)
    | Some x => '(xs, w) ← diag_run cs' w; Some (x :: xs, w)
    end
  end.
End calls.

(** ** What they promise *)

(** A text as it arrives in the file. *)
Definition clip (t : list Z) : list Z :=
  if 2147483647 <? Z.of_nat (length t) then []
  else if (length t <? 256)%nat then t else take 255 t ++ [0].

Section spec.
Context (show_ptr : Z -> list Z).

(** The text a call traces. *)
Definition text_of (c : diag_call) : list Z :=
  match c with
  | DTrace fmt args => default [] (vformat show_ptr fmt args)
  | DInit v h => chars "[rumpuser_init] version=" ++ chars (pretty v) ++ chars " hyp=" ++
      show_ptr h ++ [10]
  | DBootstrap => chars "[rumpuser_dl_bootstrap]" ++ [10]
  | DGetparam (Some nm) (Some _) n =>
    if n <? 2 then [] else chars "[getparam] " ++ chars nm ++ [10]
  | _ => []
  end.

(** What a call prints: a format is not expanded. *)
Definition printed (c : diag_call) : list Z :=
  match c with
  | DLog fmt _ => chars "[netstack] " ++ fmt ++ [10]
  | DDprintf _ _ => chars "[rump] (dprintf: fmt suppressed)" ++ [10]
  | DPutchar c => if u8 c =? 0 then [] else [u8 c]
  | DPanic msg _ => chars "netstack PANIC: " ++ msg ++ [10]
  | DExit _ => chars "netstack PANIC: rumpuser_exit(%d)" ++ [10]
  | _ => []
  end.

Definition needs_files (c : io_call) : bool :=
  match c with IoOpen _ _ _ | IoClose _ | IoRead _ _ _ _ _ | IoWrite _ _ _ _ _ => true | _ => false end.

(** Its result, none when it does not return. *)
Definition result_of (c : diag_call) : option diag_res :=
  match c with
  | DTrace _ _ | DLog _ _ | DDprintf _ _ => Some DVoid
  | DPutchar _ | DInit _ _ | DBootstrap => Some (DInt 0)
  | DGetparam nm buf n =>
    '(rc, b) ← rumpuser_getparam nm buf n; Some (DParam rc b)
  | DPanic _ _ | DExit _ => None
  | DIo c => Some (DInt (if needs_files c then -1 else 0))
  end.

(** The calls made: up to the first that does not return. *)
Fixpoint made (cs : list diag_call) : list diag_call :=
  match cs with
  | [] => []
  | c :: cs' => c :: match result_of c with Some _ => made cs' | None => [] end
  end.

(** Arguments that match the format, a buffer of the size given. *)
Definition call_ok (c : diag_call) : Prop :=
  match c with
  | DTrace fmt args => is_Some (vformat show_ptr fmt args)
  | DGetparam _ buf n => (forall b, buf = Some b -> Z.of_nat (length b) = n) /\ n < 4294967296
  | _ => True
  end.
End spec.

(** A volume on which opening, seeking and writing succeed. *)
Definition volume_ok (W : Type) `{Dos W, DosViews W} : Prop :=
  (forall w : W, fst (OpenLog w) <> 0) /\
  (forall f p (w : W), handles w !! f = Some p -> fst (ChangeFilePosition f 0 OFFSET_END w) <> 0) /\
  (forall f p b (w : W), handles w !! f = Some p -> fst (WriteFile f b w) = Z.of_nat (length b)).

(** ** Lemmas *)

Lemma stored_clip t :
  let '(buf, n) := vsnprintf 256 t in
  if n <=? 0 then clip t = [] else stored (if 256 <? n then 256 else n) buf = Some (clip t).
Proof.
  unfold vsnprintf, clip, stored. set (L := Z.of_nat (length t)).
  destruct (Z.ltb_spec 2147483647 L) as [|HL]; [done|].
  assert (Hl : length (take 255 t ++ [0]) = S (Nat.min 255 (length t))).
  { rewrite length_app, length_take. cbn. lia. }
  change (256 - 1)%nat with 255%nat. destruct (Z.leb_spec L 0) as [Hz|Hz].
  { destruct t; [done|cbn in *; lia]. }
  rewrite Hl. destruct (Nat.ltb_spec (length t) 256) as [Hs|Hs].
  - destruct (Z.ltb_spec 256 L); [lia|]. rewrite (proj2 (Z.leb_le _ _)) by lia.
    rewrite (take_ge t 255), take_app_le, take_ge by lia. done.
  - replace (if 256 <? L then 256 else L) with 256 by (destruct (Z.ltb_spec 256 L); lia).
    rewrite (proj2 (Z.leb_le _ _)) by lia. by rewrite take_ge by (rewrite Hl; lia).
Qed.

Lemma splice_end b c : splice (length c) b c = c ++ b.
Proof. unfold splice. by rewrite take_ge, drop_ge, app_nil_r by lia. Qed.

Section run.
Context {W : Type} `{DebugLaws W, !DosLaws W}.
Context (show_ptr : Z -> list Z).

(** A trace gives its handle back and leaves the console alone, whatever the
    volume does; on a volume that works it appends the clipped text. *)
Lemma trace_run fmt args t w :
  vformat show_ptr fmt args = Some t ->
  exists w', osal_trace show_ptr fmt args w = Some w' /\ handles w' = handles w /\
    console w' = console w /\ (volume_ok W -> log_file w' = log_file w ++ clip t).
Proof.
  intros Ht. unfold osal_trace. rewrite Ht. cbn [mbind option_bind].
  pose proof (stored_clip t) as Hc. destruct (vsnprintf 256 t) as [buf n].
  destruct (n <=? 0); [exists w; by rewrite Hc, app_nil_r|].
  pose proof (open_console w) as Hco. destruct (OpenLog w) as [f w1] eqn:Ho.
  destruct (open_law _ _ _ Ho) as [Hl1 Hh1]. destruct (Z.eqb_spec f 0) as [Hf|Hf]; cbn [negb].
  { exists w1. split_and!; [done..|]. intros [Hv _]. specialize (Hv w). by rewrite Ho in Hv. }
  destruct Hh1 as [Hn Hh1]. pose proof (seek_console f 0 OFFSET_END w1) as Hcs.
  destruct (ChangeFilePosition f 0 OFFSET_END w1) as [r w2] eqn:Hs.
  assert (Hp1 : handles w1 !! f = Some 0%nat) by (rewrite Hh1; apply lookup_insert_eq).
  destruct (seek_law _ _ _ _ _ Hp1 Hs) as [Hl2 Hh2]. rewrite Hc. cbn [mbind option_bind].
  assert (exists p, handles w2 = <[f := p]> (handles w) /\
    (r <> 0 -> p = length (log_file w))) as (p & Hp2 & Hpe).
  { rewrite Hh2, Hh1, Hl1. destruct (Z.eqb_spec r 0); [by eexists|].
    rewrite insert_insert_eq. by eexists. }
  pose proof (write_console f (clip t) w2) as Hcw.
  destruct (WriteFile f (clip t) w2) as [r3 w3] eqn:Hw.
  assert (Hp2' : handles w2 !! f = Some p) by (rewrite Hp2; apply lookup_insert_eq).
  destruct (write_law _ _ _ _ _ _ Hp2' Hw) as (k & Hk & Hfull & Hl3 & Hh3).
  destruct (close_law f w3) as [Hl4 Hh4]. exists (CloseFile f w3). split; [done|]. split.
  { rewrite Hh4, Hh3, Hp2, insert_insert_eq. by apply delete_insert_id. }
  rewrite close_console. split; [cbn in *; congruence|]. intros (_ & Hvs & Hvw).
  specialize (Hvs f _ w1 Hp1). specialize (Hvw f p (clip t) w2 Hp2'). rewrite Hs in Hvs.
  rewrite Hw in Hvw. rewrite Hl4, Hl3, (Hfull Hvw), take_ge, Hl2, Hl1, (Hpe Hvs) by lia.
  apply splice_end.
Qed.

Lemma print_run t w : console (DebugPrintF t w) = console w ++ t /\
  log_file (DebugPrintF t w) = log_file w /\ handles (DebugPrintF t w) = handles w.
Proof. split; [apply print_law|apply print_files]. Qed.

(** Two prints in a row. *)
Lemma print_twice t t' w : let w' := DebugPrintF t' (DebugPrintF t w) in
  console w' = console w ++ t ++ t' /\ log_file w' = log_file w /\ handles w' = handles w.
Proof.
  cbv zeta. destruct (print_run t' (DebugPrintF t w)) as (-> & -> & ->).
  destruct (print_run t w) as (-> & -> & ->). by rewrite app_assoc.
Qed.

(** What a call leaves: its result, and what it added. *)
Definition leaves (c : diag_call) (w w' : W) : Prop :=
  handles w' = handles w /\ console w' = console w ++ printed c /\
  (volume_ok W -> log_file w' = log_file w ++ clip (text_of show_ptr c)).

Lemma leaves_traced c w w' :
  handles w' = handles w -> console w' = console w -> printed c = [] ->
  (volume_ok W -> log_file w' = log_file w ++ clip (text_of show_ptr c)) -> leaves c w w'.
Proof. intros ? ? Hp ?. unfold leaves. by rewrite Hp, app_nil_r. Qed.

Lemma leaves_printed c w w' :
  console w' = console w ++ printed c /\ log_file w' = log_file w /\ handles w' = handles w ->
  text_of show_ptr c = [] -> leaves c w w'.
Proof. intros (? & Hl & ?) Ht. unfold leaves. by rewrite Hl, Ht, app_nil_r. Qed.

Lemma panic_run c msg args w :
  printed c = chars "netstack PANIC: " ++ msg ++ [10] -> text_of show_ptr c = [] ->
  exists w', osal_panic msg args w = Some w' /\ leaves c w w'.
Proof.
  intros Hp Ht. unfold osal_panic. rewrite wait_none. eexists. split; [done|].
  apply leaves_printed; [|done]. rewrite Hp. apply print_twice.
Qed.

Lemma diag_do_run c w :
  call_ok show_ptr c ->
  exists w', diag_do show_ptr c w = Some (result_of c, w') /\ leaves c w w'.
Proof.
  intros Hok. destruct c as [fmt args|fmt args|fmt args|c|v h| |nm buf n|msg args|rv|c]; cbn [diag_do].
  - destruct Hok as [t Ht]. destruct (trace_run fmt args t w Ht) as (w' & -> & ? & ? & Hl).
    exists w'. split; [done|]. apply leaves_traced; try done. cbn. by rewrite Ht.
  - eexists. split; [done|]. apply leaves_printed; [apply print_twice|done].
  - eexists. split; [done|]. apply leaves_printed; [apply print_run|done].
  - unfold rumpuser_putchar. cbn [read_str]. set (t := if u8 c =? 0 then [] else [u8 c]).
    exists (DebugPrintF t w). split; [by destruct (u8 c =? 0)|].
    apply leaves_printed; [apply print_run|done].
  - unfold rumpuser_init. destruct (trace_run ("[rumpuser_init] version=%d hyp=%p" ++ nl)
      [FInt v; FPtr h] (text_of show_ptr (DInit v h)) w) as (w' & -> & ? & ? & Hl); [done|].
    exists w'. split; [done|]. by apply leaves_traced.
  - unfold rumpuser_dl_bootstrap. destruct (trace_run ("[rumpuser_dl_bootstrap]" ++ nl) []
      (text_of show_ptr DBootstrap) w) as (w' & -> & ? & ? & Hl); [done|].
    exists w'. split; [done|]. by apply leaves_traced.
  - unfold traced_getparam. destruct nm as [nm|], buf as [b|];
      try (exists w; split; [done|]; by apply leaves_traced; rewrite ?app_nil_r).
    destruct Hok as [Hb Hn]. cbn [result_of].
    pose proof (getparam_run (Some nm) (Some b) n Hb Hn) as Hg. cbn beta iota in Hg.
    destruct (Z.ltb_spec n 2) as [Hlt|Hge].
    { rewrite Hg. exists w. split; [done|]. apply leaves_traced; try done. cbn [text_of].
      rewrite (proj2 (Z.ltb_lt _ _) Hlt). by rewrite app_nil_r. }
    destruct (trace_run ("[getparam] %s" ++ nl) [FStr (chars nm)]
      (text_of show_ptr (DGetparam (Some nm) (Some b) n)) w) as (w' & -> & ? & ? & Hl).
    { cbn [text_of]. by rewrite (proj2 (Z.ltb_ge _ _) Hge). }
    cbn [mbind option_bind]. exists w'. split; [|by apply leaves_traced].
    destruct (params !! nm); [destruct Hg as [-> _]|rewrite Hg]; done.
  - destruct (panic_run (DPanic msg args) msg args w) as (w' & -> & Hl); [done..|]. by exists w'.
  - unfold rumpuser_exit. destruct (panic_run (DExit rv) (chars "rumpuser_exit(%d)") [FInt rv] w)
      as (w' & -> & Hl); [done..|]. by exists w'.
  - exists w. split; [by destruct c|]. by apply leaves_traced; rewrite ?app_nil_r.
Qed.

(** C38. What the diagnostics leave behind.  Every sequence of calls whose arguments
    match their formats runs until the first panic or exit, which never returns:
    the calls before it have their results (file access is refused); no call leaks a file handle, whatever
    the volume does; on a volume that works each trace is appended to the file, a
    text of 256 characters or more as its first 255 and a NUL; and the console
    gets, call by call, the texts of log, dprintf, putchar and panic with their
    formats unexpanded. *)
Theorem diag_calls (cs : list diag_call) (w : W) :
  Forall (call_ok show_ptr) cs ->
  exists w', diag_run show_ptr cs w = Some (omap result_of (made cs), w') /\
    handles w' = handles w /\
    console w' = console w ++ concat (printed <$> made cs) /\
    (volume_ok W ->
       log_file w' = log_file w ++ concat ((fun c => clip (text_of show_ptr c)) <$> made cs)).
Proof.
  intros Hok. revert w. induction Hok as [|c cs Hc _ IH]; intros w.
  { exists w. cbn. by rewrite !app_nil_r. }
  destruct (diag_do_run c w Hc) as (w1 & Hd & Hh & Hco & Hl). cbn [diag_run made].
  rewrite Hd. cbn [mbind option_bind]. destruct (result_of c) as [x|] eqn:Hx.
  - destruct (IH w1) as (w' & -> & Hh' & Hco' & Hl'). exists w'.
    cbn [mbind option_bind omap list_omap fmap list_fmap concat]. rewrite Hx. split; [done|].
    split; [congruence|]. split; [by rewrite Hco', Hco, <- app_assoc|].
    intros Hv. by rewrite (Hl' Hv), (Hl Hv), <- app_assoc.
  - exists w1. cbn [omap list_omap fmap list_fmap concat]. rewrite Hx, !app_nil_r. done.
Qed.
End run.

(** ** A volume *)

Record disk := mk_disk { dk_log : list Z; dk_handles : gmap Z nat; dk_console : list Z }.

#[global] Instance disk_views : DosViews disk := {| log_file := dk_log; handles := dk_handles |}.
#[global] Instance disk_console : DebugViews disk := {| console := dk_console |}.

#[global] Instance disk_dos : Dos disk := {|
  OpenLog w := let f := fresh (0 :: (map_to_list (dk_handles w)).*1) in
    (f, mk_disk (dk_log w) (<[f := 0%nat]> (dk_handles w)) (dk_console w));
  ChangeFilePosition f _ _ w := match dk_handles w !! f with
    | Some _ => (1, mk_disk (dk_log w) (<[f := length (dk_log w)]> (dk_handles w)) (dk_console w))
    | None => (0, w)
    end;
  WriteFile f b w := match dk_handles w !! f with
    | Some p => (Z.of_nat (length b), mk_disk (splice p b (dk_log w))
        (<[f := (p + length b)%nat]> (dk_handles w)) (dk_console w))
    | None => (-1, w)
    end;
  CloseFile f w := mk_disk (dk_log w) (delete f (dk_handles w)) (dk_console w)
|}.

#[global] Instance disk_debug : Debug disk := {|
  DebugPrintF t w := mk_disk (dk_log w) (dk_handles w) (dk_console w ++ t);
  Wait m w := if m =? 0 then Blocked w else Returned w
|}.

Lemma disk_open_fresh w : let f := fst (OpenLog w) in f <> 0 /\ dk_handles w !! f = None.
Proof.
  cbn. pose proof (infinite_is_fresh (0 :: (map_to_list (dk_handles w)).*1)) as Hf.
  apply not_elem_of_cons in Hf as [? Hf]. split; [done|].
  destruct (dk_handles w !! _) eqn:Hl; [|done]. destruct Hf. apply elem_of_map_to_list in Hl.
  apply list_elem_of_fmap. by eexists (_, _).
Qed.

#[global] Instance disk_dos_laws : DosLaws disk.
Proof.
  split.
  - intros w f w' Ho. destruct (disk_open_fresh w) as [Hz Hn]. rewrite Ho in Hz, Hn. cbn in Hz, Hn.
    rewrite (proj2 (Z.eqb_neq _ _) Hz). injection Ho as <- <-. done.
  - intros f p w r w' Hp. cbn in *. rewrite Hp. by intros [= <- <-].
  - intros f p b w r w' Hp. cbn in *. rewrite Hp. intros [= <- <-].
    exists (length b). by rewrite take_ge by lia.
  - done.
Qed.

#[global] Instance disk_debug_laws : DebugLaws disk.
Proof. split; try done; intros; cbn; by case_match. Qed.

Lemma disk_volume_ok : volume_ok disk.
Proof.
  split_and!.
  - intros w. apply (disk_open_fresh w).
  - intros f p w Hp. cbn in *. by rewrite Hp.
  - intros f p b w Hp. cbn in *. by rewrite Hp.
Qed.

Definition disk0 : disk := mk_disk (chars "old") ∅ [].

(** A short trace, one of 300 characters, a panic, and a call never made. *)
Lemma diag_calls_witness :
  exists w', diag_run (fun p => chars "0x" ++ chars (pretty p))
    [DTrace ("n=%d" ++ nl) [FInt (-5)]; DTrace "%s" [FStr (replicate 300 65)];
     DPutchar 66; DExit 3; DLog (chars "gone") []] disk0 =
    Some ([DVoid; DVoid; DInt 0], w') /\
  log_file w' = chars "oldn=-5" ++ 10 :: replicate 255 65 ++ [0] /\
  console w' = chars "Bnetstack PANIC: rumpuser_exit(%d)" ++ [10].
Proof.
  destruct (diag_calls (fun p => chars "0x" ++ chars (pretty p))
    [DTrace ("n=%d" ++ nl) [FInt (-5)]; DTrace "%s" [FStr (replicate 300 65)];
     DPutchar 66; DExit 3; DLog (chars "gone") []] disk0) as (w' & Hr & _ & Hc & Hl).
  - repeat constructor; eexists; reflexivity.
  - exists w'. split; [exact Hr|]. split; [exact (Hl disk_volume_ok)|exact Hc].
Defined.

(** ** Two tasks that trace at the same time

    Both open the file, both go to its end, both write: the handles have
    positions of their own, and the second text lands on the first. *)
Definition trace_overlap {W} `{Dos W} (b1 b2 : list Z) (w : W) : W :=
  let '(f1, w) := OpenLog w in
  let '(f2, w) := OpenLog w in
  let '(_, w) := ChangeFilePosition f1 0 OFFSET_END w in
  let '(_, w) := ChangeFilePosition f2 0 OFFSET_END w in
  let '(_, w) := WriteFile f1 b1 w in
  let '(_, w) := WriteFile f2 b2 w in
  CloseFile f2 (CloseFile f1 w).

Lemma trace_text_lost :
  log_file (trace_overlap (chars "first") (chars "second") disk0) = chars "oldsecond".
Proof. vm_compute. reflexivity. Qed.
