(* ===== verification/BsdTables.v ===== *)
(** * What exec reads of the library (src/phase3_bsdsocket/bsdsocket_library.c)

    The resident tag, the init tags, the list of interfaces and their vector
    tables are constant data.  exec follows them from the resident tag: it copies
    the vectors up to the end mark and finds an interface by the name in its tags.
    The lemmas say what a caller can reach that way. *)

From S2P Require Import Prelude.
From S2P Require Import Bsdsocket.
From S2P Require Import OsalDiag.
From S2P Require Import OsalTrace.

(** The functions of the file, as addresses. *)
Inductive bsd_fn :=
  | F_default_Obtain | F_default_Release
  | F_mgr_Open | F_mgr_Close | F_mgr_Expunge | F_bsd_Init
  | F_bs_socket | F_bs_bind | F_bs_connect | F_bs_listen
  | F_bs_accept | F_bs_send | F_bs_recv | F_bs_CloseSocket.

#[global] Instance bsd_fn_eq_dec : EqDecision bsd_fn.
Proof. solve_decision. Defined.

(** An entry of a vector table: a function, a null pointer, [(APTR)-1]. *)
Inductive vector := VFn (f : bsd_fn) | VNull | VEnd.

Definition _mgr_vectors : list vector :=
  [VFn F_default_Obtain; VFn F_default_Release; VNull; VNull;
   VFn F_mgr_Open; VFn F_mgr_Close; VFn F_mgr_Expunge; VNull; VEnd].

Definition _main_vectors : list vector :=
  [VFn F_default_Obtain; VFn F_default_Release; VNull; VNull;
   VFn F_bs_socket; VFn F_bs_bind; VFn F_bs_connect; VFn F_bs_listen;
   VFn F_bs_accept; VFn F_bs_send; VFn F_bs_recv; VFn F_bs_CloseSocket; VEnd].

(** Tags of an interface; [TAG_END] ends the list. *)
Inductive mit_tag :=
  | MIT_Name (n : string)
  | MIT_VectorTable (t : list vector)
  | MIT_DataSize (n : Z)
  | MIT_Version (n : Z).

Definition _mgr_tags : list mit_tag :=
  [MIT_Name "__library"; MIT_VectorTable _mgr_vectors; MIT_Version 1].

Definition _main_tags : list mit_tag :=
  [MIT_Name "main"; MIT_VectorTable _main_vectors; MIT_DataSize 0; MIT_Version 1].

(** [_main_tags] is commented out; the null pointer ends the list. *)
Definition bsd_interfaces : list (list mit_tag) := [_mgr_tags].

Inductive clt_tag :=
  | CLT_DataSize (n : Z)
  | CLT_Interfaces (l : list (list mit_tag))
  | CLT_InitFunc (f : bsd_fn).

(** [sizeof(struct BsdsocketBase)] comes from the compiler. *)
Definition bsd_init_tags (sizeof_base : Z) : list clt_tag :=
  [CLT_DataSize sizeof_base; CLT_Interfaces bsd_interfaces; CLT_InitFunc F_bsd_Init].

(** [struct Resident] without its match word and addresses. *)
Record Resident := mk_Resident {
  rt_Flags : Z;
  rt_Version : Z;
  rt_Type : Z;
  rt_Pri : Z;
  rt_Name : string;
  rt_IdString : string;
  rt_Init : list clt_tag
}.

(** Values of exec/resident.h. *)
Definition RTF_NATIVE : Z := 32.
Definition RTF_AUTOINIT : Z := 128.

Definition bsd_res (sizeof_base : Z) : Resident :=
  mk_Resident (Z.lor RTF_NATIVE RTF_AUTOINIT) BSDLIBVER NT_LIBRARY 0 BSDLIBNAME BSDLIBVERSTR
    (bsd_init_tags sizeof_base).

(** Run as a program: it prints a line and answers 20. *)
Definition _start {W} `{Debug W} (w : W) : Z * W :=
  (20, DebugPrintF (chars (BSDLIBNAME ++ " is a library — install to LIBS: and OpenLibrary()" ++ nl)) w).

(** ** What exec makes of it *)

(** The vectors before the end mark; [None] when there is none. *)
Fixpoint methods (t : list vector) : option (list (option bsd_fn)) :=
  match t with
  | [] => None
  | VEnd :: _ => Some []
  | VFn f :: t' => l ← methods t'; Some (Some f :: l)
  | VNull :: t' => l ← methods t'; Some (None :: l)
  end.

Fixpoint mit_name (l : list mit_tag) : option string :=
  match l with [] => None | MIT_Name n :: _ => Some n | _ :: l' => mit_name l' end.

Fixpoint mit_vectors (l : list mit_tag) : option (list vector) :=
  match l with [] => None | MIT_VectorTable t :: _ => Some t | _ :: l' => mit_vectors l' end.

Fixpoint clt_interfaces (l : list clt_tag) : list (list mit_tag) :=
  match l with [] => [] | CLT_Interfaces ifs :: _ => ifs | _ :: l' => clt_interfaces l' end.

(** The vectors that [GetInterface(lib, name, ...)] finds in a list of interfaces. *)
Fixpoint interface (name : string) (ifs : list (list mit_tag)) : option (list (option bsd_fn)) :=
  match ifs with
  | [] => None
  | i :: ifs' =>
    if bool_decide (mit_name i = Some name) then t ← mit_vectors i; methods t
    else interface name ifs'
  end.

Definition published (r : Resident) (name : string) : option (list (option bsd_fn)) :=
  interface name (clt_interfaces (rt_Init r)).

(** The functions a caller can reach through some interface. *)
Definition reachable (r : Resident) (f : bsd_fn) : Prop :=
  exists name l, published r name = Some l /\ Some f ∈ l.

(** The resident tag promises exec what [_bsd_Init] then writes into the base, and
    only the manager interface is published: the functions that can be called are
    Obtain, Release and the three entries of the manager, and no BSD call. *)
Lemma library_published n l sl exec b :
  (exists x, base (_bsd_Init l sl exec b) = Some x /\
    lib_ln_Type (lib x) = rt_Type (bsd_res n) /\ lib_ln_Pri (lib x) = rt_Pri (bsd_res n) /\
    lib_ln_Name (lib x) = rt_Name (bsd_res n) /\ lib_Version (lib x) = rt_Version (bsd_res n) /\
    lib_IdString (lib x) = rt_IdString (bsd_res n)) /\
  published (bsd_res n) "main" = None /\
  forall f, reachable (bsd_res n) f <->
    f ∈ [F_default_Obtain; F_default_Release; F_mgr_Open; F_mgr_Close; F_mgr_Expunge].
Proof.
  split; [by eexists|]. split; [done|]. intros f. split.
  - intros (name & t & Hp & Hf). unfold published in Hp. cbn in Hp. case_bool_decide; [|done].
    injection Hp as <-. set_solver.
  - intros Hf. exists "__library"%string. eexists. split; [reflexivity|]. set_solver.
Qed.

(** With [_main_tags] in the list the socket calls would be at the positions the
    test program expects them in. *)
Lemma main_layout :
  interface "main" [_mgr_tags; _main_tags] =
  Some ([Some F_default_Obtain; Some F_default_Release; None; None] ++
    (Some <$> [F_bs_socket; F_bs_bind; F_bs_connect; F_bs_listen;
               F_bs_accept; F_bs_send; F_bs_recv; F_bs_CloseSocket])).
Proof. reflexivity. Qed.
