(* ===== verification/KernStubs.v ===== *)
(** * Symbols the rump kernel links against (src/phase1_osal/rump_link_stubs.c,
      src/phase1_osal/rump_kern_globals.c)

    The constants, the memory barriers and the stubs.  A stub does nothing and
    answers a constant; those of one section of the file are one type, whose
    function gives the answer.  Three of them store through a pointer and one
    panics.  The routines with a body of their own are in Bits.v. *)

From S2P Require Import Prelude.
From S2P Require Import RingWeak.
From S2P Require Import OsalDiag.
From S2P Require Import OsalTrace.

(** ** Constants *)

Definition coherency_unit : Z := 32.
Definition maxcpus : Z := 1.
Definition maxfiles : Z := 1024.
Definition maxlwp : Z := 512.
Definition maxproc : Z := 256.
Definition tick : Z := 10000.
Definition tickadj : Z := 40.
Definition time_adjtime : Z := 0.
Definition hz : Z := 100.

Definition uvmexp_pagemask : Z := 4095.
Definition uvmexp_pageshift : Z := 12.
Definition uvmexp_pagesize : Z := 4096.

(** The values fit together: a page is a power of two and its mask, a second is
    [hz] ticks. *)
Lemma kern_geometry :
  uvmexp_pagesize = 2 ^ uvmexp_pageshift /\ uvmexp_pagemask = uvmexp_pagesize - 1 /\
  hz * tick = 1000000 /\ (exists k, coherency_unit = 2 ^ k).
Proof. split_and!; [done..|by exists 5]. Qed.

(** ** Memory barriers *)

Inductive access := Load | Store.
Inductive barrier := lwsync | sync.

(** An access before the instruction and one after it: [lwsync] lets a load pass
    an earlier store. *)
Definition orders (b : barrier) (before after : access) : bool :=
  match b, before, after with lwsync, Store, Load => false | _, _, _ => true end.

Definition membar_acquire : barrier := lwsync.
Definition membar_release : barrier := lwsync.
Definition membar_consumer : barrier := lwsync.
Definition membar_enter : barrier := sync.
Definition membar_producer : barrier := lwsync.
Definition membar_sync : barrier := sync.
Definition membar_exit : barrier := sync.

(** What NetBSD's membar_ops(3) asks of each. *)
Definition membar_ops : list (barrier * list (access * access)) :=
  [(membar_acquire, [(Load, Load); (Load, Store)]);
   (membar_release, [(Load, Store); (Store, Store)]);
   (membar_consumer, [(Load, Load)]);
   (membar_producer, [(Store, Store)]);
   (membar_enter, [(Store, Load); (Store, Store)]);
   (membar_exit, [(Load, Store); (Store, Store)]);
   (membar_sync, [(Load, Load); (Load, Store); (Store, Load); (Store, Store)])].

Lemma membars_sufficient b reqs x y :
  (b, reqs) ∈ membar_ops -> (x, y) ∈ reqs -> orders b x y = true.
Proof.
  intros Hb Hx. unfold membar_ops in Hb. repeat setoid_rewrite elem_of_cons in Hb.
  destruct_or!; simplify_eq; try (by apply elem_of_nil in Hb);
    repeat setoid_rewrite elem_of_cons in Hx; destruct_or!; simplify_eq; try done;
    by apply elem_of_nil in Hx.
Qed.

(** The barriers of the descriptor ring that an instruction at each of its three
    places gives. *)
Definition ring_fences (release acquire before_tail : option barrier) : fences :=
  let orders_at b x y := match b with Some b => orders b x y | None => false end in
  mk_fences (orders_at release Store Store) (orders_at acquire Load Load)
    (orders_at before_tail Load Store).

(** The barriers of this file would do for the ring. *)
Lemma ring_membars :
  ring_fences (Some membar_release) (Some membar_acquire) (Some membar_release) = all_fences /\
  ring_fences None None None = as_written.
Proof. done. Qed.

(** ** Stubs *)

Inductive ret := RVoid | RVal (v : Z).

Inductive error_stub :=
  nullop | enxio | enodev | eopnotsupp | einval | enosys | sys_nosys | spldebug_stop.

Definition error_ret (s : error_stub) : ret :=
  match s with
  | nullop => RVal 0
  | enxio => RVal 6
  | enodev => RVal 19
  | eopnotsupp => RVal 45
  | einval => RVal 22
  | enosys => RVal 38
  | sys_nosys => RVal 38
  | spldebug_stop => RVoid
  end.

Inductive sleepq_stub :=
  sleepq_init | sleepq_enqueue | sleepq_block | sleepq_changepri | sleepq_lendpri |
  sleepq_unsleep | sleepq_wake.

Definition sleepq_ret (s : sleepq_stub) : ret :=
  match s with sleepq_block => RVal 0 | _ => RVoid end.

(** A null pointer is 0. *)
Inductive uvm_stub :=
  uvm_init | uvm_init_limits | uvm_availmem | uvm_default_mapaddr | uvm_km_alloc | uvm_km_free |
  uvm_km_kmem_alloc | uvm_km_kmem_free | uvm_km_protect | uvm_pageout | uvm_wait |
  uvm_kick_pdaemon | uvm_map_protect | uvm_loanbreak | uvm_pagealloc_strat | uvm_pagedeactivate |
  uvm_pagefree | uvm_pagelookup | uvm_pagewire | uvm_pageunwire | uvm_pagewait | uvm_page_unbusy |
  uvm_pagelock | uvm_pageunlock | uvmspace_addref | uvmspace_free | uvmspace_init |
  ubc_purge | ubc_uiomove | pmap_clear_modify | pmap_page_protect | pmap_resident_count.

Definition uvm_ret (s : uvm_stub) : ret :=
  match s with
  | uvm_availmem => RVal 65536
  | uvm_default_mapaddr | uvm_km_alloc | uvm_km_kmem_alloc | uvm_km_protect | uvm_wait
  | uvm_map_protect | uvm_loanbreak | uvm_pagealloc_strat | uvm_pagelookup
  | ubc_uiomove | pmap_clear_modify | pmap_resident_count => RVal 0
  | _ => RVoid
  end.

Inductive prop_stub :=
  prop_dictionary_get_keysym | prop_dictionary_iterator | prop_dictionary_keysym_value |
  prop_dictionary_set | prop_kern_init | prop_object_iterator_next | prop_object_iterator_release |
  prop_object_release.

Definition prop_ret (s : prop_stub) : ret :=
  match s with
  | prop_dictionary_get_keysym | prop_dictionary_iterator | prop_dictionary_keysym_value
  | prop_object_iterator_next => RVal 0
  | prop_dictionary_set => RVal 1
  | _ => RVoid
  end.

(** The digest and the buffer of [entpool_extract] are left as they are. *)
Inductive entropy_stub :=
  SHA1Init | SHA1Update | SHA1Final | SHA256_Init | SHA256_Update | SHA256_Final |
  entpool_enter | entpool_enter_nostir | entpool_extract | entpool_selftest | entpool_stir.

Definition entropy_ret (s : entropy_stub) : ret :=
  match s with
  | entpool_enter | entpool_enter_nostir | entpool_extract | entpool_selftest => RVal 0
  | _ => RVoid
  end.

Inductive machine_stub :=
  cpu_clkf_intr | cpu_clkf_pc | cpu_clkf_usermode | cpu_lwp_pc | device_lookup |
  device_lookup_acquire | device_release | config_detach_commit | config_init | ntp_init |
  ntp_update_second | splraise | splx | kern_assert.

Definition machine_ret (s : machine_stub) : ret :=
  match s with
  | cpu_clkf_intr | cpu_clkf_pc | cpu_clkf_usermode | cpu_lwp_pc | device_lookup
  | device_lookup_acquire | splraise | kern_assert => RVal 0
  | _ => RVoid
  end.

Inductive object_stub := kheapsort | sysctl_basenode_init | lwp_unlock_to | kobj_machdep | kobj_reloc.

Definition object_ret (s : object_stub) : ret :=
  match s with sysctl_basenode_init | kobj_machdep | kobj_reloc => RVal 0 | _ => RVoid end.

Inductive rump_stub := rump_nativeabi_p | rump_cpu_attach | rump_cpu_makeclockframe.

Definition rump_ret (s : rump_stub) : ret :=
  match s with rump_nativeabi_p => RVal 0 | _ => RVoid end.

Inductive vop_stub := VOP_ADVLOCK | VOP_GETATTR | VOP_PUTPAGES | VOP_UNLOCK.

Definition vop_ret (s : vop_stub) : ret := RVal 0.

(** The answer, and what the pointer designates afterwards, [None] when null. *)
Definition prop_dictionary_get_bool (v : option Z) : Z * option Z := (0, (fun _ => 0) <$> v).
Definition syncobj_noowner (lp : option Z) : option Z := (fun _ => 0) <$> lp.
Definition VOP_PATHCONF (retval : option Z) : Z * option Z := (0, (fun _ => 0) <$> retval).

Definition lockdebug_abort {W} `{Debug W} (w : W) : option W :=
  osal_panic (chars "lockdebug_abort: unreachable (LOCKDEBUG disabled)") [] w.

(** ** What they amount to *)

(** The kernel gets no memory and no page from the stubs, yet is told that 65536
    pages are free, eight times what RUMP_MEMLIMIT grants. *)
Lemma no_memory :
  Forall (fun s => uvm_ret s = RVal 0)
    [uvm_km_alloc; uvm_km_kmem_alloc; uvm_pagealloc_strat; uvm_pagelookup] /\
  uvm_ret uvm_availmem = RVal 65536 /\ 65536 * uvmexp_pagesize = 8 * 33554432.
Proof. by repeat constructor. Qed.

(** The abort never returns. *)
Lemma lockdebug_abort_blocks {W} `{DebugLaws W} (w : W) :
  exists w', lockdebug_abort w = Some w' /\ console w' =
    console w ++ chars "netstack PANIC: lockdebug_abort: unreachable (LOCKDEBUG disabled)" ++ [10].
Proof.
  unfold lockdebug_abort, osal_panic. rewrite wait_none. eexists. split; [done|].
  rewrite !print_law, <- app_assoc. done.
Qed.
