(* ===== verification/OsalLock.v ===== *)
(** * Mutexes and read-write locks (src/phase1_osal/osal_lock.c)

    Both are one exec semaphore.  A semaphore is in the class [Sems] by its
    calls, each made by a task, and in the view [sem] by who holds it and how
    often; the laws are the documented behaviour of the calls.  The rump kernel's
    hypercalls are above them. *)

From S2P Require Import Prelude Ipc Tasks OsalMemory.

(** ** Semaphores *)

(** [Excl t n]: held by task [t], which obtained it [n + 1] times.
    [Shared l]: held by the tasks of [l] in shared mode, once per entry. *)
Inductive sem := Free | Excl (t : Z) (n : nat) | Shared (l : list Z).

(** What a task that is not blocked makes of a semaphore. *)
Definition sem_obtain (t : Z) (s : sem) : option sem :=
  match s with
  | Free => Some (Excl t 0)
  | Excl u n => if decide (u = t) then Some (Excl t (S n)) else None
  | Shared _ => None
  end.

Definition sem_share (t : Z) (s : sem) : option sem :=
  match s with
  | Free => Some (Shared [t])
  | Excl u n => if decide (u = t) then Some (Excl t (S n)) else None
  | Shared l => Some (Shared (t :: l))
  end.

(** [None]: the task does not hold it. *)
Definition sem_release (t : Z) (s : sem) : option sem :=
  match s with
  | Free => None
  | Excl u n =>
    if decide (u = t) then Some (match n with O => Free | S n' => Excl t n' end) else None
  | Shared l =>
    '(i, _) ← list_find (fun x => x = t) l;
    Some (match delete i l with [] => Free | l' => Shared l' end)
  end.

Class Sems (W : Type) := {
  InitSemaphore : Z -> W -> W;
  (** by a task; [None] while the task is blocked *)
  ObtainSemaphore : Z -> Z -> W -> option W;
  ObtainSemaphoreShared : Z -> Z -> W -> option W;
  (** never blocks; a BOOL *)
  AttemptSemaphore : Z -> Z -> W -> Z * W;
  ReleaseSemaphore : Z -> Z -> W -> W;
  (** [SetSignal(new, mask)] by a task: its signals before *)
  SetSignal : Z -> Z -> Z -> W -> Z * W
}.

Class SemView (W : Type) := { sems : W -> Z -> sem }.

Class SemLaws (W : Type) `{Tasks W, TaskView W, Sems W, SemView W} := {
  sem_init_law : forall s w,
    sems (InitSemaphore s w) = <[s := Free]> (sems w) /\ view (InitSemaphore s w) = view w;
  sem_obtain_law : forall t s w w', ObtainSemaphore t s w = Some w' ->
    exists st, sem_obtain t (sems w s) = Some st /\ sems w' = <[s := st]> (sems w) /\
      view w' = view w;
  sem_share_law : forall t s w w', ObtainSemaphoreShared t s w = Some w' ->
    exists st, sem_share t (sems w s) = Some st /\ sems w' = <[s := st]> (sems w) /\
      view w' = view w;
  sem_attempt_law : forall t s w, let '(r, w') := AttemptSemaphore t s w in
    view w' = view w /\
    ((r = 0 /\ sems w' = sems w) \/
     (r <> 0 /\ exists st, sem_obtain t (sems w s) = Some st /\ sems w' = <[s := st]> (sems w)));
  sem_release_law : forall t s w st, sem_release t (sems w s) = Some st ->
    sems (ReleaseSemaphore t s w) = <[s := st]> (sems w) /\ view (ReleaseSemaphore t s w) = view w;
  set_signal_law : forall t new mask w, let '(old, w') := SetSignal t new mask w in
    old = k_sig (view w) t /\ sems w' = sems w /\
    view w' = kv_sig t (Z.lor (Z.ldiff old mask) (Z.land new mask)) (view w);
  signal_sems : forall t m w, sems (Signal t m w) = sems w;
  wait_sems : forall t m w got w', Wait t m w = Some (got, w') -> sems w' = sems w
}.

(** A task blocks only on a semaphore that it cannot have. *)
Class SemLive (W : Type) `{Sems W, SemView W} := {
  sem_obtain_goes : forall t s w, ObtainSemaphore t s w = None -> sem_obtain t (sems w s) = None
}.

(** The calls on signals, ports and tasks that change no semaphore. *)
Inductive port_call {W} `{Tasks W} : (W -> W) -> Prop :=
  | pc_alloc_signal t : port_call (fun w => snd (AllocSignal t w))
  | pc_free_signal t b : port_call (FreeSignal t b)
  | pc_alloc_port t pub : port_call (fun w => snd (AllocSysPort t pub w))
  | pc_free_port p : port_call (FreeSysPort p)
  | pc_put p x : port_call (PutMsg p x)
  | pc_get p : port_call (fun w => snd (GetMsg p w))
  | pc_reply x : port_call (ReplyMsg x)
  | pc_create pri : port_call (fun w => snd (CreateTask pri w))
  | pc_exit t : port_call (ExitTask t).

Class SemFrame (W : Type) `{Tasks W, Sems W, SemView W} := {
  port_sems : forall f w, port_call f -> sems (f w) = sems w;
  wait_port_sems : forall p w w', WaitPort p w = Some w' -> sems w' = sems w
}.

(** A vector is not a semaphore, and a semaphore call no allocation. *)
Class SemVec (W : Type) `{Vec W, Sems W, SemView W} := {
  init_vectors : forall s w, vectors (InitSemaphore s w) = vectors w;
  alloc_sems : forall size tags w, sems (snd (AllocVecTags size tags w)) = sems w
}.

(** ** The locks *)

Section locks.
Context {W : Type} `{!Sems W, !Vec W}.
(** sizeof(struct SignalSemaphore) *)
Context (sizeof_sem : Z).
Implicit Types (w : W) (me m rw : Z).

Definition osal_mutex_new w : Z * W :=
  let '(m, w) := osal_malloc sizeof_sem 16 w in
  if negb (m =? 0) then (m, InitSemaphore m w) else (m, w).

Definition osal_mutex_free m w : W := osal_free m w.
Definition osal_mutex_lock me m w : option W := ObtainSemaphore me m w.
Definition osal_mutex_trylock me m w : Z * W := AttemptSemaphore me m w.
Definition osal_mutex_unlock me m w : W := ReleaseSemaphore me m w.

Definition osal_rwlock_new w : Z * W :=
  let '(rw, w) := osal_malloc sizeof_sem 16 w in
  if negb (rw =? 0) then (rw, InitSemaphore rw w) else (rw, w).

Definition osal_rwlock_free rw w : W := osal_free rw w.
Definition osal_rwlock_rlock me rw w : option W := ObtainSemaphoreShared me rw w.
Definition osal_rwlock_wlock me rw w : option W := ObtainSemaphore me rw w.
Definition osal_rwlock_unlock me rw w : W := ReleaseSemaphore me rw w.

Definition osal_cv_free (cv : Z) w : W := if cv =? 0 then w else osal_free cv w.

(** *** Hypercalls of the rump kernel

    What is stored through a pointer argument is part of the result. *)

Definition rumpuser_mutex_init (flags : Z) w : Z * W := osal_mutex_new w.
Definition rumpuser_mutex_enter me m w : option W := osal_mutex_lock me m w.
Definition rumpuser_mutex_enter_nowrap me m w : option W := osal_mutex_lock me m w.
Definition rumpuser_mutex_tryenter me m w : Z * W := osal_mutex_trylock me m w.
Definition rumpuser_mutex_exit me m w : W := osal_mutex_unlock me m w.
Definition rumpuser_mutex_destroy m w : W := osal_mutex_free m w.
Definition rumpuser_mutex_owner m w : Z := 0.

Definition rumpuser_rw_init w : Z * W := osal_rwlock_new w.
Definition rumpuser_rw_enter me (type : Z) rw w : option W := osal_rwlock_wlock me rw w.
Definition rumpuser_rw_tryenter me (type rw : Z) w : Z * W := (0, w).
Definition rumpuser_rw_tryupgrade me rw w : Z * W := (0, w).
Definition rumpuser_rw_downgrade me rw w : W := w.
Definition rumpuser_rw_exit me rw w : W := osal_rwlock_unlock me rw w.
Definition rumpuser_rw_destroy rw w : W := osal_rwlock_free rw w.
Definition rumpuser_rw_held me (type rw : Z) w : Z := 0.

Definition rumpuser_cv_destroy (cv : Z) w : W := osal_cv_free cv w.

(** Of osal_diag.c. *)
Definition rumpuser_mutex_spin_p (mtx : Z) : Z := 0.
End locks.

(** ** Exclusive semaphores *)

Definition exclusive (s : sem) : Prop := match s with Shared _ => False | _ => True end.

(** How often a task holds it. *)
Definition nest (s : sem) (t : Z) : nat :=
  match s with Excl u n => if decide (u = t) then S n else O | _ => O end.

Lemma nest_one s t u : (0 < nest s t)%nat -> (0 < nest s u)%nat -> t = u.
Proof. destruct s; cbn; try lia. repeat case_decide; lia || congruence. Qed.

(** What a call does to the holder's count. *)
Inductive semop := Take | Drop | Keep.

Definition apply_op (o : semop) (n : nat) : nat :=
  match o with Take => S n | Drop => pred n | Keep => n end.

(** [s'] is [s] after the operation [o] of task [t]. *)
Definition sem_did (t : Z) (o : semop) (s s' : sem) : Prop :=
  exclusive s' /\ nest s' t = apply_op o (nest s t) /\ forall u, u <> t -> nest s' u = nest s u.

Lemma did_keep t s : exclusive s -> sem_did t Keep s s.
Proof. done. Qed.

Lemma did_take t s s' : exclusive s -> sem_obtain t s = Some s' -> sem_did t Take s s'.
Proof.
  unfold sem_did. destruct s as [|u n|]; cbn; [| |done].
  - intros _ [= <-]. cbn. rewrite decide_True by done. split; [done|]. split; [done|].
    intros v Hv. by rewrite decide_False by congruence.
  - case_decide as Hu; [subst|done]. intros _ [= <-]. cbn. rewrite decide_True by done.
    split; [done|]. split; [done|]. intros v Hv. by rewrite !decide_False by congruence.
Qed.

Lemma did_drop t s :
  exclusive s -> (0 < nest s t)%nat ->
  exists s', sem_release t s = Some s' /\ sem_did t Drop s s'.
Proof.
  unfold sem_did. destruct s as [|u n|]; cbn; [lia| |done]. case_decide as Hu; [subst|lia].
  intros _ _. eexists. split; [done|]. destruct n as [|n]; cbn.
  - split; [done|]. split; [done|]. intros v Hv. by rewrite decide_False by congruence.
  - rewrite decide_True by done. split; [done|]. split; [done|]. intros v Hv. by rewrite !decide_False by congruence.
Qed.

(** Two tasks never hold it at once: who takes it finds it free or is the holder. *)
Lemma take_alone t s s' u : exclusive s -> sem_obtain t s = Some s' -> (0 < nest s u)%nat -> u = t.
Proof. destruct s; cbn; [lia| |done]. repeat case_decide; (lia || congruence). Qed.

(** ** New locks *)

Section new.
Context {W : Type} `{SemLaws W, !Vec W, !VecLaws W, !SemVec W}.
Implicit Types (w : W).

(** A new mutex is a vector of its own, with a semaphore that nobody holds; the
    same code makes a read-write lock. *)
Lemma mutex_new_run size w :
  let '(m, w') := osal_mutex_new size w in
  (m = 0 /\ vectors w' = vectors w /\ sems w' = sems w) \/
  (m <> 0 /\ vectors w !! m = None /\ sems w' = <[m := Free]> (sems w) /\
   vectors w' = <[m := replicate (Z.to_nat size) 0]> (vectors w)).
Proof.
  assert (Ha : pow2 16) by (by exists 4).
  unfold osal_mutex_new. pose proof (malloc_run size 16 w Ha) as Hm.
  unfold osal_malloc in *. cbn [Z.eqb] in *.
  match goal with |- context [AllocVecTags size ?tags w] =>
    pose proof (alloc_sems size tags w) as Hs; destruct (AllocVecTags size tags w) as [m w'] end.
  cbn [snd] in Hs.
  destruct (Z.eqb_spec m 0) as [->|Hz]; cbn [negb allocated] in *.
  - left. destruct Hm as [(_ & _ & Hv)|(p & Hc & _)]; [done|discriminate Hc].
  - right. destruct Hm as [(Hc & _)|(p & _ & [= <-] & _ & Hn & _ & _ & Hv)]; [discriminate Hc|].
    rewrite init_vectors. destruct (sem_init_law m w') as [-> _]. by rewrite Hs.
Qed.
End new.

(** [rumpuser_rw_tryenter] gives the same answer, and takes nothing, whether the lock
    is free or held by another task. *)
Lemma rw_tryenter_blind {W} (me type rw : Z) (w1 w2 : W) :
  fst (rumpuser_rw_tryenter me type rw w1) = fst (rumpuser_rw_tryenter me type rw w2) /\
  snd (rumpuser_rw_tryenter me type rw w1) = w1.
Proof. done. Qed.

(** Two readers of the rump kernel exclude each other: the second blocks, although
    the semaphore would let both in. *)
Lemma rw_readers_exclude {W} `{SemLaws W} (type rw me you : Z) (w w' : W) :
  exclusive (sems w rw) -> you <> me -> rumpuser_rw_enter me type rw w = Some w' ->
  rumpuser_rw_enter you type rw w' = None.
Proof.
  intros Hx Hne Hr. apply sem_obtain_law in Hr as (st & Ho & Hs & _).
  destruct (rumpuser_rw_enter you type rw w') as [w2|] eqn:Hy; [|done].
  apply sem_obtain_law in Hy as (st2 & Ho2 & _). rewrite Hs, fn_lookup_insert in Ho2.
  destruct (did_take _ _ _ Hx Ho) as (Hx' & Hn & _). exfalso. apply Hne. symmetry.
  eapply (take_alone you st st2 me); [done|done|]. rewrite Hn. cbn. lia.
Qed.
