(* ===== verification/SemSim.v ===== *)
(** * A world with semaphores

    The tasks, signals and ports of TaskSim.v together with semaphores: the
    instance in which the runs of CvSim.v and ClientSim.v are computed. *)

From S2P Require Import Prelude Ipc Tasks TaskSim OsalLock.

Abbreviation lworld := (kview * (Z -> sem))%type.

#[export] Instance lworld_sems : Sems lworld := {
  InitSemaphore s w := (fst w, <[s := Free]> (snd w));
  ObtainSemaphore t s w := st ← sem_obtain t (snd w s); Some (fst w, <[s := st]> (snd w));
  ObtainSemaphoreShared t s w := st ← sem_share t (snd w s); Some (fst w, <[s := st]> (snd w));
  AttemptSemaphore t s w :=
    match sem_obtain t (snd w s) with Some st => (1, (fst w, <[s := st]> (snd w))) | None => (0, w) end;
  ReleaseSemaphore t s w :=
    match sem_release t (snd w s) with Some st => (fst w, <[s := st]> (snd w)) | None => w end;
  SetSignal t new mask w :=
    let old := k_sig (fst w) t in
    (old, (kv_sig t (Z.lor (Z.ldiff old mask) (Z.land new mask)) (fst w), snd w))
}.

#[export] Instance lworld_view : SemView lworld := { sems w := snd w }.

#[export] Instance lworld_laws : SemLaws lworld.
Proof.
  split.
  - done.
  - intros t s [v f] w'. cbn. destruct (sem_obtain t (f s)) as [st|]; [|done]. intros [= <-]. eauto.
  - intros t s [v f] w'. cbn. destruct (sem_share t (f s)) as [st|]; [|done]. intros [= <-]. eauto.
  - intros t s [v f]. cbn. destruct (sem_obtain t (f s)) as [st|]; cbn; [|auto].
    split; [done|]. right. split; [done|]. eauto.
  - intros t s [v f] st. cbn. by intros ->.
  - by intros t new mask [v f].
  - by intros t m [v f].
  - intros t m [v f] got w'. change (Wait t m (v, f)) with ('(g, v') ← Wait t m v; Some (g, (v', f))).
    destruct (Wait t m v) as [[g v']|]; [|done]. by intros [= _ <-].
Qed.

#[export] Instance lworld_frame : SemFrame lworld.
Proof.
  split.
  - intros f w []; done.
  - intros p [v f] w'. change (WaitPort p (v, f)) with (v' ← WaitPort p v; Some (v', f)).
    destruct (WaitPort p v) as [v'|]; [|done]. by intros [= <-].
Qed.

#[export] Instance lworld_live : SemLive lworld.
Proof. split. intros t s [v f]. cbn. by destruct (sem_obtain t (f s)). Qed.
