(* ===== verification/TimerTasks.v ===== *)
(** * Sleeping among tasks (src/phase1_osal/osal_timer.c)

    Any number of tasks call [osal_sleep_ns].  Each is a machine that makes one
    step per call into the system, or per access to the flag and the table of the
    file; the searches of the table, made with the semaphore held, are one step,
    which TimerSafe.v justifies.  A slot that is built is written field by field,
    and read again where the code reads it again. *)

From S2P Require Import Prelude Ipc Tasks OsalLock OsalTimer.

(** ** timer.device *)

(** [DoIO] in two steps, for other tasks run while it waits. *)
Class TimerIO (W : Type) := {
  (** the request is sent with its seconds and microseconds *)
  SendReq : Z -> Z -> Z -> W -> W;
  (** a task waits for its reply; [None] while the task is blocked *)
  WaitReq : Z -> Z -> W -> option W
}.

Record ioview := mk_ioview {
  io_reqs : gset Z;     (* requests allocated and not freed *)
  io_open : gset Z;     (* requests the device was opened with *)
  io_fly : gset Z       (* requests sent and not replied to *)
}.

Class IOView (W : Type) := { io : W -> ioview }.

(** What the calls leave alone: the ports, their owners and bits, and the semaphores. *)
Definition same_ports {W} `{TaskView W, SemView W} (w w' : W) : Prop :=
  k_ports (view w') = k_ports (view w) /\ k_owner (view w') = k_owner (view w) /\
  k_bits (view w') = k_bits (view w) /\ sems w' = sems w.

Class TimerLaws (W : Type)
    `{Tasks W, TaskView W, Sems W, SemView W, TimerDev W, TimerIO W, IOView W} := {
  alloc_req_law : forall p w, let '(r, w') := AllocIORequest p w in
    same_ports w w' /\
    ((r = 0 /\ io w' = io w) \/
     (r <> 0 /\ r ∉ io_reqs (io w) /\ r ∉ io_fly (io w) /\
      io w' = mk_ioview ({[r]} ∪ io_reqs (io w)) (io_open (io w)) (io_fly (io w))));
  free_req_law : forall r w, same_ports w (FreeIORequest r w) /\
    io (FreeIORequest r w) =
      mk_ioview (io_reqs (io w) ∖ {[r]}) (io_open (io w)) (io_fly (io w));
  open_law : forall r w, let '(e, w') := OpenDevice r w in
    same_ports w w' /\
    io w' = if e =? 0 then mk_ioview (io_reqs (io w)) ({[r]} ∪ io_open (io w)) (io_fly (io w))
            else io w;
  send_law : forall r s us w, same_ports w (SendReq r s us w) /\
    io (SendReq r s us w) = mk_ioview (io_reqs (io w)) (io_open (io w)) ({[r]} ∪ io_fly (io w));
  wait_req_law : forall t r w w', WaitReq t r w = Some w' -> same_ports w w' /\
    io w' = mk_ioview (io_reqs (io w)) (io_open (io w)) (io_fly (io w) ∖ {[r]});
  (** the other calls concern no request *)
  port_io : forall f w, port_call f -> io (f w) = io w;
  init_io : forall s w, io (InitSemaphore s w) = io w;
  sem_io : forall t s w, io (ReleaseSemaphore t s w) = io w /\
    forall w', ObtainSemaphore t s w = Some w' -> io w' = io w
}.

(** ** A sleep *)

(** Where a task is in its sleep of [ns]; [j] is the index of a slot. *)
Inductive tpc :=
  | TIdle
  | TChk (ns : Z) | TInit (ns : Z) | TSet (ns : Z)   (* if (!g_timer_sem_init) ... *)
  | TObt (ns : Z)                       (* ObtainSemaphore(&g_timer_sem) *)
  | TScan (ns : Z)                      (* the two searches *)
  | TPort (ns : Z) (j : nat)            (* s->port = AllocSysObjectTags(ASOT_PORT, ...) *)
  | TReq (ns : Z) (j : nat)             (* s->req = AllocSysObjectTags(ASOT_IOREQUEST, ...) *)
  | TNoReq (ns : Z) (j : nat)           (* FreeSysObject(ASOT_PORT, s->port) *)
  | TOpen (ns : Z) (j : nat)            (* OpenDevice(...), s->owner = me *)
  | TNoDev (ns : Z) (j : nat)           (* FreeSysObject(ASOT_IOREQUEST, s->req) *)
  | TNoDevPort (ns : Z) (j : nat)       (* FreeSysObject(ASOT_PORT, s->port) *)
  | TRel (ns : Z) (o : option nat)      (* ReleaseSemaphore, and return *)
  | TSend (ns : Z) (j : nat)            (* DoIO(s->req): sent *)
  | TWait (r : Z)                       (* DoIO: waiting for the reply *)
  | TYield.                             (* Wait(0) *)

Inductive tout (W : Type) :=
  | TBlocked | TUndefined | TGo (pc : tpc) (t : timer) (w : W).
Arguments TBlocked {W}. Arguments TUndefined {W}. Arguments TGo {W} pc t w.

Definition set_slots (l : list timer_slot) (t : timer) : timer := mk_timer (g_timer_sem_init t) l.
Definition set_owner (o : Z) (s : timer_slot) : timer_slot := mk_timer_slot o (t_port s) (t_req s).
Definition set_port (p : Z) (s : timer_slot) : timer_slot := mk_timer_slot (t_owner s) p (t_req s).
Definition set_req (r : Z) (s : timer_slot) : timer_slot := mk_timer_slot (t_owner s) (t_port s) r.

Section step.
Context {W : Type} `{!Tasks W, !Sems W, !TimerDev W, !TimerIO W}.
Implicit Types (t : timer) (w : W).

(** The slot [j] read, and written. *)
Definition at_slot (j : nat) t (k : timer_slot -> tout W) : tout W :=
  match g_timer_slots t !! j with Some s => k s | None => TUndefined end.

Definition store (j : nat) (s : timer_slot) t : timer := set_slots (<[j := s]> (g_timer_slots t)) t.

Definition find_timer_slot (me ns : Z) t : tpc :=
  match slot_at me (g_timer_slots t) with
  | Some i => TRel ns (Some i)
  | None => match slot_at 0 (g_timer_slots t) with Some j => TPort ns j | None => TRel ns None end
  end.

(** One step of the task [me]. *)
Definition sleep_step (me : Z) (pc : tpc) t w : tout W :=
  match pc with
  | TIdle | TYield => TBlocked
  | TChk ns => TGo (if g_timer_sem_init t then TObt ns else TInit ns) t w
  | TInit ns => TGo (TSet ns) t (InitSemaphore g_timer_sem w)
  | TSet ns => TGo (TObt ns) (mk_timer true (g_timer_slots t)) w
  | TObt ns => match ObtainSemaphore me g_timer_sem w with Some w => TGo (TScan ns) t w | None => TBlocked end
  | TScan ns => TGo (find_timer_slot me ns t) t w
  | TPort ns j => at_slot j t (fun s =>
      let '(p, w) := AllocSysPort me false w in
      TGo (if p =? 0 then TRel ns None else TReq ns j) (store j (set_port p s) t) w)
  | TReq ns j => at_slot j t (fun s =>
      let '(r, w) := AllocIORequest (t_port s) w in
      TGo (if r =? 0 then TNoReq ns j else TOpen ns j) (store j (set_req r s) t) w)
  | TNoReq ns j => at_slot j t (fun s =>
      TGo (TRel ns None) (store j (set_port 0 s) t) (FreeSysPort (t_port s) w))
  | TOpen ns j => at_slot j t (fun s =>
      let '(e, w) := OpenDevice (t_req s) w in
      if negb (e =? 0) then TGo (TNoDev ns j) t w
      else TGo (TRel ns (Some j)) (store j (set_owner me s) t) w)
  | TNoDev ns j => at_slot j t (fun s => TGo (TNoDevPort ns j) t (FreeIORequest (t_req s) w))
  | TNoDevPort ns j => at_slot j t (fun s =>
      TGo (TRel ns None) (store j (set_port 0 (set_req 0 s)) t) (FreeSysPort (t_port s) w))
  | TRel ns o =>
    TGo (match o with
         | Some j => TSend ns j
         | None => if ns / 100 =? 0 then TIdle else TYield
         end) t (ReleaseSemaphore me g_timer_sem w)
  | TSend ns j => at_slot j t (fun s =>
      TGo (TWait (t_req s)) t (SendReq (t_req s) (fst (sleep_time ns)) (snd (sleep_time ns)) w))
  | TWait r => match WaitReq me r w with Some w => TGo TIdle t w | None => TBlocked end
  end.
End step.

(** ** All tasks together *)

Record tsys (W : Type) := mk_tsys { ts_t : timer; ts_w : W; ts_pc : Z -> tpc }.
Arguments mk_tsys {W}. Arguments ts_t {W}. Arguments ts_w {W}. Arguments ts_pc {W}.

Section system.
Context {W : Type} `{!Tasks W, !TaskView W, !Sems W, !SemView W, !TimerDev W, !TimerIO W, !IOView W}.
Implicit Types (s : tsys W) (w : W).

(** A live port that signals task [t], with a bit that [t] has. *)
Definition live_port (t p : Z) w : Prop :=
  p <> 0 /\ p ∈ k_ports (view w) /\ fst (k_owner (view w) p) = t /\
  snd (k_owner (view w) p) ∈ k_bits (view w) t.

(** What a slot names is still there. *)
Definition kept (x : timer_slot) w w' : Prop :=
  (forall t, live_port t (t_port x) w -> live_port t (t_port x) w') /\
  (t_req x ∈ io_reqs (io w) -> t_req x ∈ io_reqs (io w')) /\
  (t_req x ∈ io_open (io w) -> t_req x ∈ io_open (io w')).

(** A request that was not sent before is not sent. *)
Definition unsent (x : timer_slot) w w' : Prop :=
  t_req x ∈ io_fly (io w') -> t_req x ∈ io_fly (io w).

(** Whatever else the tasks do: not with the semaphore, nor with the ports and requests
    that the table names. *)
Definition aside (t : timer) w w' : Prop :=
  sems w' g_timer_sem = sems w g_timer_sem /\
  forall x, x ∈ g_timer_slots t -> kept x w w' /\ unsent x w w'.

Inductive sleep_act : tsys W -> tsys W -> Prop :=
  | sleep_call s me ns :
      ts_pc s me = TIdle -> me <> 0 -> is_u64 ns ->
      sleep_act s (mk_tsys (ts_t s) (ts_w s) (<[me := TChk ns]> (ts_pc s)))
  | sleep_go s me pc t w :
      sleep_step me (ts_pc s me) (ts_t s) (ts_w s) = TGo pc t w ->
      sleep_act s (mk_tsys t w (<[me := pc]> (ts_pc s)))
  | sleep_other s w :
      aside (ts_t s) (ts_w s) w -> sleep_act s (mk_tsys (ts_t s) w (ts_pc s)).

(** The first sleep of all initialises the semaphore, without a lock.  Here no other sleep
    begins before it has: until then a task begins a sleep only when nobody is in
    one. *)
Definition orderly_act s s' : Prop :=
  sleep_act s s' /\
  (g_timer_sem_init (ts_t s) = true \/ (forall u, ts_pc s u = TIdle) \/
   forall u, ts_pc s u = TIdle -> ts_pc s' u = TIdle).

(** Nobody sleeps. *)
Definition sleep_boot (t : timer) w : tsys W := mk_tsys t w (fun _ => TIdle).
End system.
