(* ===== verification/TimerSafe.v ===== *)
(** * Timer slots are private among tasks

    The invariant of the tasks of TimerTasks.v, and that every step keeps it. *)

From S2P Require Import Prelude Ipc Tasks OsalLock OsalTimer TimerTasks.

(** ** Where a task is *)

Definition in_table (pc : tpc) : bool :=
  match pc with
  | TScan _ | TPort _ _ | TReq _ _ | TNoReq _ _ | TOpen _ _ | TNoDev _ _ | TNoDevPort _ _ | TRel _ _ => true
  | _ => false
  end.

(** The slot it builds. *)
Definition building (pc : tpc) : option nat :=
  match pc with
  | TPort _ j | TReq _ j | TNoReq _ j | TOpen _ j | TNoDev _ j | TNoDevPort _ j => Some j
  | _ => None
  end.

(** The slot it was given. *)
Definition given (pc : tpc) : option nat :=
  match pc with TRel _ (Some j) | TSend _ j => Some j | _ => None end.

(** The steps of its own that a sleep has still to make, at most. *)
Definition steps_left (pc : tpc) : nat :=
  match pc with
  | TIdle | TYield => 0
  | TWait _ => 1
  | TSend _ _ => 2
  | TRel _ _ => 3
  | TNoReq _ _ | TNoDevPort _ _ => 4
  | TNoDev _ _ => 5
  | TOpen _ _ => 6
  | TReq _ _ => 7
  | TPort _ _ => 8
  | TScan _ => 9
  | TObt _ => 10
  | TSet _ => 11
  | TInit _ => 12
  | TChk _ => 13
  end%nat.

Section inv.
Context {W : Type} `{TaskLaws W, !Sems W, !SemView W, !SemLaws W, !SemFrame W}.
Context `{!TimerDev W, !TimerIO W, !IOView W, !TimerLaws W}.
Implicit Types (t : timer) (w : W) (s : tsys W) (x : timer_slot) (me : Z).

(** What an owner has. *)
Definition own_ok x w : Prop :=
  live_port (t_owner x) (t_port x) w /\ t_req x <> 0 /\
  t_req x ∈ io_reqs (io w) /\ t_req x ∈ io_open (io w).

(** What the slot that [me] builds has. *)
Definition built me (pc : tpc) x w : Prop :=
  t_owner x = 0 /\
  match pc with
  | TPort _ _ => x = no_slot
  | TReq _ _ => live_port me (t_port x) w /\ t_req x = 0
  | TNoReq _ _ => live_port me (t_port x) w /\ t_req x = 0
  | TNoDevPort _ _ => live_port me (t_port x) w
  | TOpen _ _ | TNoDev _ _ =>
    live_port me (t_port x) w /\ t_req x <> 0 /\ t_req x ∈ io_reqs (io w) /\
    t_req x ∉ io_fly (io w)
  | _ => True
  end.

Definition no_owner me t : Prop := forall i x, g_timer_slots t !! i = Some x -> t_owner x <> me.

(** No other slot has this request. *)
Definition req_alone (pc : tpc) x t : Prop :=
  match pc with
  | TOpen _ _ | TNoDev _ _ =>
    forall i y, g_timer_slots t !! i = Some y -> t_owner y <> 0 -> t_req y <> t_req x
  | _ => True
  end.

Definition at_ok me (pc : tpc) t w : Prop :=
  (forall j, building pc = Some j -> no_owner me t /\
     exists x, g_timer_slots t !! j = Some x /\ built me pc x w /\ req_alone pc x t) /\
  (forall j, given pc = Some j -> exists x, g_timer_slots t !! j = Some x /\ t_owner x = me) /\
  (forall r, pc = TWait r -> exists j x, g_timer_slots t !! j = Some x /\ t_owner x = me /\ t_req x = r) /\
  match pc with TInit _ | TSet _ => False | TIdle => True | _ => me <> 0 end.

Record sleep_inv s : Prop := {
  si_init : g_timer_sem_init (ts_t s) = true;
  si_len : length (g_timer_slots (ts_t s)) = 16%nat;
  si_excl : exclusive (sems (ts_w s) g_timer_sem);
  si_nest : forall me, nest (sems (ts_w s) g_timer_sem) me = if in_table (ts_pc s me) then 1%nat else 0%nat;
  si_free : forall i x, g_timer_slots (ts_t s) !! i = Some x -> t_owner x = 0 ->
    x = no_slot \/ exists me, building (ts_pc s me) = Some i;
  si_own : forall i x, g_timer_slots (ts_t s) !! i = Some x -> t_owner x <> 0 -> own_ok x (ts_w s);
  si_uniq : forall i j x y, g_timer_slots (ts_t s) !! i = Some x -> g_timer_slots (ts_t s) !! j = Some y ->
    t_owner x <> 0 -> t_owner y <> 0 -> t_owner x = t_owner y \/ t_req x = t_req y -> i = j;
  si_fly : forall i x, g_timer_slots (ts_t s) !! i = Some x -> t_owner x <> 0 ->
    t_req x ∈ io_fly (io (ts_w s)) -> ts_pc s (t_owner x) = TWait (t_req x);
  si_at : forall me, at_ok me (ts_pc s me) (ts_t s) (ts_w s)
}.

(** Nobody sleeps, and the slots used before are sound: as the program starts, and as
    sleeps that have ended leave it. *)
Record timer_ready t w : Prop := {
  tr_sem : g_timer_sem_init t = true -> sems w g_timer_sem = Free;
  tr_len : length (g_timer_slots t) = 16%nat;
  tr_free : forall i x, g_timer_slots t !! i = Some x -> t_owner x = 0 -> x = no_slot;
  tr_own : forall i x, g_timer_slots t !! i = Some x -> t_owner x <> 0 ->
    own_ok x w /\ t_req x ∉ io_fly (io w);
  tr_uniq : forall i j x y, g_timer_slots t !! i = Some x -> g_timer_slots t !! j = Some y ->
    t_owner x <> 0 -> t_owner y <> 0 -> t_owner x = t_owner y \/ t_req x = t_req y -> i = j
}.

Lemma sleep_inv_ready s :
  timer_ready (ts_t s) (ts_w s) -> g_timer_sem_init (ts_t s) = true ->
  (forall u, ts_pc s u = TIdle \/ u <> 0 /\ exists ns, ts_pc s u = TObt ns) -> sleep_inv s.
Proof.
  intros Hr Hi Hpc.
  assert (Hq : forall u, in_table (ts_pc s u) = false /\ at_ok u (ts_pc s u) (ts_t s) (ts_w s))
    by (intros u; destruct (Hpc u) as [->|(? & ns & ->)]; by split).
  pose proof (tr_sem _ _ Hr Hi) as Hsem. destruct Hr as [_ Hl Hfree Hown Huniq].
  split; rewrite ?Hsem; try done.
  - intros u. by rewrite (proj1 (Hq u)).
  - intros i x Hx Ho. left. by eapply Hfree.
  - intros i x Hx Ho. by destruct (Hown i x Hx Ho).
  - intros i x Hx Ho Hf. by destruct (Hown i x Hx Ho).
  - intros u. apply Hq.
Qed.

(** When nobody sleeps, any state the sleeps reach is one to begin with. *)
Lemma ready_again s :
  sleep_inv s -> (forall me, ts_pc s me = TIdle) -> sems (ts_w s) g_timer_sem = Free ->
  timer_ready (ts_t s) (ts_w s).
Proof.
  intros Hi Hn Hf. split; try apply Hi; try done.
  - intros i x Hx Ho. destruct (si_free s Hi i x Hx Ho) as [?|(u & Hu)]; [done|]. by rewrite Hn in Hu.
  - intros i x Hx Ho. split; [by apply (si_own s Hi i)|]. intros Hfl.
    pose proof (si_fly s Hi i x Hx Ho Hfl) as Hc. by rewrite Hn in Hc.
Qed.

(** Before the semaphore is initialised: one task at most is in a sleep, on its way to
    initialise it. *)
Record first_sleep s : Prop := {
  fs_ready : timer_ready (ts_t s) (ts_w s);
  fs_init : g_timer_sem_init (ts_t s) = false;
  fs_pc : exists me, me <> 0 /\ (forall u, u <> me -> ts_pc s u = TIdle) /\
    (ts_pc s me = TIdle \/ exists ns, ts_pc s me = TChk ns \/ ts_pc s me = TInit ns \/
       (ts_pc s me = TSet ns /\ sems (ts_w s) g_timer_sem = Free))
}.

(** ** What a step has to show *)

(** Of the step of [me] from [s] to [pc], [t], [w]. *)
Record sleep_did me s (pc : tpc) t w : Prop := {
  sd_init : g_timer_sem_init t = true;
  sd_len : length (g_timer_slots t) = 16%nat;
  sd_excl : exclusive (sems w g_timer_sem);
  sd_nest : nest (sems w g_timer_sem) me = if in_table pc then 1%nat else 0%nat;
  sd_nests : forall u, u <> me -> nest (sems w g_timer_sem) u = nest (sems (ts_w s) g_timer_sem) u;
  sd_old : forall i x, g_timer_slots (ts_t s) !! i = Some x -> t_owner x <> 0 ->
    g_timer_slots t !! i = Some x /\ kept x (ts_w s) w;
  sd_new : forall i x, g_timer_slots t !! i = Some x -> t_owner x <> 0 ->
    g_timer_slots (ts_t s) !! i = Some x \/
    (building (ts_pc s me) = Some i /\ t_owner x = me /\ own_ok x w /\ t_req x ∉ io_fly (io w) /\
     forall j y, g_timer_slots (ts_t s) !! j = Some y -> t_owner y <> 0 ->
       t_owner y <> me /\ t_req y <> t_req x);
  sd_free : forall i x, g_timer_slots t !! i = Some x -> t_owner x = 0 ->
    x = no_slot \/ building pc = Some i \/
    (g_timer_slots (ts_t s) !! i = Some x /\ building (ts_pc s me) <> Some i);
  (** the table, and what it names, is changed by who holds the semaphore *)
  sd_mine : in_table (ts_pc s me) = true \/
    (g_timer_slots t = g_timer_slots (ts_t s) /\
     (forall i x, g_timer_slots (ts_t s) !! i = Some x -> kept x (ts_w s) w) /\
     (forall r, r ∈ io_fly (io w) -> r ∈ io_fly (io (ts_w s)) \/
        exists i x, g_timer_slots (ts_t s) !! i = Some x /\ t_owner x = me /\ t_req x = r /\ me <> 0));
  sd_fly : forall i x, g_timer_slots (ts_t s) !! i = Some x -> t_owner x <> 0 ->
    t_req x ∈ io_fly (io w) ->
    if decide (t_owner x = me) then pc = TWait (t_req x) else t_req x ∈ io_fly (io (ts_w s));
  sd_at : at_ok me pc t w
}.

Lemma own_kept x w w' : own_ok x w -> kept x w w' -> own_ok x w'.
Proof. intros (O1 & O2 & O3 & O4) (K1 & K2 & K3). split; [by apply K1|]. auto. Qed.

Lemma built_kept me pc x t w w' :
  built me pc x w -> req_alone pc x t -> kept x w w' ->
  ((forall i y, g_timer_slots t !! i = Some y -> t_owner y <> 0 -> t_req y <> t_req x) ->
   unsent x w w') ->
  built me pc x w'.
Proof.
  intros (Ho & Hb) Hr (K1 & K2 & K3) Hu. split; [done|].
  destruct pc; cbn in *; try done; try (by destruct Hb; auto).
  - destruct Hb as (B1 & B2 & B3 & B4). repeat split; auto; naive_solver.
  - destruct Hb as (B1 & B2 & B3 & B4). repeat split; auto; naive_solver.
  - auto.
Qed.

(** A task that makes no step is not disturbed by what keeps the table. *)
Lemma at_frame u pc t t' w w' :
  at_ok u pc t w -> g_timer_slots t' = g_timer_slots t ->
  (forall i x, g_timer_slots t !! i = Some x -> kept x w w') ->
  (forall j x, g_timer_slots t !! j = Some x ->
     (forall i y, g_timer_slots t !! i = Some y -> t_owner y <> 0 -> t_req y <> t_req x) ->
     unsent x w w') ->
  at_ok u pc t' w'.
Proof.
  intros (Hb & Hg & Hw & Hz) Ht Hk Hun. unfold at_ok, no_owner, req_alone in *. rewrite Ht.
  split; [|by split; [|split]].
  intros j Hj. destruct (Hb j Hj) as (Hno & x & Hx & Hbx & Hr). split; [done|].
  exists x. split; [done|]. split; [|done]. apply (built_kept _ _ _ t w); eauto.
Qed.

Lemma section_one s u v :
  sleep_inv s -> in_table (ts_pc s u) = true -> in_table (ts_pc s v) = true -> u = v.
Proof.
  intros Hi Hu Hv. apply (nest_one (sems (ts_w s) g_timer_sem)); rewrite (si_nest s Hi), ?Hu, ?Hv; lia.
Qed.

Lemma building_table pc j : building pc = Some j -> in_table pc = true.
Proof. by destruct pc. Qed.

(** A task elsewhere is not disturbed. *)
Lemma at_other me s pc t w u :
  sleep_inv s -> sleep_did me s pc t w -> u <> me -> at_ok u (ts_pc s u) t w.
Proof.
  intros Hi Hd Hu. pose proof (si_at s Hi u) as Ha.
  destruct (sd_mine _ _ _ _ _ Hd) as [Hm|(Hs & Hk & Hf)].
  - destruct Ha as (Hb & Hg & Hw & Hz). split; [|split; [|split; [|done]]].
    + intros j Hj. exfalso. apply Hu. apply (section_one s); [done|by eapply building_table|done].
    + intros j Hj. destruct (Hg j Hj) as (x & Hx & Ho). exists x. split; [|done].
      apply (sd_old _ _ _ _ _ Hd); [done|]. rewrite Ho. destruct (ts_pc s u); try discriminate Hj; done.
    + intros r Hr. destruct (Hw r Hr) as (j & x & Hx & Ho & Hq). exists j, x. split; [|done].
      apply (sd_old _ _ _ _ _ Hd); [done|]. rewrite Ho. by rewrite Hr in Hz.
  - apply (at_frame _ _ (ts_t s) _ (ts_w s)); [done..|].
    intros j x Hx Hr Hfl. destruct (Hf _ Hfl) as [?|(i & y & Hy & Ho & Hq & Hz)]; [done|].
    destruct (Hr i y Hy); congruence.
Qed.
(** A step that shows all this keeps the invariant. *)
Lemma sleep_inv_did me s pc t w :
  sleep_inv s -> sleep_did me s pc t w -> sleep_inv (mk_tsys t w (<[me := pc]> (ts_pc s))).
Proof.
  intros Hi Hd. split; cbn [ts_t ts_w ts_pc]; try apply Hd.
  - intros u. destruct (decide (u = me)) as [->|Hu].
    + rewrite fn_lookup_insert. apply Hd.
    + rewrite fn_lookup_insert_ne by done. rewrite (sd_nests _ _ _ _ _ Hd u Hu). apply Hi.
  - intros i x Hx Ho. destruct (sd_free _ _ _ _ _ Hd i x Hx Ho) as [?|[Hb|[Hb Hn]]]; [by left| |].
    + right. exists me. by rewrite fn_lookup_insert.
    + destruct (si_free s Hi i x Hb Ho) as [?|[u Hu]]; [by left|]. right. exists u.
      by rewrite fn_lookup_insert_ne by congruence.
  - intros i x Hx Ho. destruct (sd_new _ _ _ _ _ Hd i x Hx Ho) as [Hb|(_ & _ & ? & _)]; [|done].
    apply (own_kept _ (ts_w s)); [by eapply (si_own s Hi)|by destruct (sd_old _ _ _ _ _ Hd i x Hb Ho)].
  - intros i j x y Hx Hy Hox Hoy Heq.
    destruct (sd_new _ _ _ _ _ Hd i x Hx Hox) as [Hbx|(Hix & Hmx & _ & _ & Hnx)],
      (sd_new _ _ _ _ _ Hd j y Hy Hoy) as [Hby|(Hiy & Hmy & _ & _ & Hny)].
    + by apply (si_uniq s Hi i j x y).
    + destruct (Hny i x Hbx Hox). naive_solver congruence.
    + destruct (Hnx j y Hby Hoy). naive_solver congruence.
    + congruence.
  - intros i x Hx Ho Hf. destruct (sd_new _ _ _ _ _ Hd i x Hx Ho) as [Hb|(_ & _ & _ & ? & _)]; [|done].
    pose proof (sd_fly _ _ _ _ _ Hd i x Hb Ho Hf) as Hc. case_decide as Hm.
    + by rewrite Hm, fn_lookup_insert.
    + rewrite fn_lookup_insert_ne by done. by apply (si_fly s Hi i).
  - intros u. destruct (decide (u = me)) as [->|Hu].
    + rewrite fn_lookup_insert. apply Hd.
    + rewrite fn_lookup_insert_ne by done. by apply (at_other me s pc).
Qed.

(** What happens elsewhere keeps it. *)
Lemma sleep_inv_aside s w :
  sleep_inv s -> aside (ts_t s) (ts_w s) w -> sleep_inv (mk_tsys (ts_t s) w (ts_pc s)).
Proof.
  intros Hi [Hs Hk].
  assert (Hk' : forall i x, g_timer_slots (ts_t s) !! i = Some x -> kept x (ts_w s) w /\ unsent x (ts_w s) w).
  { intros i x Hx. apply Hk. by eapply list_elem_of_lookup_2. }
  split; cbn [ts_t ts_w ts_pc]; rewrite ?Hs; try apply Hi.
  - intros i x Hx Ho. apply (own_kept _ (ts_w s)); [by eapply (si_own s Hi)|by apply (Hk' i)].
  - intros i x Hx Ho Hf. apply (si_fly s Hi i); [done..|]. by apply (Hk' i).
  - intros u. apply (at_frame _ _ (ts_t s) _ (ts_w s)); [apply Hi|done|..].
    + intros i x Hx. by apply (Hk' i).
    + intros j x Hx _. by apply (Hk' j).
Qed.
(** ** The calls *)

Lemma kept_same x w w' :
  k_ports (view w') = k_ports (view w) -> k_owner (view w') = k_owner (view w) ->
  k_bits (view w') = k_bits (view w) ->
  (t_req x ∈ io_reqs (io w) -> t_req x ∈ io_reqs (io w')) ->
  io_open (io w) ⊆ io_open (io w') -> kept x w w'.
Proof.
  intros Hp Ho Hb Hr Hop. split; [|by split; [|apply Hop]].
  intros t. unfold live_port. by rewrite Hp, Ho, Hb.
Qed.

Lemma port_alloc me w :
  let '(p, w') := AllocSysPort me false w in
  io w' = io w /\ sems w' = sems w /\ (forall x, kept x w w') /\ (p <> 0 -> live_port me p w').
Proof.
  pose proof (port_io (fun w => snd (AllocSysPort me false w)) w (pc_alloc_port me false)) as Hio.
  pose proof (port_sems (fun w => snd (AllocSysPort me false w)) w (pc_alloc_port me false)) as Hsm.
  pose proof (alloc_port_law me false w) as Hl. cbn beta in *.
  destruct (AllocSysPort me false w) as [p w']. cbn [snd] in *.
  split; [done|]. split; [done|].
  destruct Hl as [(-> & Hv)|(Hp & Hf & b & _ & Hv)].
  - split; [|done]. intros x. apply kept_same; rewrite ?Hv, ?Hio; done.
  - unfold kept, live_port. rewrite Hv, Hio. kv. split; [|intros _; set_solver].
    intros x. split; [|done]. intros t (L1 & L2 & L3 & L4). split; [done|]. split; [set_solver|].
    assert (t_port x <> p) by congruence. fn_simpl. split; [done|].
    destruct (decide (t = me)) as [->|Ht]; fn_simpl; set_solver.
Qed.

Lemma port_free me p w :
  fst (k_owner (view w) p) = me ->
  io (FreeSysPort p w) = io w /\ sems (FreeSysPort p w) = sems w /\
  forall x, own_ok x w -> t_owner x <> me -> kept x w (FreeSysPort p w).
Proof.
  intros Hm. rewrite (port_io _ w (pc_free_port p)), (port_sems _ w (pc_free_port p)).
  split; [done|]. split; [done|]. intros x Hx Ho.
  unfold kept, live_port. rewrite (port_io _ w (pc_free_port p)), free_port_law. split; [|done].
  intros t (L1 & L2 & L3 & L4). destruct Hx as ((_ & _ & Hxo & _) & _).
  kv. assert (t_port x <> p) by congruence. set_solver.
Qed.

(** ** Steps that change no slot *)

Lemma did_quiet me s pc w :
  sleep_inv s -> building (ts_pc s me) = None -> at_ok me pc (ts_t s) w ->
  exclusive (sems w g_timer_sem) ->
  nest (sems w g_timer_sem) me = (if in_table pc then 1%nat else 0%nat) ->
  (forall u, u <> me -> nest (sems w g_timer_sem) u = nest (sems (ts_w s) g_timer_sem) u) ->
  (forall x, kept x (ts_w s) w) ->
  (forall r, r ∈ io_fly (io w) -> r ∈ io_fly (io (ts_w s)) \/
     exists i x, g_timer_slots (ts_t s) !! i = Some x /\ t_owner x = me /\ t_req x = r /\ me <> 0) ->
  (forall i x, g_timer_slots (ts_t s) !! i = Some x -> t_owner x = me -> me <> 0 ->
     t_req x ∈ io_fly (io w) -> pc = TWait (t_req x)) ->
  sleep_did me s pc (ts_t s) w.
Proof.
  intros Hi Hb Ha Hx Hn Hns Hk Hf Hm. split; try done; try apply Hi.
  - by left.
  - intros i x Hl _. right. right. by rewrite Hb.
  - by right.
  - intros i x Hl Ho Hfl. case_decide as Hd; [apply (Hm i x Hl Hd); congruence|].
    destruct (Hf _ Hfl) as [?|(j & y & Hy & Hoy & Hq & Hz)]; [done|].
    exfalso. apply Hd. rewrite <- Hoy. assert (i = j) as ->.
    { apply (si_uniq s Hi i j x y); [done..|congruence|]. right. congruence. }
    congruence.
Qed.

(** ** Steps that build a slot *)

Lemma did_build me s pc j x x' t w :
  sleep_inv s -> building (ts_pc s me) = Some j -> in_table pc = true ->
  g_timer_slots (ts_t s) !! j = Some x -> t_owner x = 0 ->
  t = set_slots (<[j := x']> (g_timer_slots (ts_t s))) (ts_t s) ->
  (t_owner x' = 0 /\ (x' = no_slot \/ building pc = Some j) \/
   t_owner x' = me /\ own_ok x' w /\ t_req x' ∉ io_fly (io w) /\ no_owner me (ts_t s) /\
     forall i y, g_timer_slots (ts_t s) !! i = Some y -> t_owner y <> 0 -> t_req y <> t_req x') ->
  sems w g_timer_sem = sems (ts_w s) g_timer_sem ->
  (forall i y, g_timer_slots (ts_t s) !! i = Some y -> t_owner y <> 0 -> t_owner y <> me ->
     own_ok y (ts_w s) -> kept y (ts_w s) w) ->
  io_fly (io w) = io_fly (io (ts_w s)) -> at_ok me pc t w -> sleep_did me s pc t w.
Proof.
  intros Hi Hb Hp Hj Hxo -> Hnew Hs Hk Hf Ha.
  assert (Hlt : (j < length (g_timer_slots (ts_t s)))%nat) by by eapply lookup_lt_Some.
  assert (Hno : no_owner me (ts_t s)) by by destruct (si_at s Hi me) as (Hbb & _); destruct (Hbb j Hb).
  assert (Hat : forall i y, <[j := x']> (g_timer_slots (ts_t s)) !! i = Some y ->
    (i = j /\ y = x') \/ (i <> j /\ g_timer_slots (ts_t s) !! i = Some y)).
  { intros i y. destruct (decide (i = j)) as [->|Hne].
    - rewrite list_lookup_insert_eq by done. intros [= <-]. by left.
    - rewrite list_lookup_insert_ne by done. by right. }
  pose proof (building_table _ _ Hb) as Hin.
  split; cbn [set_slots g_timer_sem_init g_timer_slots]; rewrite ?Hs, ?Hp; try done; try apply Hi.
  - rewrite length_insert. apply Hi.
  - rewrite (si_nest s Hi me). by rewrite Hin.
  - intros i y Hy Ho. split; [|apply (Hk i); [done..|by apply (Hno i)|by apply (si_own s Hi i)]].
    rewrite list_lookup_insert_ne; [done|]. intros <-. congruence.
  - intros i y [[-> ->]|[_ ?]]%Hat Ho; [|by left]. right.
    destruct Hnew as [(? & _)|(Hm & Hok & Hnf & _ & Hal)]; [done|].
    split; [done|]. split; [done|]. split; [done|]. split; [done|].
    intros k z Hz Hoz. split; [by apply (Hno k)|by apply (Hal k)].
  - intros i y [[-> ->]|[Hne Hy]]%Hat Ho.
    + destruct Hnew as [(_ & [?|?])|(Hm & Hok & _)]; [by left|by right; left|].
      exfalso. destruct (si_at s Hi me) as (_ & _ & _ & Hz). destruct (ts_pc s me); try discriminate Hb; congruence.
    + right. right. split; [done|]. congruence.
  - by left.
  - intros i y Hy Ho. rewrite decide_False by by apply (Hno i). by rewrite Hf.
Qed.
(** ** Each step *)

Lemma at_none me pc t w :
  building pc = None -> given pc = None -> (forall r, pc <> TWait r) -> me <> 0 ->
  match pc with TInit _ | TSet _ => False | _ => True end -> at_ok me pc t w.
Proof.
  intros Hb Hg Hw Hz Hp. split; [|split; [|split]].
  - intros j. by rewrite Hb.
  - intros j. by rewrite Hg.
  - intros r Hr. by destruct (Hw r).
  - by destruct pc.
Qed.

(** A step that makes no call. *)
Lemma did_move me s pc :
  sleep_inv s -> building (ts_pc s me) = None -> (forall r, ts_pc s me <> TWait r) ->
  in_table pc = in_table (ts_pc s me) -> at_ok me pc (ts_t s) (ts_w s) ->
  sleep_did me s pc (ts_t s) (ts_w s).
Proof.
  intros Hi Hb Hw Hp Ha. apply did_quiet; try done; [apply Hi|by rewrite Hp; apply Hi|by left|].
  intros i x Hl Ho Hz Hf. exfalso. apply (Hw (t_req x)). rewrite <- Ho.
  apply (si_fly s Hi i); congruence.
Qed.

(** A step that takes the semaphore or gives it back. *)
Lemma did_sem me s pc o w :
  sleep_inv s -> building (ts_pc s me) = None -> (forall r, ts_pc s me <> TWait r) ->
  at_ok me pc (ts_t s) w -> sem_did me o (sems (ts_w s) g_timer_sem) (sems w g_timer_sem) ->
  apply_op o (if in_table (ts_pc s me) then 1 else 0) = (if in_table pc then 1 else 0)%nat ->
  view w = view (ts_w s) -> io w = io (ts_w s) -> sleep_did me s pc (ts_t s) w.
Proof.
  intros Hi Hb Hw Ha (Hx & Hn & Hns) Ho Hv Hio. apply did_quiet; try done.
  - by rewrite Hn, (si_nest s Hi).
  - intros x. apply kept_same; by rewrite ?Hv, ?Hio.
  - rewrite Hio. by left.
  - intros i x Hl Hox Hz Hf. exfalso. apply (Hw (t_req x)). rewrite <- Hox.
    rewrite Hio in Hf. apply (si_fly s Hi i); congruence.
Qed.

Lemma step_obtain me s ns pc t w :
  sleep_inv s -> ts_pc s me = TObt ns -> sleep_step me (TObt ns) (ts_t s) (ts_w s) = TGo pc t w ->
  sleep_did me s pc t w.
Proof.
  intros Hi Hpc Hs. cbn [sleep_step] in Hs.
  destruct (ObtainSemaphore me g_timer_sem (ts_w s)) as [w'|] eqn:Ho; [|done]. injection Hs as <- <- <-.
  pose proof (proj2 (sem_io me g_timer_sem (ts_w s)) _ Ho) as Hio.
  destruct (sem_obtain_law _ _ _ _ Ho) as (st & Hst & Hsm & Hv).
  pose proof (si_at s Hi me) as (_ & _ & _ & Hz). rewrite Hpc in Hz.
  apply did_sem with Take; rewrite ?Hpc; try done.
  rewrite Hsm, fn_lookup_insert. apply did_take; [apply Hi|done].
Qed.

Lemma step_release me s ns o pc t w :
  sleep_inv s -> ts_pc s me = TRel ns o -> sleep_step me (TRel ns o) (ts_t s) (ts_w s) = TGo pc t w ->
  sleep_did me s pc t w.
Proof.
  intros Hi Hpc Hs. cbn [sleep_step] in Hs. injection Hs as <- <- <-.
  pose proof (proj1 (sem_io me g_timer_sem (ts_w s))) as Hio.
  destruct (did_drop me (sems (ts_w s) g_timer_sem)) as (st & Hst & Hd); [apply Hi| |].
  { rewrite (si_nest s Hi), Hpc. cbn. lia. }
  destruct (sem_release_law _ _ _ _ Hst) as (Hsm & Hv).
  pose proof (si_at s Hi me) as (_ & Hg & _ & Hz). rewrite Hpc in Hz, Hg.
  apply did_sem with Drop; rewrite ?Hpc; try done; [|by rewrite Hsm, fn_lookup_insert|].
  - destruct o as [j|]; [|by destruct (ns / 100 =? 0); [split|apply at_none]].
    split; [done|]. split; [by intros i [= <-]; apply Hg|]. done.
  - destruct o; [done|]. by destruct (ns / 100 =? 0).
Qed.

Lemma step_scan me s ns pc t w :
  sleep_inv s -> ts_pc s me = TScan ns -> sleep_step me (TScan ns) (ts_t s) (ts_w s) = TGo pc t w ->
  sleep_did me s pc t w.
Proof.
  intros Hi Hpc Hs. cbn [sleep_step] in Hs. injection Hs as <- <- <-.
  pose proof (si_at s Hi me) as (_ & _ & _ & Hz). rewrite Hpc in Hz.
  unfold find_timer_slot. destruct (slot_at me (g_timer_slots (ts_t s))) as [i|] eqn:Hme.
  { apply did_move; rewrite ?Hpc; try done. split; [done|]. split; [|done].
    intros j [= <-]. by apply slot_at_Some. }
  destruct (slot_at 0 (g_timer_slots (ts_t s))) as [j|] eqn:Hnone; cycle 1.
  { by apply did_move; rewrite ?Hpc. }
  apply did_move; rewrite ?Hpc; try done. split; [|done]. intros i [= <-].
  split; [intros k x Hx; by eapply slot_at_None|].
  destruct (slot_at_Some _ _ _ Hnone) as (x & Hx & Ho). exists x. split; [done|]. split; [|done].
  split; [done|]. destruct (si_free s Hi j x Hx Ho) as [?|(u & Hu)]; [done|].
  exfalso. assert (u = me) as ->.
  { apply (section_one s); [done|by eapply building_table|by rewrite Hpc]. }
  by rewrite Hpc in Hu.
Qed.

Lemma step_send me s ns j pc t w :
  sleep_inv s -> ts_pc s me = TSend ns j -> sleep_step me (TSend ns j) (ts_t s) (ts_w s) = TGo pc t w ->
  sleep_did me s pc t w.
Proof.
  intros Hi Hpc Hs. cbn [sleep_step] in Hs.
  pose proof (si_at s Hi me) as (_ & Hg & _ & Hz). rewrite Hpc in Hz, Hg.
  destruct (Hg j eq_refl) as (x & Hx & Ho). unfold at_slot in Hs. rewrite Hx in Hs.
  destruct (sleep_time ns) as [sec us]. injection Hs as <- <- <-.
  destruct (send_law (t_req x) sec us (ts_w s))
    as ((Hp & Hown & Hb & Hsm) & Hio).
  apply did_quiet; rewrite ?Hpc, ?Hsm, ?Hio; try done; try apply Hi.
  - split; [done|]. split; [done|]. split; [|done]. intros r [= <-]. by exists j, x.
  - rewrite (si_nest s Hi), Hpc. done.
  - intros y. apply kept_same; by rewrite ?Hio.
  - cbn. intros r [->%elem_of_singleton|?]%elem_of_union; [right|by left]. by exists j, x.
  - intros i y Hy Hoy _ _. f_equal. assert (i = j) as ->; [|congruence].
    apply (si_uniq s Hi i j y x); [done..|congruence|congruence|left; congruence].
Qed.

Lemma step_wait me s r pc t w :
  sleep_inv s -> ts_pc s me = TWait r -> sleep_step me (TWait r) (ts_t s) (ts_w s) = TGo pc t w ->
  sleep_did me s pc t w.
Proof.
  intros Hi Hpc Hs. cbn [sleep_step] in Hs.
  destruct (WaitReq me r (ts_w s)) as [w'|] eqn:Hw; [|done]. injection Hs as <- <- <-.
  destruct (wait_req_law _ _ _ _ Hw) as ((Hp & Hown & Hb & Hsm) & Hio).
  apply did_quiet; rewrite ?Hpc, ?Hsm, ?Hio; try done; try apply Hi.
  - rewrite (si_nest s Hi), Hpc. done.
  - intros y. apply kept_same; by rewrite ?Hio.
  - cbn. intros q [? _]%elem_of_difference. by left.
  - cbn. intros i y Hy Hoy Hz [Hf Hn]%elem_of_difference. exfalso. apply Hn, elem_of_singleton.
    assert (Hq : ts_pc s (t_owner y) = TWait (t_req y)) by (apply (si_fly s Hi i); congruence).
    rewrite Hoy, Hpc in Hq. congruence.
Qed.
(** *** Building *)

(** The builder is at the slot [x]. *)
Definition builds me s j x : Prop :=
  building (ts_pc s me) = Some j /\ me <> 0 /\ no_owner me (ts_t s) /\
  g_timer_slots (ts_t s) !! j = Some x /\ built me (ts_pc s me) x (ts_w s) /\
  req_alone (ts_pc s me) x (ts_t s).

Lemma at_builds me s j : sleep_inv s -> building (ts_pc s me) = Some j -> exists x, builds me s j x.
Proof.
  intros Hi Hb. destruct (si_at s Hi me) as (Hbb & _ & _ & Hz).
  destruct (Hbb j Hb) as (Hno & x & Hx & Hbx & Hr). exists x. split; [done|].
  split; [|done]. by destruct (ts_pc s me).
Qed.

Lemma store_lookup j x' t i y :
  (j < length (g_timer_slots t))%nat -> g_timer_slots (store j x' t) !! i = Some y ->
  (i = j /\ y = x') \/ (i <> j /\ g_timer_slots t !! i = Some y).
Proof.
  intros Hj. cbn. destruct (decide (i = j)) as [->|Hne].
  - rewrite list_lookup_insert_eq by done. intros [= <-]. by left.
  - rewrite list_lookup_insert_ne by done. by right.
Qed.

Lemma store_id j x t : g_timer_slots t !! j = Some x -> store j x t = t.
Proof. intros Hx. unfold store, set_slots. rewrite list_insert_id by done. by destruct t. Qed.

(** A step that goes on building. *)
Lemma did_next me s pc j x x' w :
  sleep_inv s -> builds me s j x -> t_owner x' = 0 ->
  building pc = Some j \/ (x' = no_slot /\ exists ns, pc = TRel ns None) ->
  sems w = sems (ts_w s) ->
  (forall y, own_ok y (ts_w s) -> t_owner y <> me -> (forall i, g_timer_slots (ts_t s) !! i = Some y ->
     t_owner y <> 0 -> kept y (ts_w s) w)) ->
  io_fly (io w) = io_fly (io (ts_w s)) -> built me pc x' w ->
  req_alone pc x' (ts_t s) ->
  sleep_did me s pc (store j x' (ts_t s)) w.
Proof.
  intros Hi (Hb & Hz & Hno & Hx & (Ho & _) & _) Ho' Hpc Hs Hk Hf Hbx Hr.
  assert (Hlt : (j < length (g_timer_slots (ts_t s)))%nat) by by eapply lookup_lt_Some.
  assert (Hpt : in_table pc = true).
  { destruct Hpc as [?|(_ & ns & ->)]; [by eapply building_table|done]. }
  apply (did_build me s pc j x x'); try done.
  - left. split; [done|]. destruct Hpc as [?|(? & _)]; auto.
  - by rewrite Hs.
  - intros i y Hy Hoy Hm Hown. by apply (Hk y Hown Hm i).
  - destruct Hpc as [Hpc|(_ & ns & ->)]; [|done].
    split; [|destruct pc; try discriminate Hpc; done]. intros i Hij.
    rewrite Hpc in Hij. injection Hij as <-. split.
    + intros k y [[_ ->]|[_ Hy]]%store_lookup; [congruence|by apply (Hno k)|done].
    + exists x'. split; [by apply list_lookup_insert_eq|]. split; [done|].
      destruct pc; try done; intros k y [[_ ->]|[_ Hy]]%store_lookup Hoy; try done; by apply (Hr k).
Qed.

Lemma step_port me s ns j pc t w :
  sleep_inv s -> ts_pc s me = TPort ns j -> sleep_step me (TPort ns j) (ts_t s) (ts_w s) = TGo pc t w ->
  sleep_did me s pc t w.
Proof.
  intros Hi Hpc Hs. destruct (at_builds me s j Hi) as (x & Hbx); [by rewrite Hpc|].
  pose proof Hbx as (_ & _ & _ & Hx & (_ & Hn) & _). rewrite Hpc in Hn. cbn in Hn.
  cbn [sleep_step] in Hs. unfold at_slot in Hs. rewrite Hx in Hs.
  pose proof (port_alloc me (ts_w s)) as Hp. destruct (AllocSysPort me false (ts_w s)) as [p w'].
  injection Hs as <- <- <-. destruct Hp as (Hio & Hsm & Hk & Hl).
  apply did_next with x; try done; try (by subst; auto); try (by rewrite Hio).
  - subst x. destruct (Z.eqb_spec p 0) as [->|Hp]; [right; eauto|by left].
  - subst x. split; [done|]. destruct (Z.eqb_spec p 0) as [->|Hp]; [done|]. cbn. auto.
  - by destruct (p =? 0).
Qed.
Lemma live_same me p w w' : same_ports w w' -> live_port me p w -> live_port me p w'.
Proof. intros (Hp & Ho & Hb & _). unfold live_port. by rewrite Hp, Ho, Hb. Qed.

Lemma kept_frame x w w' :
  same_ports w w' -> (t_req x ∈ io_reqs (io w) -> t_req x ∈ io_reqs (io w')) ->
  io_open (io w) ⊆ io_open (io w') -> kept x w w'.
Proof. intros (Hp & Ho & Hb & _). by apply kept_same. Qed.

Lemma same_sems w w' : same_ports w w' -> sems w' = sems w.
Proof. by intros (_ & _ & _ & ?). Qed.

Lemma step_req me s ns j pc t w :
  sleep_inv s -> ts_pc s me = TReq ns j -> sleep_step me (TReq ns j) (ts_t s) (ts_w s) = TGo pc t w ->
  sleep_did me s pc t w.
Proof.
  intros Hi Hpc Hs. destruct (at_builds me s j Hi) as (x & Hbx); [by rewrite Hpc|].
  pose proof Hbx as (_ & _ & _ & Hx & (Ho & Hn) & _). rewrite Hpc in Hn. destruct Hn as (Hl & Hr).
  cbn [sleep_step] in Hs. unfold at_slot in Hs. rewrite Hx in Hs.
  pose proof (alloc_req_law (t_port x) (ts_w s)) as Ha.
  destruct (AllocIORequest (t_port x) (ts_w s)) as [r w']. injection Hs as <- <- <-.
  destruct Ha as (Hsp & Hc). pose proof (live_same _ _ _ _ Hsp Hl) as Hl'.
  assert (Hk : forall y, kept y (ts_w s) w').
  { intros y. apply kept_frame; [done|..]; destruct Hc as [(_ & ->)|(_ & _ & _ & ->)]; cbn; set_solver. }
  apply did_next with x; try done; try (by apply same_sems).
  - left. by destruct (r =? 0).
  - by destruct Hc as [(_ & ->)|(_ & _ & _ & ->)].
  - split; [done|]. destruct (Z.eqb_spec r 0) as [->|Hz]; [done|]. cbn.
    destruct Hc as [(? & _)|(_ & Hf & Hfl & Hio)]; [done|]. rewrite Hio. cbn. set_solver.
  - destruct (Z.eqb_spec r 0) as [->|Hz]; [done|]. cbn. intros i y Hy Hoy Heq.
    destruct (si_own s Hi i y Hy Hoy) as (_ & _ & Hin & _).
    destruct Hc as [(? & _)|(_ & ? & _)]; congruence.
Qed.

(** The port is freed, and the slot is as it was. *)
Lemma did_unport me s ns j x :
  sleep_inv s -> builds me s j x -> live_port me (t_port x) (ts_w s) ->
  sleep_did me s (TRel ns None) (store j no_slot (ts_t s)) (FreeSysPort (t_port x) (ts_w s)).
Proof.
  intros Hi Hbx (_ & _ & Hm & _). destruct (port_free _ _ _ Hm) as (Hio & Hsm & Hk).
  apply did_next with x; try done; [right; eauto| |by rewrite Hio].
  intros y Hy Hoy _ _ _. by apply Hk.
Qed.

Lemma step_noreq me s ns j pc t w :
  sleep_inv s -> ts_pc s me = TNoReq ns j -> sleep_step me (TNoReq ns j) (ts_t s) (ts_w s) = TGo pc t w ->
  sleep_did me s pc t w.
Proof.
  intros Hi Hpc Hs. destruct (at_builds me s j Hi) as (x & Hbx); [by rewrite Hpc|].
  pose proof Hbx as (_ & _ & _ & Hx & (Ho & Hn) & _). rewrite Hpc in Hn. destruct Hn as (Hl & Hr).
  cbn [sleep_step] in Hs. unfold at_slot in Hs. rewrite Hx in Hs. injection Hs as <- <- <-.
  assert (set_port 0 x = no_slot) as -> by (unfold set_port; by rewrite Ho, Hr).
  by apply did_unport.
Qed.

Lemma step_nodevport me s ns j pc t w :
  sleep_inv s -> ts_pc s me = TNoDevPort ns j ->
  sleep_step me (TNoDevPort ns j) (ts_t s) (ts_w s) = TGo pc t w -> sleep_did me s pc t w.
Proof.
  intros Hi Hpc Hs. destruct (at_builds me s j Hi) as (x & Hbx); [by rewrite Hpc|].
  pose proof Hbx as (_ & _ & _ & Hx & (Ho & Hl) & _). rewrite Hpc in Hl. cbn in Hl.
  cbn [sleep_step] in Hs. unfold at_slot in Hs. rewrite Hx in Hs. injection Hs as <- <- <-.
  assert (set_port 0 (set_req 0 x) = no_slot) as -> by (unfold set_port, set_req; cbn; by rewrite Ho).
  by apply did_unport.
Qed.

Lemma step_nodev me s ns j pc t w :
  sleep_inv s -> ts_pc s me = TNoDev ns j -> sleep_step me (TNoDev ns j) (ts_t s) (ts_w s) = TGo pc t w ->
  sleep_did me s pc t w.
Proof.
  intros Hi Hpc Hs. destruct (at_builds me s j Hi) as (x & Hbx); [by rewrite Hpc|].
  pose proof Hbx as (_ & _ & _ & Hx & (Ho & Hn) & Hr). rewrite Hpc in Hn, Hr. cbn in Hn, Hr.
  destruct Hn as (Hl & Hn).
  cbn [sleep_step] in Hs. unfold at_slot in Hs. rewrite Hx in Hs. injection Hs as <- <- <-.
  rewrite <- (store_id j x (ts_t s)) by done.
  destruct (free_req_law (t_req x) (ts_w s)) as (Hsp & Hio).
  apply did_next with x; try done; try (by apply same_sems); try (by rewrite Hio); [by left| |].
  - intros y _ _ i Hy Hoy. apply kept_frame; [done|..]; rewrite Hio; cbn; [|done].
    pose proof (Hr i y Hy Hoy). set_solver.
  - split; [done|]. cbn. by eapply live_same.
Qed.

Lemma step_open me s ns j pc t w :
  sleep_inv s -> ts_pc s me = TOpen ns j -> sleep_step me (TOpen ns j) (ts_t s) (ts_w s) = TGo pc t w ->
  sleep_did me s pc t w.
Proof.
  intros Hi Hpc Hs. destruct (at_builds me s j Hi) as (x & Hbx); [by rewrite Hpc|].
  pose proof Hbx as (Hbd & Hz & Hno & Hx & (Ho & Hn) & Hr). rewrite Hpc in Hn, Hr. cbn in Hn, Hr.
  destruct Hn as (Hl & Hnz & Hin & Hfl).
  cbn [sleep_step] in Hs. unfold at_slot in Hs. rewrite Hx in Hs.
  pose proof (open_law (t_req x) (ts_w s)) as Hop.
  destruct (OpenDevice (t_req x) (ts_w s)) as [e w']. destruct Hop as (Hsp & Hio).
  pose proof (live_same _ _ _ _ Hsp Hl) as Hl'. pose proof (same_sems _ _ Hsp) as Hsm.
  destruct (Z.eqb_spec e 0) as [->|He]; cbn [negb] in Hs; injection Hs as <- <- <-.
  - apply (did_build me s _ j x (set_owner me x)); try done.
    + right. unfold own_ok. rewrite Hio. cbn. set_solver.
    + by rewrite Hsm.
    + intros i y _ _ _ _. apply kept_frame; [done|..]; rewrite Hio; cbn; set_solver.
    + by rewrite Hio.
    + split; [done|]. split; [|done]. intros i [= <-]. exists (set_owner me x).
      split; [|done]. apply list_lookup_insert_eq. by eapply lookup_lt_Some.
  - rewrite <- (store_id j x (ts_t s)) by done.
    apply did_next with x; try done; try (by rewrite Hio); [by left| |].
    + intros y _ _ i _ _. apply kept_frame; [done|..]; rewrite Hio; set_solver.
    + split; [done|]. cbn. rewrite Hio. done.
Qed.

(** ** Every step *)

Lemma sleep_step_did me s pc t w :
  sleep_inv s -> sleep_step me (ts_pc s me) (ts_t s) (ts_w s) = TGo pc t w -> sleep_did me s pc t w.
Proof.
  intros Hi Hs. destruct (ts_pc s me) as [|ns|ns|ns|ns|ns|ns j|ns j|ns j|ns j|ns j|ns j|ns o|ns j|r|] eqn:Hpc;
    try discriminate Hs.
  - cbn [sleep_step] in Hs. injection Hs as <- <- <-. rewrite (si_init s Hi).
    pose proof (si_at s Hi me) as (_ & _ & _ & Hz). rewrite Hpc in Hz.
    by apply did_move; rewrite ?Hpc.
  - by destruct (si_at s Hi me) as (_ & _ & _ & Hz); rewrite Hpc in Hz.
  - by destruct (si_at s Hi me) as (_ & _ & _ & Hz); rewrite Hpc in Hz.
  - by eapply step_obtain.
  - by eapply step_scan.
  - by eapply step_port.
  - by eapply step_req.
  - by eapply step_noreq.
  - by eapply step_open.
  - by eapply step_nodev.
  - by eapply step_nodevport.
  - by eapply step_release.
  - by eapply step_send.
  - by eapply step_wait.
Qed.

Lemma sleep_inv_act s s' : sleep_inv s -> sleep_act s s' -> sleep_inv s'.
Proof.
  intros Hi Ha. revert Hi. destruct Ha as [s me ns Hpc Hz Hns|s me pc t w Hs|s w Hw]; intros Hi.
  - apply sleep_inv_did; [done|]. by apply did_move; rewrite ?Hpc.
  - by apply sleep_inv_did, sleep_step_did.
  - by apply sleep_inv_aside.
Qed.

Lemma ready_kept t t' w w' :
  timer_ready t w -> g_timer_slots t' = g_timer_slots t ->
  (g_timer_sem_init t' = true -> sems w' g_timer_sem = Free) ->
  (forall x, x ∈ g_timer_slots t -> kept x w w' /\ unsent x w w') -> timer_ready t' w'.
Proof.
  intros [] Ht Hs Hk. split; rewrite ?Ht; try done. intros i x Hx Ho.
  destruct (Hk x) as [Hkx Hux]; [by eapply list_elem_of_lookup_2|].
  destruct (tr_own0 i x Hx Ho) as [? Hf]. split; [by eapply own_kept|]. intros Hn. by apply Hf, Hux.
Qed.

(** What a step of the first sleep does. *)
Lemma first_sleep_act s s' : first_sleep s -> orderly_act s s' -> first_sleep s' \/ sleep_inv s'.
Proof.
  intros [Hr Hi (me & Hme & Hu & Hpc)] [Ha Ho].
  destruct Ha as [s you ns Hy Hz Hns|s you pc t w Hs|s w Hw]; cbn [ts_t ts_w ts_pc] in *.
  - left. assert (Hidle : forall u, ts_pc s u = TIdle).
    { destruct Ho as [?|[?|Hno]]; [congruence|done|]. specialize (Hno you Hy).
      by rewrite fn_lookup_insert in Hno. }
    split; [done..|]. exists you. cbn [ts_pc]. split; [done|]. split.
    + intros u Hne. by rewrite fn_lookup_insert_ne.
    + right. exists ns. left. apply fn_lookup_insert.
  - destruct (decide (you = me)) as [->|Hne]; [|by rewrite (Hu you Hne) in Hs].
    assert (Hn : forall u pc, u <> me -> (<[me := pc]> (ts_pc s)) u = TIdle)
      by (intros; rewrite fn_lookup_insert_ne by done; auto).
    destruct Hpc as [Hpc|(ns & [Hpc|[Hpc|[Hpc Hfree]]])]; rewrite Hpc in Hs; cbn [sleep_step] in Hs;
      simplify_eq.
    + left. rewrite Hi. split; [done..|]. exists me. cbn [ts_pc]. split; [done|]. split; [auto|].
      right. exists ns. right. left. apply fn_lookup_insert.
    + left. split; cbn [ts_t ts_w ts_pc].
      * eapply ready_kept; [exact Hr|done|by rewrite Hi|]. intros x _.
        unfold kept, unsent, live_port. by rewrite (proj2 (sem_init_law _ _)), init_io.
      * done.
      * exists me. split; [done|]. split; [auto|]. right. exists ns. right. right.
        split; [apply fn_lookup_insert|]. rewrite (proj1 (sem_init_law _ _)). apply fn_lookup_insert.
    + right. apply sleep_inv_ready; cbn [ts_t ts_w ts_pc]; [|done|].
      * eapply ready_kept; [exact Hr|done|done|]. by unfold kept, unsent.
      * intros u. destruct (decide (u = me)) as [->|]; [right|left; auto]. split; [done|].
        exists ns. apply fn_lookup_insert.
  - left. destruct Hw as [Hsw Hk]. split; cbn [ts_t ts_w ts_pc].
    + eapply ready_kept; [exact Hr|done|by rewrite Hi|exact Hk].
    + done.
    + exists me. split; [done|]. split; [done|]. by rewrite Hsw.
Qed.

Lemma sleep_inv_reach t w s :
  timer_ready t w -> rtc orderly_act (sleep_boot t w) s -> first_sleep s \/ sleep_inv s.
Proof.
  intros Hr Hs.
  apply (rtc_ind_r (R := orderly_act) (fun s => first_sleep s \/ sleep_inv s) (sleep_boot t w));
    [| |exact Hs].
  - destruct (g_timer_sem_init t) eqn:Hi.
    + right. apply sleep_inv_ready; [done..|]. by left.
    + left. split; [done..|]. exists 1. split; [done|]. split; [done|]. by left.
  - intros s1 s2 _ Ha [Hf|Hi]; [by eapply first_sleep_act|]. right. eapply sleep_inv_act; [done|apply Ha].
Qed.

(** The first sleep is not at the table. *)
Lemma first_sleep_pc s me :
  first_sleep s -> ts_pc s me = TIdle \/
    exists ns, ts_pc s me = TChk ns \/ ts_pc s me = TInit ns \/ ts_pc s me = TSet ns.
Proof.
  intros [_ _ (u & _ & Hu & Hpc)]. destruct (decide (me = u)) as [->|Hne]; [|left; auto]. naive_solver.
Qed.

(** A task that builds or is given a slot finds it. *)
Lemma sleep_step_defined me s :
  sleep_inv s -> sleep_step me (ts_pc s me) (ts_t s) (ts_w s) <> TUndefined /\
  (in_table (ts_pc s me) = true ->
   exists pc t w, sleep_step me (ts_pc s me) (ts_t s) (ts_w s) = TGo pc t w).
Proof.
  intros Hi. destruct (si_at s Hi me) as (Hb & Hg & _ & _).
  assert (Hat : forall j, building (ts_pc s me) = Some j \/ given (ts_pc s me) = Some j ->
    exists x, g_timer_slots (ts_t s) !! j = Some x).
  { intros j [Hj|Hj]; [destruct (Hb j Hj) as (_ & x & ? & _)|destruct (Hg j Hj) as (x & ? & _)]; eauto. }
  destruct (ts_pc s me) as [|ns|ns|ns|ns|ns|ns j|ns j|ns j|ns j|ns j|ns j|ns o|ns j|r|];
    cbn [sleep_step building given in_table] in *; try (by split; eauto);
    try (destruct (Hat j) as (x & Hx); [by auto|]; unfold at_slot; rewrite Hx).
  - by destruct (ObtainSemaphore _ _ _).
  - destruct (AllocSysPort _ _ _). eauto.
  - destruct (AllocIORequest _ _). eauto.
  - eauto.
  - destruct (OpenDevice _ _) as [e w]. destruct (negb (e =? 0)); eauto.
  - eauto.
  - eauto.
  - done.
  - by destruct (WaitReq _ _ _).
Qed.

Lemma sends_own s me ns j :
  sleep_inv s -> ts_pc s me = TSend ns j -> exists x, g_timer_slots (ts_t s) !! j = Some x /\
    t_owner x = me /\ own_ok x (ts_w s) /\ t_req x ∉ io_fly (io (ts_w s)).
Proof.
  intros Hi Hpc. destruct (si_at s Hi me) as (_ & Hg & _ & Hz). rewrite Hpc in Hz, Hg.
  destruct (Hg j eq_refl) as (x & Hx & Ho). assert (Hnz : t_owner x <> 0) by congruence.
  exists x. split; [done|]. split; [done|]. split; [by apply (si_own s Hi j)|].
  intros Hf. pose proof (si_fly s Hi j x Hx Hnz Hf). congruence.
Qed.

Lemma waits_own s me r :
  sleep_inv s -> ts_pc s me = TWait r -> exists j x, g_timer_slots (ts_t s) !! j = Some x /\
    t_owner x = me /\ t_req x = r /\ own_ok x (ts_w s).
Proof.
  intros Hi Hpc. destruct (si_at s Hi me) as (_ & _ & Hx & Hz). rewrite Hpc in Hz.
  destruct (Hx r Hpc) as (j & x & Hl & Ho & Hq). exists j, x. repeat split_and; try done.
  apply (si_own s Hi j); congruence.
Qed.

Lemma waits_apart s me you r :
  sleep_inv s -> ts_pc s me = TWait r -> ts_pc s you = TWait r -> me = you.
Proof.
  intros Hi Hm Hy. destruct (waits_own s me r Hi Hm) as (i & x & Hx & <- & Hqx & _).
  destruct (waits_own s you r Hi Hy) as (j & y & Hyl & <- & Hqy & _).
  pose proof (si_at s Hi (t_owner x)) as (_ & _ & _ & Hzx). rewrite Hm in Hzx.
  pose proof (si_at s Hi (t_owner y)) as (_ & _ & _ & Hzy). rewrite Hy in Hzy.
  assert (i = j) as -> by (apply (si_uniq s Hi i j x y); try done; right; congruence). congruence.
Qed.

Lemma step_less me pc t w pc' t' w' :
  sleep_step me pc t w = TGo pc' t' w' -> (steps_left pc' < steps_left pc)%nat.
Proof.
  destruct pc as [|ns|ns|ns|ns|ns|ns j|ns j|ns j|ns j|ns j|ns j|ns o|ns j|r|];
    cbn [sleep_step]; unfold at_slot, find_timer_slot; intros Hs; repeat case_match;
    simplify_eq; cbn; try lia; repeat case_match; cbn; lia.
Qed.
End inv.

