(* ===== verification/TimerSim.v ===== *)
(** * Runs of tasks that sleep

    A world with tasks, semaphores and a timer device, the witness of
    [TimerSafe.sleeps_private], and two runs outside its conditions. *)

From S2P Require Import Prelude Ipc Tasks TaskSim OsalLock OsalTimer TimerTasks TimerSafe.

(** ** A world *)

Record devices := mk_devices { dv_sems : Z -> sem; dv_io : ioview; dv_asked : list (Z * Z * Z) }.

Abbreviation tworld := (kview * devices)%type.

Definition on_sem (s : Z) (st : sem) (w : tworld) : tworld :=
  (fst w, mk_devices (<[s := st]> (dv_sems (snd w))) (dv_io (snd w)) (dv_asked (snd w))).
Definition on_io (f : ioview -> ioview) (w : tworld) : tworld :=
  (fst w, mk_devices (dv_sems (snd w)) (f (dv_io (snd w))) (dv_asked (snd w))).
Definition ask (r s us : Z) (w : tworld) : tworld :=
  (fst w, mk_devices (dv_sems (snd w)) (dv_io (snd w)) (dv_asked (snd w) ++ [(r, s, us)])).

#[export] Instance tworld_sems : Sems tworld := {
  InitSemaphore s w := on_sem s Free w;
  ObtainSemaphore t s w := st ← sem_obtain t (dv_sems (snd w) s); Some (on_sem s st w);
  ObtainSemaphoreShared t s w := st ← sem_share t (dv_sems (snd w) s); Some (on_sem s st w);
  AttemptSemaphore t s w :=
    match sem_obtain t (dv_sems (snd w) s) with Some st => (1, on_sem s st w) | None => (0, w) end;
  ReleaseSemaphore t s w :=
    match sem_release t (dv_sems (snd w) s) with Some st => on_sem s st w | None => w end;
  SetSignal t new mask w :=
    let old := k_sig (fst w) t in
    (old, (kv_sig t (Z.lor (Z.ldiff old mask) (Z.land new mask)) (fst w), snd w))
}.

#[export] Instance tworld_semview : SemView tworld := { sems w := dv_sems (snd w) }.

#[export] Instance tworld_semlaws : SemLaws tworld.
Proof.
  split.
  - done.
  - intros t s [v f] w'. cbn. destruct (sem_obtain t _) as [st|]; [|done]. intros [= <-]. eauto.
  - intros t s [v f] w'. cbn. destruct (sem_share t _) as [st|]; [|done]. intros [= <-]. eauto.
  - intros t s [v f]. cbn. destruct (sem_obtain t _) as [st|]; cbn; [|auto].
    split; [done|]. right. split; [done|]. eauto.
  - intros t s [v f] st. cbn. by intros ->.
  - by intros t new mask [v f].
  - by intros t m [v f].
  - intros t m [v f] got w'. change (Wait t m (v, f)) with ('(g, v') ← Wait t m v; Some (g, (v', f))).
    destruct (Wait t m v) as [[g v']|]; [|done]. by intros [= _ <-].
Qed.

#[export] Instance tworld_frame : SemFrame tworld.
Proof.
  split.
  - intros f w []; done.
  - intros p [v f] w'. change (WaitPort p (v, f)) with (v' ← WaitPort p v; Some (v', f)).
    destruct (WaitPort p v) as [v'|]; [|done]. by intros [= <-].
Qed.

(** Eight requests; a request that was sent is replied to once. *)
#[export] Instance tworld_dev : TimerDev tworld := {
  AllocIORequest _ w :=
    let X := io_reqs (dv_io (snd w)) ∪ io_fly (dv_io (snd w)) in
    if decide (size X < 8)%nat then
      let r := fresh ({[0]} ∪ X) in
      (r, on_io (fun v => mk_ioview ({[r]} ∪ io_reqs v) (io_open v) (io_fly v)) w)
    else (0, w);
  FreeIORequest r := on_io (fun v => mk_ioview (io_reqs v ∖ {[r]}) (io_open v) (io_fly v));
  OpenDevice r w := (0, on_io (fun v => mk_ioview (io_reqs v) ({[r]} ∪ io_open v) (io_fly v)) w);
  DoIO r s us := ask r s us;
  Wait0 _ := None
}.

#[export] Instance tworld_timer : TimerIO tworld := {
  SendReq r s us w :=
    ask r s us (on_io (fun v => mk_ioview (io_reqs v) (io_open v) ({[r]} ∪ io_fly v)) w);
  WaitReq _ r w := if decide (r ∈ io_fly (dv_io (snd w)))
    then Some (on_io (fun v => mk_ioview (io_reqs v) (io_open v) (io_fly v ∖ {[r]})) w) else None
}.

#[export] Instance tworld_io : IOView tworld := { io w := dv_io (snd w) }.

#[export] Instance tworld_laws : TimerLaws tworld.
Proof.
  split; try done.
  - intros p [v f]. cbn. case_decide; cbn; [|by split; [|left]]. split; [done|]. right.
    destruct (fresh_pos (io_reqs (dv_io f) ∪ io_fly (dv_io f))) as [Hz Hn].
    rewrite not_elem_of_union in Hn. by destruct Hn.
  - intros t r [v f] w'. cbn. case_decide; [|done]. by intros [= <-].
  - intros f [v g] []; done.
  - intros t s [v f]. cbn. split; [by destruct (sem_release t _)|].
    intros w'. destruct (sem_obtain t _); [|done]. by intros [= <-].
Qed.

(** ** Runs *)

Inductive nap := Sleep (t ns : Z) | Go (t : Z) (n : nat).

Abbreviation tst := (tsys tworld).
Abbreviation naps := (rtc (sleep_act (W := tworld))).

Fixpoint go_n (t : Z) (n : nat) (s : tst) : option tst :=
  match n with
  | O => Some s
  | S n' =>
    match sleep_step t (ts_pc s t) (ts_t s) (ts_w s) with
    | TGo pc tm w => go_n t n' (mk_tsys tm w (<[t := pc]> (ts_pc s)))
    | _ => None
    end
  end.

Fixpoint nap_run (l : list nap) (s : tst) : option tst :=
  match l with
  | [] => Some s
  | Go t n :: l' => s ← go_n t n s; nap_run l' s
  | Sleep t ns :: l' =>
    match ts_pc s t with
    | TIdle =>
      if bool_decide (t <> 0 /\ is_u64 ns)
      then nap_run l' (mk_tsys (ts_t s) (ts_w s) (<[t := TChk ns]> (ts_pc s))) else None
    | _ => None
    end
  end.

Lemma go_n_acts t n s s' : go_n t n s = Some s' -> naps s s'.
Proof.
  revert s. induction n as [|n IH]; intros s; cbn; [by intros [= ->]|].
  destruct (sleep_step t _ _ _) as [| |pc tm w] eqn:Hs; try done. intros Hr.
  eapply rtc_l; [by apply sleep_go|by apply IH].
Qed.

Lemma nap_run_acts l s s' : nap_run l s = Some s' -> naps s s'.
Proof.
  revert s. induction l as [|[t ns|t n] l IH]; intros s; cbn; [by intros [= ->]| |].
  - destruct (ts_pc s t) eqn:Hpc; try done. case_bool_decide as Hb; [|done]. destruct Hb as [Hz Hn].
    intros Hr. eapply rtc_l; [by apply sleep_call|by apply IH].
  - destruct (go_n t n s) as [s1|] eqn:Hg; [|done]. cbn. intros Hr.
    etrans; [by eapply go_n_acts|by apply IH].
Qed.

Lemma default_naps l s : naps s (default s (nap_run l s)).
Proof. destruct (nap_run l s) as [s'|] eqn:Hr; [by eapply nap_run_acts|done]. Qed.

(** Steps of a sleep begin no other. *)
Lemma go_orderly s me pc t w :
  sleep_step me (ts_pc s me) (ts_t s) (ts_w s) = TGo pc t w ->
  orderly_act s (mk_tsys t w (<[me := pc]> (ts_pc s))).
Proof.
  intros Hs. split; [by apply sleep_go|]. right. right. intros u Hu. cbn [ts_pc].
  rewrite fn_lookup_insert_ne; [done|]. intros <-. by rewrite Hu in Hs.
Qed.

Lemma go_n_orderly t n s s' : go_n t n s = Some s' -> rtc orderly_act s s'.
Proof.
  revert s. induction n as [|n IH]; intros s; cbn; [by intros [= ->]|].
  destruct (sleep_step t _ _ _) as [| |pc tm w] eqn:Hs; try done. intros Hr.
  eapply rtc_l; [by apply go_orderly|by apply IH].
Qed.

(** Once the semaphore is initialised every run is orderly. *)
Lemma acts_orderly (s s' : tst) :
  naps s s' -> g_timer_sem_init (ts_t s) = true -> rtc orderly_act s s'.
Proof.
  intros Hn. induction Hn as [|s1 s2 s3 Ha _ IH]; intros Hi; [done|].
  eapply rtc_l; [split; [exact Ha|by left]|]. apply IH.
  destruct Ha as [| s me pc t w Hs|]; cbn [ts_t] in *; try done.
  destruct (ts_pc s me) as [|ns|ns|ns|ns|ns|ns j|ns j|ns j|ns j|ns j|ns j|ns o|ns j|r|];
    cbn [sleep_step] in Hs; unfold at_slot in Hs; repeat case_match; by simplify_eq.
Qed.

Definition tw0 : tworld :=
  (mk_kview (fun _ => 0) (fun _ => ∅) (fun _ => []) ∅ (fun _ => (0, 0)) {[1; 2; 3]} 0,
   mk_devices (fun _ => Free) (mk_ioview ∅ ∅ ∅) []).

(** Initialised, no slot used. *)
Definition timer_fresh : timer := mk_timer true (g_timer_slots timer_init).

(** The program starts with the semaphore not initialised. *)
Lemma timer_init_ready : timer_ready timer_init tw0.
Proof.
  assert (Hn : forall i x, g_timer_slots timer_init !! i = Some x -> x = no_slot).
  { intros i x. cbn [timer_init g_timer_slots]. by intros [-> _]%lookup_replicate. }
  split; try done; naive_solver.
Qed.

(** Task 2 begins the first sleep and initialises the semaphore. *)
Definition first_nap : tst :=
  mk_tsys timer_init tw0 (<[2 := TChk 1500000000]> (ts_pc (sleep_boot timer_init tw0))).
Definition after_init : tst := default first_nap (go_n 2 3 first_nap).

(** Task 3 waits at the semaphore while task 2 builds its slot; then both wait for the
    device. *)
Definition two_naps : tst := default after_init
  (nap_run [Sleep 3 10000000; Go 2 2; Go 3 1; Go 2 5; Go 3 7] after_init).

Lemma two_naps_reached : rtc orderly_act (sleep_boot timer_init tw0) two_naps.
Proof.
  eapply rtc_l; [split; [by apply (sleep_call _ 2 1500000000)|by right; left]|].
  etrans; [apply (go_n_orderly 2 3 _ after_init); vm_compute; reflexivity|].
  apply acts_orderly; [apply default_naps|vm_compute; reflexivity].
Qed.


(** ** Outside the conditions *)

(** Two first sleeps that overlap both initialise the semaphore; both tasks are then at
    the table and build the same slot.  Both send the request that the later one put
    there, and wait for its reply, which goes to one of them. *)
Theorem first_sleeps_race :
  exists s s' r, naps (sleep_boot timer_init tw0) s /\
    in_table (ts_pc s 2) = true /\ in_table (ts_pc s 3) = true /\
    naps s s' /\ ts_pc s' 2 = TWait r /\ ts_pc s' 3 = TWait r /\
    dv_asked (snd (ts_w s')) = [(r, 0, 10000); (r, 0, 20000)].
Proof.
  set (l1 := [Sleep 2 10000000; Sleep 3 20000000; Go 2 1; Go 3 1; Go 2 4; Go 3 4]).
  set (l2 := [Go 2 4; Go 3 4; Go 2 1; Go 3 1]).
  set (s := default (sleep_boot timer_init tw0) (nap_run l1 (sleep_boot timer_init tw0))).
  exists s, (default s (nap_run l2 s)), 2.
  split; [apply default_naps|]. do 2 (split; [vm_compute; reflexivity|]).
  split; [apply default_naps|]. repeat split; vm_compute; reflexivity.
Qed.

(** A slot is never given up.  A new task at the address of one that slept and ended
    finds the old one's slot, whose port signals it by a bit it does not own. *)
Theorem slot_outlives_task :
  exists s s' x, naps (sleep_boot timer_fresh tw0) s /\ ts_pc s 2 = TIdle /\
    naps (mk_tsys (ts_t s) (kv_spawn 2 (fst (ts_w s)), snd (ts_w s)) (ts_pc s)) s' /\
    ts_pc s' 2 = TSend 10000000 0 /\ g_timer_slots (ts_t s') !! 0%nat = Some x /\
    fst (k_owner (view (ts_w s')) (t_port x)) = 2 /\
    snd (k_owner (view (ts_w s')) (t_port x)) ∉ k_bits (view (ts_w s')) 2.
Proof.
  set (s := default (sleep_boot timer_fresh tw0)
    (nap_run [Sleep 2 10000000; Go 2 9] (sleep_boot timer_fresh tw0))).
  set (s1 := mk_tsys (ts_t s) (kv_spawn 2 (fst (ts_w s)), snd (ts_w s)) (ts_pc s) : tst).
  exists s, (default s1 (nap_run [Sleep 2 10000000; Go 2 4] s1)), (mk_timer_slot 2 1 1).
  split; [apply default_naps|]. split; [vm_compute; reflexivity|].
  split; [apply default_naps|]. do 3 (split; [vm_compute; reflexivity|]).
  apply (bool_decide_unpack _). vm_compute. exact I.
Qed.
