(* ===== verification/CvTasks.v ===== *)
(** * Condition variables among tasks (src/phase1_osal/osal_lock.c)

    Any number of tasks use any number of mutexes and condition variables.  Each
    is a machine that makes one step per system call, and one step per section of
    code it runs between obtaining and releasing the guard semaphore of a
    variable; that these sections exclude each other is proved in CvSafe.v.  The
    sections themselves are those of OsalCv.v. *)

From S2P Require Import Prelude Ipc OsalCv Tasks OsalLock.

(** SIGF_SINGLE is this bit. *)
Definition SIGB_SINGLE : Z := 4.

(** ** Calls and where a task is in them *)

Inductive call :=
  | CallLock | CallTry | CallUnlock            (* osal_mutex_lock, _trylock, _unlock *)
  | CallWait | CallTimedWait (timeout_ns : Z)  (* osal_cv_wait, osal_cv_timedwait *)
  | CallSignal | CallBroadcast.                (* osal_cv_signal, osal_cv_broadcast *)

(** The [option] in the waits is the time-out. *)
Inductive cpc :=
  | CIdle (rv : Z)                  (* outside; what the last call returned *)
  | CLocking | CTrying | CUnlocking
  | CClear (to : option Z)          (* SetSignal(0, mask) *)
  | CGuard (to : option Z)          (* ObtainSemaphore(&cv->guard) *)
  | CQueue (to : option Z)          (* the section that queues the caller *)
  | CLeave (to : option Z)          (* ReleaseSemaphore(&cv->guard) *)
  | CUnlock (to : option Z)         (* osal_mutex_unlock(mtx) *)
  | CSleep                          (* Wait(mask) *)
  | CPoll (timeout_ns elapsed : Z)  (* while (elapsed < timeout_ns), SetSignal(0, 0) *)
  | CGot                            (* SetSignal(0, mask); rv = 0; break *)
  | CNap (timeout_ns elapsed : Z)   (* osal_sleep_ns(poll_ns) *)
  | CCancelGuard | CCancel | CCancelLeave
  | CRelock (rv : Z)                (* osal_mutex_lock(mtx) *)
  | CPanicLeave | CPanic            (* a full list: release the guard, osal_panic *)
  | CSigGuard | CSigPop
  | CSigLeave (x : option osal_cv_waiter)
  | CSigSend (x : osal_cv_waiter)   (* Signal(w.task, w.sigmask) *)
  | CAllGuard | CAllPop             (* while (cv->count > 0) *)
  | CAllSend (x : osal_cv_waiter)
  | CAllLeave.

Definition enter (c : call) : cpc :=
  match c with
  | CallLock => CLocking
  | CallTry => CTrying
  | CallUnlock => CUnlocking
  | CallWait => CClear None
  | CallTimedWait ns => CClear (Some ns)
  | CallSignal => CSigGuard
  | CallBroadcast => CAllGuard
  end.

Inductive outcome (W : Type) :=
  | Blocked                                   (* the task waits, or is in no call *)
  | Undefined                                 (* undefined behaviour *)
  | Go (pc : cpc) (cv : osal_cv) (w : W).
Arguments Blocked {W}. Arguments Undefined {W}. Arguments Go {W} pc cv w.

(** A section of OsalCv.v on the variable. *)
Definition section {A} (m : M cvst A) (cv : osal_cv) : option (A * osal_cv) :=
  '(a, (cv', _)) ← m (cv, []); Some (a, cv').

Section step.
Context {W : Type} `{!Tasks W, !Sems W} (mtx guard : Z).
Implicit Types (cv : osal_cv) (w : W).

(** Obtaining the guard. *)
Definition guarded (me : Z) (pc : cpc) cv w : outcome W :=
  match ObtainSemaphore me guard w with Some w => Go pc cv w | None => Blocked end.

Definition unguard (me : Z) (pc : cpc) cv w : outcome W :=
  Go pc cv (ReleaseSemaphore me guard w).

Definition locked (me : Z) (pc : cpc) cv w : outcome W :=
  match osal_mutex_lock me mtx w with Some w => Go pc cv w | None => Blocked end.

Definition in_section {A} (m : M cvst A) (k : A -> cpc) cv w : outcome W :=
  match section m cv with Some (a, cv) => Go (k a) cv w | None => Undefined end.

(** One step of the task [me]. *)
Definition cv_task_step (me : Z) (pc : cpc) cv w : outcome W :=
  match pc with
  | CIdle _ | CPanic => Blocked
  | CLocking => locked me (CIdle 0) cv w
  | CTrying => let '(r, w) := osal_mutex_trylock me mtx w in Go (CIdle r) cv w
  | CUnlocking => Go (CIdle 0) cv (osal_mutex_unlock me mtx w)
  (* the waits *)
  | CClear to => Go (CGuard to) cv (snd (SetSignal me 0 SIGF_SINGLE w))
  | CGuard to => guarded me (CQueue to) cv w
  | CQueue to =>
    if OSAL_CV_MAX_WAITERS <=? cv_count cv then Go CPanicLeave cv w
    else in_section (cv_push me SIGF_SINGLE) (fun _ => CLeave to) cv w
  | CLeave to => unguard me (CUnlock to) cv w
  | CUnlock to =>
    Go (match to with None => CSleep | Some ns => CPoll ns 0 end) cv (osal_mutex_unlock me mtx w)
  | CSleep => match Wait me SIGF_SINGLE w with Some (_, w) => Go (CRelock 0) cv w | None => Blocked end
  | CRelock rv => locked me (CIdle rv) cv w
  | CPanicLeave => unguard me CPanic cv w
  (* the timed wait *)
  | CPoll ns e =>
    if e <? ns then
      let '(got, w) := SetSignal me 0 0 w in
      Go (if negb (Z.land got SIGF_SINGLE =? 0) then CGot else CNap ns e) cv w
    else Go CCancelGuard cv w
  | CGot => Go (CRelock 0) cv (snd (SetSignal me 0 SIGF_SINGLE w))
  | CNap ns e => Go (CPoll ns (u64 (e + poll_ns))) cv w
  | CCancelGuard => guarded me CCancel cv w
  | CCancel =>
    in_section (cv_remove me SIGF_SINGLE (Z.to_nat (cv_count cv)) 0 (cv_tail cv))
      (fun _ => CCancelLeave) cv w
  | CCancelLeave => unguard me (CRelock (-60)) cv w
  (* waking one *)
  | CSigGuard => guarded me CSigPop cv w
  | CSigPop =>
    if 0 <? cv_count cv then in_section cv_pop (fun x => CSigLeave (Some x)) cv w
    else Go (CSigLeave None) cv w
  | CSigLeave x => unguard me (match x with Some x => CSigSend x | None => CIdle 0 end) cv w
  | CSigSend x => Go (CIdle 0) cv (Signal (task x) (sigmask x) w)
  (* waking all *)
  | CAllGuard => guarded me CAllPop cv w
  | CAllPop => if 0 <? cv_count cv then in_section cv_pop CAllSend cv w else Go CAllLeave cv w
  | CAllSend x => Go CAllPop cv (Signal (task x) (sigmask x) w)
  | CAllLeave => unguard me (CIdle 0) cv w
  end.
End step.

(** ** All tasks together *)

(** What a step does to the two semaphores. *)
Definition mtx_op (pc pc' : cpc) : semop :=
  match pc, pc' with
  | CLocking, _ | CRelock _, _ => Take
  | CTrying, CIdle r => if r =? 0 then Keep else Take
  | CUnlock _, _ | CUnlocking, _ => Drop
  | _, _ => Keep
  end.

Definition guard_op (pc : cpc) : semop :=
  match pc with
  | CGuard _ | CCancelGuard | CSigGuard | CAllGuard => Take
  | CLeave _ | CPanicLeave | CCancelLeave | CSigLeave _ | CAllLeave => Drop
  | _ => Keep
  end.

(** The mutexes are [X], the variables [V].  Each variable, the world, where each task
    is, and with which mutex and variable; and the history: how often each task has
    taken a mutex and not given it back, who queued at a variable, who was taken off
    to be woken. *)
Record csys (W X V : Type) := mk_csys {
  c_cv : V -> osal_cv;
  c_w : W;
  c_pc : Z -> cpc;
  c_mx : Z -> X;
  c_on : Z -> V;
  c_held : Z -> X -> nat;
  c_queued : V -> list Z;
  c_popped : V -> list Z
}.
Arguments mk_csys {W X V}. Arguments c_cv {W X V}. Arguments c_w {W X V}. Arguments c_pc {W X V}.
Arguments c_mx {W X V}. Arguments c_on {W X V}. Arguments c_held {W X V}.
Arguments c_queued {W X V}. Arguments c_popped {W X V}.

Definition queued (me : Z) (pc pc' : cpc) : list Z :=
  match pc, pc' with CQueue _, CLeave _ => [me] | _, _ => [] end.

Definition popped (pc pc' : cpc) : list Z :=
  match pc, pc' with
  | CSigPop, CSigLeave (Some x) | CAllPop, CAllSend x => [task x]
  | _, _ => []
  end.

(** A signal pending at a task. *)
Definition pending {W} `{!TaskView W} (w : W) (t : Z) : bool :=
  Z.testbit (k_sig (view w) t) SIGB_SINGLE.

(** The semaphores of the mutexes and the guards of the variables are all different. *)
Record apart {X V : Type} (mtx : X -> Z) (guard : V -> Z) : Prop := {
  ap_mtx x y : mtx x = mtx y -> x = y;
  ap_guard u v : guard u = guard v -> u = v;
  ap_ne x v : mtx x <> guard v
}.

Section system.
Context {W X V : Type} `{!Tasks W, !TaskView W, !Sems W, !SemView W, !EqDecision X, !EqDecision V}.
Context (allowed : call -> Prop) (mtx : X -> Z) (guard : V -> Z).
Implicit Types (s : csys W X V).

(** The mutex is given back, and waited with, only by a task that holds it. *)
Definition call_ok (t : Z) (x : X) (c : call) s : Prop :=
  match c with
  | CallUnlock | CallWait | CallTimedWait _ => (0 < c_held s t x)%nat
  | _ => True
  end.

(** Whatever else the tasks do: not with these semaphores nor this signal. *)
Definition elsewhere (w w' : W) : Prop :=
  (forall x, sems w' (mtx x) = sems w (mtx x)) /\ (forall v, sems w' (guard v) = sems w (guard v)) /\
  forall t, pending w' t = pending w t.

(** Task [t] makes the call [c] with the mutex [x] and the variable [v]. *)
Definition called s (t : Z) (x : X) (v : V) (c : call) : csys W X V :=
  mk_csys (c_cv s) (c_w s) (<[t := enter c]> (c_pc s)) (<[t := x]> (c_mx s)) (<[t := v]> (c_on s))
    (c_held s) (c_queued s) (c_popped s).

(** Task [me] has made a step to [pc], which left its variable and the world so. *)
Definition after_step s (me : Z) (pc : cpc) (cv : osal_cv) (w : W) : csys W X V :=
  let x := c_mx s me in let v := c_on s me in
  mk_csys (<[v := cv]> (c_cv s)) w (<[me := pc]> (c_pc s)) (c_mx s) (c_on s)
    (<[me := <[x := apply_op (mtx_op (c_pc s me) pc) (c_held s me x)]> (c_held s me)]> (c_held s))
    (<[v := c_queued s v ++ queued me (c_pc s me) pc]> (c_queued s))
    (<[v := c_popped s v ++ popped (c_pc s me) pc]> (c_popped s)).

(** The step of task [me]. *)
Definition c_step s (me : Z) : outcome W :=
  cv_task_step (mtx (c_mx s me)) (guard (c_on s me)) me (c_pc s me) (c_cv s (c_on s me)) (c_w s).

Inductive cv_act : csys W X V -> csys W X V -> Prop :=
  | act_call s t x v c r :
      c_pc s t = CIdle r -> allowed c -> call_ok t x c s -> cv_act s (called s t x v c)
  | act_step s t pc cv w :
      c_step s t = Go pc cv w -> cv_act s (after_step s t pc cv w)
  | act_other s w :
      elsewhere (c_w s) w ->
      cv_act s (mk_csys (c_cv s) w (c_pc s) (c_mx s) (c_on s) (c_held s) (c_queued s) (c_popped s)).

Definition cv_boot `{!Inhabited X, !Inhabited V} (cv : V -> osal_cv) (w : W) : csys W X V :=
  mk_csys cv w (fun _ => CIdle 0) (fun _ => inhabitant) (fun _ => inhabitant) (fun _ _ => O)
    (fun _ => []) (fun _ => []).
End system.

(** The tasks on the list. *)
Definition cv_tasks (cv : osal_cv) : list Z := task <$> cv_queue cv.
