(* ===== verification/CvInv.v ===== *)
(** * What the tasks keep

    First what one step does, in terms of the list of waiting tasks, the two
    semaphores and the signals; then the invariant of all tasks together. *)

From S2P Require Import Prelude Ipc OsalCv Tasks OsalLock CvTasks.

(** ** One step *)

Definition cv_ok (cv : osal_cv) : Prop := wf_cv cv /\ cv_queue cv = single <$> cv_tasks cv.

(** Without the first [t]. *)
Definition drop_first (t : Z) (q : list Z) : list Z :=
  match list_find (fun x => x = t) q with Some (k, _) => delete k q | None => q end.

(** Where task [me] can go when the tasks [q] are on the list and its signal is [p];
    and the list then. *)
Inductive edge (me : Z) (q : list Z) (p : bool) : cpc -> cpc -> list Z -> Prop :=
  | e_lock : edge me q p CLocking (CIdle 0) q
  | e_try r : edge me q p CTrying (CIdle r) q
  | e_unlock : edge me q p CUnlocking (CIdle 0) q
  | e_clear to : edge me q p (CClear to) (CGuard to) q
  | e_guard to : edge me q p (CGuard to) (CQueue to) q
  | e_queue to : edge me q p (CQueue to) (CLeave to) (q ++ [me])
  | e_full to : length q = 32%nat -> edge me q p (CQueue to) CPanicLeave q
  | e_panic : edge me q p CPanicLeave CPanic q
  | e_leave to : edge me q p (CLeave to) (CUnlock to) q
  | e_sleep : edge me q p (CUnlock None) CSleep q
  | e_woken : p = true -> edge me q p CSleep (CRelock 0) q
  | e_timed ns : edge me q p (CUnlock (Some ns)) (CPoll ns 0) q
  | e_got ns e : e < ns -> p = true -> edge me q p (CPoll ns e) CGot q
  | e_nap ns e : e < ns -> edge me q p (CPoll ns e) (CNap ns e) q
  | e_late ns e : ns <= e -> edge me q p (CPoll ns e) CCancelGuard q
  | e_again ns e : edge me q p (CNap ns e) (CPoll ns (u64 (e + poll_ns))) q
  | e_clear2 : edge me q p CGot (CRelock 0) q
  | e_cguard : edge me q p CCancelGuard CCancel q
  | e_cancel : edge me q p CCancel CCancelLeave (drop_first me q)
  | e_cleave : edge me q p CCancelLeave (CRelock (-60)) q
  | e_relock rv : edge me q p (CRelock rv) (CIdle rv) q
  | e_sguard : edge me q p CSigGuard CSigPop q
  | e_spop t q' : q = t :: q' -> edge me q p CSigPop (CSigLeave (Some (single t))) q'
  | e_snone : q = [] -> edge me q p CSigPop (CSigLeave None) q
  | e_sleave x : edge me q p (CSigLeave (Some x)) (CSigSend x) q
  | e_snext : edge me q p (CSigLeave None) (CIdle 0) q
  | e_send x : edge me q p (CSigSend x) (CIdle 0) q
  | e_aguard : edge me q p CAllGuard CAllPop q
  | e_apop t q' : q = t :: q' -> edge me q p CAllPop (CAllSend (single t)) q'
  | e_anone : q = [] -> edge me q p CAllPop CAllLeave q
  | e_asend x : edge me q p (CAllSend x) CAllPop q
  | e_aleave : edge me q p CAllLeave (CIdle 0) q.

#[local] Hint Constructors edge : core.

Lemma cv_ok_run {A} (m : M cvst A) cv a cv' tr q :
  m (cv, []) = Some (a, (cv', tr)) -> wf_cv cv' -> cv_queue cv' = single <$> q ->
  section m cv = Some (a, cv') /\ cv_ok cv' /\ cv_tasks cv' = q.
Proof.
  intros Hr Hw Hq. unfold section. rewrite Hr. split; [done|].
  assert (Ht : cv_tasks cv' = q).
  { unfold cv_tasks. rewrite Hq, <- list_fmap_compose. apply list_fmap_id. }
  split; [|done]. split; [done|]. by rewrite Ht.
Qed.

Lemma section_push me cv :
  cv_ok cv -> cv_count cv < 32 ->
  exists cv', section (cv_push me SIGF_SINGLE) cv = Some (tt, cv') /\ cv_ok cv' /\
    cv_tasks cv' = cv_tasks cv ++ [me].
Proof.
  intros [Hw Hq] Hc. destruct (push_run cv [] me SIGF_SINGLE Hw Hc) as (cv' & Hr & Hw' & Hq').
  exists cv'. eapply cv_ok_run; [done..|]. by rewrite Hq', Hq, fmap_app.
Qed.

Lemma section_pop cv t q :
  cv_ok cv -> cv_tasks cv = t :: q ->
  exists cv', section cv_pop cv = Some (single t, cv') /\ cv_ok cv' /\ cv_tasks cv' = q.
Proof.
  intros [Hw Hq] Ht. rewrite Ht in Hq.
  destruct (pop_run cv [] (single t) (fmap (M := list) single q) Hw Hq) as (cv' & Hr & Hw' & Hq' & _).
  exists cv'. by eapply cv_ok_run.
Qed.

Lemma section_remove me cv :
  cv_ok cv ->
  exists cv', section (cv_remove me SIGF_SINGLE (Z.to_nat (cv_count cv)) 0 (cv_tail cv)) cv =
      Some (tt, cv') /\ cv_ok cv' /\ cv_tasks cv' = drop_first me (cv_tasks cv).
Proof.
  intros [Hw Hq].
  destruct (remove_run cv [] me SIGF_SINGLE Hw (Z.to_nat (cv_count cv)) 0 eq_refl)
    as (cv' & Hr & Hw' & Hq'). rewrite Z.add_0_r, Z.mod_small in Hr by apply Hw.
  exists cv'. eapply cv_ok_run; [exact Hr|exact Hw'|]. rewrite Hq', drop_0. fold (single me).
  unfold drop_first. rewrite Hq at 1. rewrite list_find_single.
  destruct (list_find _ (cv_tasks cv)) as [[k x]|]; cbn; [|done].
  by rewrite Hq at 1; rewrite list_fmap_delete.
Qed.

Lemma count_tasks cv : wf_cv cv -> cv_count cv = Z.of_nat (length (cv_tasks cv)).
Proof.
  intros Hw. unfold cv_tasks. rewrite length_fmap, length_cv_queue. pose proof (wv_count _ Hw). lia.
Qed.

Lemma tasks_cases cv :
  cv_ok cv -> (cv_tasks cv = [] /\ (0 <? cv_count cv) = false) \/
  (exists t q, cv_tasks cv = t :: q /\ (0 <? cv_count cv) = true).
Proof.
  intros [Hw _]. rewrite (count_tasks cv Hw). destruct (cv_tasks cv) as [|t q]; [by left|].
  right. exists t, q. split; [done|]. apply Z.ltb_lt. cbn. lia.
Qed.

Lemma pending_bit x : negb (Z.land x SIGF_SINGLE =? 0) = Z.testbit x SIGB_SINGLE.
Proof.
  change SIGF_SINGLE with (Z.shiftl 1 SIGB_SINGLE).
  destruct (Z.testbit x SIGB_SINGLE) eqn:Hb; destruct (Z.eqb_spec (Z.land x (Z.shiftl 1 SIGB_SINGLE)) 0) as [Hz|Hz];
    try done; rewrite land_bit in Hz by done; congruence.
Qed.

Section step.
Context {W : Type} `{TaskLaws W, !Sems W, !SemView W, !SemLaws W} (mtx guard : Z).
Implicit Types (w : W).

Lemma guarded_go me pc cv w pc' cv' w' :
  guarded guard me pc cv w = Go pc' cv' w' ->
  pc' = pc /\ cv' = cv /\ ObtainSemaphore me guard w = Some w'.
Proof. unfold guarded. destruct (ObtainSemaphore _ _ _); naive_solver. Qed.

Lemma locked_go me pc cv w pc' cv' w' :
  locked mtx me pc cv w = Go pc' cv' w' ->
  pc' = pc /\ cv' = cv /\ ObtainSemaphore me mtx w = Some w'.
Proof. unfold locked, osal_mutex_lock. destruct (ObtainSemaphore _ _ _); naive_solver. Qed.

Lemma in_section_go {A} (m : M cvst A) k cv w pc' cv' w' :
  in_section m k cv w = Go pc' cv' w' -> w' = w.
Proof. unfold in_section. destruct (section m cv) as [[a c]|]; naive_solver. Qed.

(** A step is never undefined, keeps the ring sound and is an edge. *)
Lemma step_edge me pc cv w :
  cv_ok cv ->
  match cv_task_step mtx guard me pc cv w with
  | Blocked => True
  | Undefined => False
  | Go pc' cv' w' => cv_ok cv' /\ edge me (cv_tasks cv) (pending w me) pc pc' (cv_tasks cv')
  end.
Proof.
  intros Hok. pose proof (proj1 Hok) as Hw.
  destruct pc as [rv| | | |to|to|to|to|to| |ns e| |ns e| | | |rv| | | | |x|x| | |x|];
    cbn [cv_task_step]; try done; try (split; by auto);
    try (unfold guarded, locked, osal_mutex_lock; by destruct (ObtainSemaphore _ _ _); auto).
  - unfold osal_mutex_trylock. destruct (AttemptSemaphore _ _ _). auto.
  - destruct (Z.leb_spec OSAL_CV_MAX_WAITERS (cv_count cv)) as [Hf|Hf]; unfold OSAL_CV_MAX_WAITERS in *.
    + split; [done|]. apply e_full. rewrite count_tasks in Hf by done.
      pose proof (wv_count _ Hw) as Hc. rewrite count_tasks in Hc by done. lia.
    + destruct (section_push me cv Hok Hf) as (cv' & Hr & Hok' & Hq). unfold in_section.
      rewrite Hr, Hq. auto.
  - destruct to; auto.
  - destruct (Wait me SIGF_SINGLE w) as [[got w']|] eqn:Hwt; [|done]. split; [done|]. apply e_woken.
    unfold pending. rewrite <- pending_bit. apply negb_true_iff, Z.eqb_neq. intros Hz.
    apply wait_blocked in Hz. congruence.
  - destruct (Z.ltb_spec e ns) as [He|He]; [|auto].
    pose proof (set_signal_law me 0 0 w) as Hs. destruct (SetSignal me 0 0 w) as [got w'].
    destruct Hs as (-> & _). rewrite pending_bit. fold (pending w me).
    split; [done|]. destruct (pending w me) eqn:Hp; auto.
  - destruct (section_remove me cv Hok) as (cv' & Hr & Hok' & Hq). unfold in_section.
    rewrite Hr, Hq. auto.
  - destruct (tasks_cases cv Hok) as [(Hq & ->)|(t & q & Hq & ->)]; [auto|].
    destruct (section_pop cv t q Hok Hq) as (cv' & Hr & Hok' & Hq'). unfold in_section.
    rewrite Hr, Hq', Hq. auto.
  - destruct x; split; auto.
  - destruct (tasks_cases cv Hok) as [(Hq & ->)|(t & q & Hq & ->)]; [auto|].
    destruct (section_pop cv t q Hok Hq) as (cv' & Hr & Hok' & Hq'). unfold in_section.
    rewrite Hr, Hq', Hq. auto.
Qed.
(** The semaphores and the signals. *)
Lemma obtain_did me s w w' :
  exclusive (sems w s) -> ObtainSemaphore me s w = Some w' ->
  sem_did me Take (sems w s) (sems w' s) /\ (forall s', s' <> s -> sems w' s' = sems w s') /\
  view w' = view w.
Proof.
  intros Hx (st & Ho & Hs & Hv)%sem_obtain_law. rewrite Hs, fn_lookup_insert. split; [by apply did_take|].
  split; [|done]. intros. by rewrite fn_lookup_insert_ne.
Qed.

Lemma release_did me s w :
  exclusive (sems w s) -> (0 < nest (sems w s) me)%nat ->
  sem_did me Drop (sems w s) (sems (ReleaseSemaphore me s w) s) /\
  (forall s', s' <> s -> sems (ReleaseSemaphore me s w) s' = sems w s') /\
  view (ReleaseSemaphore me s w) = view w.
Proof.
  intros Hx Hn. destruct (did_drop me _ Hx Hn) as (st & Hr & Hd).
  destruct (sem_release_law me s w st Hr) as [Hs Hv]. rewrite Hs, fn_lookup_insert.
  split; [done|]. split; [|done]. intros. by rewrite fn_lookup_insert_ne.
Qed.

(** The signal of task [t] after a step of [me], if it was [b] before. *)
Definition sig_after (me : Z) (pc : cpc) (t : Z) (b : bool) : bool :=
  match pc with
  | CClear _ | CGot | CSleep => if decide (t = me) then false else b
  | CSigSend x | CAllSend x =>
    if decide (t = task x) then b || Z.testbit (sigmask x) SIGB_SINGLE else b
  | _ => b
  end.

Lemma single_bit i : Z.testbit SIGF_SINGLE i = bool_decide (i = SIGB_SINGLE).
Proof. exact (testbit_shiftl1 SIGB_SINGLE i ltac:(done)). Qed.

Lemma set_signal_pending me mask w t :
  pending (snd (SetSignal me 0 mask w)) t =
    (if decide (t = me) then pending w t && negb (Z.testbit mask SIGB_SINGLE) else pending w t) /\
  sems (snd (SetSignal me 0 mask w)) = sems w.
Proof.
  pose proof (set_signal_law me 0 mask w) as Hs. destruct (SetSignal me 0 mask w) as [old w'].
  destruct Hs as (-> & Hs & Hv). split; [|done]. unfold pending, snd. rewrite Hv. cbn [kv_sig k_sig].
  case_decide as Ht; [subst|by rewrite fn_lookup_insert_ne].
  rewrite fn_lookup_insert, Z.land_0_l, Z.lor_0_r, Z.ldiff_spec. done.
Qed.

Lemma signal_pending u m w t :
  pending (Signal u m w) t =
    if decide (t = u) then pending w t || Z.testbit m SIGB_SINGLE else pending w t.
Proof.
  unfold pending. rewrite signal_law. unfold kv_raise. cbn [kv_sig k_sig].
  case_decide as Ht; [subst|by rewrite fn_lookup_insert_ne].
  by rewrite fn_lookup_insert, Z.lor_spec.
Qed.

Lemma wait_pending me w got w' t :
  Wait me SIGF_SINGLE w = Some (got, w') ->
  pending w' t = (if decide (t = me) then false else pending w t) /\ sems w' = sems w.
Proof.
  intros Hw. split; [|by eapply wait_sems]. apply wait_law in Hw as [_ Hv]. unfold pending. rewrite Hv.
  cbn [kv_take kv_sig k_sig].
  case_decide as Ht; [subst|by rewrite fn_lookup_insert_ne].
  rewrite fn_lookup_insert, Z.ldiff_spec, single_bit, bool_decide_true by done. by rewrite andb_false_r.
Qed.
(** What a step of [me] did to the world. *)
Definition world_did (me : Z) (m g : semop) (sig : Z -> bool -> bool) w w' : Prop :=
  sem_did me m (sems w mtx) (sems w' mtx) /\ sem_did me g (sems w guard) (sems w' guard) /\
  (forall t, pending w' t = sig t (pending w t)) /\
  forall a, a <> mtx -> a <> guard -> sems w' a = sems w a.

Lemma mtx_did me o w w' :
  mtx <> guard -> exclusive (sems w guard) ->
  sem_did me o (sems w mtx) (sems w' mtx) /\ (forall s, s <> mtx -> sems w' s = sems w s) /\
    view w' = view w ->
  world_did me o Keep (fun _ b => b) w w'.
Proof.
  intros Hne Hx (Hd & Ho & Hv). split; [done|]. split.
  - rewrite Ho by done. by apply did_keep.
  - split; [intros t; unfold pending; by rewrite Hv|]. intros a Ha _. by apply Ho.
Qed.

Lemma guard_did me o w w' :
  mtx <> guard -> exclusive (sems w mtx) ->
  sem_did me o (sems w guard) (sems w' guard) /\ (forall s, s <> guard -> sems w' s = sems w s) /\
    view w' = view w ->
  world_did me Keep o (fun _ b => b) w w'.
Proof.
  intros Hne Hx (Hd & Ho & Hv). split; [|split; [done|]].
  - rewrite Ho by done. by apply did_keep.
  - split; [intros t; unfold pending; by rewrite Hv|]. intros a _ Ha. by apply Ho.
Qed.

Lemma sig_did me sig w w' :
  exclusive (sems w mtx) -> exclusive (sems w guard) -> sems w' = sems w ->
  (forall t, pending w' t = sig t (pending w t)) -> world_did me Keep Keep sig w w'.
Proof. intros Hm Hg Hs Hp. unfold world_did. rewrite Hs. auto using did_keep. Qed.

Lemma step_world me pc cv w pc' cv' w' :
  mtx <> guard -> cv_task_step mtx guard me pc cv w = Go pc' cv' w' ->
  exclusive (sems w mtx) -> exclusive (sems w guard) ->
  (mtx_op pc pc' = Drop -> (0 < nest (sems w mtx) me)%nat) ->
  (guard_op pc = Drop -> (0 < nest (sems w guard) me)%nat) ->
  world_did me (mtx_op pc pc') (guard_op pc) (sig_after me pc) w w'.
Proof.
  intros Hne Hst Hm Hg Hdm Hdg.
  destruct pc as [rv| | | |to|to|to|to|to| |ns e| |ns e| | | |rv| | | | |x|x| | |x|];
    cbn [cv_task_step guard_op mtx_op] in *; try done;
    try (apply guarded_go in Hst as (-> & -> & Ho); apply guard_did; [done..|by apply obtain_did]);
    try (apply locked_go in Hst as (-> & -> & Ho); apply mtx_did; [done..|by apply obtain_did]);
    try (injection Hst as <- <- <-; apply guard_did; [done..|apply release_did; by auto]);
    try (injection Hst as <- <- <-; apply mtx_did; [done..|apply release_did; by auto]);
    try (injection Hst as <- <- <-; by apply sig_did);
    try (injection Hst as <- <- <-; apply sig_did; [done..|apply (proj2 (set_signal_pending me SIGF_SINGLE w 0))|];
         intros t; rewrite (proj1 (set_signal_pending _ _ _ _)); cbn [sig_after]; case_decide;
         [by rewrite single_bit, bool_decide_true, andb_false_r|done]);
    try (injection Hst as <- <- <-; apply sig_did; [done..|apply signal_sems|];
         intros t; apply signal_pending).
  - unfold osal_mutex_trylock in Hst. pose proof (sem_attempt_law me mtx w) as Ha.
    destruct (AttemptSemaphore me mtx w) as [r w1]. injection Hst as <- <- <-.
    destruct Ha as (Hv & [[-> Hs]|(Hr & st & Ho & Hs)]); cbn [Z.eqb].
    + apply sig_did; try done. intros t. unfold pending. by rewrite Hv.
    + rewrite (proj2 (Z.eqb_neq _ _) Hr). apply mtx_did; [done..|].
      rewrite Hs, fn_lookup_insert. split; [by apply did_take|]. split; [|done].
      intros. by rewrite fn_lookup_insert_ne.
  - destruct (_ <=? _); [injection Hst as <- <- <-; by apply sig_did|].
    apply in_section_go in Hst as ->. by apply sig_did.
  - destruct (Wait me SIGF_SINGLE w) as [[got w1]|] eqn:Hw; [|done]. injection Hst as <- <- <-.
    apply sig_did; [done..|by apply (wait_pending me w got w1 0)|]. intros t. by apply (wait_pending me w got).
  - destruct (e <? ns); [|injection Hst as <- <- <-; by apply sig_did].
    pose proof (set_signal_pending me 0 w) as Hp. destruct (SetSignal me 0 0 w) as [got w1].
    cbn [snd] in Hp. injection Hst as <- <- <-. apply sig_did; [done..|by apply (Hp 0)|].
    intros t. rewrite (proj1 (Hp t)), Z.bits_0, andb_true_r. by case_decide.
  - apply in_section_go in Hst as ->. by apply sig_did.
  - destruct (0 <? _); [apply in_section_go in Hst as ->|injection Hst as <- <- <-]; by apply sig_did.
  - destruct (0 <? _); [apply in_section_go in Hst as ->|injection Hst as <- <- <-]; by apply sig_did.
Qed.
End step.
