(* ===== verification/CvSafe.v ===== *)
(** * No wakeup is lost

    The invariant of all tasks together, in every state they can reach whatever
    the interleaving; and what more holds when no task uses a time-out. *)

From S2P Require Import Prelude Ipc OsalCv Tasks OsalLock CvTasks CvInv.

(** ** Where a task is *)

(** Inside a section of the guard. *)
Definition in_guard (pc : cpc) : bool :=
  match pc with
  | CQueue _ | CLeave _ | CPanicLeave | CCancel | CCancelLeave
  | CSigPop | CSigLeave _ | CAllPop | CAllSend _ | CAllLeave => true
  | _ => false
  end.

(** Still holding the mutex it called with. *)
Definition has_mutex (pc : cpc) : bool :=
  match pc with
  | CClear _ | CGuard _ | CQueue _ | CLeave _ | CUnlock _ | CUnlocking => true
  | _ => false
  end.

(** Queued, and not yet told to go on. *)
Definition parked (pc : cpc) : bool :=
  match pc with
  | CLeave _ | CUnlock _ | CSleep | CPoll _ _ | CNap _ _ => true
  | _ => false
  end.

(** The waiter a task took off the list and has not signalled yet. *)
Definition hand (pc : cpc) : option osal_cv_waiter :=
  match pc with CSigLeave x => x | CSigSend x | CAllSend x => Some x | _ => None end.

(** In a call without a time-out. *)
Definition untimed (pc : cpc) : bool :=
  match pc with
  | CClear (Some _) | CGuard (Some _) | CQueue (Some _) | CLeave (Some _) | CUnlock (Some _)
  | CPoll _ _ | CGot | CNap _ _ | CCancelGuard | CCancel | CCancelLeave => false
  | _ => true
  end.

(** About to queue, the signal cleared. *)
Definition cleared (pc : cpc) : bool :=
  match pc with CGuard _ | CQueue _ => true | _ => false end.

(** ** What the edges keep *)

Section edges.
Context (me : Z) (q : list Z) (p : bool).

Lemma edge_guard pc pc' q' :
  edge me q p pc pc' q' ->
  (if in_guard pc' then 1%nat else O) = apply_op (guard_op pc) (if in_guard pc then 1%nat else O).
Proof. by destruct 1. Qed.

Lemma edge_mutex pc pc' q' :
  edge me q p pc pc' q' ->
  (has_mutex pc' = true -> has_mutex pc = true /\ mtx_op pc pc' = Keep) /\
  (mtx_op pc pc' = Drop -> has_mutex pc = true).
Proof. destruct 1; cbn; try done; by case_match. Qed.

Lemma edge_hand pc pc' q' x :
  edge me q p pc pc' q' -> hand pc' = Some x ->
  hand pc = Some x \/ (hand pc = None /\ exists t, x = single t /\ q = t :: q').
Proof. destruct 1; cbn; intros Hh; simplify_eq; eauto 6. Qed.

(** A waiter in the hand is kept or signalled. *)
Lemma edge_drop pc pc' q' x :
  edge me q p pc pc' q' -> hand pc = Some x ->
  hand pc' = Some x \/ pc = CSigSend x \/ pc = CAllSend x.
Proof. destruct 1; cbn; intros Hh; simplify_eq; eauto. Qed.

Lemma edge_park pc pc' q' :
  edge me q p pc pc' q' -> parked pc' = true ->
  (cleared pc = true /\ q' = q ++ [me]) \/ (parked pc = true /\ q' = q).
Proof. destruct 1; cbn; intros; try done; auto. Qed.

Lemma drop_first_other t x : x <> t -> x ∈ q -> x ∈ drop_first t q.
Proof.
  intros Hne [i Hi]%list_elem_of_lookup. unfold drop_first.
  destruct (list_find _ q) as [[k y]|] eqn:Hf; [|by eapply list_elem_of_lookup_2].
  apply list_find_Some in Hf as (Hk & -> & _). apply list_elem_of_lookup.
  destruct (decide (i < k)%nat); [exists i; by rewrite list_lookup_delete_lt|].
  assert (i <> k) by (intros ->; congruence).
  exists (pred i). rewrite list_lookup_delete_ge by lia. by replace (S (pred i)) with i by lia.
Qed.

(** A task on the list stays there or is taken into the hand. *)
Lemma edge_stay pc pc' q' t :
  edge me q p pc pc' q' -> t <> me -> t ∈ q -> t ∈ q' \/ hand pc' = Some (single t).
Proof.
  destruct 1; cbn; intros Hne Ht; auto using drop_first_other.
  - left. apply elem_of_app. by left.
  - subst q. apply elem_of_cons in Ht as [->|Ht]; auto.
  - subst q. apply elem_of_cons in Ht as [->|Ht]; auto.
Qed.

(** Only a section changes the list. *)
Lemma edge_list pc pc' q' : edge me q p pc pc' q' -> q' = q \/ in_guard pc = true.
Proof. destruct 1; auto. Qed.

Lemma edge_all pc pc' q' : edge me q p pc pc' q' -> pc' = CAllLeave -> q' = [].
Proof. by destruct 1. Qed.
End edges.

(** ** The invariant *)

Section invariant.
Context {W X V : Type} `{TaskLaws W, !Sems W, !SemView W, !SemLaws W, !EqDecision X, !EqDecision V}.
Context (allowed : call -> Prop) (mtx : X -> Z) (guard : V -> Z) (Hap : apart mtx guard).
Implicit Types (s : csys W X V).

Abbreviation tasks_of s v := (cv_tasks (c_cv s v)).

(** Some task is about to signal [t]. *)
Definition in_hand s (t : Z) : Prop := exists u, hand (c_pc s u) = Some (single t).

(** Task [t] is in a section of the guard of [v]. *)
Definition guards s (t : Z) (v : V) : bool := in_guard (c_pc s t) && bool_decide (c_on s t = v).

Record cinv s : Prop := {
  ci_cv v : cv_ok (c_cv s v);
  ci_mx x : exclusive (sems (c_w s) (mtx x));
  ci_gx v : exclusive (sems (c_w s) (guard v));
  ci_held t x : nest (sems (c_w s) (mtx x)) t = c_held s t x;
  ci_guard t v : nest (sems (c_w s) (guard v)) t = if guards s t v then 1%nat else O;
  ci_has t : has_mutex (c_pc s t) = true -> (0 < c_held s t (c_mx s t))%nat;
  ci_hand t x : hand (c_pc s t) = Some x -> x = single (task x);
  ci_park t : parked (c_pc s t) = true ->
    t ∈ tasks_of s (c_on s t) \/ pending (c_w s) t = true \/ in_hand s t;
  ci_all t : c_pc s t = CAllLeave -> tasks_of s (c_on s t) = []
}.

Lemma guards_on s t : guards s t (c_on s t) = in_guard (c_pc s t).
Proof. unfold guards. by rewrite bool_decide_true, andb_true_r. Qed.

Lemma one_in_guard s t u :
  cinv s -> in_guard (c_pc s t) = true -> in_guard (c_pc s u) = true -> c_on s t = c_on s u -> t = u.
Proof.
  intros Hi Ht Hu Hv. apply (nest_one (sems (c_w s) (guard (c_on s t)))); rewrite (ci_guard _ Hi).
  - rewrite guards_on, Ht. lia.
  - rewrite Hv, guards_on, Hu. lia.
Qed.

Lemma step_defined_cv s t : cinv s -> c_step mtx guard s t <> Undefined.
Proof.
  intros Hi Hu. pose proof (step_edge (mtx (c_mx s t)) (guard (c_on s t)) t (c_pc s t) _ (c_w s)
    (ci_cv _ Hi (c_on s t))) as He. unfold c_step in Hu. by rewrite Hu in He.
Qed.

(** A section of a guard makes no call that blocks. *)
Lemma guard_goes s t : cinv s -> in_guard (c_pc s t) = true -> c_step mtx guard s t <> Blocked.
Proof.
  intros Hi Ht. pose proof (step_defined_cv s t Hi) as Hu. unfold c_step in *.
  destruct (c_pc s t); try done; cbn in *; unfold in_section in *; by repeat case_match.
Qed.

Lemma boot_cinv `{!Inhabited X, !Inhabited V} cv w :
  (forall v, exists mem, length (waiters mem) = 32%nat /\ osal_cv_new (Some mem) = Some (cv v)) ->
  (forall x, sems w (mtx x) = Free) -> (forall v, sems w (guard v) = Free) -> cinv (cv_boot cv w).
Proof.
  intros Hl Hm Hg. split; cbn; intros *; rewrite ?Hm, ?Hg; try done.
  by destruct (Hl v) as (mem & Hn & [= <-]).
Qed.

(** Where a task is after a call begins, seen through [f]. *)
Lemma called_same {A} (f : cpc -> A) s t c r u :
  c_pc s t = CIdle r -> f (enter c) = f (CIdle r) -> f (<[t := enter c]> (c_pc s) u) = f (c_pc s u).
Proof.
  intros Ht Hf. destruct (decide (u = t)) as [->|Hu]; [|by rewrite fn_lookup_insert_ne].
  by rewrite fn_lookup_insert, Ht.
Qed.

Lemma called_on s t x v c r u :
  c_pc s t = CIdle r -> c_pc s u <> CIdle r -> c_on (called s t x v c) u = c_on s u.
Proof. intros Ht Hu. cbn. rewrite fn_lookup_insert_ne; [done|]. intros ->. by rewrite Ht in Hu. Qed.

Lemma called_in_hand s t x v c r u : c_pc s t = CIdle r -> in_hand (called s t x v c) u <-> in_hand s u.
Proof.
  intros Ht. unfold in_hand. cbn. split; intros [y Hy]; exists y; revert Hy;
    by rewrite (called_same hand s t c r y Ht ltac:(by destruct c)).
Qed.

Lemma call_cinv s t x v c r :
  cinv s -> c_pc s t = CIdle r -> call_ok t x c s -> cinv (called s t x v c).
Proof.
  intros Hi Ht Hc.
  assert (Hon : forall f : cpc -> bool, f (CIdle r) = false -> f (enter c) = false ->
    forall u, f (<[t := enter c]> (c_pc s) u) = true -> f (c_pc s u) = true /\ c_on (called s t x v c) u = c_on s u).
  { intros f Hf He u Hu. rewrite (called_same f s t c r u Ht) in Hu by congruence. split; [done|].
    apply (called_on s t x v c r u Ht). intros Hr. by rewrite Hr in Hu; rewrite Hf in Hu. }
  assert (Hh := fun u => called_same hand s t c r u Ht ltac:(by destruct c)).
  split; cbn [called c_cv c_w c_pc c_held c_mx]; try apply Hi.
  - intros u v'. rewrite (ci_guard _ Hi). unfold guards.
    destruct (in_guard (c_pc (called s t x v c) u)) eqn:Hu.
    + destruct (Hon in_guard eq_refl ltac:(by destruct c) u Hu) as [-> ->]. done.
    + cbn in Hu. rewrite (called_same in_guard s t c r u Ht) in Hu by (by destruct c). by rewrite Hu.
  - intros u. destruct (decide (u = t)) as [->|Hu];
      [|rewrite !fn_lookup_insert_ne by done; apply Hi]. rewrite !fn_lookup_insert.
    destruct c; cbn in *; done.
  - intros u y. rewrite Hh. apply Hi.
  - intros u [Hp Hv]%(Hon parked eq_refl); [|by destruct c]. rewrite Hv, (called_in_hand s t x v c r u Ht).
    by apply (ci_park _ Hi).
  - intros u Hu. assert (Hu' : c_pc s u = CAllLeave).
    { destruct (decide (u = t)) as [->|Hut]; [|by rewrite fn_lookup_insert_ne in Hu].
      rewrite fn_lookup_insert in Hu. by destruct c. }
    rewrite (called_on s t x v c r u Ht) by (by rewrite Hu'). by apply (ci_all _ Hi u).
Qed.

Lemma other_cinv s w :
  cinv s -> elsewhere mtx guard (c_w s) w ->
  cinv (mk_csys (c_cv s) w (c_pc s) (c_mx s) (c_on s) (c_held s) (c_queued s) (c_popped s)).
Proof.
  intros [] (Hm & Hg & Hp). split; cbn [c_cv c_w c_pc c_on c_mx c_held]; intros *; rewrite ?Hm, ?Hg, ?Hp; try done; [apply ci_has0|apply ci_hand0|apply ci_park0|apply ci_all0].
Qed.

(** *** A step *)

Section step.
Context s (Hi : cinv s) (me : Z) (pc : cpc) (cv : osal_cv) (w : W).
Hypothesis Hst : c_step mtx guard s me = Go pc cv w.
Abbreviation mine := (c_on s me).
Abbreviation s' := (after_step s me pc cv w).

Lemma the_edge :
  cv_ok cv /\ edge me (tasks_of s mine) (pending (c_w s) me) (c_pc s me) pc (cv_tasks cv).
Proof.
  pose proof (step_edge (mtx (c_mx s me)) (guard mine) me (c_pc s me) (c_cv s mine) (c_w s) (ci_cv _ Hi _)) as He.
  unfold c_step in Hst. by rewrite Hst in He.
Qed.

Lemma the_world :
  world_did (mtx (c_mx s me)) (guard mine) me (mtx_op (c_pc s me) pc) (guard_op (c_pc s me))
    (sig_after me (c_pc s me)) (c_w s) w.
Proof.
  destruct the_edge as [_ He]. eapply step_world; [apply (ap_ne _ _ Hap)|exact Hst|apply Hi..| |].
  - intros Hd. rewrite (ci_held _ Hi). apply (ci_has _ Hi). by eapply edge_mutex.
  - intros Hd. rewrite (ci_guard _ Hi), guards_on. destruct (c_pc s me); try done; cbn; lia.
Qed.

(** The lists of the variables, and where the tasks are. *)
Lemma tasks_after v : tasks_of s' v = if decide (v = mine) then cv_tasks cv else tasks_of s v.
Proof. cbn. case_decide; subst; by fn_simpl. Qed.

Lemma pc_after t : c_pc s' t = if decide (t = me) then pc else c_pc s t.
Proof. cbn. case_decide; subst; by fn_simpl. Qed.

(** A signal is taken only by the task itself. *)
Lemma pending_stays t : t <> me -> pending (c_w s) t = true -> pending w t = true.
Proof.
  intros Ht Hp. destruct the_world as (_ & _ & -> & _). rewrite Hp. unfold sig_after.
  destruct (c_pc s me); repeat case_decide; done.
Qed.

Lemma hand_sends t :
  hand (c_pc s me) = Some (single t) -> hand pc = Some (single t) \/ pending w t = true.
Proof.
  intros Hh. destruct the_edge as [_ He].
  destruct (edge_drop _ _ _ _ _ _ _ He Hh) as [?|Hs]; [by left|right].
  destruct the_world as (_ & _ & -> & _). destruct Hs as [-> | ->]; cbn;
    rewrite decide_True by done; apply orb_true_r.
Qed.

Lemma in_hand_after t : in_hand s t -> in_hand s' t \/ pending w t = true.
Proof.
  intros [u Hu]. destruct (decide (u = me)) as [->|Hum].
  - destruct (hand_sends t Hu) as [Hh|]; [left|by right]. exists me. by rewrite pc_after, decide_True.
  - left. exists u. by rewrite pc_after, decide_False.
Qed.

Lemma stays_after t v :
  t <> me -> t ∈ tasks_of s v -> t ∈ tasks_of s' v \/ hand pc = Some (single t).
Proof.
  intros Ht Hq. rewrite tasks_after. case_decide as Hv; [subst|by left].
  by apply (edge_stay me (tasks_of s mine) _ _ _ _ t (proj2 the_edge)).
Qed.

Lemma park_after t :
  parked (c_pc s' t) = true ->
  t ∈ tasks_of s' (c_on s t) \/ pending w t = true \/ in_hand s' t.
Proof.
  destruct the_edge as [_ He]. rewrite pc_after. intros Hp. destruct (decide (t = me)) as [->|Ht].
  - rewrite tasks_after, decide_True by done.
    destruct (edge_park _ _ _ _ _ _ He Hp) as [[_ Hq]|[Hp' Hq]]; rewrite Hq.
    { left. apply elem_of_app. right. by apply list_elem_of_singleton. }
    destruct (ci_park _ Hi me Hp') as [?|[Hs|Hh]]; [by left| |].
    + right. left. destruct the_world as (_ & _ & -> & _). rewrite Hs.
      destruct (c_pc s me); try done. inversion He; subst. done.
    + destruct (in_hand_after me Hh); auto.
  - destruct (ci_park _ Hi t Hp) as [Hq|[Hs|Hh]].
    + destruct (stays_after t _ Ht Hq) as [?|Hh]; [by left|right; right].
      exists me. by rewrite pc_after, decide_True.
    + right. left. by apply pending_stays.
    + destruct (in_hand_after t Hh); auto.
Qed.

(** The semaphores after the step. *)
Lemma mtx_after x :
  exclusive (sems w (mtx x)) /\ forall t, nest (sems w (mtx x)) t = c_held s' t x.
Proof.
  destruct the_world as ((Hmx & Hmm & Hmo) & _ & _ & Hoth). cbn.
  destruct (decide (x = c_mx s me)) as [->|Hx].
  - split; [done|]. intros t. destruct (decide (t = me)) as [->|Ht]; fn_simpl.
    + by rewrite Hmm, (ci_held _ Hi).
    + by rewrite Hmo, (ci_held _ Hi).
  - rewrite Hoth; [|by intros ?%(ap_mtx _ _ Hap)|apply (ap_ne _ _ Hap)].
    split; [apply Hi|]. intros t. rewrite (ci_held _ Hi).
    destruct (decide (t = me)) as [->|Ht]; by fn_simpl.
Qed.

Lemma guard_after v :
  exclusive (sems w (guard v)) /\
  forall t, nest (sems w (guard v)) t = if guards s' t v then 1%nat else O.
Proof.
  destruct the_edge as [_ He]. destruct the_world as (_ & (Hgx & Hgm & Hgo) & _ & Hoth). unfold guards.
  cbn [c_on after_step]. destruct (decide (v = mine)) as [->|Hv].
  - split; [done|]. intros t. rewrite pc_after. case_decide as Ht.
    + subst t. by rewrite Hgm, (ci_guard _ Hi), guards_on, bool_decide_true, andb_true_r,
        (edge_guard _ _ _ _ _ _ He).
    + rewrite Hgo, (ci_guard _ Hi) by done. done.
  - rewrite Hoth; [|intros Heq; symmetry in Heq; by apply (ap_ne _ _ Hap) in Heq|by intros ?%(ap_guard _ _ Hap)].
    split; [apply Hi|]. intros t. rewrite (ci_guard _ Hi), pc_after. unfold guards.
    case_decide as Ht; [subst t|done]. by rewrite bool_decide_false, !andb_false_r by done.
Qed.

Lemma step_cinv : cinv s'.
Proof.
  destruct the_edge as [Hok He].
  split; [| |intros v; apply guard_after|intros t x; apply mtx_after|intros t v; apply guard_after|
    | |exact park_after|].
  - intros v. cbn. destruct (decide (v = mine)) as [->|Hv]; fn_simpl; [done|apply Hi].
  - intros x. apply mtx_after.
  - intros t. rewrite pc_after. cbn. case_decide as Ht; [subst|fn_simpl; apply Hi]. fn_simpl.
    intros Hh. destruct (edge_mutex _ _ _ _ _ _ He) as [Hk _].
    destruct (Hk Hh) as [Hb ->]. by apply (ci_has _ Hi).
  - intros t x. rewrite pc_after. case_decide as Ht; [subst|apply Hi]. intros Hx.
    destruct (edge_hand _ _ _ _ _ _ _ He Hx) as [Hh|(_ & t & -> & _)]; [|done]. by apply (ci_hand _ Hi me).
  - intros t. rewrite pc_after, tasks_after. cbn [c_on after_step]. case_decide as Ht.
    + subst t. intros Ha. rewrite decide_True by done. by eapply edge_all.
    + intros Ha. case_decide as Hv; [|by apply (ci_all _ Hi t)].
      destruct (edge_list _ _ _ _ _ _ He) as [-> |Hg]; [rewrite <-Hv; by apply (ci_all _ Hi t)|].
      destruct Ht. apply (one_in_guard s t me Hi); [by rewrite Ha|done..].
Qed.
End step.

Lemma act_cinv s1 s2 : cinv s1 -> cv_act allowed mtx guard s1 s2 -> cinv s2.
Proof. intros Hi Ha. destruct Ha; [by eapply call_cinv|by apply step_cinv|by apply other_cinv]. Qed.

Lemma reach_cinv `{!Inhabited X, !Inhabited V} cv w s :
  (forall v, exists mem, length (waiters mem) = 32%nat /\ osal_cv_new (Some mem) = Some (cv v)) ->
  (forall x, sems w (mtx x) = Free) -> (forall v, sems w (guard v) = Free) ->
  rtc (cv_act allowed mtx guard) (cv_boot cv w) s -> cinv s.
Proof.
  intros Hl Hm Hg Hr. pose proof (boot_cinv cv w Hl Hm Hg) as Hb.
  induction Hr as [|s s1 s2 Ha _ IH]; [done|]. apply IH. by eapply act_cinv.
Qed.
End invariant.
