(* ===== verification/CvExact.v ===== *)
(** * Each signal wakes one waiter

    When no task uses a time-out, a waiter is in exactly one of three places: on
    the list, in the hand of a task that is about to signal it, or signalled.  So
    the list is served in order and no wait returns without its wakeup. *)

From S2P Require Import Prelude Ipc OsalCv Tasks OsalLock CvTasks CvInv CvSafe.

Section edges.
Context (me : Z) (q : list Z) (p : bool).

Lemma edge_untimed pc pc' q' :
  edge me q p pc pc' q' -> untimed pc = true -> untimed pc' = true.
Proof. destruct 1; cbn; intros; try done; by destruct to. Qed.

Lemma edge_log pc pc' q' :
  edge me q p pc pc' q' -> untimed pc = true -> q ++ queued me pc pc' = popped pc pc' ++ q'.
Proof. destruct 1; cbn; intros; subst; rewrite ?app_nil_r; done. Qed.

(** The list loses its head, gains the caller, or stays. *)
Lemma edge_shape pc pc' q' :
  edge me q p pc pc' q' -> untimed pc = true ->
  q' = q \/ (q' = q ++ [me] /\ cleared pc = true /\ parked pc' = true /\ hand pc = None) \/
  (exists t, q = t :: q' /\ parked pc = false).
Proof. destruct 1; cbn; intros; try discriminate; eauto 8. Qed.

(** A parked task that is not signalled stays parked. *)
Lemma edge_parked pc pc' q' :
  edge me q p pc pc' q' -> untimed pc = true -> parked pc = true -> p = false -> parked pc' = true.
Proof. destruct 1; cbn; intros; congruence. Qed.

Lemma edge_cleared pc pc' q' :
  edge me q p pc pc' q' -> cleared pc' = true -> (exists to, pc = CClear to) \/ cleared pc = true.
Proof. destruct 1; cbn; intros; try done; eauto. Qed.
End edges.

Section exact.
Context {W X V : Type} `{TaskLaws W, !Sems W, !SemView W, !SemLaws W, !EqDecision X, !EqDecision V}.
Context (allowed : call -> Prop) (mtx : X -> Z) (guard : V -> Z) (Hap : apart mtx guard).
Implicit Types (s : csys W X V).

Abbreviation tasks_of s v := (cv_tasks (c_cv s v)).

Record xinv s : Prop := {
  xi_pc t : untimed (c_pc s t) = true;
  xi_list t v : t ∈ tasks_of s v ->
    c_on s t = v /\ parked (c_pc s t) = true /\ pending (c_w s) t = false /\ ~ in_hand s t;
  xi_hand t : in_hand s t -> parked (c_pc s t) = true /\ pending (c_w s) t = false;
  xi_nodup v : NoDup (tasks_of s v);
  xi_one u v t : hand (c_pc s u) = Some (single t) -> hand (c_pc s v) = Some (single t) -> u = v;
  xi_clear t : cleared (c_pc s t) = true -> pending (c_w s) t = false;
  xi_log v : c_queued s v = c_popped s v ++ tasks_of s v
}.

Lemma boot_xinv `{!Inhabited X, !Inhabited V} cv w :
  (forall v, exists mem, osal_cv_new (Some mem) = Some (cv v)) -> xinv (cv_boot cv w).
Proof.
  intros Hn. assert (Hq : forall v, cv_tasks (cv v) = []) by (intros v; by destruct (Hn v) as (mem & [= <-])).
  split; cbn; try done.
  - intros t v. rewrite Hq. by intros Ht%elem_of_nil.
  - by intros t [u Hu].
  - intros v. rewrite Hq. constructor.
Qed.

Lemma call_xinv s t x v c r :
  xinv s -> c_pc s t = CIdle r -> untimed (enter c) = true -> xinv (called s t x v c).
Proof.
  intros Hi Ht Hc.
  assert (Hh := fun u => called_same hand s t c r u Ht ltac:(by destruct c)).
  assert (Hp := fun u => called_same parked s t c r u Ht ltac:(by destruct c)).
  assert (Hcl := fun u => called_same cleared s t c r u Ht ltac:(by destruct c)).
  assert (Hu := fun u => called_same untimed s t c r u Ht Hc).
  assert (Hin := fun u => called_in_hand s t x v c r u Ht).
  split; cbn [called c_cv c_w c_pc c_queued c_popped]; intros *; rewrite ?Hh, ?Hp, ?Hcl, ?Hu, ?Hin;
    try apply Hi.
  intros Hl. destruct (xi_list _ Hi _ _ Hl) as (Hv & Hpk & Hrest). split; [|done].
  rewrite <-Hv. apply (called_on s t x v c r _ Ht). intros Hr. by rewrite Hr in Hpk.
Qed.

Lemma other_xinv s w :
  xinv s -> elsewhere mtx guard (c_w s) w ->
  xinv (mk_csys (c_cv s) w (c_pc s) (c_mx s) (c_on s) (c_held s) (c_queued s) (c_popped s)).
Proof.
  intros Hi (_ & _ & Hp).
  split; cbn [c_cv c_w c_pc c_on c_queued c_popped]; intros *; rewrite ?Hp; apply Hi.
Qed.

Section step.
Context s (Hc : cinv mtx guard s) (Hx : xinv s) (me : Z) (pc : cpc) (cv : osal_cv) (w : W).
Hypothesis Hst : c_step mtx guard s me = Go pc cv w.

Abbreviation s' := (after_step s me pc cv w).
Abbreviation mine := (c_on s me).

Lemma cleared_alone t : cleared (c_pc s t) = true -> (forall v, t ∉ tasks_of s v) /\ ~ in_hand s t.
Proof.
  intros Ht. assert (Hp : parked (c_pc s t) = false) by (by destruct (c_pc s t)).
  split; [intros v Hl; apply (xi_list _ Hx) in Hl as (_ & Hl & _)|
    intros Hl; apply (xi_hand _ Hx) in Hl as [Hl _]]; congruence.
Qed.

(** The signal of [t] stays clear unless [me] had [t] in its hand, and sent. *)
Lemma stays_clear t :
  pending (c_w s) t = false -> pending w t = false \/
  hand (c_pc s me) = Some (single t) /\ hand pc = None.
Proof.
  intros Hp. destruct (the_edge mtx guard s Hc me pc cv w Hst) as [_ He].
  destruct (the_world mtx guard Hap s Hc me pc cv w Hst) as (_ & _ & -> & _). rewrite Hp.
  pose proof (ci_hand _ _ _ Hc me) as Hs.
  destruct (c_pc s me) eqn:Hpc; cbn; auto; try (by case_decide; auto);
    case_decide as Ht; auto; right; subst t; rewrite <- (Hs x eq_refl) at 1; split; try done;
    by inversion He.
Qed.

Lemma hand_after u x :
  hand (c_pc s' u) = Some x -> hand (c_pc s u) = Some x \/
  (u = me /\ hand (c_pc s me) = None /\ exists t, x = single t /\ tasks_of s mine = t :: cv_tasks cv).
Proof.
  destruct (the_edge mtx guard s Hc me pc cv w Hst) as [_ He].
  rewrite pc_after. case_decide as Hu; [subst u|by left]. intros Hh.
  destruct (edge_hand _ _ _ _ _ _ _ He Hh) as [?|[? ?]]; [by left|by right].
Qed.

Lemma parked_after t :
  parked (c_pc s t) = true -> pending (c_w s) t = false -> parked (c_pc s' t) = true.
Proof.
  intros Hp Hf. destruct (the_edge mtx guard s Hc me pc cv w Hst) as [_ He].
  rewrite pc_after. case_decide as Ht; [subst t|done]. eapply edge_parked; eauto. apply Hx.
Qed.

(** Who holds a waiter in its hand after the step. *)
Lemma in_hand_before t :
  in_hand s' t -> in_hand s t /\ pending w t = false \/
  (hand (c_pc s me) = None /\ tasks_of s mine = t :: cv_tasks cv).
Proof.
  intros [u Hu]. destruct (hand_after u _ Hu) as [Hh|(-> & Hn & t' & [= <-] & Hq)]; [|by right].
  left. split; [by exists u|]. destruct (xi_hand _ Hx t (ex_intro _ u Hh)) as [_ Hp].
  destruct (stays_clear t Hp) as [?|[Hm Hn]]; [done|].
  pose proof (xi_one _ Hx u me t Hh Hm) as ->. rewrite pc_after, decide_True in Hu by done. congruence.
Qed.

(** A task on a list that [me] did not just take is as [xi_list] says. *)
Lemma list_after t v :
  t ∈ tasks_of s v -> ~ (hand (c_pc s me) = None /\ tasks_of s mine = t :: cv_tasks cv) ->
  c_on s t = v /\ parked (c_pc s' t) = true /\ pending w t = false /\ ~ in_hand s' t.
Proof.
  intros Hl Hn. destruct (xi_list _ Hx t v Hl) as (Hv & Hp & Hf & Hh).
  split; [done|]. split; [by apply parked_after|]. split.
  - destruct (stays_clear t Hf) as [?|[Hm _]]; [done|]. destruct Hh. by exists me.
  - intros Hi. destruct (in_hand_before t Hi) as [[Hi' _]|?]; done.
Qed.

(** So is a task that [me] just queued: itself. *)
Lemma queued_after :
  cleared (c_pc s me) = true -> parked pc = true -> hand (c_pc s me) = None ->
  parked (c_pc s' me) = true /\ pending w me = false /\ ~ in_hand s' me.
Proof.
  intros Hcl Hp Hn. destruct (cleared_alone me Hcl) as [Hl Hh].
  rewrite pc_after, decide_True by done. split; [done|]. split.
  - destruct (stays_clear me (xi_clear _ Hx me Hcl)) as [?|[? _]]; [done|congruence].
  - intros Hi. destruct (in_hand_before me Hi) as [[? _]|[_ Hq]]; [done|].
    apply (Hl mine). rewrite Hq. left.
Qed.

Lemma step_list t v :
  t ∈ tasks_of s' v ->
  c_on s t = v /\ parked (c_pc s' t) = true /\ pending w t = false /\ ~ in_hand s' t.
Proof.
  destruct (the_edge mtx guard s Hc me pc cv w Hst) as [_ He]. pose proof (xi_nodup _ Hx mine) as Hnd.
  rewrite tasks_after. case_decide as Hv; intros Ht.
  2:{ apply list_after; [done|]. intros [_ Hq]. apply Hv.
      destruct (xi_list _ Hx t v Ht) as [<- _]. by apply (xi_list _ Hx); rewrite Hq; left. }
  subst v. destruct (edge_shape _ _ _ _ _ _ He (xi_pc _ Hx me)) as [Hq|[(Hq & Hcl & Hp & Hn)|(x & Hq & Hp)]].
  - apply list_after; [by rewrite <- Hq|]. intros [_ Hq']. rewrite <- Hq in Hq'.
    by apply (f_equal length) in Hq'; cbn in Hq'; lia.
  - rewrite Hq in Ht. apply elem_of_app in Ht as [Ht|Ht%list_elem_of_singleton].
    + apply list_after; [done|]. intros [_ Hq']. rewrite Hq in Hq'.
      apply (f_equal length) in Hq'. cbn in Hq'. rewrite length_app in Hq'. lia.
    + subst t. by split; [|apply queued_after].
  - rewrite Hq in Hnd. apply NoDup_cons in Hnd as [Hx1 _].
    apply list_after; [rewrite Hq; by right|]. intros [_ Hq']. rewrite Hq in Hq'.
    injection Hq' as ->. done.
Qed.

Lemma step_hand t : in_hand s' t -> parked (c_pc s' t) = true /\ pending w t = false.
Proof.
  intros Hi. destruct (in_hand_before t Hi) as [[Hh Hf]|[Hn Hq]].
  - destruct (xi_hand _ Hx t Hh) as [Hp Hf']. split; [by apply parked_after|done].
  - destruct (xi_list _ Hx t mine) as (_ & Hp & Hf & _); [rewrite Hq; left|].
    split; [by apply parked_after|]. destruct (stays_clear t Hf) as [?|[? _]]; [done|congruence].
Qed.

Lemma step_one u v t :
  hand (c_pc s' u) = Some (single t) -> hand (c_pc s' v) = Some (single t) -> u = v.
Proof.
  assert (Hnew : forall u t', hand (c_pc s u) = Some (single t) -> single t = single t' ->
    tasks_of s mine = t' :: cv_tasks cv -> False).
  { intros u' t' Hh [= <-] Hq. destruct (xi_list _ Hx t mine) as (_ & _ & _ & Hn); [rewrite Hq; left|].
    apply Hn. by exists u'. }
  intros [Hu|(-> & Hn & t1 & Ht1 & Hq1)]%hand_after [Hv|(-> & Hn' & t2 & Ht2 & Hq2)]%hand_after.
  - by apply (xi_one _ Hx u v t).
  - by destruct (Hnew u t2).
  - by destruct (Hnew v t1).
  - done.
Qed.

Lemma step_clear t : cleared (c_pc s' t) = true -> pending w t = false.
Proof.
  destruct (the_edge mtx guard s Hc me pc cv w Hst) as [_ He].
  assert (Hold : cleared (c_pc s t) = true -> pending w t = false).
  { intros Hcl. destruct (stays_clear t (xi_clear _ Hx t Hcl)) as [?|[Hm _]]; [done|].
    destruct (proj2 (cleared_alone t Hcl)). by exists me. }
  rewrite pc_after. case_decide as Ht; [subst t|done]. intros Hcl.
  destruct (edge_cleared _ _ _ _ _ _ He Hcl) as [[to Hp]|?]; [|by apply Hold].
  destruct (the_world mtx guard Hap s Hc me pc cv w Hst) as (_ & _ & -> & _). rewrite Hp. cbn.
  by rewrite decide_True.
Qed.

Lemma step_xinv : xinv s'.
Proof.
  destruct (the_edge mtx guard s Hc me pc cv w Hst) as [_ He]. pose proof (xi_pc _ Hx me) as Hu.
  split; [|exact step_list|exact step_hand| |exact step_one|exact step_clear|].
  - intros t. rewrite pc_after. case_decide; [by eapply edge_untimed|apply Hx].
  - intros v. rewrite tasks_after. case_decide as Hv; [|apply Hx]. pose proof (xi_nodup _ Hx mine) as Hnd.
    destruct (edge_shape _ _ _ _ _ _ He Hu) as [-> |[(-> & Hcl & _)|(x & Hq & _)]]; [done| |].
    + apply NoDup_app. split; [done|]. split; [|apply NoDup_singleton].
      intros t Ht Heq%list_elem_of_singleton. subst t. by destruct (cleared_alone me Hcl) as [Ha _]; apply (Ha mine).
    + rewrite Hq in Hnd. by apply NoDup_cons in Hnd as [_ ?].
  - intros v. rewrite tasks_after. cbn. case_decide as Hv; [subst v|fn_simpl; apply Hx]. fn_simpl.
    rewrite (xi_log _ Hx), <- !app_assoc. f_equal. by eapply edge_log.
Qed.
End step.

Lemma act_xinv s1 s2 :
  (forall c, allowed c -> untimed (enter c) = true) ->
  cinv mtx guard s1 -> xinv s1 -> cv_act allowed mtx guard s1 s2 -> xinv s2.
Proof. intros Hall Hc Hx Ha. destruct Ha; [eapply call_xinv; eauto|by apply step_xinv|by apply other_xinv]. Qed.

Lemma reach_xinv `{!Inhabited X, !Inhabited V} cv w s :
  (forall c, allowed c -> untimed (enter c) = true) ->
  (forall v, exists mem, length (waiters mem) = 32%nat /\ osal_cv_new (Some mem) = Some (cv v)) ->
  (forall x, sems w (mtx x) = Free) -> (forall v, sems w (guard v) = Free) ->
  rtc (cv_act allowed mtx guard) (cv_boot cv w) s -> xinv s.
Proof.
  intros Hall Hn Hm Hg Hr.
  assert (Hi : cinv mtx guard (cv_boot cv w) /\ xinv (cv_boot cv w)).
  { split; [by apply boot_cinv|]. apply boot_xinv. intros v. destruct (Hn v) as (mem & _ & ?). eauto. }
  induction Hr as [|s s1 s2 Ha _ IH]; [by apply Hi|]. apply IH. destruct Hi as [Hc Hx].
  split; [by eapply act_cinv|by eapply act_xinv].
Qed.
End exact.
