(* ===== verification/CvSim.v ===== *)
(** * Condition variables at work

    The theorems on all tasks together, runs that witness them, and a run that
    shows what a timed wait breaks. *)

From S2P Require Import Prelude Ipc OsalCv Tasks TaskSim OsalLock SemSim CvTasks CvInv CvSafe CvExact.

(** ** Runs *)

(** A call with the mutex and the variable [v]. *)
Inductive tick := Do (t : Z) (v : bool) (c : call) | Run (t : Z) (n : nat).

(** One mutex, at address 100, and two variables, with their guards at 200 and 300. *)
Abbreviation cvs := (csys lworld unit bool).
Definition mtx0 (_ : unit) : Z := 100.
Definition guard0 (v : bool) : Z := if v then 300 else 200.

Lemma apart0 : apart mtx0 guard0.
Proof. split; [by intros [] []|by intros [] []|by intros [] []]. Qed.

Definition run_one (t : Z) (s : cvs) : option cvs :=
  match c_step mtx0 guard0 s t with
  | Go pc cv w => Some (after_step s t pc cv w)
  | _ => None
  end.

Fixpoint run_n (t : Z) (n : nat) (s : cvs) : option cvs :=
  match n with O => Some s | S n' => s' ← run_one t s; run_n t n' s' end.

Definition holds_for (c : call) (n : nat) : bool :=
  match c with CallUnlock | CallWait | CallTimedWait _ => (0 <? n)%nat | _ => true end.

Section run.
Context (allowed : call -> bool).

Definition tick_step (k : tick) (s : cvs) : option cvs :=
  match k with
  | Do t v c =>
    match c_pc s t with
    | CIdle _ => if allowed c && holds_for c (c_held s t tt) then Some (called s t tt v c) else None
    | _ => None
    end
  | Run t n => run_n t n s
  end.

Fixpoint run (l : list tick) (s : cvs) : option cvs :=
  match l with [] => Some s | k :: l' => s' ← tick_step k s; run l' s' end.

Abbreviation acts := (rtc (cv_act (fun c => allowed c = true) mtx0 guard0)).

Lemma run_n_acts t n s s' : run_n t n s = Some s' -> acts s s'.
Proof.
  revert s. induction n as [|n IH]; intros s; cbn; [by intros [= ->]|].
  unfold run_one. destruct (c_step _ _ _ _) as [| |pc cv w] eqn:Hs; try done.
  cbn. intros Hr. eapply rtc_l; [by eapply act_step|by apply IH].
Qed.

Lemma tick_acts k s s' : tick_step k s = Some s' -> acts s s'.
Proof.
  destruct k as [t v c|t n]; cbn; [|apply run_n_acts].
  destruct (c_pc s t) eqn:Hp; try done. destruct (allowed c) eqn:Ha; [|done].
  destruct (holds_for c (c_held s t tt)) eqn:Hh; [|done]. cbn. intros [= <-].
  apply rtc_once. eapply act_call; [done..|].
  destruct c; cbn in *; try done; (destruct (c_held s t tt); [done|lia]).
Qed.

Lemma run_acts l s s' : run l s = Some s' -> acts s s'.
Proof.
  revert s. induction l as [|k l IH]; intros s; cbn; [by intros [= ->]|].
  destruct (tick_step k s) as [s1|] eqn:Hk; [|done]. cbn. intros Hr.
  etrans; [by eapply tick_acts|by apply IH].
Qed.
End run.

(** Both variables are new. *)
Definition cv0 (_ : bool) : osal_cv := empty_cv.

(** Tasks 1, 2 and 3; nothing is held, no signal is pending. *)
Definition lw0 : lworld :=
  (mk_kview (fun _ => 0) (fun _ => ∅) (fun _ => []) ∅ (fun _ => (0, 0)) {[1; 2; 3]} 0, fun _ => Free).

Definition any (_ : call) : bool := true.
Definition plain (c : call) : bool := match c with CallTimedWait _ => false | _ => true end.

(** Up to [Wait] in a wait. *)
Definition goes_to_sleep (t : Z) (v : bool) : list tick :=
  [Do t v CallLock; Run t 1; Do t v CallWait; Run t 5].

(** Tasks 1 and 2 sleep at one variable and task 4 at the other; task 3 broadcasts at
    the first, with the mutex. *)
Definition telling : list tick :=
  goes_to_sleep 1 false ++ goes_to_sleep 2 false ++ goes_to_sleep 4 true ++
  [Do 3 false CallLock; Run 3 1; Do 3 false CallBroadcast; Run 3 6].
Definition all_told : cvs := default (cv_boot cv0 lw0) (run any telling (cv_boot cv0 lw0)).

(** Tasks 1 and 2 sleep, and task 4 elsewhere; task 3 signals, and task 1 is up again. *)
Definition rousing : list tick :=
  goes_to_sleep 4 true ++ goes_to_sleep 1 false ++ goes_to_sleep 2 false ++
  [Do 3 false CallSignal; Run 3 4; Run 1 2].
Definition one_up : cvs := default (cv_boot cv0 lw0) (run plain rousing (cv_boot cv0 lw0)).

(** ** The theorems *)

Section theorems.
Context {W X V : Type} `{TaskLaws W, !Sems W, !SemView W, !SemLaws W}.
Context `{!EqDecision X, !EqDecision V, !Inhabited X, !Inhabited V}.
Context (mtx : X -> Z) (guard : V -> Z).

(** All variables are new, and nobody holds a semaphore of theirs or of the mutexes. *)
Definition all_new (cv : V -> osal_cv) (w : W) : Prop :=
  (forall v, exists mem, length (waiters mem) = 32%nat /\ osal_cv_new (Some mem) = Some (cv v)) /\
  (forall x, sems w (mtx x) = Free) /\ (forall v, sems w (guard v) = Free).

(** C25. Any number of tasks use any number of mutexes and condition variables, with
    and without time-outs, interleaved call by call.  No step is undefined; no two
    tasks hold a mutex; at most one is in a section of a guard, and never stuck
    there.  No wakeup is lost: a task that has queued itself and is not told to go
    on is on the list of its variable, or its signal is pending, or another task
    has taken it off and is about to signal it.  When a broadcast ends, every waiter
    of that variable is told. *)
Theorem cv_no_lost_wakeup cv w s :
  apart mtx guard -> all_new cv w ->
  rtc (cv_act (fun _ => True) mtx guard) (cv_boot cv w) s ->
  (forall t, c_step mtx guard s t <> Undefined) /\
  (forall t u x, (0 < c_held s t x)%nat -> (0 < c_held s u x)%nat -> t = u) /\
  (forall t u, in_guard (c_pc s t) = true -> in_guard (c_pc s u) = true -> c_on s t = c_on s u -> t = u) /\
  (forall t, in_guard (c_pc s t) = true -> c_step mtx guard s t <> Blocked) /\
  (forall t, parked (c_pc s t) = true ->
     t ∈ cv_tasks (c_cv s (c_on s t)) \/ pending (c_w s) t = true \/ in_hand s t) /\
  (forall t u, c_pc s t = CAllLeave -> parked (c_pc s u) = true -> c_on s u = c_on s t ->
     pending (c_w s) u = true \/ in_hand s u).
Proof.
  intros Hap (Hn & Hm & Hg) Hr. pose proof (reach_cinv _ mtx guard Hap cv w s Hn Hm Hg Hr) as Hi.
  assert (Hu : forall t, c_step mtx guard s t <> Undefined) by (intros t; by apply step_defined_cv).
  split; [done|]. split; [|split; [|split; [|split]]].
  - intros t u x. rewrite <- !(ci_held _ _ _ Hi). apply nest_one.
  - intros t u. by apply (one_in_guard mtx guard).
  - intros t Ht. by apply guard_goes.
  - apply (ci_park _ _ _ Hi).
  - intros t u Ha Hp Hv. pose proof (ci_all _ _ _ Hi t Ha) as Hq. rewrite <-Hv in Hq.
    destruct (ci_park _ _ _ Hi u Hp) as [Hin|?]; [|done]. rewrite Hq in Hin. by apply elem_of_nil in Hin.
Qed.

(** C26. When no task uses a time-out, each signal wakes one waiter and the one that
    has waited longest, whatever the interleaving: the tasks taken off a variable's
    list to be woken, followed by those on it, are the tasks in the order they
    queued there; a task on the list is waiting at that variable, once, unsignalled
    and in nobody's hand; a task taken off and not yet signalled is waiting and in
    one hand only.  So a wait that returned was woken, once, and is on no list any
    more. *)
Theorem cv_signals_exact cv w s :
  apart mtx guard -> all_new cv w ->
  rtc (cv_act (fun c => plain c = true) mtx guard) (cv_boot cv w) s ->
  (forall v, c_queued s v = c_popped s v ++ cv_tasks (c_cv s v) /\ NoDup (cv_tasks (c_cv s v))) /\
  (forall t v, t ∈ cv_tasks (c_cv s v) ->
     c_on s t = v /\ parked (c_pc s t) = true /\ pending (c_w s) t = false /\ ~ in_hand s t) /\
  (forall t, in_hand s t -> parked (c_pc s t) = true /\ pending (c_w s) t = false) /\
  (forall u v t, hand (c_pc s u) = Some (single t) -> hand (c_pc s v) = Some (single t) -> u = v).
Proof.
  intros Hap (Hn & Hm & Hg) Hr.
  assert (Hall : forall c, plain c = true -> untimed (enter c) = true) by (by intros []).
  destruct (reach_xinv _ mtx guard Hap cv w s Hall Hn Hm Hg Hr). auto 6.
Qed.
End theorems.

(** ** Witnesses *)

Lemma new0 : all_new mtx0 guard0 cv0 lw0.
Proof. split; [by exists empty_cv|done]. Qed.

Lemma cv_no_lost_wakeup_witness :
  c_pc all_told 3 = CAllLeave /\ parked (c_pc all_told 1) = true /\
  (pending (c_w all_told) 1 = true \/ in_hand all_told 1) /\ cv_tasks (c_cv all_told true) = [4].
Proof.
  assert (Hr : rtc (cv_act (fun _ => True) mtx0 guard0) (cv_boot cv0 lw0) all_told).
  { apply (rtc_subrel (cv_act (fun c => any c = true) mtx0 guard0)).
    - intros s s' Ha. destruct Ha; [by eapply act_call|by apply act_step|by apply act_other].
    - apply (run_acts any telling). vm_compute. reflexivity. }
  destruct (cv_no_lost_wakeup mtx0 guard0 cv0 lw0 all_told apart0 new0 Hr) as (_ & _ & _ & _ & _ & Hall).
  do 2 (split; [vm_compute; reflexivity|]). split; [|vm_compute; reflexivity].
  apply (Hall 3 1); vm_compute; reflexivity.
Defined.

Lemma cv_signals_exact_witness :
  c_pc one_up 1 = CIdle 0 /\ c_queued one_up false = [1; 2] /\ c_popped one_up false = [1] /\
  c_queued one_up true = [4] /\
  forall v, c_queued one_up v = c_popped one_up v ++ cv_tasks (c_cv one_up v).
Proof.
  assert (Hr : rtc (cv_act (fun c => plain c = true) mtx0 guard0) (cv_boot cv0 lw0) one_up).
  { apply (run_acts plain rousing). vm_compute. reflexivity. }
  do 4 (split; [vm_compute; reflexivity|]).
  apply (cv_signals_exact mtx0 guard0 cv0 lw0 one_up apart0 new0 Hr).
Defined.

(** ** What a timed wait breaks *)

(** Task 1 times out after task 2 has taken it off the list and before task 2 signals
    it; the signal then ends the next wait of task 1, whose entry stays on the list.
    The next signal goes to that entry: task 3, the only task that waits, sleeps on. *)
Theorem timedwait_stale_signal :
  exists s, rtc (cv_act (fun c => any c = true) mtx0 guard0) (cv_boot cv0 lw0) s /\
    c_pc s 1 = CIdle 0 /\ c_popped s false = [1; 1] /\
    c_pc s 3 = CSleep /\ pending (c_w s) 3 = false /\ cv_tasks (c_cv s false) = [3] /\
    c_pc s 2 = CIdle 0.
Proof.
  set (l := [Do 1 false CallLock; Run 1 1; Do 1 false (CallTimedWait 1); Run 1 8; Do 2 false CallSignal;
    Run 2 3; Run 1 4; Do 1 false CallWait; Run 1 5; Run 2 1; Run 1 2; Do 1 false CallUnlock; Run 1 1] ++
    goes_to_sleep 3 false ++ [Do 2 false CallSignal; Run 2 4]).
  exists (default (cv_boot cv0 lw0) (run any l (cv_boot cv0 lw0))).
  split; [apply (run_acts any l)|split_and!]; vm_compute; reflexivity.
Qed.
