(* ===== verification/TestCv.v ===== *)
(** * The condition-variable test (src/tests/phase1/test_cv.c)

    Three producers and two consumers share a queue of four places, guarded by a
    mutex and two condition variables; the main task joins the producers, wakes who
    is left, and joins the consumers.  Each task is the program of its thread: what
    it does between two calls of the OSAL is one step on the shared variables, and
    the calls are the machines of CvTasks.v, so that all of it interleaves call by
    call into the system.  All threads exist from the start, and may take their
    first step at any time; a join waits for the threads' functions to return
    (OsalThread.v).  What the test prints is left out. *)

From S2P Require Import Prelude Ring Ipc OsalCv Tasks OsalLock CvTasks.

Definition N_PROD : Z := 3.
Definition N_CONS : Z := 2.
Definition ITEMS : Z := 50.
Definition Q_SIZE : Z := 4.

(** [const int target] of the consumer. *)
Definition target : Z := N_PROD * ITEMS.

(** g_notempty and g_notfull. *)
Inductive cond := notempty | notfull.
#[global] Instance cond_eq_dec : EqDecision cond.
Proof. solve_decision. Defined.
#[global] Instance cond_inhabited : Inhabited cond := populate notempty.

(** The shared variables; and the history: the items pushed and those popped. *)
Record buf := mk_buf {
  g_q : list Z;
  g_qhead : Z;
  g_qtail : Z;
  g_qcount : Z;
  g_produced : Z;
  g_consumed : Z;
  g_sum_pushed : Z;
  g_sum_popped : Z;
  b_in : list Z;
  b_out : list Z
}.

Definition buf_init : buf := mk_buf (replicate 4 0) 0 0 0 0 0 0 0 [] [].

(** Where a task goes on when its call has returned. *)
Inductive pos :=
  (* producer [id], with [n] items pushed *)
  | PStart (id n : Z)     (* the head of the for loop *)
  | PTest (id n : Z)      (* with the lock: the head of the while loop *)
  | PTold (id n : Z)      (* after osal_cv_signal *)
  (* consumer *)
  | CStart | CTest | CTold
  | CEnd                  (* after the unlock before [break] *)
  (* main *)
  | MJoin                 (* before the producers are joined *)
  | MLocked | MTold
  | MVerdict              (* before the consumers are joined *)
  (* returned, main with an exit code *)
  | Done (rv : Z).

(** What a task does next. *)
Inductive next := Calls (c : call) (v : cond) (p : pos) | Ends (rv : Z).

(** The body of the producer's loop, once it may push [item]. *)
Definition push (item : Z) : M buf unit :=
  b ← getM;
  q ← liftO (storeZ (g_q b) (g_qhead b) item);
  h ← ckd (g_qhead b + 1);
  n ← ckd (g_qcount b + 1);
  p ← ckd (g_produced b + 1);
  sum ← ckd (g_sum_pushed b + item);
  putM (mk_buf q (Z.rem h Q_SIZE) (g_qtail b) n p (g_consumed b) sum (g_sum_popped b)
    (b_in b ++ [item]) (b_out b)).

(** The body of the consumer's loop, once there is an item. *)
Definition pop : M buf unit :=
  b ← getM;
  item ← liftO (lookupZ (g_q b) (g_qtail b));
  t ← ckd (g_qtail b + 1);
  n ← ckd (g_qcount b - 1);
  c ← ckd (g_consumed b + 1);
  sum ← ckd (g_sum_popped b + item);
  putM (mk_buf (g_q b) (g_qhead b) (Z.rem t Q_SIZE) n (g_produced b) c (g_sum_pushed b) sum
    (b_in b) (b_out b ++ [item])).

(** [producer], from the return of one call to the next. *)
Definition producer (id n : Z) (p : pos) : M buf next :=
  match p with
  | PStart _ _ =>
    if n <? ITEMS then mret (Calls CallLock notfull (PTest id n)) else mret (Ends 0)
  | PTest _ _ =>
    i ← ckd (id * 10000); item ← ckd (i + n);
    b ← getM;
    if g_qcount b =? Q_SIZE then mret (Calls CallWait notfull (PTest id n)) else
    push item;;
    mret (Calls CallSignal notempty (PTold id n))
  | PTold _ _ => m ← ckd (n + 1); mret (Calls CallUnlock notfull (PStart id m))
  | _ => ub
  end.

Definition consumer (p : pos) : M buf next :=
  match p with
  | CStart => mret (Calls CallLock notempty CTest)
  | CTest =>
    b ← getM;
    if (g_qcount b =? 0) && (g_consumed b <? target) then mret (Calls CallWait notempty CTest) else
    if (g_qcount b =? 0) && (target <=? g_consumed b) then mret (Calls CallUnlock notempty CEnd) else
    pop;;
    mret (Calls CallSignal notfull CTold)
  | CTold => mret (Calls CallUnlock notempty CStart)
  | CEnd => mret (Ends 0)
  | _ => ub
  end.

(** [main] from the first join on. *)
Definition main (p : pos) : M buf next :=
  match p with
  | MJoin => mret (Calls CallLock notempty MLocked)
  | MLocked => mret (Calls CallBroadcast notempty MTold)
  | MTold => mret (Calls CallUnlock notempty MVerdict)
  | MVerdict =>
    b ← getM;
    let ok := (g_produced b =? target) && (g_consumed b =? target) &&
              (g_sum_popped b =? g_sum_pushed b) in
    mret (Ends (if ok then 0 else 20))
  | _ => ub
  end.

Definition code (p : pos) : M buf next :=
  match p with
  | PStart id n | PTest id n | PTold id n => producer id n p
  | CStart | CTest | CTold | CEnd => consumer p
  | MJoin | MLocked | MTold | MVerdict => main p
  | Done _ => ub
  end.

(** ** All tasks together *)

Record tsys (W : Type) := mk_tsys {
  t_c : csys W unit cond;
  t_buf : buf;
  t_at : Z -> pos
}.
Arguments mk_tsys {W}. Arguments t_c {W}. Arguments t_buf {W}. Arguments t_at {W}.

(** Who a task is. *)
Inductive role := Producer (id : Z) | Consumer | Main | Nobody.

Definition start (r : role) : pos :=
  match r with Producer id => PStart id 0 | Consumer => CStart | Main => MJoin | Nobody => Done 0 end.

Section system.
Context {W : Type} `{!Tasks W, !TaskView W, !Sems W, !SemView W}.
(** The semaphore of the lock and the guards of the variables; the tasks. *)
Context (lock : Z) (guard : cond -> Z) (prods cons : list Z) (boss : Z).
Implicit Types (s : tsys W).

Definition role_of (t : Z) : role :=
  if decide (t = boss) then Main else
  match list_find (fun x => x = t) prods with
  | Some (i, _) => Producer (Z.of_nat i + 1)
  | None => if decide (t ∈ cons) then Consumer else Nobody
  end.

(** The joins before a task goes on. *)
Definition joined s (p : pos) : Prop :=
  match p with
  | MJoin => Forall (fun t => t_at s t = Done 0) prods
  | MVerdict => Forall (fun t => t_at s t = Done 0) cons
  | _ => True
  end.

Inductive t_act : tsys W -> tsys W -> Prop :=
  | ta_call s t r c v p b :
      c_pc (t_c s) t = CIdle r -> joined s (t_at s t) ->
      code (t_at s t) (t_buf s) = Some (Calls c v p, b) ->
      t_act s (mk_tsys (called (t_c s) t tt v c) b (<[t := p]> (t_at s)))
  | ta_end s t r rv b :
      c_pc (t_c s) t = CIdle r -> joined s (t_at s t) ->
      code (t_at s t) (t_buf s) = Some (Ends rv, b) ->
      t_act s (mk_tsys (t_c s) b (<[t := Done rv]> (t_at s)))
  | ta_step s t pc cv w :
      c_step (fun _ => lock) guard (t_c s) t = Go pc cv w ->
      t_act s (mk_tsys (after_step (t_c s) t pc cv w) (t_buf s) (t_at s)).

(** The variables are made, the threads created. *)
Definition t_boot (cv : cond -> osal_cv) (w : W) : tsys W :=
  mk_tsys (cv_boot cv w) buf_init (fun t => start (role_of t)).

(** Every thread has returned, and the test reports success. *)
Definition passed s : Prop :=
  t_at s boss = Done 0 /\ Forall (fun t => t_at s t = Done 0) (prods ++ cons).

(** The tasks are all different, as many as the test has. *)
Definition crew : Prop :=
  NoDup (boss :: prods ++ cons) /\ Z.of_nat (length prods) = N_PROD /\ Z.of_nat (length cons) = N_CONS.
End system.

(** ** The queue *)

Definition contents (b : buf) : list Z :=
  ring_view (g_q b) (Z.to_nat (g_qtail b)) (Z.to_nat (g_qcount b)).

Definition total (l : list Z) : Z := foldr Z.add 0 l.

Record buf_ok (b : buf) : Prop := {
  bo_len : length (g_q b) = 4%nat;
  bo_tail : 0 <= g_qtail b < 4;
  bo_count : 0 <= g_qcount b <= 4;
  bo_head : g_qhead b = (g_qtail b + g_qcount b) mod 4;
  bo_fifo : b_in b = b_out b ++ contents b;
  bo_items : Forall (fun x => 0 <= x < 30050) (b_in b);
  bo_most : Z.of_nat (length (b_in b)) <= target;
  bo_produced : g_produced b = Z.of_nat (length (b_in b));
  bo_consumed : g_consumed b = Z.of_nat (length (b_out b));
  bo_pushed : g_sum_pushed b = total (b_in b);
  bo_popped : g_sum_popped b = total (b_out b)
}.

Lemma total_app l k : total (l ++ k) = total l + total k.
Proof. unfold total. induction l as [|x l IH]; cbn [app foldr]; lia. Qed.

Lemma total_bound l : Forall (fun x => 0 <= x < 30050) l -> 0 <= total l <= 30050 * Z.of_nat (length l).
Proof. unfold total. induction 1; cbn [foldr length] in *; lia. Qed.

Lemma length_contents b : length (contents b) = Z.to_nat (g_qcount b).
Proof. apply length_ring_view. Qed.

Lemma in_length b : buf_ok b -> Z.of_nat (length (b_in b)) = Z.of_nat (length (b_out b)) + g_qcount b.
Proof.
  intros Hb. rewrite (bo_fifo _ Hb), length_app, length_contents. pose proof (bo_count _ Hb). lia.
Qed.

Lemma out_items b : buf_ok b -> Forall (fun x => 0 <= x < 30050) (b_out b).
Proof. intros Hb. pose proof (bo_items _ Hb) as Hi. rewrite (bo_fifo _ Hb) in Hi. by apply Forall_app in Hi as [? _]. Qed.

Lemma buf_ok_init : buf_ok buf_init.
Proof. by split; cbn. Qed.

Lemma nat_mod4 x : 0 <= x -> Z.to_nat (x mod 4) = (Z.to_nat x `mod` 4)%nat.
Proof. intros. by rewrite Z2Nat.inj_mod by lia. Qed.

Lemma push_buf b item :
  buf_ok b -> g_qcount b < 4 -> 0 <= item < 30050 -> Z.of_nat (length (b_in b)) < target ->
  exists b', push item b = Some (tt, b') /\ buf_ok b' /\ b_in b' = b_in b ++ [item] /\
    b_out b' = b_out b /\ g_qcount b' = g_qcount b + 1 /\ g_consumed b' = g_consumed b.
Proof.
  intros Hb Hc Hi Hm. pose proof Hb as [Hl Ht Hc0 Hh Hf Hit _ Hp Hco Hs1 Hs2].
  pose proof (total_bound _ Hit) as Hsum. unfold target, N_PROD, ITEMS in Hm.
  unfold push, mbind, M_bind, getM, putM, liftO.
  rewrite storeZ_run by (rewrite Hl; zlia).
  rewrite !ckd_run by (unfold is_s32; zlia). eexists. split; [reflexivity|].
  split; [|cbn; done].
  assert (Hnew : contents (mk_buf (<[Z.to_nat (g_qhead b) := item]> (g_q b)) (Z.rem (g_qhead b + 1) Q_SIZE)
    (g_qtail b) (g_qcount b + 1) (g_produced b + 1) (g_consumed b) (g_sum_pushed b + item) (g_sum_popped b)
    (b_in b ++ [item]) (b_out b)) = contents b ++ [item]).
  { unfold contents. cbn [g_q g_qtail g_qcount].
    replace (Z.to_nat (g_qcount b + 1)) with (S (Z.to_nat (g_qcount b))) by lia.
    rewrite <- ring_push by lia. rewrite Hl, Hh, nat_mod4, Z2Nat.inj_add by lia. done. }
  split; cbn [g_q g_qhead g_qtail g_qcount g_produced g_consumed g_sum_pushed g_sum_popped b_in b_out];
    rewrite ?length_insert, ?length_app, ?total_app; cbn [length total foldr]; try done; try lia.
  - unfold Q_SIZE. rewrite Z.rem_mod_nonneg by zlia. zlia.
  - by rewrite Hnew, Hf, <- app_assoc.
  - apply Forall_app. split; [done|]. by constructor.
  - unfold target, N_PROD, ITEMS. lia.
Qed.

Lemma pop_buf b :
  buf_ok b -> 0 < g_qcount b ->
  exists b' x, pop b = Some (tt, b') /\ buf_ok b' /\ b_in b' = b_in b /\
    b_out b' = b_out b ++ [x] /\ g_qcount b' = g_qcount b - 1 /\ g_consumed b' = g_consumed b + 1.
Proof.
  intros Hb Hc. pose proof (in_length _ Hb) as Hlen. pose proof (total_bound _ (out_items _ Hb)) as Hsum.
  pose proof Hb as [Hl Ht Hc0 Hh Hf Hit Hm Hp Hco Hs1 Hs2]. unfold target, N_PROD, ITEMS in Hm.
  assert (Hcon : contents b = g_q b !!! (Z.to_nat (g_qtail b)) ::
    ring_view (g_q b) ((Z.to_nat (g_qtail b) + 1) `mod` 4)%nat (Z.to_nat (g_qcount b - 1))).
  { unfold contents. replace (Z.to_nat (g_qcount b)) with (S (Z.to_nat (g_qcount b - 1))) by lia.
    rewrite ring_pop, Hl, Nat.mod_small by lia. done. }
  set (x := g_q b !!! Z.to_nat (g_qtail b)) in *.
  assert (Hx : 0 <= x < 30050).
  { rewrite Forall_forall in Hit. apply Hit. rewrite Hf, Hcon. apply elem_of_app. right. left. }
  unfold pop, mbind, M_bind, getM, putM, liftO.
  rewrite lookupZ_nat, list_lookup_lookup_total_lt by lia. fold x.
  rewrite !ckd_run by (unfold is_s32; zlia). eexists _, x. split; [reflexivity|].
  split; [|cbn; done].
  split; cbn [g_q g_qhead g_qtail g_qcount g_produced g_consumed g_sum_pushed g_sum_popped b_in b_out];
    rewrite ?length_app, ?total_app; cbn [length total foldr]; try done; try lia; unfold Q_SIZE;
    rewrite ?Z.rem_mod_nonneg by lia; try zlia.
  rewrite <- app_assoc, Hf, Hcon. f_equal. cbn [app]. f_equal. unfold contents.
  cbn [g_q g_qtail g_qcount]. rewrite nat_mod4, Z2Nat.inj_add by lia. done.
Qed.
