(* ===== verification/TestCvInv.v ===== *)
(** * What the condition-variable test keeps

    Where each task can be, in its program and in its call; that the lock is held
    exactly where the program says; the queue; and, for each variable, that as long
    as a task waits at it there are no more items (or free places) than tasks that
    are about to look, or about to signal. *)

From S2P Require Import Prelude Ipc OsalCv Tasks OsalLock CvTasks CvInv CvSafe CvExact TestCv.

(** ** Places *)

(** In a wait. *)
Definition waiting (pc : cpc) : bool :=
  match pc with
  | CClear None | CGuard None | CQueue None | CLeave None | CUnlock None | CSleep | CRelock _ => true
  | _ => false
  end.

Definition idle (pc : cpc) : bool := match pc with CIdle _ => true | _ => false end.

(** In which call, or just returned from it, a task is at [p]. *)
Definition shape (p : pos) (pc : cpc) : bool :=
  idle pc ||
  match p with
  | PStart _ _ | CStart | CEnd | MVerdict => match pc with CUnlocking => true | _ => false end
  | PTest _ _ | CTest => match pc with CLocking => true | _ => waiting pc end
  | PTold _ _ | CTold =>
    match pc with CSigGuard | CSigPop | CSigLeave _ | CSigSend _ => true | _ => false end
  | MLocked => match pc with CLocking => true | _ => false end
  | MTold => match pc with CAllGuard | CAllPop | CAllSend _ | CAllLeave => true | _ => false end
  | MJoin | Done _ => false
  end.

(** How often the task holds the lock there. *)
Definition hold (p : pos) (pc : cpc) : nat :=
  match pc with
  | CIdle _ =>
    match p with PTest _ _ | PTold _ _ | CTest | CTold | MLocked | MTold => 1 | _ => 0 end
  | CLocking | CSleep | CRelock _ => 0
  | _ => 1
  end.

(** The variable the call is about. *)
Definition var_of (p : pos) : option cond :=
  match p with
  | PTest _ _ | CTold => Some notfull
  | CTest | PTold _ _ | MTold => Some notempty
  | _ => None
  end.

Definition fits (r : role) (p : pos) : Prop :=
  match r, p with
  | Producer id, PStart i n => i = id /\ 1 <= id <= N_PROD /\ 0 <= n <= ITEMS
  | Producer id, (PTest i n | PTold i n) => i = id /\ 1 <= id <= N_PROD /\ 0 <= n < ITEMS
  | Consumer, (CStart | CTest | CTold | CEnd) => True
  | Main, (MJoin | MLocked | MTold | MVerdict) => True
  | _, Done rv => rv = 0
  | _, _ => False
  end.

(** The items a producer has pushed. *)
Definition made (p : pos) : nat :=
  Z.to_nat match p with PStart _ n | PTest _ n => n | PTold _ n => n + 1 | Done _ => ITEMS | _ => 0 end.

(** The items of producer [id], as far as it has pushed them. *)
Definition items (id : Z) (n : nat) : list Z := (fun k => id * 10000 + Z.of_nat k) <$> seq 0 n.

(** Those in a list. *)
Definition of_producer (id : Z) (l : list Z) : list Z := filter (fun x => x `div` 10000 = id) l.

(** ** Steps of the program *)

(** What the code at [p] does with the queue, and what comes next. *)
Inductive cedge (b : buf) : pos -> next -> buf -> Prop :=
  | ce_lock id n : n < ITEMS -> cedge b (PStart id n) (Calls CallLock notfull (PTest id n)) b
  | ce_made id n : ITEMS <= n -> cedge b (PStart id n) (Ends 0) b
  | ce_full id n : g_qcount b = 4 -> cedge b (PTest id n) (Calls CallWait notfull (PTest id n)) b
  | ce_push id n b' :
      g_qcount b < 4 -> buf_ok b' -> b_in b' = b_in b ++ [id * 10000 + n] -> b_out b' = b_out b ->
      g_qcount b' = g_qcount b + 1 -> g_consumed b' = g_consumed b ->
      cedge b (PTest id n) (Calls CallSignal notempty (PTold id n)) b'
  | ce_next id n : cedge b (PTold id n) (Calls CallUnlock notfull (PStart id (n + 1))) b
  | ce_clock : cedge b CStart (Calls CallLock notempty CTest) b
  | ce_empty : g_qcount b = 0 -> g_consumed b < target -> cedge b CTest (Calls CallWait notempty CTest) b
  | ce_over : g_qcount b = 0 -> target <= g_consumed b -> cedge b CTest (Calls CallUnlock notempty CEnd) b
  | ce_pop b' x :
      0 < g_qcount b -> buf_ok b' -> b_in b' = b_in b -> b_out b' = b_out b ++ [x] ->
      g_qcount b' = g_qcount b - 1 -> g_consumed b' = g_consumed b + 1 ->
      cedge b CTest (Calls CallSignal notfull CTold) b'
  | ce_again : cedge b CTold (Calls CallUnlock notempty CStart) b
  | ce_end : cedge b CEnd (Ends 0) b
  | ce_joined : cedge b MJoin (Calls CallLock notempty MLocked) b
  | ce_tell : cedge b MLocked (Calls CallBroadcast notempty MTold) b
  | ce_told : cedge b MTold (Calls CallUnlock notempty MVerdict) b
  | ce_verdict : cedge b MVerdict (Ends 0) b.

Lemma code_cedge r b p :
  buf_ok b -> fits r p -> (forall rv, p <> Done rv) ->
  (forall id n, p = PTest id n -> Z.of_nat (length (b_in b)) < target) ->
  (p = MVerdict -> b_in b = b_out b /\ Z.of_nat (length (b_in b)) = target) ->
  exists x b', code p b = Some (x, b') /\ cedge b p x b'.
Proof.
  intros Hb Hf Hd Hlt Hv. pose proof (bo_count _ Hb) as Hc.
  destruct p as [id n|id n|id n| | | | | | | | |rv]; cbn [code producer consumer main].
  - case_cond; eexists _, _; (split; [done|]); by constructor.
  - destruct r as [i| | |]; try done. destruct Hf as (-> & Hi & Hn). unfold N_PROD, ITEMS in *.
    unfold mbind at 1 2, M_bind at 1 2. rewrite !ckd_run by (unfold is_s32; lia).
    unfold mbind at 1, M_bind at 1, getM, Q_SIZE. case_cond; [eexists _, _; split; [done|by constructor]|].
    destruct (push_buf b (i * 10000 + n) Hb ltac:(lia) ltac:(lia) (Hlt i n eq_refl))
      as (b' & Hr & ? & ? & ? & ? & ?).
    rewrite (bind_some _ _ _ _ _ Hr). eexists _, _. split; [done|]. apply ce_push; auto; lia.
  - destruct r as [i| | |]; try done. destruct Hf as (-> & Hi & Hn). unfold ITEMS in *.
    unfold mbind, M_bind. rewrite ckd_run by (unfold is_s32; lia). eexists _, _. split; [done|]. constructor.
  - eexists _, _. split; [done|]. constructor.
  - unfold mbind at 1, M_bind at 1, getM.
    destruct (Z.eqb_spec (g_qcount b) 0), (Z.ltb_spec (g_consumed b) target),
      (Z.leb_spec target (g_consumed b)); try lia; cbn [andb];
      try (eexists _, _; split; [done|by constructor]);
      destruct (pop_buf b Hb ltac:(lia)) as (b' & x & Hr & ? & ? & ? & ? & ?);
      rewrite (bind_some _ _ _ _ _ Hr); eexists _, _; (split; [done|]); eapply ce_pop; eauto; lia.
  - eexists _, _. split; [done|]. constructor.
  - eexists _, _. split; [done|]. constructor.
  - eexists _, _. split; [done|]. constructor.
  - eexists _, _. split; [done|]. constructor.
  - eexists _, _. split; [done|]. constructor.
  - destruct (Hv eq_refl) as [Heq Hl]. unfold mbind, M_bind, getM.
    rewrite (bo_produced _ Hb), (bo_consumed _ Hb), (bo_popped _ Hb), (bo_pushed _ Hb), <- Heq, Hl, !Z.eqb_refl.
    eexists _, _. split; [done|]. constructor.
  - by destruct (Hd rv).
Qed.

(** Where the program is after a step of it, and the calls it may make. *)
Lemma cedge_calls r b p c v p' b' rv :
  fits r p -> cedge b p (Calls c v p') b' ->
  fits r p' /\ shape p' (enter c) = true /\ hold p' (enter c) = hold p (CIdle rv) /\
  (forall v', var_of p' = Some v' -> v = v') /\ untimed (enter c) = true /\
  (c = CallUnlock \/ c = CallWait -> hold p (CIdle rv) = 1%nat).
Proof.
  intros Hf He. inversion He; subst; destruct r; cbn in *; try done; unfold ITEMS in *;
    repeat split; try done; try lia; intros; simplify_eq; try done; naive_solver.
Qed.

Lemma cedge_ends r b p x b' rv :
  fits r p -> cedge b p (Ends x) b' -> fits r (Done x) /\ hold p (CIdle rv) = 0%nat /\ b' = b.
Proof. intros Hf He. inversion He; subst; by destruct r. Qed.

Definition after (x : next) : pos := match x with Calls _ _ p => p | Ends rv => Done rv end.

(** Producers push what they count, others nothing. *)
Lemma cedge_made r b p x b' :
  fits r p -> cedge b p x b' ->
  match r with
  | Producer _ => (made (after x) + length (b_in b) = made p + length (b_in b'))%nat
  | _ => b_in b' = b_in b
  end.
Proof.
  intros Hf He. inversion He; subst; destruct r; cbn in *; unfold ITEMS in *; try done; try lia.
  - unfold made, ITEMS. lia.
  - match goal with Hin : b_in _ = b_in _ ++ _ |- _ => rewrite Hin, length_app end. unfold made. cbn [length]. lia.
Qed.

Lemma of_producer_snoc id l x :
  of_producer id (l ++ [x]) = of_producer id l ++ if decide (x `div` 10000 = id) then [x] else [].
Proof. unfold of_producer. rewrite filter_app, filter_cons. by case_decide. Qed.

(** Each producer's items are pushed in order. *)
Lemma cedge_order id r b p x b' :
  fits r p -> cedge b p x b' -> 1 <= id ->
  of_producer id (b_in b) = items id (made p) /\ r = Producer id ->
  of_producer id (b_in b') = items id (made (after x)).
Proof.
  intros Hf He Hid [Ho ->]. pose proof (cedge_made _ _ _ _ _ Hf He) as Hm. cbn beta iota in Hm.
  assert (Hsame : b_in b' = b_in b -> of_producer id (b_in b') = items id (made (after x))).
  { intros Heq. rewrite Heq in Hm |- *. rewrite Ho. f_equal. lia. }
  destruct He; try by apply Hsame. cbn [fits] in Hf. destruct Hf as (-> & _ & Hn). unfold ITEMS in Hn.
  match goal with Hin : b_in _ = b_in _ ++ _ |- _ => rewrite Hin end.
  rewrite of_producer_snoc, decide_True by zlia. rewrite Ho. cbn [after]. unfold made, items.
  replace (Z.to_nat (n + 1)) with (S (Z.to_nat n)) by lia. rewrite seq_S, fmap_app. cbn. repeat f_equal. lia.
Qed.

(** And a step of another task leaves them alone. *)
Lemma cedge_foreign id r b p x b' :
  fits r p -> cedge b p x b' -> r <> Producer id -> of_producer id (b_in b') = of_producer id (b_in b).
Proof.
  intros Hf He Hr. destruct He; try done; try congruence.
  destruct r as [i| | |]; try done. cbn [fits] in Hf. destruct Hf as (-> & _ & Hn). unfold ITEMS in Hn.
  match goal with Hin : b_in _ = b_in _ ++ _ |- _ => rewrite Hin end.
  rewrite of_producer_snoc, decide_False; [by rewrite app_nil_r|].
  intros Hd. apply Hr. f_equal. zlia.
Qed.

(** ** Steps of a call *)

Lemma edge_placed me q pd p pc pc' q' :
  edge me q pd pc pc' q' -> shape p pc = true -> (length q < 32)%nat ->
  shape p pc' = true /\ hold p pc' = apply_op (mtx_op pc pc') (hold p pc).
Proof.
  unfold shape. intros He Hs Hl. destruct He; destruct p; cbn in *; try done; try lia;
    try (by destruct to); by destruct x.
Qed.

(** ** Sums over the tasks *)

Definition sum (f : Z -> nat) (l : list Z) : nat := sum_list (f <$> l).

Lemma sum_ext f g l : (forall t, t ∈ l -> f t = g t) -> sum f l = sum g l.
Proof.
  unfold sum. induction l as [|x l IH]; cbn; [done|]. intros He.
  rewrite (He x) by left. rewrite IH; [done|]. intros t Ht. apply He. by right.
Qed.

Lemma sum_le f g l : (forall t, t ∈ l -> (f t <= g t)%nat) -> (sum f l <= sum g l)%nat.
Proof.
  unfold sum. induction l as [|x l IH]; cbn; [done|]. intros He.
  pose proof (He x ltac:(left)). specialize (IH (fun t Ht => He t ltac:(by right))). lia.
Qed.

Lemma sum_in f l a : a ∈ l -> (f a <= sum f l)%nat.
Proof. unfold sum. induction 1; cbn; lia. Qed.

(** Changing [f] at one task. *)
Lemma sum_at f g a l :
  NoDup l -> a ∈ l -> (forall t, t ∈ l -> t <> a -> f t = g t) -> (sum f l + g a = sum g l + f a)%nat.
Proof.
  intros Hnd Ha He. unfold sum. induction Hnd as [|x l Hx Hnd IH]; [by apply elem_of_nil in Ha|].
  cbn. apply elem_of_cons in Ha as [->|Ha].
  - assert (Hl : sum_list (f <$> l) = sum_list (g <$> l)); [|lia].
    apply (sum_ext f g l). intros t Ht. apply He; [by right|]. by intros ->.
  - assert (x <> a) by (by intros ->). rewrite (He x) by (done || left).
    assert (sum_list (f <$> l) + g a = sum_list (g <$> l) + f a)%nat; [|lia].
    apply IH; [done|]. intros t Ht. apply He. by right.
Qed.

(** A sum that loses at most [d] at one task and nothing elsewhere. *)
Lemma sum_loses f g a d l :
  NoDup l -> a ∈ l -> (f a <= g a + d)%nat -> (forall t, t ∈ l -> t <> a -> (f t <= g t)%nat) ->
  (sum f l <= sum g l + d)%nat.
Proof.
  intros Hnd Ha Hd He.
  pose proof (sum_at (<[a := f a]> g) g a l Hnd Ha ltac:(intros; by fn_simpl)) as Hs.
  rewrite fn_lookup_insert in Hs.
  assert (sum f l <= sum (<[a := f a]> g) l)%nat; [|lia].
  apply sum_le. intros t Ht. destruct (decide (t = a)) as [->|Hn]; fn_simpl; [done|by apply He].
Qed.

(** One task loses one, another wins one. *)
Lemma sum_moves f g a c l :
  NoDup l -> a ∈ l -> c ∈ l -> a <> c -> (f a <= g a + 1)%nat -> (f c + 1 <= g c)%nat ->
  (forall t, t ∈ l -> t <> a -> (f t <= g t)%nat) -> (sum f l <= sum g l)%nat.
Proof.
  intros Hnd Ha Hc Hne Hla Hlc He.
  pose proof (sum_at (<[c := f c]> g) g c l Hnd Hc ltac:(intros; by fn_simpl)) as Hs.
  rewrite fn_lookup_insert in Hs.
  pose proof (sum_loses f (<[c := f c]> g) a 1 l Hnd Ha) as Hl. rewrite fn_lookup_insert_ne in Hl by done.
  specialize (Hl Hla). assert (sum f l <= sum (<[c := f c]> g) l + 1)%nat; [|lia].
  apply Hl. intros t Ht Hn. destruct (decide (t = c)) as [->|Hn']; fn_simpl; [done|by apply He].
Qed.

(** ** Who is about to look, or to signal *)

(** Whether task [t] counts for [v], when the tasks [l] are on its list. *)
Definition credit (v : cond) (l : list Z) (t : Z) (p : pos) (pc : cpc) : nat :=
  match v, p with
  | notempty, PTold _ _ | notfull, CTold =>
    match pc with CSigGuard | CSigPop => 1 | _ => 0 end
  | notempty, CTest | notfull, PTest _ _ =>
    match pc with
    | CLocking | CIdle _ | CRelock _ => 1
    | CLeave _ | CUnlock _ | CSleep => if decide (t ∈ l) then 0 else 1
    | _ => 0
    end
  | _, _ => 0
  end.

(** The items, or the free places. *)
Definition room (v : cond) (b : buf) : nat :=
  Z.to_nat match v with notempty => g_qcount b | notfull => Q_SIZE - g_qcount b end.

Lemma credit_mono v l l' t p pc : (t ∈ l' -> t ∈ l) -> (credit v l t p pc <= credit v l' t p pc)%nat.
Proof.
  intros Hl. unfold credit. destruct v, p, pc; try done; repeat case_decide; auto; tauto.
Qed.

Lemma drop_first_sub t x (q : list Z) : x ∈ drop_first t q -> x ∈ q.
Proof.
  unfold drop_first. destruct (list_find _ q) as [[k y]|]; [|done]. intros Hx.
  eapply elem_of_submseteq; [exact Hx|]. apply sublist_submseteq, sublist_delete.
Qed.

Lemma edge_sub me q pd pc pc' q' t : edge me q pd pc pc' q' -> t <> me -> t ∈ q' -> t ∈ q.
Proof.
  intros He Hn. destruct He; subst; try done.
  - intros [?|?%list_elem_of_singleton]%elem_of_app; done.
  - apply drop_first_sub.
  - by right.
  - by right.
Qed.

(** A step of a call costs a credit only when it takes a waiter off. *)
Lemma edge_credit v me q pd p pc pc' q' l l' :
  edge me q pd pc pc' q' -> shape p pc = true -> pc <> CSigPop -> (q' = q -> l' = l) ->
  (credit v l me p pc <= credit v l' me p pc')%nat.
Proof.
  unfold shape. intros He Hs Hn Hl. destruct He; destruct v, p; cbn in *; try done; try lia;
    try (rewrite Hl by done; case_decide; lia); repeat case_decide; try lia.
Qed.

Lemma credit_le1 v l t p pc : (credit v l t p pc <= 1)%nat.
Proof. unfold credit. repeat case_match; lia. Qed.

Lemma credit_other v v' l t p pc : var_of p = Some v' -> v <> v' -> credit v l t p pc = 0%nat.
Proof. unfold credit. destruct v, p; cbn; intros; simplify_eq; try done; by destruct v'. Qed.

(** A step of the program keeps the balance. *)
Lemma cedge_credit v l t r b p x b' rv :
  fits r p -> cedge b p x b' -> buf_ok b ->
  room v b' = 0%nat \/
  (room v b' + credit v l t p (CIdle rv) <=
   room v b + credit v l t (after x) (match x with Calls c _ _ => enter c | Ends _ => CIdle rv end))%nat.
Proof.
  intros Hf He Hb. pose proof (bo_count _ Hb). unfold room, Q_SIZE.
  inversion He; subst; destruct v; cbn; try (left; lia); right; lia.
Qed.

Lemma cedge_buf b p x b' : cedge b p x b' -> buf_ok b -> buf_ok b'.
Proof. by destruct 1. Qed.

(** Only with the lock, and not for ever. *)
Lemma cedge_same b p x b' rv : cedge b p x b' -> b' = b \/ hold p (CIdle rv) = 1%nat.
Proof. destruct 1; auto. Qed.

Lemma cedge_consumed b p x b' :
  cedge b p x b' -> buf_ok b -> g_consumed b = target -> g_consumed b' = target.
Proof.
  intros He Hb Hc. destruct He; try done; try congruence. exfalso.
  pose proof (in_length _ Hb). pose proof (bo_consumed _ Hb). pose proof (bo_most _ Hb). lia.
Qed.
