(* ===== verification/TestCvSafe.v ===== *)
(** * The condition-variable test is sound in every interleaving

    The invariant of TestCvInv.v over all tasks, kept by every step. *)

From S2P Require Import Prelude Ipc OsalCv Tasks OsalLock CvTasks CvInv CvSafe CvExact TestCv TestCvInv.

(** In a wait, before it has queued itself. *)
Definition queuing (pc : cpc) : bool :=
  match pc with CClear _ | CGuard _ | CQueue _ => true | _ => false end.

(** Main has woken everybody who waited for an item. *)
Definition told (p : pos) (pc : cpc) : bool :=
  match p, pc with
  | MTold, (CAllLeave | CIdle _) => true
  | (MVerdict | Done _), _ => true
  | _, _ => false
  end.

Lemma edge_queuing me q pd pc pc' q' : edge me q pd pc pc' q' -> queuing pc' = true -> queuing pc = true.
Proof. by destruct 1. Qed.

Lemma pop_or_not (pc : cpc) : pc = CSigPop \/ pc <> CSigPop.
Proof. by destruct pc; auto; right. Qed.

Lemma edge_pop me q pd pc' q' : edge me q pd CSigPop pc' q' -> q' <> [] -> exists t, q = t :: q'.
Proof. intros He Hn. inversion He; subst; eauto; done. Qed.

Lemma edge_told me q pd p pc pc' q' :
  edge me q pd pc pc' q' -> shape p pc = true -> told p pc' = true ->
  told p pc = true \/ (q' = [] /\ p = MTold).
Proof. unfold shape. intros He Hs Ht. destruct He, p; cbn in *; auto. Qed.

(** The list after a step, when it is not empty. *)
Lemma edge_grows me q pd pc pc' q' :
  edge me q pd pc pc' q' -> q' <> [] -> q <> [] \/ (queuing pc = true /\ q' = [me]).
Proof.
  intros He Hn. destruct He; auto; try (left; by subst); try (by right).
  - destruct q; [by right|by left].
  - left. by intros ->.
Qed.

Section safe.
Context {W : Type} `{TaskLaws W, !Sems W, !SemView W, !SemLaws W}.
Context (lock : Z) (guard : cond -> Z) (prods cons : list Z) (boss : Z).
Context (Hap : apart (fun _ : unit => lock) guard) (Hcrew : crew prods cons boss).
Implicit Types (s : tsys W).

Abbreviation mtx := (fun _ : unit => lock).
Abbreviation team := (boss :: prods ++ cons).
Abbreviation role_of := (role_of prods cons boss).
Abbreviation pc_of s t := (c_pc (t_c s) t).
Abbreviation tasks_of s v := (cv_tasks (c_cv (t_c s) v)).
Abbreviation step := (t_act lock guard prods cons).

(** ** Who is who *)

Lemma team_nodup : NoDup team.
Proof. apply Hcrew. Qed.

Lemma role_boss : role_of boss = Main.
Proof. unfold TestCv.role_of. by rewrite decide_True. Qed.

Lemma role_prod t : t ∈ prods -> exists id, role_of t = Producer id /\ 1 <= id <= N_PROD.
Proof.
  intros Ht. destruct Hcrew as ([Hb _]%NoDup_cons & Hl & _). unfold TestCv.role_of.
  rewrite decide_False by (intros ->; apply Hb, elem_of_app; by left).
  destruct (list_find_elem_of (fun x => x = t) prods t Ht eq_refl) as [[i x] Hi]. rewrite Hi.
  apply list_find_Some in Hi as (Hi & _ & _). apply lookup_lt_Some in Hi. eexists. split; [done|]. lia.
Qed.

Lemma role_cons t : t ∈ cons -> role_of t = Consumer.
Proof.
  intros Ht. destruct Hcrew as ([Hb Hnd]%NoDup_cons & _). unfold TestCv.role_of.
  rewrite decide_False by (intros ->; apply Hb, elem_of_app; by right).
  destruct (list_find _ prods) as [[i x]|] eqn:Hf; [|by rewrite decide_True].
  apply list_find_Some in Hf as (Hi & -> & _). apply list_elem_of_lookup_2 in Hi.
  apply NoDup_app in Hnd as (_ & Hnd & _). by destruct (Hnd t Hi).
Qed.

Lemma role_is t :
  match role_of t with
  | Main => t = boss | Producer _ => t ∈ prods | Consumer => t ∈ cons | Nobody => t ∉ team
  end.
Proof.
  unfold TestCv.role_of. case_decide as Hb; [done|]. destruct (list_find _ prods) as [[i x]|] eqn:Hf.
  - apply list_find_Some in Hf as (Hi & -> & _). by apply list_elem_of_lookup_2 in Hi.
  - case_decide as Hc; [done|]. rewrite elem_of_cons, elem_of_app. intros [?|[Hp|?]]; try done.
    apply list_find_None in Hf. rewrite Forall_forall in Hf. by apply (Hf t).
Qed.

Lemma role_id t id : role_of t = Producer id -> 1 <= id /\ prods !! Z.to_nat (id - 1) = Some t.
Proof.
  unfold TestCv.role_of. case_decide; [done|]. destruct (list_find _ prods) as [[i x]|] eqn:Hf; [|by case_decide].
  apply list_find_Some in Hf as (Hi & -> & _). intros [= <-]. split; [lia|].
  by replace (Z.to_nat (Z.of_nat i + 1 - 1)) with i by lia.
Qed.

Lemma in_team t : role_of t <> Nobody -> t ∈ team.
Proof.
  pose proof (role_is t) as Hr. destruct (role_of t); intros; try done; rewrite elem_of_cons, elem_of_app; auto.
Qed.

(** ** The invariant *)

Definition credits s (v : cond) : nat :=
  sum (fun t => credit v (tasks_of s v) t (t_at s t) (pc_of s t)) team.

(** Where the tasks are. *)
Record placed s : Prop := {
  pl_c : cinv mtx guard (t_c s);
  pl_x : xinv (t_c s);
  pl_fits t : fits (role_of t) (t_at s t);
  pl_shape t : shape (t_at s t) (pc_of s t) = true;
  pl_on t v : var_of (t_at s t) = Some v -> c_on (t_c s) t = v;
  pl_held t : c_held (t_c s) t tt = hold (t_at s t) (pc_of s t)
}.

Record tinv s : Prop := {
  ti_placed : placed s;
  ti_buf : buf_ok (t_buf s);
  ti_made : length (b_in (t_buf s)) = sum (fun t => made (t_at s t)) prods;
  ti_order t id : role_of t = Producer id ->
    of_producer id (b_in (t_buf s)) = items id (made (t_at s t));
  ti_queue t : queuing (pc_of s t) = true ->
    match t_at s t with
    | PTest _ _ => g_qcount (t_buf s) = Q_SIZE
    | CTest => g_qcount (t_buf s) = 0 /\ g_consumed (t_buf s) < target
    | _ => True
    end;
  ti_wake v : tasks_of s v <> [] -> (room v (t_buf s) <= credits s v)%nat;
  ti_end t : role_of t = Consumer -> t_at s t = CEnd \/ t_at s t = Done 0 ->
    g_consumed (t_buf s) = target;
  ti_main : t_at s boss <> MJoin -> Forall (fun t => t_at s t = Done 0) prods;
  ti_told : told (t_at s boss) (pc_of s boss) = true -> tasks_of s notempty = []
}.

(** Two tasks do not hold the lock. *)
Lemma one_holds s t u :
  placed s -> (0 < hold (t_at s t) (pc_of s t))%nat -> (0 < hold (t_at s u) (pc_of s u))%nat -> t = u.
Proof.
  intros Hp. rewrite <- !(pl_held _ Hp), <- !(ci_held _ _ _ (pl_c _ Hp)). apply nest_one.
Qed.

(** The tasks on a list. *)
Lemma on_list s v t :
  placed s -> t ∈ tasks_of s v ->
  t ∈ team /\ var_of (t_at s t) = Some v /\ credit v (tasks_of s v) t (t_at s t) (pc_of s t) = 0%nat /\
  forall l, t ∉ l -> credit v l t (t_at s t) (pc_of s t) = 1%nat.
Proof.
  intros Hp Ht. destruct (xi_list _ (pl_x _ Hp) t v Ht) as (Hv & Hpk & _).
  pose proof (xi_pc _ (pl_x _ Hp) t) as Hu. pose proof (pl_shape _ Hp t) as Hs.
  pose proof (pl_fits _ Hp t) as Hf. pose proof (pl_on _ Hp t) as Hon. rewrite Hv in Hon.
  assert (Hr : role_of t <> Nobody -> t ∈ team) by apply in_team. revert Hs Hf Hon. unfold shape.
  destruct (pc_of s t) as [?| | | |to|to|to|[]|[]| |? ?| |? ?| | | |rv| | | | |x|x| | |x|]; try done;
    destruct (t_at s t); cbn [credit var_of fits waiting idle orb]; try done; intros _ Hf Hon; pose proof (Hon _ eq_refl) as ->;
    cbn [credit]; rewrite decide_True by done; (split; [apply Hr; by intros Hn; rewrite Hn in Hf|]);
    (split; [done|]); (split; [done|]); intros l Hl; cbn [credit]; by rewrite decide_False.
Qed.

Lemma few_waiters s v : placed s -> (length (tasks_of s v) < 32)%nat.
Proof.
  intros Hp. assert (Hl : (length (tasks_of s v) <= length team)%nat).
  { apply submseteq_length, NoDup_submseteq; [apply (pl_x _ Hp)|]. intros t Ht. by apply (on_list s v). }
  destruct Hcrew as (_ & Hn & Hm). cbn in Hl. rewrite length_app in Hl. unfold N_PROD, N_CONS in *. lia.
Qed.

(** ** What the code does from here *)

Lemma made_bound r p : fits r p -> (made p <= 50)%nat.
Proof. destruct r, p; cbn; unfold made, ITEMS; try done; lia. Qed.

Lemma prods_in_role s t : placed s -> t ∈ prods -> exists id, fits (Producer id) (t_at s t) /\ role_of t = Producer id.
Proof.
  intros Hp Ht. destruct (role_prod t Ht) as (id & Hr & _). exists id. split; [|done].
  pose proof (pl_fits _ Hp t) as Hf. by rewrite Hr in Hf.
Qed.

Lemma sum_bound f k l : (forall t, t ∈ l -> (f t <= k)%nat) -> (sum f l <= k * length l)%nat.
Proof.
  unfold sum. induction l as [|x l IH]; cbn; [lia|]. intros He.
  assert (f x <= k)%nat by (apply He; left).
  assert (sum_list (f <$> l) <= k * length l)%nat; [|lia]. apply IH. intros t Ht. apply He, elem_of_cons. by right.
Qed.

Lemma prods_nodup : NoDup prods.
Proof. destruct Hcrew as ([_ Hnd]%NoDup_cons & _). by apply NoDup_app in Hnd as [? _]. Qed.

Lemma length_prods : length prods = 3%nat.
Proof. destruct Hcrew as (_ & Hl & _). unfold N_PROD in Hl. lia. Qed.

(** A producer that has not pushed everything leaves room for an item. *)
Lemma made_less s t :
  tinv s -> t ∈ prods -> (made (t_at s t) < 50)%nat -> Z.of_nat (length (b_in (t_buf s))) < target.
Proof.
  intros Ht Hin Hlt. rewrite (ti_made _ Ht). set (f := fun u => made (t_at s u)).
  pose proof (sum_at f (<[t := 50%nat]> f) t prods prods_nodup Hin ltac:(intros; by fn_simpl)) as Hs.
  rewrite fn_lookup_insert in Hs.
  pose proof (sum_bound (<[t := 50%nat]> f) 50 prods) as Hb. rewrite length_prods in Hb.
  assert (Hle : (sum (<[t:=50%nat]> f) prods <= 150)%nat).
  { apply Hb. intros u Hu. destruct (decide (u = t)) as [->|Hn]; fn_simpl; [lia|].
    eapply made_bound, (pl_fits _ (ti_placed _ Ht)). }
  fold f in Hlt. change (made (t_at s t)) with (f t) in Hlt. unfold target, N_PROD, ITEMS. lia.
Qed.

(** When the producers have returned, everything is pushed. *)
Lemma made_all s :
  tinv s -> Forall (fun t => t_at s t = Done 0) prods -> Z.of_nat (length (b_in (t_buf s))) = target.
Proof.
  intros Ht Hd. rewrite (ti_made _ Ht). rewrite Forall_forall in Hd.
  rewrite (sum_ext _ (fun _ => 50%nat)) by (intros t Hin; by rewrite (Hd t Hin)).
  unfold sum. assert (Hl := length_prods). destruct prods as [|x [|y [|z [|]]]]; try done.
Qed.

Lemma the_code s t r :
  tinv s -> pc_of s t = CIdle r -> joined prods cons s (t_at s t) -> (forall rv, t_at s t <> Done rv) ->
  exists x b, code (t_at s t) (t_buf s) = Some (x, b) /\ cedge (t_buf s) (t_at s t) x b.
Proof.
  intros Ht Hpc Hj Hnd. pose proof (pl_fits _ (ti_placed _ Ht) t) as Hf.
  apply (code_cedge (role_of t)); [apply Ht|done|done| |].
  - intros id n Hp. rewrite Hp in Hf. pose proof (role_is t) as Hr.
    destruct (role_of t) as [i| | |]; try done. destruct Hf as (_ & _ & Hn).
    apply (made_less s t Ht Hr). rewrite Hp. unfold made, ITEMS in *. lia.
  - intros Hp. rewrite Hp in Hf, Hj. pose proof (role_is t) as Hr. destruct (role_of t); try done. subst t.
    assert (Hin := made_all s Ht (ti_main _ Ht ltac:(by rewrite Hp))).
    split; [|done]. assert (Hc : exists u, u ∈ cons).
    { destruct Hcrew as (_ & _ & Hl). unfold N_CONS in Hl. destruct cons as [|u l]; [done|]. exists u. left. }
    destruct Hc as [u Hu]. cbn [joined] in Hj. rewrite Forall_forall in Hj.
    pose proof (ti_end _ Ht u (role_cons u Hu) (or_intror (Hj u Hu))) as He.
    pose proof (in_length _ (ti_buf _ Ht)) as Hl. rewrite (bo_consumed _ (ti_buf _ Ht)) in He.
    rewrite (bo_fifo _ (ti_buf _ Ht)).
    assert (Hz : contents (t_buf s) = []); [|by rewrite Hz, app_nil_r].
    apply nil_length_inv. rewrite length_contents. lia.
Qed.

(** ** Places are kept *)

Lemma call_placed s t r c v p b b' :
  placed s -> pc_of s t = CIdle r -> cedge b (t_at s t) (Calls c v p) b' ->
  placed (mk_tsys (called (t_c s) t tt v c) b' (<[t := p]> (t_at s))).
Proof.
  intros Hp Hpc Hce.
  destruct (cedge_calls (role_of t) b (t_at s t) c v p b' r (pl_fits _ Hp t) Hce)
    as (Hf & Hs & Hh & Hv & Hu & Hheld).
  pose proof (pl_held _ Hp t) as Hth. rewrite Hpc in Hth.
  split; cbn [t_c t_at].
  - apply (call_cinv _ _ _ t tt v c r); [apply Hp|done|]. unfold call_ok. rewrite Hth.
    destruct c; try done; try (rewrite Hheld by auto; lia).
  - eapply call_xinv; [apply Hp|done..].
  - intros u. destruct (decide (u = t)) as [->|Hn]; fn_simpl; [done|apply Hp].
  - intros u. cbn. destruct (decide (u = t)) as [->|Hn]; fn_simpl; [done|apply Hp].
  - intros u v'. cbn. destruct (decide (u = t)) as [->|Hn]; fn_simpl; [apply Hv|apply Hp].
  - intros u. cbn. destruct (decide (u = t)) as [->|Hn]; fn_simpl; [congruence|apply Hp].
Qed.

Lemma end_placed s t r rv b b' :
  placed s -> pc_of s t = CIdle r -> cedge b (t_at s t) (Ends rv) b' ->
  placed (mk_tsys (t_c s) b' (<[t := Done rv]> (t_at s))).
Proof.
  intros Hp Hpc Hce.
  destruct (cedge_ends (role_of t) b (t_at s t) rv b' r (pl_fits _ Hp t) Hce) as (Hf & Hh & _).
  pose proof (pl_held _ Hp t) as Hth. rewrite Hpc in Hth.
  split; cbn [t_c t_at]; try apply Hp.
  - intros u. destruct (decide (u = t)) as [->|Hn]; fn_simpl; [done|apply Hp].
  - intros u. destruct (decide (u = t)) as [->|Hn]; fn_simpl; [by rewrite Hpc|apply Hp].
  - intros u v'. destruct (decide (u = t)) as [->|Hn]; fn_simpl; [done|apply Hp].
  - intros u. destruct (decide (u = t)) as [->|Hn]; fn_simpl; [rewrite Hpc; cbn in *; congruence|apply Hp].
Qed.

(** ** Steps of a call *)

Section step.
Context s (Hp : placed s) (me : Z) (pc : cpc) (cv : osal_cv) (w : W).
Hypothesis Hst : c_step mtx guard (t_c s) me = Go pc cv w.
Abbreviation s' := (mk_tsys (after_step (t_c s) me pc cv w) (t_buf s) (t_at s)).
Abbreviation mine := (c_on (t_c s) me).

Lemma the_step :
  edge me (tasks_of s mine) (pending (c_w (t_c s)) me) (pc_of s me) pc (cv_tasks cv).
Proof. apply (the_edge mtx guard (t_c s) (pl_c _ Hp) me pc cv w Hst). Qed.

Lemma step_placed : placed s'.
Proof.
  destruct (edge_placed _ _ _ (t_at s me) _ _ _ the_step (pl_shape _ Hp me) (few_waiters s _ Hp)) as [Hs Hh].
  split; cbn [t_c t_at].
  - by apply (step_cinv mtx guard Hap _ (pl_c _ Hp)).
  - by apply (step_xinv mtx guard Hap _ (pl_c _ Hp) (pl_x _ Hp)).
  - apply Hp.
  - intros t. rewrite pc_after. case_decide as Ht; [by subst|apply Hp].
  - intros t v. cbn. apply Hp.
  - intros t. rewrite pc_after. cbn. case_decide as Ht; fn_simpl; [subst|apply Hp].
    destruct (c_mx (t_c s) me). fn_simpl. by rewrite Hh, (pl_held _ Hp).
Qed.
Lemma lists_step v : tasks_of s' v = if decide (v = mine) then cv_tasks cv else tasks_of s v.
Proof. apply tasks_after. Qed.

Lemma pc_step t : pc_of s' t = if decide (t = me) then pc else pc_of s t.
Proof. apply pc_after. Qed.

Lemma sub_step v t : t <> me -> t ∈ tasks_of s' v -> t ∈ tasks_of s v.
Proof.
  intros Ht. rewrite lists_step. case_decide as Hv; [subst v|done]. by eapply edge_sub; [apply the_step|].
Qed.

(** A list that is not empty was not, or [me] has just queued itself. *)
Lemma grows_step v :
  tasks_of s' v <> [] -> tasks_of s v <> [] \/ (v = mine /\ queuing (pc_of s me) = true).
Proof.
  rewrite lists_step. case_decide as Hv; [subst v|by left]. intros Hn.
  destruct (edge_grows _ _ _ _ _ _ the_step Hn) as [?|[? _]]; auto.
Qed.

(** A step that takes nobody off. *)
Lemma credits_step v : pc_of s me <> CSigPop -> (credits s v <= credits s' v)%nat.
Proof.
  intros Hpop. apply sum_le. intros t _. rewrite pc_step. cbn [t_at]. case_decide as Ht.
  - subst t. eapply edge_credit; [apply the_step|apply Hp|done|]. intros Hq. rewrite lists_step.
    by case_decide; [subst|].
  - apply credit_mono. by apply sub_step.
Qed.

(** A step that takes a waiter off: its credit goes to the waiter. *)
Lemma credits_pop v : pc_of s me = CSigPop -> tasks_of s' v <> [] -> (credits s v <= credits s' v)%nat.
Proof.
  intros Hpop Hn. pose proof (pl_shape _ Hp me) as Hsh. pose proof (pl_fits _ Hp me) as Hf.
  assert (Hvar : var_of (t_at s me) = Some mine).
  { destruct (var_of (t_at s me)) as [v'|] eqn:Hv; [by rewrite (pl_on _ Hp me v' Hv)|].
    rewrite Hpop in Hsh. by destruct (t_at s me). }
  destruct (decide (v = mine)) as [->|Hne].
  2:{ apply sum_le. intros t _. rewrite pc_step. cbn [t_at]. case_decide as Ht.
      - subst t. by rewrite !(credit_other v mine) by done.
      - apply credit_mono. by apply sub_step. }
  rewrite lists_step, decide_True in Hn by done. pose proof the_step as He. rewrite Hpop in He.
  destruct (edge_pop _ _ _ _ _ He Hn) as [t Hq].
  assert (Ht : t ∈ tasks_of s mine) by (rewrite Hq; left).
  assert (Hnd : t ∉ cv_tasks cv).
  { pose proof (xi_nodup _ (pl_x _ Hp) mine) as Hnd. rewrite Hq in Hnd. by apply NoDup_cons in Hnd as [? _]. }
  destruct (on_list s mine t Hp Ht) as (Hteam & _ & H0t & H1t).
  assert (Htm : t <> me).
  { intros ->. destruct (xi_list _ (pl_x _ Hp) me mine Ht) as (_ & Hpk & _). by rewrite Hpop in Hpk. }
  apply (sum_moves _ _ me t); [apply team_nodup| |done|done| | |].
  - apply in_team. intros Hr. rewrite Hr in Hf. by destruct (t_at s me).
  - pose proof (credit_le1 mine (tasks_of s mine) me (t_at s me) (pc_of s me)). lia.
  - rewrite H0t, pc_step, decide_False, lists_step, decide_True by done. cbn [t_at]. by rewrite H1t.
  - intros u _ Hu. rewrite pc_step, decide_False by done. apply credit_mono. by apply sub_step.
Qed.
End step.

(** A task that queues itself found no item, or no place. *)
Lemma queuing_room s t v :
  tinv s -> queuing (pc_of s t) = true -> v = c_on (t_c s) t -> room v (t_buf s) = 0%nat.
Proof.
  intros Ht Hq ->. pose proof (pl_shape _ (ti_placed _ Ht) t) as Hs. pose proof (ti_queue _ Ht t Hq) as Hr.
  pose proof (pl_on _ (ti_placed _ Ht) t) as Hon.
  destruct (pc_of s t); try done; destruct (t_at s t); try done; rewrite (Hon _ eq_refl); unfold room; lia.
Qed.

(** Once everybody was told nobody queues for an item any more. *)
Lemma told_queuing s t :
  tinv s -> told (t_at s boss) (pc_of s boss) = true -> queuing (pc_of s t) = true ->
  c_on (t_c s) t = notempty -> False.
Proof.
  intros Ht Hb Hq Hv. pose proof (pl_shape _ (ti_placed _ Ht) t) as Hs. pose proof (ti_queue _ Ht t Hq) as Hr.
  pose proof (pl_on _ (ti_placed _ Ht) t) as Hon.
  assert (Hm : t_at s boss <> MJoin) by (intros Hm; by rewrite Hm in Hb).
  pose proof (made_all s Ht (ti_main _ Ht Hm)) as Hall.
  pose proof (in_length _ (ti_buf _ Ht)) as Hl. pose proof (bo_consumed _ (ti_buf _ Ht)) as Hc.
  destruct (pc_of s t); try done; destruct (t_at s t); try done;
    try (specialize (Hon _ eq_refl); congruence); lia.
Qed.

Lemma step_tinv s me pc cv w :
  tinv s -> c_step mtx guard (t_c s) me = Go pc cv w ->
  tinv (mk_tsys (after_step (t_c s) me pc cv w) (t_buf s) (t_at s)).
Proof.
  intros Ht Hst. pose proof (ti_placed _ Ht) as Hp. pose proof (the_step s Hp me pc cv w Hst) as He.
  split; try apply Ht; cbn [t_at t_buf].
  - by apply step_placed.
  - intros t. rewrite pc_step. case_decide as Htm; [subst t|by apply Ht].
    intros Hq. by apply (ti_queue _ Ht), (edge_queuing _ _ _ _ _ _ He).
  - intros v Hn. transitivity (credits s v).
    + destruct (grows_step s Hp me pc cv w Hst v Hn) as [?|[Hv Hq]]; [by apply (ti_wake _ Ht)|].
      rewrite (queuing_room s me v Ht Hq Hv). lia.
    + destruct (pop_or_not (pc_of s me)); [by apply credits_pop|by apply credits_step].
  - rewrite pc_step. intros Htl. assert (Hold : told (t_at s boss) (pc_of s boss) = true ->
      tasks_of (mk_tsys (after_step (t_c s) me pc cv w) (t_buf s) (t_at s)) notempty = []).
    { intros Hb. destruct (cv_tasks (c_cv (t_c (mk_tsys (after_step (t_c s) me pc cv w) (t_buf s) (t_at s))) notempty)) eqn:Hc; [done|exfalso].
      destruct (grows_step s Hp me pc cv w Hst notempty) as [Hn|[Hv Hq]]; [by rewrite Hc|
        by apply Hn, (ti_told _ Ht)|by eapply told_queuing]. }
    case_decide as Hb; [subst me|by apply Hold].
    destruct (edge_told _ _ _ _ _ _ _ He (pl_shape _ Hp boss) Htl) as [?|[Hq Hm]]; [by apply Hold|].
    rewrite lists_step, decide_True; [done|]. by rewrite (pl_on _ Hp boss notempty) by (by rewrite Hm).
Qed.

(** ** Steps of the program *)

Section code.
Context s (Ht : tinv s) (me : Z) (r : Z) (x : next) (s' : tsys W).
Abbreviation pc' := (match x with Calls c _ _ => enter c | Ends _ => CIdle r end).
Hypothesis Hidle : pc_of s me = CIdle r.
Hypothesis Hjoin : joined prods cons s (t_at s me).
Hypothesis Hce : cedge (t_buf s) (t_at s me) x (t_buf s').
Hypothesis Hplaced : placed s'.
Hypothesis Hat : forall t, t_at s' t = if decide (t = me) then after x else t_at s t.
Hypothesis Hpc : forall t, pc_of s' t = if decide (t = me) then pc' else pc_of s t.
Hypothesis Htasks : forall v, tasks_of s' v = tasks_of s v.

Lemma fits_me : fits (role_of me) (t_at s me).
Proof. apply Ht. Qed.

Lemma code_role : role_of me <> Nobody.
Proof. intros Hr. pose proof fits_me as Hf. rewrite Hr in Hf. by inversion Hce as [? ? ? Heq| | | | | | | | | | | | | |]; subst;
  destruct (t_at s me). Qed.

Lemma code_not_done rv : t_at s me <> Done rv.
Proof. intros Hd. rewrite Hd in Hce. inversion Hce. Qed.

Lemma code_made : length (b_in (t_buf s')) = sum (fun t => made (t_at s' t)) prods.
Proof.
  pose proof (cedge_made _ _ _ _ _ fits_me Hce) as Hm. pose proof (role_is me) as Hr.
  destruct (decide (me ∈ prods)) as [Hin|Hin].
  - destruct (role_prod me Hin) as (id & Hid & _). rewrite Hid in Hm.
    pose proof (sum_at (fun t => made (t_at s' t)) (fun t => made (t_at s t)) me prods prods_nodup Hin) as Hs.
    cbn beta in Hs. rewrite Hat, decide_True in Hs by done. rewrite <- (ti_made _ Ht) in Hs.
    assert (forall t, t ∈ prods -> t <> me -> made (t_at s' t) = made (t_at s t)) as Hoth
      by (intros t _ Hn; by rewrite Hat, decide_False).
    specialize (Hs Hoth). lia.
  - assert (Hb : b_in (t_buf s') = b_in (t_buf s)) by (by destruct (role_of me)).
    rewrite Hb, (ti_made _ Ht). apply sum_ext. intros t Htp. rewrite Hat, decide_False; [done|]. by intros ->.
Qed.

Lemma code_order t id : role_of t = Producer id ->
  of_producer id (b_in (t_buf s')) = items id (made (t_at s' t)).
Proof.
  intros Hr. pose proof (ti_order _ Ht t id Hr) as Ho. rewrite Hat. case_decide as Htm.
  - subst t. apply (cedge_order id _ _ _ _ _ fits_me Hce); [by apply (role_id me)|done].
  - rewrite (cedge_foreign id _ _ _ _ _ fits_me Hce); [done|]. intros Hm.
    apply role_id in Hr as [_ Hr]. apply role_id in Hm as [_ Hm]. rewrite Hr in Hm. by injection Hm.
Qed.

Lemma code_queue t : queuing (pc_of s' t) = true ->
  match t_at s' t with
  | PTest _ _ => g_qcount (t_buf s') = Q_SIZE
  | CTest => g_qcount (t_buf s') = 0 /\ g_consumed (t_buf s') < target
  | _ => True
  end.
Proof.
  rewrite Hpc, Hat. case_decide as Htm.
  - intros Hq. by inversion Hce; subst; cbn.
  - intros Hq. pose proof (ti_queue _ Ht t Hq) as Hold.
    destruct (cedge_same _ _ _ _ r Hce) as [-> |Hh]; [done|]. destruct Htm.
    pose proof (pl_shape _ (ti_placed _ Ht) t) as Hs.
    apply (one_holds s t me (ti_placed _ Ht)); [|rewrite Hidle; lia].
    destruct (pc_of s t); try done; cbn; lia.
Qed.

Lemma code_wake v : tasks_of s' v <> [] -> (room v (t_buf s') <= credits s' v)%nat.
Proof.
  intros Hn. rewrite Htasks in Hn. pose proof (ti_wake _ Ht v Hn) as Hold.
  destruct (cedge_credit v (tasks_of s v) me _ _ _ _ _ r fits_me Hce (ti_buf _ Ht)) as [-> |Hbal]; [lia|].
  pose proof (sum_at (fun t => credit v (tasks_of s' v) t (t_at s' t) (pc_of s' t))
    (fun t => credit v (tasks_of s v) t (t_at s t) (pc_of s t)) me team team_nodup (in_team _ code_role)) as Hs.
  cbn beta in Hs. rewrite Hat, Hpc, !decide_True, Hidle, Htasks in Hs by done.
  assert (forall t, t ∈ team -> t <> me ->
    credit v (tasks_of s v) t (t_at s' t) (pc_of s' t) = credit v (tasks_of s v) t (t_at s t) (pc_of s t)) as Hoth
    by (intros t _ Htm; by rewrite Hat, Hpc, !decide_False).
  specialize (Hs Hoth). unfold credits in *. rewrite Htasks. lia.
Qed.

Lemma code_end t : role_of t = Consumer -> t_at s' t = CEnd \/ t_at s' t = Done 0 ->
  g_consumed (t_buf s') = target.
Proof.
  intros Hr. rewrite Hat. case_decide as Htm.
  - subst t. pose proof fits_me as Hf. rewrite Hr in Hf. pose proof (in_length _ (ti_buf _ Ht)).
    pose proof (bo_consumed _ (ti_buf _ Ht)). pose proof (bo_most _ (ti_buf _ Ht)).
    inversion Hce as [? ? ? Hx|? ? ? Hx|? ? ? Hx|? ? ? ? ? ? ? ? ? Hx|? ? Hx|Hx|? ? Hx|? ? Hx|? ? ? ? ? ? ? ? Hx|Hx|Hx|Hx|Hx|Hx|Hx];
      subst; rewrite <- Hx in Hf; try done; intros [He|He]; try done; try lia.
    apply (ti_end _ Ht me Hr). by left.
  - intros Hend. by apply (cedge_consumed _ _ _ _ Hce (ti_buf _ Ht)), (ti_end _ Ht t Hr).
Qed.

Lemma code_main : t_at s' boss <> MJoin -> Forall (fun t => t_at s' t = Done 0) prods.
Proof.
  intros Hb. assert (Hd : Forall (fun t => t_at s t = Done 0) prods).
  { assert (Hm : t_at s boss = MJoin \/ t_at s boss <> MJoin) by (by destruct (t_at s boss); auto; right).
    destruct Hm as [Hm|Hm]; [|by apply Ht].
    rewrite Hat in Hb. case_decide as Hbm; [|done]. subst me. by rewrite Hm in Hjoin. }
  rewrite Forall_forall in Hd |- *. intros t Hin. rewrite Hat. case_decide as Htm; [|by apply Hd].
  subst t. by destruct (code_not_done 0 (Hd me Hin)).
Qed.

Lemma code_told : told (t_at s' boss) (pc_of s' boss) = true -> tasks_of s' notempty = [].
Proof.
  intros Htl. rewrite Htasks. apply (ti_told _ Ht). revert Htl. rewrite Hat, Hpc.
  case_decide as Hb; [|done]. rewrite Hb, Hidle. pose proof fits_me as Hf.
  assert (Hr : role_of me = Main) by (rewrite <- Hb; apply role_boss). rewrite Hr in Hf.
  inversion Hce as [? ? ? Hx|? ? ? Hx|? ? ? Hx|? ? ? ? ? ? ? ? ? Hx|? ? Hx|Hx|? ? Hx|? ? Hx|? ? ? ? ? ? ? ? Hx|Hx|Hx|Hx|Hx|Hx|Hx];
    subst; rewrite <- Hx in Hf; by cbn.
Qed.

Lemma code_tinv : tinv s'.
Proof.
  split; [done|by eapply cedge_buf, Ht|exact code_made|exact code_order|exact code_queue|exact code_wake|exact code_end|
    exact code_main|exact code_told].
Qed.
End code.

(** ** From boot *)

Lemma act_tinv s s' : tinv s -> step s s' -> tinv s'.
Proof.
  intros Ht Hs. destruct Hs as [s t r c v p b Hpc Hj Hc|s t r rv b Hpc Hj Hc|s t pc cv w Hst].
  - assert (Hnd : forall rv, t_at s t <> Done rv) by (intros rv Hd; by rewrite Hd in Hc).
    destruct (the_code s t r Ht Hpc Hj Hnd) as (x & b' & Hc' & Hce). rewrite Hc in Hc'. injection Hc' as <- <-.
    eapply (code_tinv s Ht t r (Calls c v p)); [done|done|done|by eapply call_placed; [apply Ht|..]| | |done].
    + intros u. cbn. case_decide; subst; by fn_simpl.
    + intros u. cbn. case_decide; subst; by fn_simpl.
  - assert (Hnd : forall rv, t_at s t <> Done rv) by (intros rv' Hd; by rewrite Hd in Hc).
    destruct (the_code s t r Ht Hpc Hj Hnd) as (x & b' & Hc' & Hce). rewrite Hc in Hc'. injection Hc' as <- <-.
    eapply (code_tinv s Ht t r (Ends rv)); [done|done|done|by eapply end_placed; [apply Ht|..]| | |done].
    + intros u. cbn. case_decide; subst; by fn_simpl.
    + intros u. cbn. case_decide as Hu; [by subst|done].
  - by apply step_tinv.
Qed.

(** The variables are new, and nobody holds a semaphore. *)
Definition fresh (cv : cond -> osal_cv) (w : W) : Prop :=
  (forall v, exists mem, length (waiters mem) = 32%nat /\ osal_cv_new (Some mem) = Some (cv v)) /\
  sems w lock = Free /\ (forall v, sems w (guard v) = Free).

Lemma boot_tinv cv w : fresh cv w -> tinv (t_boot prods cons boss cv w).
Proof.
  intros (Hn & Hl & Hg).
  assert (Hcv : forall v, cv_tasks (cv v) = []) by (intros v; by destruct (Hn v) as (mem & _ & [= <-])).
  assert (Hst : forall t, match start (role_of t) with PStart _ _ | CStart | MJoin | Done _ => True | _ => False end)
    by (intros t; by destruct (role_of t)).
  split.
  - split; cbn.
    + by apply boot_cinv.
    + apply boot_xinv. intros v. destruct (Hn v) as (mem & _ & ?). eauto.
    + intros t. pose proof (role_is t) as Hr. destruct (role_of t) as [id| | |] eqn:He; cbn; try done.
      destruct (role_prod t Hr) as (id' & He' & Hi). rewrite He in He'. injection He' as <-. unfold ITEMS. lia.
    + by intros t.
    + intros t v. by destruct (role_of t).
    + intros t. by destruct (role_of t).
  - apply buf_ok_init.
  - cbn. rewrite (sum_ext _ (fun _ => 0%nat)).
    + unfold sum. clear. by induction prods.
    + intros t Ht. destruct (role_prod t Ht) as (id & -> & _). done.
  - intros t id Hr. cbn. by rewrite Hr.
  - done.
  - intros v Hne. destruct Hne. apply Hcv.
  - intros t Hr. cbn. rewrite Hr. by intros [].
  - cbn. by rewrite role_boss.
  - cbn. by rewrite role_boss.
Qed.

Lemma reach_tinv cv w s : fresh cv w -> rtc step (t_boot prods cons boss cv w) s -> tinv s.
Proof.
  intros Hf Hr. pose proof (boot_tinv cv w Hf) as Hb.
  induction Hr as [|s s1 s2 Hs _ IH]; [done|]. apply IH. by eapply act_tinv.
Qed.

(** C27. The queue of the condition-variable test is a bounded first-in first-out queue in
    every interleaving of its six tasks, call by call: no step of theirs is
    undefined, in the code of the test or in the OSAL, no list of waiters
    overflows, no two tasks hold the lock, the items popped are the items pushed,
    in order, followed by those in the queue, of which there are never more than
    four; and the items of a producer are pushed once each, in order. *)
Theorem test_cv_fifo cv w s :
  fresh cv w -> rtc step (t_boot prods cons boss cv w) s ->
  (forall t, c_step mtx guard (t_c s) t <> Undefined /\ pc_of s t <> CPanic) /\
  (forall t r, pc_of s t = CIdle r -> joined prods cons s (t_at s t) -> (forall rv, t_at s t <> Done rv) ->
     code (t_at s t) (t_buf s) <> None) /\
  (forall t u, (0 < c_held (t_c s) t tt)%nat -> (0 < c_held (t_c s) u tt)%nat -> t = u) /\
  b_in (t_buf s) = b_out (t_buf s) ++ contents (t_buf s) /\
  g_qcount (t_buf s) = Z.of_nat (length (contents (t_buf s))) /\ 0 <= g_qcount (t_buf s) <= Q_SIZE /\
  (forall t id, role_of t = Producer id ->
     of_producer id (b_in (t_buf s)) = items id (made (t_at s t))).
Proof.
  intros Hf Hr. pose proof (reach_tinv cv w s Hf Hr) as Ht. pose proof (ti_buf _ Ht) as Hb.
  pose proof (bo_count _ Hb). split; [|split; [|split; [|split; [apply Hb|]]]].
  - intros t. split; [by apply step_defined_cv, Ht|]. intros Hp.
    pose proof (pl_shape _ (ti_placed _ Ht) t) as Hs. rewrite Hp in Hs. by destruct (t_at s t).
  - intros t r Hp Hj Hd. destruct (the_code s t r Ht Hp Hj Hd) as (x & b & -> & _). done.
  - intros t u. rewrite !(pl_held _ (ti_placed _ Ht)). by apply one_holds, Ht.
  - rewrite length_contents. unfold Q_SIZE. split; [lia|]. split; [lia|]. apply Ht.
Qed.
End safe.
