(* ===== verification/TestCvLive.v ===== *)
(** * The condition-variable test ends, and passes

    Under every schedule: no state is a deadlock, and a measure bounds the steps.
    Both rest on the invariant of TestCvSafe.v. *)

From S2P Require Import Prelude Ipc OsalCv Tasks OsalLock CvTasks CvInv CvSafe CvExact TestCv TestCvInv TestCvSafe.

#[global] Instance pos_eq_dec : EqDecision pos.
Proof. solve_decision. Defined.

(** ** Steps left *)

(** In a call, or before the program goes on; [l] tasks are on the variable's list. *)
Definition call_cost (l : nat) (pc : cpc) : nat :=
  match pc with
  | CIdle _ => 7
  | CLocking | CUnlocking => 8
  | CClear _ => 6 | CGuard _ => 5 | CQueue _ => 4 | CLeave _ => 3 | CUnlock _ => 2 | CSleep => 1
  | CRelock _ => 8
  | CSigGuard => 19 | CSigPop => 18 | CSigLeave (Some _) => 17 | CSigLeave None => 8 | CSigSend _ => 16
  | CAllGuard => 330 | CAllPop => 9 + 10 * l | CAllSend _ => 18 + 10 * l | CAllLeave => 8
  | _ => 0
  end.

(** In the program, without the items still to be popped. *)
Definition code_cost (p : pos) : nat :=
  match p with
  | PStart _ n => 17 * Z.to_nat (ITEMS - n) + 1
  | PTest _ n => 17 * Z.to_nat (ITEMS - n) - 1
  | PTold _ n => 17 * Z.to_nat (ITEMS - n) - 14
  | CStart => 5 | CTest => 3 | CTold => 7 | CEnd => 1
  | MJoin => 329 | MLocked => 327 | MTold => 3 | MVerdict => 1
  | Done _ => 0
  end.

Definition unpopped (b : buf) : nat := 17 * Z.to_nat (target - g_consumed b).

(** A step of the program makes both smaller; looking again costs less than an item. *)
Lemma cedge_cost l l' r b p x b' rv :
  fits r p -> buf_ok b -> cedge b p x b' ->
  (unpopped b' + code_cost (after x) +
     call_cost l' (match x with Calls c _ _ => enter c | Ends _ => CIdle rv end) <
   unpopped b + code_cost p + call_cost l (CIdle rv))%nat.
Proof.
  intros Hf Hb He. pose proof (in_length _ Hb). pose proof (bo_consumed _ Hb). pose proof (bo_most _ Hb).
  unfold unpopped, ITEMS in *.
  inversion He; subst; destruct r; cbn [fits] in Hf; try done;
    cbn [code_cost after call_cost enter]; unfold ITEMS in *; lia.
Qed.

(** A signal that is pending stands for a task that will look again. *)
Definition woken (p : bool) : nat := if p then 8 else 0.

(** A step of a call that sends no signal. *)
Lemma edge_cost me q pd p pc pc' q' :
  edge me q pd pc pc' q' -> shape p pc = true -> (length q < 32)%nat ->
  (forall x, pc <> CSigSend x) -> (forall x, pc <> CAllSend x) ->
  (call_cost (length q') pc' + woken (sig_after me pc me pd) < call_cost (length q) pc + woken pd)%nat.
Proof.
  unfold shape, woken. intros He Hs Hl Hn1 Hn2. destruct He; subst; cbn [call_cost sig_after];
    rewrite ?decide_True by done; try (by destruct p); try (by destruct (Hn1 x)); try (by destruct (Hn2 x));
    try (destruct to; by destruct p); cbn [length] in *; try (destruct pd; lia); lia.
Qed.

(** A signal is sent: the sender loses more than it gives. *)
Lemma edge_cost_send me q pd pc pc' q' x :
  edge me q pd pc pc' q' -> pc = CSigSend x \/ pc = CAllSend x ->
  q' = q /\ (call_cost (length q') pc' + 8 < call_cost (length q) pc)%nat.
Proof. intros He [-> | ->]; inversion He; subst; cbn [call_cost]; split; try done; lia. Qed.

(** ** Sums that get smaller *)

Lemma sum_lt f g a l :
  NoDup l -> a ∈ l -> (f a < g a)%nat -> (forall t, t ∈ l -> t <> a -> (f t <= g t)%nat) ->
  (sum f l < sum g l)%nat.
Proof.
  intros Hnd Ha Hlt He. pose proof (sum_at (<[a := f a]> g) g a l Hnd Ha ltac:(intros; by fn_simpl)) as Hs.
  rewrite fn_lookup_insert in Hs.
  assert (sum f l <= sum (<[a := f a]> g) l)%nat; [|lia].
  apply sum_le. intros t Ht. destruct (decide (t = a)) as [->|Hn]; fn_simpl; [done|by apply He].
Qed.

(** One task loses more than [d], which is what another may gain. *)
Lemma sum_gives f g a c d l :
  NoDup l -> a ∈ l -> c ∈ l -> a <> c -> (f a + d < g a)%nat -> (f c <= g c + d)%nat ->
  (forall t, t ∈ l -> t <> a -> t <> c -> (f t <= g t)%nat) -> (sum f l < sum g l)%nat.
Proof.
  intros Hnd Ha Hc Hne Hla Hlc He.
  pose proof (sum_at (<[a := (f a + d)%nat]> g) g a l Hnd Ha ltac:(intros; by fn_simpl)) as Hs.
  rewrite fn_lookup_insert in Hs.
  pose proof (sum_at (<[a := f a]> g) (<[a := (f a + d)%nat]> g) a l Hnd Ha ltac:(intros; by fn_simpl)) as Hs2.
  rewrite !fn_lookup_insert in Hs2.
  pose proof (sum_loses f (<[a := f a]> g) c d l Hnd Hc) as Hl. rewrite fn_lookup_insert_ne in Hl by done.
  specialize (Hl Hlc). assert (sum f l <= sum (<[a := f a]> g) l + d)%nat; [|lia].
  apply Hl. intros t Ht Hn. destruct (decide (t = a)) as [->|Hn']; fn_simpl; [done|by apply He].
Qed.

Section live.
Context {W : Type} `{TaskLaws W, !Sems W, !SemView W, !SemLaws W, !SemLive W}.
Context (lock : Z) (guard : cond -> Z) (prods cons : list Z) (boss : Z).
Context (Hap : apart (fun _ : unit => lock) guard) (Hcrew : crew prods cons boss).
Implicit Types (s : tsys W).

Abbreviation mtx := (fun _ : unit => lock).
Abbreviation team := (boss :: prods ++ cons).
Abbreviation role_of := (role_of prods cons boss).
Abbreviation pc_of s t := (c_pc (t_c s) t).
Abbreviation tasks_of s v := (cv_tasks (c_cv (t_c s) v)).
Abbreviation step := (t_act lock guard prods cons).
Abbreviation tinv := (tinv lock guard prods cons boss).
Abbreviation passed := (passed prods cons boss).

(** ** Every step makes the rest shorter *)

Definition cost s (t : Z) : nat :=
  code_cost (t_at s t) + call_cost (length (tasks_of s (c_on (t_c s) t))) (pc_of s t) +
  woken (pending (c_w (t_c s)) t).

Definition left_over s : nat := sum (cost s) team + unpopped (t_buf s).

(** The list matters only to a task that broadcasts, which is in the section. *)
Lemma cost_list l l' pc : in_guard pc = false -> call_cost l pc = call_cost l' pc.
Proof. by destruct pc. Qed.

Lemma code_decreases s s' t r x l :
  tinv s -> t ∈ team -> pc_of s t = CIdle r -> cedge (t_buf s) (t_at s t) x (t_buf s') ->
  (forall u, u <> t -> cost s' u = cost s u) ->
  cost s' t = (code_cost (after x) +
    call_cost l (match x with Calls c _ _ => enter c | Ends _ => CIdle r end) +
    woken (pending (c_w (t_c s)) t))%nat ->
  (left_over s' < left_over s)%nat.
Proof.
  intros Ht Hin Hpc Hce Hoth Hme. unfold left_over.
  pose proof (sum_at (cost s') (cost s) t team (team_nodup _ _ _ Hcrew) Hin (fun u _ => Hoth u)) as Hs.
  pose proof (cedge_cost (length (tasks_of s (c_on (t_c s) t))) l _ _ _ _ _ r
    (pl_fits _ _ _ _ _ _ (ti_placed _ _ _ _ _ _ Ht) t) (ti_buf _ _ _ _ _ _ Ht) Hce) as Hc.
  assert (Hme0 : cost s t = (code_cost (t_at s t) + call_cost (length (tasks_of s (c_on (t_c s) t))) (CIdle r) +
    woken (pending (c_w (t_c s)) t))%nat) by (unfold cost; by rewrite Hpc).
  lia.
Qed.

Section call_step.
Context s (Ht : tinv s) (me : Z) (pc : cpc) (cv : osal_cv) (w : W).
Hypothesis Hst : c_step mtx guard (t_c s) me = Go pc cv w.
Abbreviation s' := (mk_tsys (after_step (t_c s) me pc cv w) (t_buf s) (t_at s)).
Abbreviation mine := (c_on (t_c s) me).

#[local] Lemma placed_now : placed lock guard prods cons boss s.
Proof. apply Ht. Qed.

Lemma stepping_team : me ∈ team.
Proof.
  apply in_team. intros Hr. pose proof (pl_fits _ _ _ _ _ _ placed_now me) as Hf. rewrite Hr in Hf.
  pose proof (pl_shape _ _ _ _ _ _ placed_now me) as Hs. unfold c_step in Hst.
  destruct (t_at s me); try done. by destruct (pc_of s me).
Qed.

Lemma my_edge : edge me (tasks_of s mine) (pending (c_w (t_c s)) me) (pc_of s me) pc (cv_tasks cv).
Proof. apply (the_step lock guard prods cons boss s placed_now me pc cv w Hst). Qed.

Lemma pending_step t : pending w t = sig_after me (pc_of s me) t (pending (c_w (t_c s)) t).
Proof.
  by destruct (the_world mtx guard Hap (t_c s) (pl_c _ _ _ _ _ _ placed_now) me pc cv w Hst) as (_ & _ & -> & _).
Qed.

Lemma my_cost :
  cost s' me = (code_cost (t_at s me) + call_cost (length (cv_tasks cv)) pc + woken (pending w me))%nat.
Proof. unfold cost. cbn. by fn_simpl. Qed.

(** Another task only gains by a signal. *)
Lemma other_cost t : t <> me ->
  cost s' t = (code_cost (t_at s t) + call_cost (length (tasks_of s (c_on (t_c s) t))) (pc_of s t) +
    woken (pending w t))%nat.
Proof.
  intros Htm. unfold cost. rewrite pc_step, decide_False, lists_step by done.
  change (c_on (t_c s') t) with (c_on (t_c s) t). change (t_at s' t) with (t_at s t).
  change (c_w (t_c s')) with w. do 2 f_equal.
  destruct (in_guard (pc_of s t)) eqn:Hg; [|by apply cost_list]. f_equal.
  case_decide as Hv; [|done].
  destruct (edge_list _ _ _ _ _ _ my_edge) as [-> |Hgm]; [by rewrite Hv|]. destruct Htm.
  by apply (one_in_guard mtx guard (t_c s) t me (pl_c _ _ _ _ _ _ placed_now)).
Qed.

Lemma call_step_decreases : (left_over s' < left_over s)%nat.
Proof.
  pose proof my_edge as He. pose proof (few_waiters lock guard prods cons boss Hcrew s mine placed_now) as Hl.
  unfold left_over. cbn [t_buf]. apply Nat.add_lt_mono_r.
  assert (Hsend : (exists x, pc_of s me = CSigSend x \/ pc_of s me = CAllSend x) \/
    ((forall x, pc_of s me <> CSigSend x) /\ (forall x, pc_of s me <> CAllSend x))).
  { destruct (pc_of s me); eauto; right; done. }
  destruct Hsend as [[x Hx]|[Hn1 Hn2]].
  - assert (Hh : hand (pc_of s me) = Some x) by (by destruct Hx as [-> | ->]).
    pose proof (ci_hand _ _ _ (pl_c _ _ _ _ _ _ placed_now) me x Hh) as Hsx. rewrite Hsx in Hh.
    destruct (xi_hand _ (pl_x _ _ _ _ _ _ placed_now) (task x) (ex_intro _ me Hh)) as [Hpk _].
    assert (Hc : task x <> me) by (intros Heq; rewrite Heq in Hpk; by destruct Hx as [Hx|Hx]; rewrite Hx in Hpk).
    assert (Hsame : forall t, t <> task x -> pending w t = pending (c_w (t_c s)) t).
    { intros t Hn. rewrite pending_step. destruct Hx as [-> | ->]; cbn; by rewrite decide_False. }
    destruct (edge_cost_send _ _ _ _ _ _ x He Hx) as [_ Hcost].
    apply (sum_gives _ _ me (task x) 8); [by apply team_nodup|apply stepping_team| |done| | |].
    + apply in_team. intros Hr. pose proof (pl_fits _ _ _ _ _ _ placed_now (task x)) as Hf. rewrite Hr in Hf.
      pose proof (pl_shape _ _ _ _ _ _ placed_now (task x)) as Hs.
      destruct (t_at s (task x)); try done. by destruct (pc_of s (task x)).
    + rewrite my_cost, Hsame by done. unfold cost. lia.
    + rewrite other_cost by done. unfold cost, woken. repeat case_match; lia.
    + intros t _ Hn Hnx. rewrite other_cost, Hsame by done. unfold cost. lia.
  - apply (sum_lt _ _ me); [by apply team_nodup|apply stepping_team| |].
    + rewrite my_cost, pending_step. unfold cost.
      pose proof (edge_cost _ _ _ (t_at s me) _ _ _ He (pl_shape _ _ _ _ _ _ placed_now me) Hl Hn1 Hn2). lia.
    + intros t _ Hn. rewrite other_cost by done. unfold cost. rewrite pending_step.
      assert (Hsig : sig_after me (pc_of s me) t (pending (c_w (t_c s)) t) = pending (c_w (t_c s)) t).
      { destruct (pc_of s me); cbn; try done; try (by rewrite decide_False);
          [by destruct (Hn1 _ eq_refl)|by destruct (Hn2 _ eq_refl)]. }
      by rewrite Hsig.
Qed.
End call_step.

Lemma step_decreases s s2 : tinv s -> step s s2 -> (left_over s2 < left_over s)%nat.
Proof.
  intros Ht Hs. destruct Hs as [s t r c v p b Hpc Hj Hc|s t r rv b Hpc Hj Hc|s t pc cv w Hst];
    [| |by apply call_step_decreases];
    (assert (Hnd : forall rv, t_at s t <> Done rv) by (intros rv' Hd; by rewrite Hd in Hc));
    destruct (the_code lock guard prods cons boss Hcrew s t r Ht Hpc Hj Hnd) as (x & b' & Hc' & Hce);
    rewrite Hc in Hc'; injection Hc' as <- <-;
    assert (Hin : t ∈ team) by (apply in_team; intros Hr;
      pose proof (pl_fits _ _ _ _ _ _ (ti_placed _ _ _ _ _ _ Ht) t) as Hf; rewrite Hr in Hf;
      destruct (t_at s t); try done; by destruct (Hnd rv0)).
  - apply (code_decreases s _ t r (Calls c v p) (length (tasks_of s v))); [done..| |].
    + intros u Hu. unfold cost. cbn. by fn_simpl.
    + unfold cost. cbn. by fn_simpl.
  - apply (code_decreases s _ t r (Ends rv) (length (tasks_of s (c_on (t_c s) t)))); [done..| |].
    + intros u Hu. unfold cost. cbn. by fn_simpl.
    + unfold cost. cbn [t_c t_at after]. fn_simpl. by rewrite Hpc.
Qed.

(** ** No deadlock *)

Definition goes s : Prop := exists s', step s s'.

(** A task whose next step is not blocked. *)
Lemma unblocked s t : tinv s -> c_step mtx guard (t_c s) t <> Blocked -> goes s.
Proof.
  intros Ht Hb. pose proof (step_defined_cv mtx guard (t_c s) t (pl_c _ _ _ _ _ _ (ti_placed _ _ _ _ _ _ Ht))) as Hu.
  destruct (c_step mtx guard (t_c s) t) as [| |pc cv w] eqn:Hs; try done. eexists. by eapply ta_step.
Qed.

(** A task that is between two calls and has nobody to wait for. *)
Lemma between s t r :
  tinv s -> pc_of s t = CIdle r -> joined prods cons s (t_at s t) -> (forall rv, t_at s t <> Done rv) -> goes s.
Proof.
  intros Ht Hpc Hj Hd. destruct (the_code lock guard prods cons boss Hcrew s t r Ht Hpc Hj Hd)
    as ([c v p|rv] & b & Hc & _); eexists; [by eapply ta_call|by eapply ta_end].
Qed.

Lemma guard_holder_goes s t : tinv s -> in_guard (pc_of s t) = true -> goes s.
Proof. intros Ht Hg. apply (unblocked s t Ht), guard_goes; [apply Ht|done]. Qed.

(** Whoever cannot have a semaphore, another task holds it. *)
Lemma held_by me a s :
  exclusive (sems (c_w (t_c s)) a) -> ObtainSemaphore me a (c_w (t_c s)) = None ->
  exists u, (0 < nest (sems (c_w (t_c s)) a) u)%nat.
Proof.
  intros Hx Ho%sem_obtain_goes. destruct (sems (c_w (t_c s)) a) as [|u n|l]; cbn in *; [done| |done].
  exists u. rewrite decide_True by done. lia.
Qed.

(** At the door of a section: the task goes in, or the one inside goes on. *)
Lemma at_guard s t :
  tinv s -> (match pc_of s t with CGuard _ | CSigGuard | CAllGuard => true | _ => false end) = true -> goes s.
Proof.
  intros Ht Hpc. pose proof (pl_c _ _ _ _ _ _ (ti_placed _ _ _ _ _ _ Ht)) as Hc.
  destruct (ObtainSemaphore t (guard (c_on (t_c s) t)) (c_w (t_c s))) as [w|] eqn:Ho.
  - apply (unblocked s t Ht). unfold c_step.
    destruct (pc_of s t); try done; cbn [cv_task_step]; unfold guarded; by rewrite Ho.
  - destruct (held_by t _ s (ci_gx _ _ _ Hc (c_on (t_c s) t)) Ho) as [u Hu]. rewrite (ci_guard _ _ _ Hc) in Hu.
    apply (guard_holder_goes s u Ht). unfold guards in Hu. destruct (in_guard (pc_of s u)); [done|cbn in Hu; lia].
Qed.

(** The task that holds the lock is never blocked for long. *)
Lemma lock_holder_goes s t : tinv s -> (0 < hold (t_at s t) (pc_of s t))%nat -> goes s.
Proof.
  intros Ht Hh. pose proof (pl_shape _ _ _ _ _ _ (ti_placed _ _ _ _ _ _ Ht) t) as Hs.
  destruct (match pc_of s t with CGuard _ | CSigGuard | CAllGuard => true | _ => false end) eqn:Hg;
    [by apply (at_guard s t Ht)|].
  destruct (in_guard (pc_of s t)) eqn:Hig; [by apply (guard_holder_goes s t Ht)|].
  destruct (idle (pc_of s t)) eqn:Hid.
  - destruct (pc_of s t) eqn:Hpc; try done. apply (between s t rv Ht Hpc); destruct (t_at s t); cbn in *; done || lia.
  - apply (unblocked s t Ht). unfold c_step. revert Hs Hh Hg Hig Hid. unfold shape.
    destruct (pc_of s t) as [?| | | |to|to|to|to|to| |? ?| |? ?| | | |rv| | | | |x|x| | |x|]; cbn; try done; try lia;
      by destruct (t_at s t).
Qed.

Lemma at_lock s t :
  tinv s -> (match pc_of s t with CLocking | CRelock _ => true | _ => false end) = true -> goes s.
Proof.
  intros Ht Hpc. pose proof (ti_placed _ _ _ _ _ _ Ht) as Hp. pose proof (pl_c _ _ _ _ _ _ Hp) as Hc.
  destruct (ObtainSemaphore t lock (c_w (t_c s))) as [w|] eqn:Ho.
  - apply (unblocked s t Ht). unfold c_step.
    destruct (pc_of s t); try done; cbn [cv_task_step]; unfold locked, osal_mutex_lock; by rewrite Ho.
  - destruct (held_by t lock s (ci_mx _ _ _ Hc tt) Ho) as [u Hu].
    rewrite (ci_held _ _ _ Hc u tt), (pl_held _ _ _ _ _ _ Hp) in Hu. by eapply lock_holder_goes.
Qed.

(** A task that is not going on by itself: it has returned, or sleeps, or joins. *)
Definition rests s (t : Z) : Prop :=
  t_at s t = Done 0 \/
  (pc_of s t = CSleep /\ pending (c_w (t_c s)) t = false) \/
  (t = boss /\ pc_of s t <> CSleep /\ ~ joined prods cons s (t_at s t) /\
   (t_at s t = MJoin \/ t_at s t = MVerdict) /\ idle (pc_of s t) = true).

#[local] Instance joined_dec s p : Decision (joined prods cons s p).
Proof. destruct p; cbn; apply _. Defined.

Lemma goes_or_rests s t : tinv s -> goes s \/ rests s t.
Proof.
  intros Ht. pose proof (ti_placed _ _ _ _ _ _ Ht) as Hp.
  pose proof (pl_shape _ _ _ _ _ _ Hp t) as Hs. pose proof (pl_fits _ _ _ _ _ _ Hp t) as Hf.
  destruct (idle (pc_of s t)) eqn:Hid.
  - destruct (decide (joined prods cons s (t_at s t))) as [Hj|Hj].
    + assert (Hd : t_at s t = Done 0 \/ forall rv, t_at s t <> Done rv).
      { destruct (t_at s t); try (by right). left. destruct (role_of t); cbn in Hf; by rewrite Hf. }
      destruct Hd as [Hd|Hd]; [by right; left|left]. destruct (pc_of s t) eqn:Hpc; try done. by eapply between.
    + right. right. right. assert (Hm : t_at s t = MJoin \/ t_at s t = MVerdict).
      { destruct (t_at s t); cbn in Hj; tauto. }
      split; [|split; [by intros Hn; rewrite Hn in Hid|done]]. pose proof (role_is prods cons boss t) as Hr.
      destruct Hm as [Hm|Hm]; rewrite Hm in Hf; by destruct (role_of t).
  - destruct (match pc_of s t with CLocking | CRelock _ => true | _ => false end) eqn:Hl;
      [left; by apply (at_lock s t)|].
    destruct (pending (c_w (t_c s)) t) eqn:Hpd, (match pc_of s t with CSleep => true | _ => false end) eqn:Hsl.
    + left. apply (unblocked s t Ht). unfold c_step. destruct (pc_of s t); try done. cbn [cv_task_step].
      destruct (Wait t SIGF_SINGLE (c_w (t_c s))) as [[got w]|] eqn:Hw; [done|]. exfalso.
      apply wait_blocked in Hw. unfold pending in Hpd. rewrite <- pending_bit, Hw in Hpd. done.
    + left. apply (lock_holder_goes s t Ht). destruct (pc_of s t); try done; cbn; lia.
    + right. right. left. by destruct (pc_of s t).
    + left. apply (lock_holder_goes s t Ht). destruct (pc_of s t); try done; cbn; lia.
Qed.

Lemma goes_or_all (P : Z -> Prop) (Q : Prop) (l : list Z) : (forall t, t ∈ l -> Q \/ P t) -> Q \/ forall t, t ∈ l -> P t.
Proof.
  induction l as [|x l IH]; intros Hall; [right; by intros t Ht%elem_of_nil|].
  destruct (Hall x) as [?|Hx]; [left|by left|]. destruct IH as [?|Hl]; [|by left|].
  - intros t Ht. apply Hall. by right.
  - right. intros t [->|Ht]%elem_of_cons; auto.
Qed.

Section resting.
Context s (Ht : tinv s) (Hrest : forall t, t ∈ team -> rests s t).

#[local] Lemma placed_rest : placed lock guard prods cons boss s.
Proof. apply Ht. Qed.

(** Who sleeps is on its list, for nobody is about to signal. *)
Lemma sleeper_listed t : t ∈ team -> pc_of s t = CSleep -> t ∈ tasks_of s (c_on (t_c s) t).
Proof.
  intros Hin Hpc. pose proof (ci_park _ _ _ (pl_c _ _ _ _ _ _ placed_rest) t ltac:(by rewrite Hpc)) as Hpk.
  destruct Hpk as [?|[Hpd|[u Hu]]]; [done| |].
  - destruct (Hrest t Hin) as [Hd|[[_ Hn]|(_ & Hn & _)]]; [|congruence|done].
    pose proof (pl_shape _ _ _ _ _ _ placed_rest t) as Hs. by rewrite Hd, Hpc in Hs.
  - pose proof (pl_shape _ _ _ _ _ _ placed_rest u) as Hs. pose proof (pl_fits _ _ _ _ _ _ placed_rest u) as Hf.
    destruct (decide (u ∈ team)) as [Hut|Hut].
    + destruct (Hrest u Hut) as [Hd|[[Hp _]|(_ & _ & _ & _ & Hi)]].
      * rewrite Hd in Hs. by destruct (pc_of s u).
      * by rewrite Hp in Hu.
      * by destruct (pc_of s u).
    + destruct (role_of u) eqn:Hr; try (destruct Hut; apply in_team; by rewrite Hr).
      destruct (t_at s u); try done. by destruct (pc_of s u).
Qed.

(** So nobody is about to look. *)
Lemma no_credits v : credits prods cons boss s v = 0%nat.
Proof.
  apply Nat.le_0_r. transitivity (sum (fun _ => 0%nat) team).
  - apply sum_le. intros t Hin. destruct (Hrest t Hin) as [Hd|[[Hp _]|(_ & _ & _ & Hm & _)]].
    + rewrite Hd. by destruct v.
    + pose proof (on_list lock guard prods cons boss s _ t placed_rest (sleeper_listed t Hin Hp)) as (_ & Hv & H0t & _).
      destruct (decide (v = c_on (t_c s) t)) as [->|Hn]; [lia|].
      by rewrite (credit_other v (c_on (t_c s) t)).
    + destruct Hm as [-> | ->]; by destruct v.
  - clear. unfold sum. induction team; cbn; lia.
Qed.

Lemma sleepers_room t : t ∈ team -> pc_of s t = CSleep -> room (c_on (t_c s) t) (t_buf s) = 0%nat.
Proof.
  intros Hin Hpc. pose proof (sleeper_listed t Hin Hpc) as Hl.
  assert (Hn : tasks_of s (c_on (t_c s) t) <> []) by (intros Hn; rewrite Hn in Hl; by apply elem_of_nil in Hl).
  pose proof (ti_wake _ _ _ _ _ _ Ht _ Hn) as Hr. rewrite no_credits in Hr. lia.
Qed.

(** A consumer has returned, or there is no item. *)
Lemma consumer_rests t :
  t ∈ cons -> (t_at s t = Done 0 /\ g_consumed (t_buf s) = target) \/
  (c_on (t_c s) t = notempty /\ t ∈ tasks_of s notempty /\ g_qcount (t_buf s) = 0).
Proof.
  intros Hin. pose proof (role_cons prods cons boss Hcrew t Hin) as Hr.
  assert (Htm : t ∈ team) by (rewrite elem_of_cons, elem_of_app; auto).
  pose proof (pl_fits _ _ _ _ _ _ placed_rest t) as Hf. rewrite Hr in Hf.
  destruct (Hrest t Htm) as [Hd|[[Hp _]|(_ & _ & _ & Hm & _)]].
  - left. split; [done|]. apply (ti_end _ _ _ _ _ _ Ht t Hr). by right.
  - right. pose proof (pl_shape _ _ _ _ _ _ placed_rest t) as Hs. rewrite Hp in Hs.
    assert (Hon : c_on (t_c s) t = notempty).
    { apply (pl_on _ _ _ _ _ _ placed_rest). by destruct (t_at s t). }
    pose proof (sleeper_listed t Htm Hp) as Hl. pose proof (sleepers_room t Htm Hp) as Hrm.
    rewrite Hon in Hl, Hrm. split; [done|]. split; [done|].
    pose proof (bo_count _ (ti_buf _ _ _ _ _ _ Ht)). unfold room in Hrm. lia.
  - destruct Hm as [Hm|Hm]; by rewrite Hm in Hf.
Qed.

Lemma queue_empty : g_qcount (t_buf s) = 0.
Proof.
  destruct Hcrew as (_ & _ & Hl). unfold N_CONS in Hl. assert (Hc : exists u, u ∈ cons).
  { destruct cons as [|u l]; [done|]. exists u. left. }
  destruct Hc as [u Hu]. destruct (consumer_rests u Hu) as [[_ Hc]|(_ & _ & Hc)]; [|done].
  pose proof (ti_buf _ _ _ _ _ _ Ht) as Hb. pose proof (in_length _ Hb). pose proof (bo_most _ Hb).
  pose proof (bo_consumed _ Hb). pose proof (bo_count _ Hb). lia.
Qed.

(** So every producer has returned, *)
Lemma producers_done : Forall (fun t => t_at s t = Done 0) prods.
Proof.
  apply Forall_forall. intros t Hin. destruct (role_prod prods cons boss Hcrew t Hin) as (id & Hr & _).
  assert (Htm : t ∈ team) by (rewrite elem_of_cons, elem_of_app; auto).
  pose proof (pl_fits _ _ _ _ _ _ placed_rest t) as Hf. rewrite Hr in Hf.
  destruct (Hrest t Htm) as [Hd|[[Hp _]|(_ & _ & _ & Hm & _)]]; [done|exfalso..].
  - pose proof (pl_shape _ _ _ _ _ _ placed_rest t) as Hs. rewrite Hp in Hs.
    assert (Hon : c_on (t_c s) t = notfull).
    { apply (pl_on _ _ _ _ _ _ placed_rest). by destruct (t_at s t). }
    pose proof (sleepers_room t Htm Hp) as Hrm. rewrite Hon in Hrm. unfold room, Q_SIZE in Hrm.
    rewrite queue_empty in Hrm. lia.
  - destruct Hm as [Hm|Hm]; by rewrite Hm in Hf.
Qed.

(** main too, and with it the consumers. *)
Lemma all_passed : passed s.
Proof.
  pose proof producers_done as Hd. pose proof (pl_fits _ _ _ _ _ _ placed_rest boss) as Hf.
  rewrite role_boss in Hf.
  assert (Hcons : told (t_at s boss) (pc_of s boss) = true -> Forall (fun t => t_at s t = Done 0) cons).
  { intros Htl. apply Forall_forall. intros t Hin.
    destruct (consumer_rests t Hin) as [[? _]|(_ & Hl & _)]; [done|].
    rewrite (ti_told _ _ _ _ _ _ Ht Htl) in Hl. by apply elem_of_nil in Hl. }
  assert (Hb : boss ∈ team) by (rewrite elem_of_cons; by left).
  destruct (Hrest boss Hb) as [Hdone|[[Hp _]|(_ & _ & Hj & [Hm|Hm] & Hi)]].
  - split; [done|]. apply Forall_app. split; [done|]. apply Hcons. by rewrite Hdone.
  - pose proof (pl_shape _ _ _ _ _ _ placed_rest boss) as Hs. rewrite Hp in Hs. by destruct (t_at s boss).
  - by rewrite Hm in Hj.
  - destruct Hj. rewrite Hm. cbn. apply Hcons. rewrite Hm. by destruct (pc_of s boss).
Qed.
End resting.

Lemma no_deadlock s : tinv s -> ~ passed s -> goes s.
Proof.
  intros Ht Hn. destruct (goes_or_all (rests s) (goes s) team) as [?|Hall]; [|done|].
  - intros t _. by apply goes_or_rests.
  - destruct Hn. by apply all_passed.
Qed.

(** At the end every item of every producer has been popped once, in order. *)
Lemma passed_items s id :
  tinv s -> passed s -> 1 <= id <= N_PROD -> of_producer id (b_out (t_buf s)) = items id (Z.to_nat ITEMS).
Proof.
  intros Ht [_ [Hp Hc]%Forall_app] Hid. pose proof (ti_buf _ _ _ _ _ _ Ht) as Hb.
  pose proof (made_all lock guard prods cons boss Hcrew s Ht Hp) as Hin.
  destruct Hcrew as (_ & Hlp & Hlc). unfold N_PROD, N_CONS in *.
  assert (Hout : g_consumed (t_buf s) = target).
  { destruct cons as [|u l] eqn:Hl; [done|]. rewrite <- Hl in *.
    assert (Hu : u ∈ cons) by (rewrite Hl; left). rewrite Forall_forall in Hc.
    apply (ti_end _ _ _ _ _ _ Ht u (role_cons _ _ _ Hcrew u Hu)). right. by apply Hc. }
  assert (Hz : contents (t_buf s) = []).
  { apply nil_length_inv. rewrite length_contents. pose proof (in_length _ Hb).
    rewrite (bo_consumed _ Hb) in Hout. lia. }
  pose proof (bo_fifo _ Hb) as Hf. rewrite Hz, app_nil_r in Hf. rewrite <- Hf.
  destruct (lookup_lt_is_Some_2 prods (Z.to_nat (id - 1)) ltac:(lia)) as [t Ht'].
  assert (Hr : role_of t = Producer id).
  { assert (Htp : t ∈ prods) by (by eapply list_elem_of_lookup_2).
    destruct (role_prod _ _ _ Hcrew t Htp) as (id' & Hr & _). rewrite Hr. f_equal.
    apply role_id in Hr as [Hid' Hl']. pose proof (prods_nodup _ _ _ Hcrew) as Hnd.
    pose proof (NoDup_lookup _ _ _ _ Hnd Ht' Hl'). lia. }
  rewrite (ti_order _ _ _ _ _ _ Ht t id Hr). f_equal.
  rewrite Forall_forall in Hp. rewrite (Hp t); [done|]. by eapply list_elem_of_lookup_2.
Qed.

(** C24. The condition-variable test passes.  Whatever the schedule of its six tasks, call
    by call into the system, every step leads on: from each state that can be
    reached there is a step until every thread has returned, the number of steps
    is bounded, the exit code is 0, and the consumers have popped every item of each
    producer once, in order.  So no task sleeps for ever, with the signals, the
    lists of waiters, the guards and the mutex as osal_lock.c has them. *)
Theorem test_cv_passes cv w s :
  fresh lock guard cv w -> rtc step (t_boot prods cons boss cv w) s ->
  must_reach step (fun s' => passed s' /\
    forall id, 1 <= id <= N_PROD -> of_producer id (b_out (t_buf s')) = items id (Z.to_nat ITEMS)) s.
Proof.
  intros Hf Hr. pose proof (reach_tinv lock guard prods cons boss Hap Hcrew cv w s Hf Hr) as Ht.
  apply (must_reach_inv _ passed _ tinv); [intros s1 s2 Hi H12; by eapply act_tinv| |done|].
  { intros s1 Hi Hps. split; [done|]. intros id. by apply passed_items. }
  apply (must_reach_measure _ _ tinv left_over); [| | | |done].
  - intros s1. unfold TestCv.passed.
    destruct (decide (t_at s1 boss = Done 0 /\ Forall (fun t => t_at s1 t = Done 0) (prods ++ cons))); auto.
  - intros s1 s2 Hi H12. by eapply act_tinv.
  - intros s1 Hi Hn. by apply no_deadlock.
  - intros s1 s2 Hi _ H12. by apply step_decreases.
Qed.
End live.
