(* ===== verification/TestCvSim.v ===== *)
(** * The condition-variable test at work

    A world, a schedule, and the theorems of TestCvSafe.v and TestCvLive.v there. *)

From S2P Require Import Prelude Ipc OsalCv Tasks TaskSim OsalLock SemSim CvTasks CvInv CvSafe.
From S2P Require Import TestCv TestCvInv TestCvSafe TestCvLive.

(** Main is task 1, the producers 2, 3 and 4, the consumers 5 and 6; the mutex is at
    address 100, the guards of the variables at 200 and 300. *)
Abbreviation tst := (tsys lworld).
Definition prods0 : list Z := [2; 3; 4].
Definition cons0 : list Z := [5; 6].
Definition guard1 (v : cond) : Z := match v with notempty => 200 | notfull => 300 end.

Definition tw0 : lworld :=
  (mk_kview (fun _ => 0) (fun _ => ∅) (fun _ => []) ∅ (fun _ => (0, 0)) {[1; 2; 3; 4; 5; 6]} 0, fun _ => Free).
Definition t0 : tst := t_boot prods0 cons0 1 (fun _ => empty_cv) tw0.

Abbreviation tacts := (rtc (t_act 100 guard1 prods0 cons0)).

#[local] Instance joined0_dec (s : tst) p : Decision (joined prods0 cons0 s p).
Proof. destruct p; cbn; apply _. Defined.

(** A step of task [t]. *)
Definition go (t : Z) (s : tst) : option tst :=
  match c_pc (t_c s) t with
  | CIdle _ =>
    if decide (joined prods0 cons0 s (t_at s t)) then
      '(x, b) ← code (t_at s t) (t_buf s);
      Some match x with
      | Calls c v p => mk_tsys (called (t_c s) t tt v c) b (<[t := p]> (t_at s))
      | Ends rv => mk_tsys (t_c s) b (<[t := Done rv]> (t_at s))
      end
    else None
  | _ =>
    match c_step (fun _ : unit => 100) guard1 (t_c s) t with
    | Go pc cv w => Some (mk_tsys (after_step (t_c s) t pc cv w) (t_buf s) (t_at s))
    | _ => None
    end
  end.

Lemma go_act t s s' : go t s = Some s' -> t_act 100 guard1 prods0 cons0 s s'.
Proof.
  unfold go. intros Hg. destruct (c_pc (t_c s) t) eqn:Hpc;
    try (destruct (c_step _ _ _ _) as [| |pc cv w] eqn:Hs; try done; injection Hg as <-; by apply ta_step).
  case_decide; [|done]. destruct (code _ _) as [[x b]|] eqn:Hc; [|done]. cbn in Hg. injection Hg as <-.
  destruct x; [by eapply ta_call|by eapply ta_end].
Qed.

(** Each number is a task that makes one step if it can. *)
Definition sched (l : list Z) (s : tst) : tst := foldl (fun s t => default s (go t s)) s l.

Lemma sched_acts l s : tacts s (sched l s).
Proof.
  revert s. induction l as [|t l IH]; intros s; [done|]. cbn. etrans; [|apply IH].
  destruct (go t s) as [s'|] eqn:Hg; [by apply rtc_once, (go_act t)|done].
Qed.

Lemma crew0 : crew prods0 cons0 1.
Proof. split; [apply (bool_decide_unpack _); vm_compute; exact I|done]. Qed.

Lemma apart1 : apart (fun _ : unit => 100) guard1.
Proof. split; [by intros [] []|by intros [] []|by intros [] []]. Qed.

Lemma fresh0 : fresh 100 guard1 (fun _ => empty_cv) tw0.
Proof. split; [by exists empty_cv|done]. Qed.

(** Consumer 5 goes to sleep; producer 2 fills the queue and sleeps; 5 takes an item. *)
Definition begun : tst := sched (replicate 12 5 ++ replicate 60 2 ++ replicate 20 5) t0.

Lemma test_cv_fifo_witness :
  b_in (t_buf begun) = [10000; 10001; 10002; 10003] /\ b_out (t_buf begun) = [10000; 10001; 10002] /\
  b_in (t_buf begun) = b_out (t_buf begun) ++ contents (t_buf begun).
Proof.
  split; [vm_compute; reflexivity|]. split; [vm_compute; reflexivity|].
  destruct (test_cv_fifo 100 guard1 prods0 cons0 1 apart1 crew0 (fun _ => empty_cv) tw0 begun fresh0
    (sched_acts _ _)) as (_ & _ & _ & Hf & _). exact Hf.
Defined.

Lemma test_cv_passes_witness :
  t_at t0 2 = PStart 1 0 /\
  must_reach (t_act 100 guard1 prods0 cons0) (fun s => passed prods0 cons0 1 s /\
    forall id, 1 <= id <= N_PROD -> of_producer id (b_out (t_buf s)) = items id (Z.to_nat ITEMS)) begun.
Proof.
  split; [reflexivity|].
  exact (test_cv_passes 100 guard1 prods0 cons0 1 apart1 crew0 (fun _ => empty_cv) tw0 begun fresh0
    (sched_acts _ _)).
Defined.
