(* ===== verification/ClientTasks.v ===== *)
(** * Clients among tasks (src/phase3_bsdsocket/socket_ipc.c)

    Any number of tasks call [netstack_ipc_call], and one calls
    [netstack_client_shutdown] when nobody else calls, while the engine process and
    its launcher run.  Each call is a machine that makes one step per call into the
    system or access to the library's globals; what the library does between
    obtaining and releasing [g_reply_sem] without such a call is one step, which
    ClientInv.v justifies: at most one task is there. *)

From S2P Require Import Prelude Ipc FdTable FdSpec Engine Tasks EngineTasks EngineInv.
From S2P Require Import OsalLock Client.

(** [mn_ReplyPort] and the rest of the message header. *)
Definition stamped (os : sdk) (p : Z) (x : message) : message :=
  (fst x, set_msg (mk_Message (NT_MESSAGE os) (sizeof_Message os + 8 + Z.of_nat sizeof_u) p) (snd x)).

(** Where a task is in its call; [e] is the engine's port, [p] the reply port. *)
Inductive kpc :=
  | KIdle (rv : option (Z * NetstackReq))  (* outside; what the last call returned *)
  | KEngChk | KEngInit | KEngSet           (* if (!g_engine_port_sem_init) ... *)
  | KEngObt                                (* ObtainSemaphore(&g_engine_port_sem) *)
  | KEngTest                               (* if (!g_engine_port) *)
  | KEngFind                               (* g_engine_port = FindPort(...) *)
  | KEngRel (e : Z)                        (* ReleaseSemaphore *)
  | KRepChk (e : Z) | KRepInit (e : Z) | KRepSet (e : Z)
  | KRepObt (e : Z)                        (* ObtainSemaphore(&g_reply_sem) *)
  | KRepScan (e : Z)                       (* the two searches *)
  | KRepAlloc (e j : Z)                    (* AllocSysObjectTags, and the slot *)
  | KRepRel (e p : Z)                      (* ReleaseSemaphore *)
  | KPut (e p : Z)                         (* PutMsg(engine, &req->msg) *)
  | KWait (p : Z)                          (* WaitPort(reply) *)
  | KGet (p : Z).                          (* GetMsg(reply) *)

Inductive kout (W : Type) :=
  | KBlocked | KUndefined | KGo (pc : kpc) (c : client) (w : W).
Arguments KBlocked {W}. Arguments KUndefined {W}. Arguments KGo {W} pc c w.

(** Where a task is in netstack_client_shutdown. *)
Inductive dpc :=
  | DChk                                   (* if (!g_reply_sem_init) return *)
  | DObt                                   (* ObtainSemaphore(&g_reply_sem) *)
  | DFree (i : nat)                        (* the body of the loop *)
  | DRel                                   (* ReleaseSemaphore *)
  | DClear.                                (* g_engine_port = NULL *)

Inductive dout (W : Type) :=
  | DBlocked | DUndefined | DGo (d : option dpc) (c : client) (w : W).
Arguments DBlocked {W}. Arguments DUndefined {W}. Arguments DGo {W} d c w.

Definition set_engine_init (c : client) : client :=
  mk_client true (g_engine_port c) (g_reply_sem_init c) (g_reply_slots c).
Definition set_reply_init (c : client) : client :=
  mk_client (g_engine_port_sem_init c) (g_engine_port c) true (g_reply_slots c).

(** The slot of an owner, or -1: the loop of Client.v. *)
Definition scan (o : Z) (c : client) : option Z := '(i, _) ← find_owner o 16 0 (c, tt); Some i.

Section step.
Context {W : Type} `{!Tasks W, !Sems W} (os : sdk).
Implicit Types (c : client) (w : W).

Definition obtain (me s : Z) (pc : kpc) c w : kout W :=
  match ObtainSemaphore me s w with Some w => KGo pc c w | None => KBlocked end.

(** The searches, with the semaphore held. *)
Definition find_slot (me e : Z) c : option kpc :=
  i ← scan me c;
  if 0 <=? i then s ← lookupZ (g_reply_slots c) i; Some (KRepRel e (port s)) else
  j ← scan 0 c;
  Some (if 0 <=? j then KRepAlloc e j else KRepRel e 0).

(** One step of task [me], whose request is [x]: the address of its buffer, and what
    it holds. *)
Definition ipc_step (me : Z) (x : message) (pc : kpc) c w : kout W :=
  match pc with
  | KIdle _ => KBlocked
  (* ensure_engine_port *)
  | KEngChk => KGo (if g_engine_port_sem_init c then KEngObt else KEngInit) c w
  | KEngInit => KGo KEngSet c (InitSemaphore g_engine_port_sem w)
  | KEngSet => KGo KEngObt (set_engine_init c) w
  | KEngObt => obtain me g_engine_port_sem KEngTest c w
  | KEngTest => KGo (if g_engine_port c =? 0 then KEngFind else KEngRel (g_engine_port c)) c w
  | KEngFind => let p := FindNamedPort w in KGo (KEngRel p) (set_engine_port p c) w
  | KEngRel e =>
    KGo (if e =? 0 then KIdle (Some (-1, snd x)) else KRepChk e) c (ReleaseSemaphore me g_engine_port_sem w)
  (* ensure_reply_port *)
  | KRepChk e => KGo (if g_reply_sem_init c then KRepObt e else KRepInit e) c w
  | KRepInit e => KGo (KRepSet e) c (InitSemaphore g_reply_sem w)
  | KRepSet e => KGo (KRepObt e) (set_reply_init c) w
  | KRepObt e => obtain me g_reply_sem (KRepScan e) c w
  | KRepScan e => match find_slot me e c with Some pc => KGo pc c w | None => KUndefined end
  | KRepAlloc e j =>
    let '(p, w) := AllocSysPort me false w in
    if p =? 0 then KGo (KRepRel e 0) c w else
    match storeZ (g_reply_slots c) j (mk_reply_slot me p) with
    | Some l => KGo (KRepRel e p) (set_slots l c) w
    | None => KUndefined
    end
  | KRepRel e p =>
    KGo (if p =? 0 then KIdle (Some (-1, snd x)) else KPut e p) c (ReleaseSemaphore me g_reply_sem w)
  (* the exchange *)
  | KPut e p => KGo (KWait p) c (PutMsg e (stamped os p x) w)
  | KWait p => match WaitPort p w with Some w => KGo (KGet p) c w | None => KBlocked end
  | KGet p =>
    (* the message was in place: its contents are now those of [*req] *)
    match GetMsg p w with
    | (Some y, w) => KGo (KIdle (Some (0, snd y))) c w
    | (None, _) => KUndefined
    end
  end.

(** One step of task [me] in [netstack_client_shutdown]; [None]: it has returned. *)
Definition down_step (me : Z) (d : dpc) c w : dout W :=
  match d with
  | DChk => DGo (if g_reply_sem_init c then Some DObt else None) c w
  | DObt => match ObtainSemaphore me g_reply_sem w with Some w => DGo (Some (DFree 0)) c w | None => DBlocked end
  | DFree i =>
    if (i <? 16)%nat then
      match g_reply_slots c !! i with
      | Some s =>
        if port s =? 0 then DGo (Some (DFree (S i))) c w else
        DGo (Some (DFree (S i))) (set_slots (<[i := mk_reply_slot 0 0]> (g_reply_slots c)) c)
          (FreeSysPort (port s) w)
      | None => DUndefined
      end
    else DGo (Some DRel) c w
  | DRel => DGo (Some DClear) c (ReleaseSemaphore me g_reply_sem w)
  | DClear => DGo None (set_engine_port 0 c) w
  end.
End step.

(** ** Clients, engine and launcher together *)

(** A call that returned: the message it posted, the reply, its place in the order
    of service, and the number of messages taken when it began and answered when it
    returned. *)
Record kdone := mk_kdone {
  d_task : Z; d_sent : message; d_reply : NetstackReq; d_from : nat; d_pos : nat; d_to : nat
}.

(** The system of EngineTasks.v, the library's globals, where each task is, and with
    what request; and the history: the messages taken when its call began, the place
    of its message, and the calls that returned. *)
Record ksys (W : Type) := mk_ksys {
  k_s : sys W;
  k_c : client;
  k_pc : Z -> kpc;
  k_arg : Z -> message;
  k_from : Z -> nat;
  k_pos : Z -> nat;
  k_log : list kdone
}.
Arguments mk_ksys {W}. Arguments k_s {W}. Arguments k_c {W}. Arguments k_pc {W}.
Arguments k_arg {W}. Arguments k_from {W}. Arguments k_pos {W}. Arguments k_log {W}.

Section system.
Context {W : Type} `{!Tasks W, !TaskView W, !Sems W} (os : sdk) (me buf : Z).
Implicit Types (s : sys W) (k : ksys W).

(** A world for the engine's system, and a message posted. *)
Definition set_world (w : W) s : sys W :=
  mk_sys (s_g s) w (s_t s) (s_e s) (s_l s) (s_posted s) (s_taken s) (s_replied s) (s_lost s).

Definition posted (x : message) (w : W) s : sys W :=
  mk_sys (s_g s) w (s_t s) (s_e s) (s_l s) (s_posted s ++ [x]) (s_taken s) (s_replied s) (s_lost s).

(** Steps of the engine and the launcher. *)
Inductive own_step : sys W -> sys W -> Prop :=
  | own_task s s' : task_step os me buf s s' -> own_step s s'
  | own_start s rv cfg :
      s_l s = LIdle rv ->
      own_step s (mk_sys (snd (start_call me cfg (s_g s))) (s_w s) (s_t s) (s_e s)
        (fst (start_call me cfg (s_g s))) (s_posted s) (s_taken s) (s_replied s) (s_lost s))
  | own_stop s rv :
      s_l s = LIdle rv ->
      own_step s (mk_sys (s_g s) (s_w s) (s_t s) (s_e s) (stop_call (s_g s))
        (s_posted s) (s_taken s) (s_replied s) (s_lost s)).

(** A task that may call: it exists and is neither the launcher nor the engine. *)
Definition caller (t : Z) s : Prop :=
  t <> 0 /\ t <> me /\ t ∈ k_tasks (view (s_w s)) /\ (dead (s_e s) = false -> t <> s_t s).

Definition putting (pc : kpc) : bool := match pc with KPut _ _ => true | _ => false end.

(** Task [t] is about to put its message to a port that is not the engine's any more.
    What the code does then is not defined, and no step of the relation below. *)
Definition dangling k (t : Z) : Prop :=
  exists e p, k_pc k t = KPut e p /\
    ~ (open (s_e (k_s k)) = true /\ e = g_request_port (s_g (k_s k))).

(** The call that returns with this step, if one does with a reply. *)
Definition returned k (t : Z) (pc : kpc) : list kdone :=
  match k_pc k t, pc with
  | KGet p, KIdle (Some (_, r)) =>
    [mk_kdone t (stamped os p (k_arg k t)) r (k_from k t) (k_pos k t) (length (s_replied (k_s k)))]
  | _, _ => []
  end.

Inductive kact : ksys W -> ksys W -> Prop :=
  | kact_own k s' :
      own_step (k_s k) s' ->
      kact k (mk_ksys s' (k_c k) (k_pc k) (k_arg k) (k_from k) (k_pos k) (k_log k))
  | kact_call k t rv x :
      k_pc k t = KIdle rv -> caller t (k_s k) ->
      wf_req (snd x) -> op (snd x) <> NETSTACK_OP_SHUTDOWN ->
      kact k (mk_ksys (k_s k) (k_c k) (<[t := KEngChk]> (k_pc k)) (<[t := x]> (k_arg k))
        (<[t := length (s_taken (k_s k))]> (k_from k)) (k_pos k) (k_log k))
  | kact_step k t pc c w :
      putting (k_pc k t) = false ->
      ipc_step os t (k_arg k t) (k_pc k t) (k_c k) (s_w (k_s k)) = KGo pc c w ->
      kact k (mk_ksys (set_world w (k_s k)) c (<[t := pc]> (k_pc k)) (k_arg k) (k_from k) (k_pos k)
        (k_log k ++ returned k t pc))
  (* the message is put to the engine's port; otherwise see [dangling] *)
  | kact_put k t e p pc c w :
      k_pc k t = KPut e p -> open (s_e (k_s k)) = true -> e = g_request_port (s_g (k_s k)) ->
      ipc_step os t (k_arg k t) (KPut e p) (k_c k) (s_w (k_s k)) = KGo pc c w ->
      kact k (mk_ksys (posted (stamped os p (k_arg k t)) w (k_s k)) c (<[t := pc]> (k_pc k)) (k_arg k)
        (k_from k) (<[t := length (s_taken (k_s k) ++ requests (k_s k))]> (k_pos k)) (k_log k)).

(** With a task that shuts the library down, and where it is.  That is for when nobody
    calls: it begins when no task is in a call, and none begins a call before it
    returns. *)
Definition qsys : Type := ksys W * option (Z * dpc).

Inductive qact : qsys -> qsys -> Prop :=
  | qact_call k k' : kact k k' -> qact (k, None) (k', None)
  | qact_own k s' d :
      own_step (k_s k) s' ->
      qact (k, d) (mk_ksys s' (k_c k) (k_pc k) (k_arg k) (k_from k) (k_pos k) (k_log k), d)
  | qact_down k t :
      caller t (k_s k) -> (forall u, exists rv, k_pc k u = KIdle rv) ->
      qact (k, None) (k, Some (t, DChk))
  | qact_step k t d d' c w :
      down_step t d (k_c k) (s_w (k_s k)) = DGo d' c w ->
      qact (k, Some (t, d))
        (mk_ksys (set_world w (k_s k)) c (k_pc k) (k_arg k) (k_from k) (k_pos k) (k_log k),
         (t,.) <$> d').

(** Nothing was started, nobody has called. *)
Definition kboot (c : client) (w : W) : ksys W :=
  mk_ksys (boot w) c (fun _ => KIdle None) (fun _ => (0, zero_req)) (fun _ => O) (fun _ => O) [].

Definition qboot (c : client) (w : W) : qsys := (kboot c w, None).

(** The state in which [netstack_client_init] leaves the library before the engine
    runs: the semaphores are initialised, no slot is used. *)
Definition inited (c : client) (w : W) `{!SemView W} : Prop :=
  g_engine_port_sem_init c = true /\ g_reply_sem_init c = true /\
  g_reply_slots c = g_reply_slots client_init /\
  sems w g_engine_port_sem = Free /\ sems w g_reply_sem = Free.
End system.
