(* ===== verification/ClientFrame.v ===== *)
(** * Clients and the engine's system keep out of each other's way

    What a task's own calls leave alone of the engine and the launcher, so that
    their invariant survives; and what steps of the engine and the launcher leave
    alone of other tasks' ports: a reply arrives at its port, nothing else. *)

From S2P Require Import Prelude Ipc FdTable FdSpec FdRefine Engine Tasks EngineTasks EngineInv.
From S2P Require Import EngineMoves EngineLaunch EngineProc OsalLock Client ClientTasks.

(** What the calls of task [t] on its own ports change: its own signals and bits,
    the queues of its ports; they may add ports. *)
Record framed (t : Z) (v v' : kview) : Prop := mk_framed {
  fr_sig : forall u, u <> t -> k_sig v' u = k_sig v u;
  fr_bits : forall u, u <> t -> k_bits v' u = k_bits v u;
  fr_ports : k_ports v ⊆ k_ports v';
  fr_owner : forall p, p ∈ k_ports v -> k_owner v' p = k_owner v p;
  fr_queue : forall p, p ∈ k_ports v -> fst (k_owner v p) <> t -> k_queue v' p = k_queue v p;
  fr_tasks : k_tasks v' = k_tasks v;
  fr_public : k_public v' = k_public v
}.

Lemma framed_refl t v : framed t v v.
Proof. done. Qed.

Lemma framed_take t m v : framed t v (kv_take t m v).
Proof. split; kv; try done. intros u Hu. by kv. Qed.

Lemma framed_open t p b v : p ∉ k_ports v -> framed t v (kv_open t false p b v).
Proof.
  intros Hp. split; kv; try done.
  - intros u Hu. by kv.
  - intros u Hu. by kv.
  - set_solver.
  - intros q Hq. assert (p <> q) by (by intros ->). by kv.
  - intros q Hq _. assert (p <> q) by (by intros ->). by kv.
Qed.

Lemma framed_pop t p v : fst (k_owner v p) = t -> framed t v (kv_queue p (tail (k_queue v p)) v).
Proof.
  intros Hp. split; kv; try done. intros q _ Hq. assert (p <> q) by congruence. by kv.
Qed.

Lemma framed_trans t v1 v2 v3 : framed t v1 v2 -> framed t v2 v3 -> framed t v1 v3.
Proof.
  intros [A1 A2 A3 A4 A5 A6 A7] [C1 C2 C3 C4 C5 C6 C7]. split.
  - intros u Hu. by rewrite C1, A1.
  - intros u Hu. by rewrite C2, A2.
  - by etrans.
  - intros p Hp. rewrite C4, A4; auto.
  - intros p Hp Ho. rewrite C5, A5; [done..|auto|]. by rewrite A4.
  - by rewrite C6, A6.
  - by rewrite C7, A7.
Qed.

(** ** What other tasks leave of a task's ports *)

Record untouched (t : Z) (v v' : kview) : Prop := mk_untouched {
  un_task : t ∈ k_tasks v -> t ∈ k_tasks v';
  un_port : forall p, p ∈ k_ports v -> fst (k_owner v p) = t ->
    p ∈ k_ports v' /\ k_owner v' p = k_owner v p /\ k_queue v' p = k_queue v p
}.

#[export] Instance untouched_preorder t : PreOrder (untouched t).
Proof.
  split; [done|]. intros v1 v2 v3 [A1 A2] [C1 C2]. split; [auto|]. intros p Hp Ho.
  destruct (A2 p Hp Ho) as (Hp2 & Ho2 & Hq2). destruct (C2 p Hp2) as (? & ? & ?); [by rewrite Ho2|].
  split_and!; congruence.
Qed.

Lemma untouched_sig t u m v : untouched t v (kv_sig u m v).
Proof. done. Qed.
Lemma untouched_bits t u B v : untouched t v (kv_bits u B v).
Proof. done. Qed.
Lemma untouched_spawn t u v : untouched t v (kv_spawn u v).
Proof. split; kv; [set_solver|done]. Qed.
Lemma untouched_exit t u v : t <> u -> untouched t v (kv_tasks (k_tasks v ∖ {[u]}) v).
Proof. intros Hu. split; kv; [set_solver|done]. Qed.
Lemma untouched_queue t p q v : fst (k_owner v p) <> t -> untouched t v (kv_queue p q v).
Proof. intros Hp. split; kv; [done|]. intros r Hr Ho. assert (p <> r) by congruence. by kv. Qed.
Lemma untouched_open t u pub p b v : p ∉ k_ports v -> untouched t v (kv_open u pub p b v).
Proof.
  intros Hp. split; kv; [done|]. intros r Hr Ho. assert (p <> r) by (by intros ->). kv.
  split_and!; [set_solver|done|done].
Qed.
Lemma untouched_close t p v : fst (k_owner v p) <> t -> untouched t v (kv_close p v).
Proof.
  intros Hp. split; kv; [done|]. intros r Hr Ho. assert (r <> p) by congruence.
  split_and!; [set_solver|done|done].
Qed.

#[export] Hint Resolve untouched_sig untouched_bits untouched_spawn untouched_exit
  untouched_queue untouched_open untouched_close : untouched.

Section frame.
Context {W : Type} `{TaskLaws W, !Sems W, !SemView W, !SemLaws W, !SemFrame W}.
Context (os : sdk) (me buf : Z) (B0 : gset Z).
Implicit Types (s : sys W).

Abbreviation vw s := (view (s_w s)).
Abbreviation rport s := (g_request_port (s_g s)).

(** ** A client's own calls *)

Definition outside (t : Z) s : Prop := t <> me /\ (dead (s_e s) = false -> t <> s_t s).

Lemma framed_mine t s w :
  eng_ok me s -> outside t s -> framed t (vw s) (view w) -> mine me s (set_world w s).
Proof.
  intros He [Htm Hts] [F1 F2 F3 F4 F5 F6 _]. split; cbn; try done; auto.
  - intros Hd _. apply F1. intros Heq. by destruct (Hts Hd).
  - intros Ho. destruct (request_port_other me s He Ho) as (Hp & Hpt & _). apply F5; [done|].
    rewrite Hpt. intros Heq. destruct Hts; [by destruct (s_e s)|done].
Qed.

Lemma framed_inv t s w :
  inv me B0 s -> outside t s -> framed t (vw s) (view w) -> inv me B0 (set_world w s).
Proof.
  intros (He & ph & Hph & Hl) Hout Hf. pose proof (framed_mine _ _ _ He Hout Hf) as Hm.
  destruct Hf as [F1 F2 F3 F4 F5 F6 _], Hout as [Htm _].
  assert (Hown : forall p b, own_port me p b s ->
    own_port me p b (set_world w s) /\ k_queue (view w) p = k_queue (vw s) p).
  { intros p b (Hp0 & Hp & Ho). unfold own_port. cbn. rewrite F4, F5 by (done || by rewrite Ho; cbn).
    split_and!; auto. }
  split; [by apply (mine_ok me s)|]. exists ph. split.
  - apply (mine_phase me ph s); try done. intros p Heq.
    destruct (launch_asker me B0 ph s Hl p Heq) as [b Hb]. by apply (Hown p b).
  - apply (launch_frame me B0 ph s); try done; cbn; [by apply F2|].
    intros i. unfold lsig. cbn. by rewrite F1.
Qed.

Lemma framed_requests t s w :
  inv me B0 s -> outside t s -> framed t (vw s) (view w) -> requests (set_world w s) = requests s.
Proof.
  intros (He & _) Hout Hf. by apply (mine_requests me); [apply (framed_mine t)|].
Qed.

(** A port of another task is closed that nothing in flight needs. *)
Lemma closed_inv p s w :
  inv me B0 s -> view w = kv_close p (vw s) -> outside (fst (k_owner (vw s) p)) s ->
  ~ needed me p s ->
  inv me B0 (set_world w s) /\ requests (set_world w s) = requests s.
Proof.
  intros (He & ph & Hph & Hl) Hv [Hom Hot] Hn.
  assert (Hm : mine me s (set_world w s)).
  { split; cbn; rewrite ?Hv; try done. intros q Hq Hp _. kv. split; [|done].
    apply elem_of_difference. split; [done|]. rewrite elem_of_singleton. by intros ->. }
  split; [|by apply (mine_requests me)].
  split; [by apply (mine_ok me s)|]. exists ph. split.
  - apply (mine_phase me ph s); try done. cbn. by rewrite Hv.
  - apply (launch_frame me B0 ph s); try done; cbn.
    + rewrite Hv. by kv.
    + intros i. unfold lsig. cbn. by rewrite Hv.
    + intros q b (Hq0 & Hq & Ho). unfold own_port. cbn. rewrite Hv. kv. split; [|done].
      split; [done|]. split; [|done]. apply elem_of_difference. split; [done|].
      rewrite elem_of_singleton. intros ->. by rewrite Ho in Hom.
Qed.

(** ** Steps of the engine and the launcher *)

Lemma own_step_sys s s' : own_step os me buf s s' -> sys_step os me buf s s'.
Proof. intros []; [by left|right; by eapply step_start|right; by eapply step_stop]. Qed.

Definition new_replies s s' : list message := drop (length (s_replied s)) (s_replied s').

(** A reply lands in its port. *)
Lemma untouched_reply t p x w :
  p <> 0 -> p ∈ k_ports (view w) -> fst (k_owner (view w) p) = t ->
  let v' := view (ReplyMsg x w) in
  p ∈ k_ports v' /\ k_owner v' p = k_owner (view w) p /\
  k_queue v' p = k_queue (view w) p ++ filter (fun y => mn_ReplyPort (msg (snd y)) = p) [x].
Proof.
  intros Hp0 Hp Ho. cbv zeta. rewrite reply_law, filter_cons, filter_nil.
  destruct (Z.eqb_spec (mn_ReplyPort (msg (snd x))) 0) as [Hz|Hz].
  - rewrite decide_False by congruence. by rewrite app_nil_r.
  - case_decide as Hr; [subst p|]; kv; [done|]. by rewrite app_nil_r.
Qed.

(** What a step of the engine or the launcher does to another task [t]. *)
Record spares (t : Z) s s' : Prop := mk_spares {
  sp_task : t ∈ k_tasks (vw s) -> t ∈ k_tasks (vw s') /\ outside t s';
  sp_port : forall p, p <> 0 -> p ∈ k_ports (vw s) -> fst (k_owner (vw s) p) = t ->
    p ∈ k_ports (vw s') /\ k_owner (vw s') p = k_owner (vw s) p /\
    k_queue (vw s') p = k_queue (vw s) p ++
      filter (fun y => mn_ReplyPort (msg (snd y)) = p) (new_replies s s')
}.

Lemma untouched_spares t s s' :
  untouched t (vw s) (vw s') -> s_replied s' = s_replied s ->
  (t ∈ k_tasks (vw s) -> outside t s') -> spares t s s'.
Proof.
  intros [U1 U2] Hr Hout. split; [auto|]. intros p _ Hp Ho. unfold new_replies.
  rewrite Hr, drop_all, app_nil_r. auto.
Qed.

Lemma engine_spares t s e' g' w' a :
  inv me B0 s -> outside t s ->
  engine_step (s_t s) (s_e s) (s_g s) (s_w s) = Some (e', g', w', a) ->
  spares t s (after s e' g' w' a).
Proof.
  intros (He & _) Hout Hs.
  assert (Hd : dead (s_e s) = false) by (by destruct (s_e s)).
  pose proof Hout as [_ Ht]. specialize (Ht Hd).
  assert (Hout' : outside t (after s e' g' w' a)) by (split; [apply Hout|done]).
  assert (Hu : a = ANone \/ (exists x, a = ATake x) -> untouched t (vw s) (view w') ->
    spares t s (after s e' g' w' a)).
  { intros Ha Hu. apply untouched_spares; try done. cbn.
    destruct Ha as [->|[x ->]]; cbn; by rewrite app_nil_r. }
  destruct (s_e s) as [| | | | | | |[ad r]|x| | |] eqn:Hpc; cbn in Hs; try done.
  - pose proof (alloc_port_law (s_t s) true (s_w s)) as Hv. destruct (AllocSysPort _ _ _) as [p w1].
    destruct (p =? 0); injection Hs as <- <- <- <-; (apply Hu; [by left|]);
      (destruct Hv as [[_ ->]|(_ & Hp & b & _ & ->)]; [done|by apply untouched_open]).
  - injection Hs as <- <- <- <-. apply Hu; [by left|]. rewrite exit_law, signal_law.
    etrans; [apply untouched_sig|by apply untouched_exit].
  - injection Hs as <- <- <- <-. apply Hu; [by left|]. rewrite signal_law. apply untouched_sig.
  - injection Hs as <- <- <- <-. by apply Hu; [left|].
  - destruct (Wait _ _ _) as [[got w1]|] eqn:Hw; [|done]. cbn in Hs. injection Hs as <- <- <- <-.
    apply Hu; [by left|]. apply wait_law in Hw as [_ ->]. apply untouched_sig.
  - pose proof (get_law (rport s) (s_w s)) as Hg. destruct (GetMsg _ _) as [o w1]. destruct Hg as [_ Hg].
    destruct o; injection Hs as <- <- <- <-; (apply Hu; [by eauto|]); rewrite Hg;
      apply untouched_queue; (destruct (eo_port _ _ He) as (_ & _ & -> & _); [by rewrite Hpc|done]).
  - destruct (dispatch_request r (s_g s)) as [[r' g1]|]; [|done]. cbn in Hs.
    injection Hs as <- <- <- <-. by apply Hu; [left|].
  - injection Hs as <- <- <- <-. split.
    + intros Htk. split; [|done]. cbn. rewrite reply_law. by case_match.
    + intros p Hp0 Hp Ho. unfold new_replies. cbn. rewrite drop_app_length.
      exact (untouched_reply t p x (s_w s) Hp0 Hp Ho).
  - injection Hs as <- <- <- <-. apply Hu; [by left|]. rewrite free_port_law. apply untouched_close.
    destruct (eo_port _ _ He) as (_ & _ & -> & _); [by rewrite Hpc|done].
  - injection Hs as <- <- <- <-. apply Hu; [by left|]. rewrite exit_law, signal_law.
    etrans; [apply untouched_sig|by apply untouched_exit].
Qed.

Lemma free_bits_untouched t g n : forall b w, untouched t (view w) (view (free_bits me g n b w)).
Proof.
  induction n as [|n IH]; intros b w; [done|]. cbn [free_bits]. cbv zeta. etrans; [|apply IH].
  do 2 case_match; rewrite ?free_signal_law; done.
Qed.

Lemma launcher_spares t s l' g' w' o :
  inv me B0 s -> outside t s ->
  launcher_step os me buf (s_l s) (s_g s) (s_w s) = Some (l', g', w', o) ->
  spares t s (launched os buf s l' g' w' o).
Proof.
  intros Hi Hout Hs. pose proof Hi as (He & ph & Hph & Hl). pose proof Hout as [Htm _].
  assert (Hu : o = None -> untouched t (vw s) (view w') -> spares t s (launched os buf s l' g' w' o)).
  { intros -> Hu. by apply untouched_spares. }
  unfold launch_ok in Hl. destruct (s_l s) eqn:Hpc; cbn [launcher_step] in Hs.
  - done.
  - pose proof (alloc_signal_law me (s_w s)) as Hv. destruct (AllocSignal _ _) as [b w1].
    injection Hs as <- <- <- <-. apply Hu; [done|]. by destruct Hv as [[_ ->]|[_ ->]].
  - pose proof (alloc_signal_law me (s_w s)) as Hv. destruct (AllocSignal _ _) as [b w1].
    assert (Hw1 : untouched t (vw s) (view w1)) by (by destruct Hv as [[_ ->]|[_ ->]]).
    destruct (_ || _); injection Hs as <- <- <- <-; (apply Hu; [done|]); [|done].
    destruct Hw1, (0 <=? rb), (0 <=? b); rewrite ?free_signal_law; by split.
  - pose proof (create_law (priority cfg) (s_w s)) as Hv. destruct (CreateTask _ _) as [u w1].
    destruct (Z.eqb_spec u 0) as [->|Hu0]; injection Hs as <- <- <- <-.
    + apply Hu; [done|]. rewrite !free_signal_law. by destruct Hv as [[_ ->]|[? _]].
    + destruct Hv as [[? _]|(_ & Hfr & Hv)]; [done|]. apply untouched_spares; cbn; [|done|].
      * rewrite Hv. apply untouched_spawn.
      * intros Ht. split; [done|]. intros _. cbn. by intros ->.
  - destruct (Wait _ _ _) as [[got w1]|] eqn:Hw; [|done]. cbn in Hs. apply wait_law in Hw as [_ Hv].
    destruct (negb _); injection Hs as <- <- <- <-; (apply Hu; [done|]); by rewrite ?free_signal_law, Hv.
  - pose proof (alloc_port_law me false (s_w s)) as Hv. destruct (AllocSysPort _ _ _) as [p w1].
    injection Hs as <- <- <- <-. apply Hu; [done|].
    destruct Hv as [[_ ->]|(_ & Hp & b & _ & ->)]; [done|by apply untouched_open].
  - destruct (Z.eqb_spec (rport s) 0) as [Hz|Hz]; [done|]. injection Hs as <- <- <- <-.
    apply Hu; [done|]. rewrite put_law.
    assert (Ho : open (s_e s) = true).
    { destruct (open (s_e s)) eqn:Ho; [done|]. by rewrite (eo_closed _ _ He Ho) in Hz. }
    destruct (request_port_other me s He Ho) as (_ & Hpt & _). unfold kv_put, kv_raise.
    etrans; [apply untouched_queue|apply untouched_sig]. rewrite Hpt. intros Heq.
    destruct Hout as [_ Hn]. destruct Hn; [by destruct (s_e s)|done].
  - destruct Hl as (_ & rb & sb & b & _ & (_ & _ & Hown) & _).
    destruct (WaitPort reply (s_w s)) as [w1|] eqn:Hw; [|done]. cbn in Hs.
    pose proof (get_law reply w1) as Hg. destruct (GetMsg reply w1) as [m w2]. destruct Hg as [_ Hg].
    injection Hs as <- <- <- <-. apply Hu; [done|]. rewrite free_port_law, Hg.
    assert (Hw1 : untouched t (vw s) (view w1) /\ k_owner (view w1) = k_owner (vw s))
      by (by apply wait_port_law in Hw as [-> | ->]).
    destruct Hw1 as [Hw1 Ho1]. etrans; [exact Hw1|].
    etrans; [apply untouched_queue; rewrite Ho1, Hown; done|apply untouched_close].
    kv. rewrite Ho1, Hown. done.
  - injection Hs as <- <- <- <-. apply Hu; [done|]. rewrite signal_law. apply untouched_sig.
  - destruct (Wait _ _ _) as [[got w1]|] eqn:Hw; [|done]. cbn [mbind option_bind] in Hs.
    pose proof (free_bits_untouched t (s_g s) 32 0 w1) as Hf.
    generalize dependent (free_bits me (s_g s) 32 0 w1). intros w2 Hs Hf.
    injection Hs as <- <- <- <-. apply Hu; [done|]. etrans; [|exact Hf].
    apply wait_law in Hw as [_ ->]. apply untouched_sig.
Qed.

Lemma own_spares t s s' : inv me B0 s -> outside t s -> own_step os me buf s s' -> spares t s s'.
Proof.
  intros Hi Hout Hs. revert Hi Hout. destruct Hs as [s s' Hs|s rv cfg Hpc|s rv Hpc].
  - destruct Hs as [s e' g' w' a Hs|s l' g' w' o Hs]; intros Hi Hout;
      [by apply engine_spares|by apply launcher_spares].
  - intros _ Hout. by apply untouched_spares.
  - intros _ Hout. by apply untouched_spares.
Qed.
(** ** Semaphores *)

Lemma engine_sems t pc g w e' g' w' a :
  engine_step t pc g w = Some (e', g', w', a) -> sems w' = sems w.
Proof.
  intros Hs. destruct pc as [| | | | | | |[ad r]|x| | |]; cbn in Hs; try done.
  - pose proof (port_sems _ w (pc_alloc_port t true)) as Hv; cbv beta in Hv. destruct (AllocSysPort _ _ _) as [p w1].
    destruct (p =? 0); by injection Hs as <- <- <- <-.
  - injection Hs as <- <- <- <-. by rewrite (port_sems _ _ (pc_exit t)), signal_sems.
  - injection Hs as <- <- <- <-. apply signal_sems.
  - by injection Hs as <- <- <- <-.
  - destruct (Wait _ _ _) as [[got w1]|] eqn:Hw; [|done]. cbn in Hs. injection Hs as <- <- <- <-.
    by eapply wait_sems.
  - pose proof (port_sems _ w (pc_get (g_request_port g))) as Hv; cbv beta in Hv. destruct (GetMsg _ _) as [o w1].
    destruct o; by injection Hs as <- <- <- <-.
  - destruct (dispatch_request r g) as [[r' g1]|]; [|done]. by injection Hs as <- <- <- <-.
  - injection Hs as <- <- <- <-. apply (port_sems _ _ (pc_reply x)).
  - injection Hs as <- <- <- <-. apply (port_sems _ _ (pc_free_port _)).
  - injection Hs as <- <- <- <-. by rewrite (port_sems _ _ (pc_exit t)), signal_sems.
Qed.

Lemma free_bits_sems t g n : forall b w, sems (free_bits t g n b w) = sems w.
Proof.
  induction n as [|n IH]; intros b w; [done|]. cbn [free_bits]. cbv zeta. rewrite IH.
  do 2 case_match; by rewrite ?(port_sems _ _ (pc_free_signal t b)).
Qed.

Lemma launcher_sems pc g w l' g' w' o :
  launcher_step os me buf pc g w = Some (l', g', w', o) -> sems w' = sems w.
Proof.
  intros Hs. pose proof (fun b w => port_sems _ w (pc_free_signal me b)) as Hfree.
  destruct pc; cbn [launcher_step] in Hs.
  - done.
  - pose proof (port_sems _ w (pc_alloc_signal me)) as Hv; cbv beta in Hv. destruct (AllocSignal _ _) as [b w1].
    by injection Hs as <- <- <- <-.
  - pose proof (port_sems _ w (pc_alloc_signal me)) as Hv; cbv beta in Hv. destruct (AllocSignal _ _) as [b w1].
    destruct (_ || _); injection Hs as <- <- <- <-; [|done].
    destruct (0 <=? rb), (0 <=? b); by rewrite ?Hfree.
  - pose proof (port_sems _ w (pc_create (priority cfg))) as Hv; cbv beta in Hv. destruct (CreateTask _ _) as [u w1].
    destruct (u =? 0); injection Hs as <- <- <- <-; by rewrite ?Hfree.
  - destruct (Wait _ _ _) as [[got w1]|] eqn:Hw; [|done]. cbn in Hs. apply wait_sems in Hw.
    destruct (negb _); injection Hs as <- <- <- <-; by rewrite ?Hfree.
  - pose proof (port_sems _ w (pc_alloc_port me false)) as Hv; cbv beta in Hv. destruct (AllocSysPort _ _ _) as [p w1].
    by injection Hs as <- <- <- <-.
  - destruct (_ =? _); [done|]. injection Hs as <- <- <- <-. apply (port_sems _ _ (pc_put _ _)).
  - destruct (WaitPort reply w) as [w1|] eqn:Hw; [|done]. cbn in Hs. apply wait_port_sems in Hw.
    pose proof (port_sems _ w1 (pc_get reply)) as Hv; cbv beta in Hv. destruct (GetMsg reply w1) as [m w2].
    injection Hs as <- <- <- <-. cbn in Hv. by rewrite (port_sems _ _ (pc_free_port reply)), Hv.
  - injection Hs as <- <- <- <-. apply signal_sems.
  - destruct (Wait _ _ _) as [[got w1]|] eqn:Hw; [|done]. cbn [mbind option_bind] in Hs.
    pose proof (free_bits_sems me g 32 0 w1) as Hf.
    generalize dependent (free_bits me g 32 0 w1). intros w2 Hs Hf.
    injection Hs as <- <- <- <-. rewrite Hf. by eapply wait_sems.
Qed.

Lemma own_sems s s' : own_step os me buf s s' -> sems (s_w s') = sems (s_w s).
Proof.
  intros [s1 s2 [s3 e' g' w' a Hs|s3 l' g' w' o Hs]|s1 rv cfg Hpc|s1 rv Hpc]; try done;
    [by eapply engine_sems|by eapply launcher_sems].
Qed.

(** ** Messages *)

(** The message in hand is the first that was not answered. *)
Definition in_service s : Prop :=
  match s_e s with
  | EDispatch x => exists l, s_taken s = l ++ [x] /\ length l = length (s_replied s)
  | EReply x => exists l y, s_taken s = l ++ [y] /\ length l = length (s_replied s) /\
      fst x = fst y /\ op (snd x) = op (snd y) /\ msg (snd x) = msg (snd y)
  | _ => length (s_taken s) = length (s_replied s)
  end.

Lemma in_service_length s : in_service s -> (length (s_replied s) <= length (s_taken s))%nat.
Proof.
  unfold in_service. destruct (s_e s) as [| | | | | | |x|x| | |]; try lia.
  - intros (l & -> & <-). rewrite length_app. lia.
  - intros (l & y & -> & <- & _). rewrite length_app. lia.
Qed.

Lemma engine_service s e' g' w' a :
  inv me B0 s -> engine_step (s_t s) (s_e s) (s_g s) (s_w s) = Some (e', g', w', a) ->
  in_service s -> in_service (after s e' g' w' a).
Proof.
  intros (He & ph & Hph & Hl) Hs. unfold in_service, after. cbn [s_e s_taken s_replied].
  destruct (s_e s) as [| | | | | | |[ad r]|x| | |] eqn:Hpc; cbn in Hs; try done.
  - destruct (AllocSysPort _ _ _) as [p w1]. destruct (p =? 0); injection Hs as <- <- <- <-; cbn;
      by rewrite !app_nil_r.
  - injection Hs as <- <- <- <-. cbn. by rewrite !app_nil_r.
  - injection Hs as <- <- <- <-. cbn. by rewrite !app_nil_r.
  - injection Hs as <- <- <- <-. cbn. rewrite !app_nil_r. by destruct (g_engine_shutdown _).
  - destruct (Wait _ _ _) as [[got w1]|]; [|done]. cbn in Hs. injection Hs as <- <- <- <-. cbn.
    rewrite !app_nil_r. by repeat case_match.
  - destruct (GetMsg _ _) as [[y|] w1]; injection Hs as <- <- <- <-; cbn; rewrite !app_nil_r; [|done].
    intros Hl'. by exists (s_taken s).
  - destruct (dispatch_request r (s_g s)) as [[r' g1]|] eqn:Hd; [|done]. cbn in Hs.
    injection Hs as <- <- <- <-. cbn. rewrite !app_nil_r. intros (l & -> & Hlen).
    assert (Hw : wf_req r).
    { apply (flight_wf me ph s (ad, r) Hph); [by rewrite Hpc|]. unfold flight. rewrite Hpc. left. }
    destruct (serve_request r (s_g s) (eo_wf _ _ He) Hw) as (r2 & g2 & Hd2 & Hsv).
    rewrite Hd in Hd2. injection Hd2 as <- <-. destruct Hsv as (_ & _ & Hop & Hm & _).
    by exists l, (ad, r).
  - injection Hs as <- <- <- <-. cbn. rewrite !app_nil_r. intros (l & y & -> & Hlen & _).
    rewrite !length_app. cbn. lia.
  - injection Hs as <- <- <- <-. cbn. by rewrite !app_nil_r.
  - injection Hs as <- <- <- <-. cbn. by rewrite !app_nil_r.
Qed.

Lemma own_service s s' : inv me B0 s -> own_step os me buf s s' -> in_service s -> in_service s'.
Proof.
  intros Hi Hs. revert Hi. destruct Hs as [s s' Hs|s rv cfg Hpc|s rv Hpc]; try done.
  destruct Hs as [s e' g' w' a Hs|s l' g' w' o Hs]; intros Hi; [by apply engine_service|].
  destruct (launcher_keeps os me buf B0 s l' g' w' o Hi Hs) as (_ & _ & Hd).
  destruct o; [|done]. specialize (Hd (mk_is_Some _ _ eq_refl)). unfold in_service. cbn.
  by destruct (s_e s).
Qed.

(** Only well-formed messages are taken. *)
Definition taken_wf s : Prop := Forall (fun x => wf_req (snd x)) (s_taken s).

Lemma own_wf s s' : inv me B0 s -> own_step os me buf s s' -> taken_wf s -> taken_wf s'.
Proof.
  intros Hi Hs. pose proof (inv_step os me buf B0 s s' Hi (own_step_sys _ _ Hs)) as Hi'. revert Hi'.
  destruct Hs as [s s' Hs|s rv cfg Hpc|s rv Hpc]; try done.
  destruct Hs as [s e' g' w' a Hs|s l' g' w' o Hs]; [|done]. intros (_ & ph & Hph & _) Hwf.
  unfold taken_wf. cbn. apply Forall_app. split; [done|]. destruct a as [|x|x]; [done| |done].
  apply Forall_singleton.
  assert (e' = EDispatch x) as ->.
  { destruct (s_e s) as [| | | | | | |[ad r]|y| | |]; cbn in Hs; try done;
      repeat (case_match || destruct (Wait _ _ _) as [[??]|] || destruct (dispatch_request _ _) as [[??]|]);
      cbn in Hs; try done; simplify_eq; try done. }
  apply (flight_wf _ _ _ _ Hph); [done|]. left.
Qed.

(** Where the messages go: [d] are lost, [a] is the launcher's. *)
Lemma own_messages s s' :
  inv me B0 s -> own_step os me buf s s' ->
  exists d a, s_lost s' = s_lost s ++ d /\
    s_taken s ++ requests s ++ a = s_taken s' ++ d ++ requests s' /\
    Forall (fun x => op (snd x) = NETSTACK_OP_SHUTDOWN) a /\
    (d = [] \/ (requests s' = [] /\ a = [] /\ s_e s = EFree)) /\
    (length (s_taken s) <= length (s_taken s'))%nat.
Proof.
  intros Hi Hs. revert Hi. destruct Hs as [s s' Hs|s rv cfg Hpc|s rv Hpc].
  - destruct Hs as [s e' g' w' a Hs|s l' g' w' o Hs]; intros Hi.
    + pose proof (engine_requests me B0 s e' g' w' a Hi Hs) as Hr.
      exists (dropped s), []. split; [done|]. split; [cbn [s_taken after]; by rewrite Hr, app_nil_r, <- !app_assoc|].
      split; [done|]. split.
      * unfold dropped. destruct (s_e s) eqn:Hpc; auto. right. split_and!; try done.
        cbn in Hs. by injection Hs as <- <- <- <-.
      * cbn. rewrite length_app. lia.
    + pose proof (launcher_requests os me buf B0 s l' g' w' o Hi Hs) as Hr.
      exists [], (asked os buf (s_l s)). unfold launched in Hr. rewrite Hr. cbn. rewrite app_nil_r.
      split_and!; try done; [|by left]. destruct (s_l s); cbn; try done. by apply Forall_singleton.
  - intros _. exists [], []. cbn. rewrite !app_nil_r. unfold requests, start_call. cbn.
    split_and!; try done; [|by left]. by destruct (negb _).
  - intros _. exists [], []. cbn. rewrite !app_nil_r. split_and!; try done. by left.
Qed.

Lemma own_replies s s' :
  own_step os me buf s s' ->
  s_replied s' = s_replied s ++ new_replies s s' /\
  (new_replies s s' = [] \/ exists x, s_e s = EReply x /\ new_replies s s' = [x]).
Proof.
  intros Hs. unfold new_replies.
  assert (Hsame : s_replied s' = s_replied s -> s_replied s' = s_replied s ++ drop (length (s_replied s)) (s_replied s') /\
    (drop (length (s_replied s)) (s_replied s') = [] \/
     exists x, s_e s = EReply x /\ drop (length (s_replied s)) (s_replied s') = [x])).
  { intros ->. rewrite drop_all, app_nil_r. auto. }
  revert Hsame. destruct Hs as [s s' Hs|s rv cfg Hpc|s rv Hpc]; intros Hsame; [|by apply Hsame..].
  destruct Hs as [s e' g' w' a Hs|s l' g' w' o Hs]; [|by apply Hsame].
  cbn. rewrite drop_app_length. split; [done|]. destruct a as [|x|x]; [by left..|].
  right. exists x. split; [|done].
  destruct (s_e s) as [| | | | | | |[ad r]|y| | |]; cbn in Hs; try done;
    repeat (case_match || destruct (Wait _ _ _) as [[??]|] || destruct (dispatch_request _ _) as [[??]|]);
    cbn in Hs; try done; simplify_eq; try done.
Qed.

(** The reply in hand goes to the launcher's port or to a client. *)
Lemma reply_owner s x :
  inv me B0 s -> s_e s = EReply x -> op (snd x) = NETSTACK_OP_SHUTDOWN ->
  fst (k_owner (vw s) (mn_ReplyPort (msg (snd x)))) = me.
Proof.
  intros (He & ph & Hph & Hl) Hpc Hop.
  assert (Hf : flight s = x :: requests s) by (unfold flight; by rewrite Hpc).
  assert (Hc : ~ clients me s).
  { unfold clients. rewrite Hf. intros Hc. apply Forall_cons in Hc as [(_ & Hno & _) _]. done. }
  phases Hph Hpc.
  destruct Hph as (_ & _ & _ & l1 & y & l2 & Hfl & Hst & Hall & _).
  destruct (launch_asker _ _ _ _ Hl _ eq_refl) as [b (_ & _ & Hb)]. rewrite Hf in Hfl.
  destruct l1 as [|z l1]; injection Hfl as -> _; [destruct Hst as (_ & _ & ->); by rewrite Hb|].
  inversion Hall as [|? ? (_ & Hno & _)]; subst. done.
Qed.

(** A reply belongs to the message at its place. *)
Lemma sequential_reply s i x :
  sequential s -> s_replied s !! i = Some x ->
  exists y, s_taken s !! i = Some y /\ fst x = fst y.
Proof.
  destruct x as [a r]. intros (ms & rs & g0 & _ & Hlen & _ & Ht & Hz) Hx.
  assert (Hi : zip (fst <$> ms) rs !! i = Some (a, r)) by (rewrite Hz; by apply lookup_app_l_Some).
  apply lookup_zip_Some in Hi as [Hm _]. rewrite list_lookup_fmap in Hm.
  destruct (ms !! i) as [y|] eqn:Hy; [|done]. cbn in Hm. injection Hm as Hm.
  exists y. split; [|done]. rewrite Ht. by apply lookup_app_l_Some.
Qed.
End frame.
