(* ===== verification/ClientInv.v ===== *)
(** * What the clients keep

    The invariant of any number of tasks inside [netstack_ipc_call] together with
    the engine and its launcher: who is in which section, whose the reply slots
    are, and where the message of each waiting task is. *)

From S2P Require Import Prelude Ipc FdTable FdSpec FdRefine Engine Tasks EngineTasks EngineInv.
From S2P Require Import EngineMoves EngineLaunch EngineProc OsalLock Client ClientProps.
From S2P Require Import ClientTasks ClientFrame.

(** ** Where a task is *)

(** Between obtaining and releasing [g_engine_port_sem], and [g_reply_sem]. *)
Definition in_eng (pc : kpc) : bool :=
  match pc with KEngTest | KEngFind | KEngRel _ => true | _ => false end.
Definition in_rep (pc : kpc) : bool :=
  match pc with KRepScan _ | KRepAlloc _ _ | KRepRel _ _ => true | _ => false end.

Definition eng_op (pc : kpc) : semop :=
  match pc with KEngObt => Take | KEngRel _ => Drop | _ => Keep end.
Definition rep_op (pc : kpc) : semop :=
  match pc with KRepObt _ => Take | KRepRel _ _ => Drop | _ => Keep end.

(** The port at which a task awaits its reply. *)
Definition wait_at (pc : kpc) : option Z :=
  match pc with KWait p | KGet p => Some p | _ => None end.

Definition calling (pc : kpc) : bool := match pc with KIdle _ => false | _ => true end.

(** Task [t] owns reply port [p]. *)
Definition slot (c : client) (t p : Z) : Prop := mk_reply_slot t p ∈ g_reply_slots c.

(** What a task knows where it is; the first initialisations are over. *)
Definition pc_ok (c : client) (t : Z) (pc : kpc) : Prop :=
  match pc with
  | KEngInit | KEngSet | KRepInit _ | KRepSet _ => False
  | KRepAlloc _ j =>
    0 <= j /\ g_reply_slots c !! Z.to_nat j = Some (mk_reply_slot 0 0) /\ forall p, ~ slot c t p
  | KRepRel _ p => p <> 0 -> slot c t p
  | KPut _ p | KWait p | KGet p => slot c t p
  | _ => True
  end.

Definition both_init (c : client) : Prop :=
  g_engine_port_sem_init c = true /\ g_reply_sem_init c = true.

(** ** What a step of a task does *)

(** Task [t] goes on from [pc] without touching a message; makes a slot; or gets its
    reply. *)
Inductive effect (t : Z) (c : client) (v : kview) (pc : kpc) : kpc -> client -> kview -> Prop :=
  | ef_plain pc' c' v' :
      g_reply_slots c' = g_reply_slots c -> k_queue v' = k_queue v ->
      k_ports v' = k_ports v -> k_owner v' = k_owner v ->
      wait_at pc' = wait_at pc -> pc_ok c' t pc' ->
      (forall p, pc' = KGet p -> k_queue v p <> []) ->
      effect t c v pc pc' c' v'
  | ef_slot e j p b :
      pc = KRepAlloc e j -> p <> 0 -> p ∉ k_ports v ->
      effect t c v pc (KRepRel e p)
        (set_slots (<[Z.to_nat j := mk_reply_slot t p]> (g_reply_slots c)) c) (kv_open t false p b v)
  | ef_got p y q :
      pc = KGet p -> k_queue v p = y :: q ->
      effect t c v pc (KIdle (Some (0, snd y))) c (kv_queue p q v).

Section slots.
Context {W : Type} `{TaskLaws W} (me : Z).
Implicit Types (s : sys W) (c : client).

Record slots_ok c s : Prop := {
  so_len : length (g_reply_slots c) = 16%nat;
  so_slot : forall t p, slot c t p -> (t = 0 /\ p = 0) \/
    (caller me t s /\ p <> 0 /\ p ∈ k_ports (view (s_w s)) /\ fst (k_owner (view (s_w s)) p) = t);
  so_once : forall i j x y, g_reply_slots c !! i = Some x -> g_reply_slots c !! j = Some y ->
    owner x = owner y -> owner x <> 0 -> i = j
}.

Lemma slot_owner c s t p :
  slots_ok c s -> slot c t p -> t <> 0 ->
  caller me t s /\ p <> 0 /\ p ∈ k_ports (view (s_w s)) /\ fst (k_owner (view (s_w s)) p) = t.
Proof. intros Hs Hp Ht. destruct (so_slot _ _ Hs t p Hp) as [[? _]|?]; done. Qed.

(** A task has one port, and no two tasks have the same. *)
Lemma slot_port_unique c s t p p' : slots_ok c s -> t <> 0 -> slot c t p -> slot c t p' -> p = p'.
Proof.
  intros Hs Ht [i Hi]%list_elem_of_lookup [j Hj]%list_elem_of_lookup.
  assert (i = j) as -> by (by eapply (so_once _ _ Hs)). congruence.
Qed.

Lemma slot_task_unique c s t t' p :
  slots_ok c s -> t <> 0 -> t' <> 0 -> slot c t p -> slot c t' p -> t = t'.
Proof.
  intros Hs Ht Ht' H1' H2'. destruct (slot_owner c s t p Hs H1' Ht) as (_ & _ & _ & <-).
  by destruct (slot_owner c s t' p Hs H2' Ht') as (_ & _ & _ & <-).
Qed.

Lemma scan_slots o c :
  length (g_reply_slots c) = 16%nat ->
  scan o c = Some (match slot_of o (g_reply_slots c) with Some j => Z.of_nat j | None => -1 end).
Proof. intros Hl. unfold scan. by rewrite (find_owner_start o c tt Hl). Qed.
Lemma find_slot_ok t e c s :
  slots_ok c s -> t <> 0 ->
  exists pc, find_slot t e c = Some pc /\ pc_ok c t pc /\
    ((exists p, pc = KRepRel e p) \/ exists j, pc = KRepAlloc e j).
Proof.
  intros Hs Ht. pose proof (so_len _ _ Hs) as Hl. unfold find_slot. rewrite !scan_slots by done.
  cbn [mbind option_bind]. destruct (slot_of t _) as [i|] eqn:Hi.
  - rewrite (proj2 (Z.leb_le 0 (Z.of_nat i))) by lia.
    destruct (slot_of_Some _ _ _ Hi) as ([o p] & Hx & Ho). cbn in Ho. subst o.
    rewrite lookupZ_nat, Nat2Z.id, Hx by lia. cbn. eexists. split; [done|]. split; [|eauto].
    intros _. by eapply list_elem_of_lookup_2.
  - cbn [Z.leb]. assert (Hno : forall p, ~ slot c t p).
    { intros p [k Hk]%list_elem_of_lookup. by apply (slot_of_None _ _ _ _ Hi Hk). }
    destruct (slot_of 0 _) as [j|] eqn:Hj; cbn [mbind option_bind].
    + rewrite (proj2 (Z.leb_le 0 (Z.of_nat j))) by lia. eexists. split; [done|]. split; [|eauto].
      destruct (slot_of_Some _ _ _ Hj) as ([o p] & Hx & Ho). cbn in Ho. subst o.
      destruct (so_slot _ _ Hs 0 p) as [[_ ->]|((? & _) & _)]; [by eapply list_elem_of_lookup_2| |done].
      cbn. rewrite Nat2Z.id. split_and!; [lia|done|done].
    + cbn. eexists. split; [done|]. split; [intros ?; congruence|eauto].
Qed.
End slots.

Section step.
Context {W : Type} `{TaskLaws W, !Sems W, !SemView W, !SemLaws W, !SemFrame W}.
Context (os : sdk) (me : Z).
Implicit Types (s : sys W) (c : client) (w : W).

(** What a step needs: the slots, and the semaphores the task releases. *)
Definition may_step t c pc s : Prop :=
  slots_ok me c s /\ both_init c /\ caller me t s /\ pc_ok c t pc /\
  (forall p, pc = KGet p -> k_queue (view (s_w s)) p <> []).

Lemma step_defined t x pc c s :
  may_step t c pc s -> ipc_step os t x pc c (s_w s) <> KUndefined.
Proof.
  intros (Hs & Hi & (Ht & _) & Hpc & Hq). destruct pc; cbn [ipc_step]; try done.
  - unfold obtain. by destruct (ObtainSemaphore _ _ _).
  - unfold obtain. by destruct (ObtainSemaphore _ _ _).
  - destruct (find_slot_ok me t e c s Hs Ht) as (pc & -> & _). done.
  - destruct (AllocSysPort _ _ _) as [p w1]. destruct (p =? 0); [done|].
    destruct Hpc as (Hj & Hl & _). apply lookup_lt_Some in Hl. rewrite storeZ_run by lia. done.
  - by destruct (WaitPort p (s_w s)).
  - pose proof (get_law p (s_w s)) as Hg. destruct (GetMsg p (s_w s)) as [o w1]. destruct Hg as [-> _].
    specialize (Hq p eq_refl). by destruct (k_queue _ p).
Qed.

Lemma step_flags t x pc c w pc' c' w' :
  ipc_step os t x pc c w = KGo pc' c' w' -> both_init c -> both_init c'.
Proof.
  intros Hs [H1' H2']. destruct pc; cbn [ipc_step] in Hs; unfold obtain in Hs;
    repeat (case_match; try done); simplify_eq; done.
Qed.

(** A step of a task that does not post, and what it does to the two semaphores. *)
Record stepped t c s pc pc' c' w' : Prop := {
  sd_effect : effect t c (view (s_w s)) pc pc' c' (view w');
  sd_framed : framed t (view (s_w s)) (view w');
  sd_eng : (if in_eng pc' then 1%nat else O) = apply_op (eng_op pc) (if in_eng pc then 1%nat else O);
  sd_rep : (if in_rep pc' then 1%nat else O) = apply_op (rep_op pc) (if in_rep pc then 1%nat else O);
  sd_sems : exclusive (sems (s_w s) g_engine_port_sem) -> exclusive (sems (s_w s) g_reply_sem) ->
    (in_eng pc = true -> 0 < nest (sems (s_w s) g_engine_port_sem) t)%nat ->
    (in_rep pc = true -> 0 < nest (sems (s_w s) g_reply_sem) t)%nat ->
    sem_did t (eng_op pc) (sems (s_w s) g_engine_port_sem) (sems w' g_engine_port_sem) /\
    sem_did t (rep_op pc) (sems (s_w s) g_reply_sem) (sems w' g_reply_sem)
}.

Lemma stepped_local t c s pc pc' c' :
  g_reply_slots c' = g_reply_slots c -> wait_at pc' = wait_at pc -> pc_ok c' t pc' ->
  (forall p, pc' <> KGet p) -> eng_op pc = Keep -> rep_op pc = Keep ->
  in_eng pc' = in_eng pc -> in_rep pc' = in_rep pc ->
  stepped t c s pc pc' c' (s_w s).
Proof.
  intros Hsl Hw Hok Hg He Hr Hie Hir. split; [|done|by rewrite He, Hie|by rewrite Hr, Hir|].
  - apply ef_plain; try done. intros p Hp. by destruct (Hg p).
  - rewrite He, Hr. intros; split; by apply did_keep.
Qed.

Lemma sem_ne : g_engine_port_sem <> g_reply_sem.
Proof. done. Qed.

(** The two sections are entered and left by these. *)
Lemma stepped_sem t c s pc pc' sm o w' :
  (forall p, pc' <> KGet p) -> wait_at pc' = wait_at pc -> pc_ok c t pc' ->
  view w' = view (s_w s) -> (forall sm', sm' <> sm -> sems w' sm' = sems (s_w s) sm') ->
  (exclusive (sems (s_w s) sm) ->
    (o = Drop -> (0 < nest (sems (s_w s) sm) t)%nat) -> sem_did t o (sems (s_w s) sm) (sems w' sm)) ->
  (if in_eng pc' then 1%nat else O) = apply_op (eng_op pc) (if in_eng pc then 1%nat else O) ->
  (if in_rep pc' then 1%nat else O) = apply_op (rep_op pc) (if in_rep pc then 1%nat else O) ->
  (sm = g_engine_port_sem /\ eng_op pc = o /\ rep_op pc = Keep /\ (o = Drop -> in_eng pc = true)) \/
  (sm = g_reply_sem /\ rep_op pc = o /\ eng_op pc = Keep /\ (o = Drop -> in_rep pc = true)) ->
  stepped t c s pc pc' c w'.
Proof.
  intros Hg Hwt Hok Hv Hother Hdid Hie Hir Hsm. split; [|by rewrite Hv|done|done|].
  - apply ef_plain; rewrite ?Hv; try done. intros p Hp. by destruct (Hg p).
  - intros Hx1 Hx2 Hn1 Hn2. pose proof sem_ne.
    destruct Hsm as [(-> & -> & -> & Hd)|(-> & -> & -> & Hd)].
    + rewrite (Hother g_reply_sem) by congruence. split; [|by apply did_keep]. apply Hdid; auto.
    + rewrite (Hother g_engine_port_sem) by congruence.
      split; [by apply did_keep|]. apply Hdid; auto.
Qed.

Lemma stepped_obtain t c s pc pc' sm w' :
  ObtainSemaphore t sm (s_w s) = Some w' ->
  (pc = KEngObt /\ pc' = KEngTest /\ sm = g_engine_port_sem) \/
  (exists e, pc = KRepObt e /\ pc' = KRepScan e /\ sm = g_reply_sem) ->
  stepped t c s pc pc' c w'.
Proof.
  intros Ho Hcase. destruct (sem_obtain_law _ _ _ _ Ho) as (st & Hst & Hsems & Hv).
  apply (stepped_sem _ _ _ _ _ sm Take); try done;
    try (by destruct Hcase as [(-> & -> & ->)|(e & -> & -> & ->)]).
  - intros sm' Hn. rewrite Hsems. by fn_simpl.
  - intros Hx _. rewrite Hsems. fn_simpl. by apply did_take.
  - destruct Hcase as [(-> & -> & ->)|(e & -> & -> & ->)]; [left|right]; by split_and!.
Qed.

Lemma stepped_release t c s pc pc' sm :
  (forall p, pc' <> KGet p) -> wait_at pc' = None -> pc_ok c t pc' ->
  in_eng pc' = false -> in_rep pc' = false ->
  (exists e, pc = KEngRel e /\ sm = g_engine_port_sem) \/
  (exists e p, pc = KRepRel e p /\ sm = g_reply_sem) ->
  exclusive (sems (s_w s) sm) -> (0 < nest (sems (s_w s) sm) t)%nat ->
  stepped t c s pc pc' c (ReleaseSemaphore t sm (s_w s)).
Proof.
  intros Hg Hwt Hok Hie Hir Hcase Hx Hn.
  destruct (did_drop t (sems (s_w s) sm) Hx Hn) as (st & Hst & Hdid).
  destruct (sem_release_law _ _ _ _ Hst) as [Hsems Hv].
  apply (stepped_sem _ _ _ _ _ sm Drop); rewrite ?Hie, ?Hir, ?Hwt; try done;
    try (by destruct Hcase as [(e & -> & ->)|(e & p & -> & ->)]).
  - intros sm' Hn'. rewrite Hsems. by fn_simpl.
  - intros _ _. rewrite Hsems. by fn_simpl.
  - destruct Hcase as [(e & -> & ->)|(e & p & -> & ->)]; [left|right]; by split_and!.
Qed.

Lemma step_stepped t x pc c s pc' c' w' :
  may_step t c pc s -> putting pc = false ->
  exclusive (sems (s_w s) g_engine_port_sem) -> exclusive (sems (s_w s) g_reply_sem) ->
  (in_eng pc = true -> 0 < nest (sems (s_w s) g_engine_port_sem) t)%nat ->
  (in_rep pc = true -> 0 < nest (sems (s_w s) g_reply_sem) t)%nat ->
  ipc_step os t x pc c (s_w s) = KGo pc' c' w' -> stepped t c s pc pc' c' w'.
Proof.
  intros (Hs & [Hi1 Hi2] & Hcl & Hpc & Hq) Hput Hx1 Hx2 Hn1 Hn2 Hgo. pose proof Hcl as [Ht _].
  destruct pc; cbn [ipc_step] in Hgo; try done.
  - rewrite Hi1 in Hgo. simplify_eq. by apply stepped_local.
  - unfold obtain in Hgo. destruct (ObtainSemaphore _ _ _) as [w1|] eqn:Ho; simplify_eq.
    apply (stepped_obtain _ _ _ _ _ _ _ Ho). by left.
  - destruct (_ =? 0); simplify_eq; by apply stepped_local.
  - simplify_eq. by apply stepped_local.
  - simplify_eq. apply stepped_release; eauto; by case_match.
  - rewrite Hi2 in Hgo. simplify_eq. by apply stepped_local.
  - unfold obtain in Hgo. destruct (ObtainSemaphore _ _ _) as [w1|] eqn:Ho; simplify_eq.
    apply (stepped_obtain _ _ _ _ _ _ _ Ho). right. eauto.
  - destruct (find_slot_ok me t e c s Hs Ht) as (pc & Hf & Hok & Hshape). rewrite Hf in Hgo. simplify_eq.
    destruct Hshape as [[p ->]|[j ->]]; by apply stepped_local.
  - pose proof (alloc_port_law t false (s_w s)) as Hv.
    pose proof (port_sems _ (s_w s) (pc_alloc_port t false)) as Hse; cbv beta in Hse.
    destruct (AllocSysPort _ _ _) as [p w1]. cbn [snd] in Hse. destruct Hpc as (Hj & Hl & Hno).
    destruct (Z.eqb_spec p 0) as [->|Hp0].
    + simplify_eq. destruct Hv as [[_ Hv]|[? _]]; [|done]. split; rewrite ?Hv, ?Hse; try done.
      apply ef_plain; try done. intros ?. congruence.
    + pose proof (lookup_lt_Some _ _ _ Hl) as Hlt. rewrite storeZ_run in Hgo by lia. simplify_eq.
      destruct Hv as [[? _]|(_ & Hfr & b & _ & Hv)]; [done|]. split; rewrite ?Hv, ?Hse; try done.
      * by eapply ef_slot.
      * by apply framed_open.
  - simplify_eq. apply stepped_release; eauto 6; destruct (Z.eqb_spec p 0); try done. by apply Hpc.
  - pose proof (wait_port_blocked p (s_w s)) as Hb. destruct (WaitPort p (s_w s)) as [w1|] eqn:Hw; [|done].
    simplify_eq. pose proof (wait_port_sems _ _ _ Hw) as Hse. apply wait_port_law in Hw.
    destruct (slot_owner me _ s t p Hs Hpc Ht) as (_ & _ & _ & Ho). rewrite Ho in Hw.
    assert (Hne : k_queue (view (s_w s)) p <> []) by (intros He; by apply Hb in He).
    split; rewrite ?Hse; try done.
    + apply ef_plain; try done; [by destruct Hw as [-> | ->]..|]. by intros q [= <-].
    + destruct Hw as [-> | ->]; [done|apply framed_take].
  - pose proof (get_law p (s_w s)) as Hg.
    pose proof (port_sems _ (s_w s) (pc_get p)) as Hse; cbv beta in Hse.
    destruct (GetMsg p (s_w s)) as [o w1]. cbn [snd] in Hse. destruct Hg as [-> Hv].
    destruct (slot_owner me _ s t p Hs Hpc Ht) as (_ & _ & _ & Ho).
    destruct (k_queue (view (s_w s)) p) as [|y q] eqn:Hqp; [by destruct (Hq p)|]. cbn in Hgo, Hv.
    simplify_eq. split; rewrite ?Hse; try done.
    + rewrite Hv. by apply ef_got.
    + rewrite Hv. replace q with (tail (k_queue (view (s_w s)) p)) by (by rewrite Hqp).
      by apply framed_pop.
Qed.
End step.
