(* ===== verification/ClientKeep.v ===== *)
(** * The invariant of the clients is kept

    Every action of the clients, the engine and the launcher keeps it: a step of a
    task in its call, a new call, a request posted, a step of the engine or the
    launcher. *)

From S2P Require Import Prelude Ipc FdTable FdSpec FdRefine Engine Tasks EngineTasks EngineInv.
From S2P Require Import EngineMoves EngineLaunch EngineProc OsalLock Client.
From S2P Require Import ClientTasks ClientFrame ClientInv.

(** A slot made in the free entry [j]. *)
Lemma slot_insert c j t p :
  g_reply_slots c !! j = Some (mk_reply_slot 0 0) ->
  let c' := set_slots (<[j := mk_reply_slot t p]> (g_reply_slots c)) c in
  slot c' t p /\ (forall u q, slot c u q -> u <> 0 -> slot c' u q) /\
  (forall u q, slot c' u q -> (u = t /\ q = p) \/ slot c u q).
Proof.
  intros Hj. cbv zeta. unfold slot. cbn [set_slots g_reply_slots].
  pose proof (lookup_lt_Some _ _ _ Hj) as Hlt. split_and!.
  - apply list_elem_of_lookup. exists j. by apply list_lookup_insert_eq.
  - intros u q [i Hi]%list_elem_of_lookup Hu. apply list_elem_of_lookup. exists i.
    rewrite list_lookup_insert_ne; [done|]. intros ->. rewrite Hj in Hi. by injection Hi as <- _.
  - intros u q [i Hi]%list_elem_of_lookup. destruct (decide (j = i)) as [<-|Hne].
    + rewrite list_lookup_insert_eq in Hi by done. injection Hi as <- <-. by left.
    + rewrite list_lookup_insert_ne in Hi by done. right. by eapply list_elem_of_lookup_2.
Qed.

Section invariant.
Context {W : Type} `{TaskLaws W, !Sems W, !SemView W, !SemLaws W, !SemFrame W}.
Context (os : sdk) (me buf : Z) (B0 : gset Z).
Implicit Types (s : sys W) (k : ksys W) (c : client).

Abbreviation vw s := (view (s_w s)).
Abbreviation kq k := (k_queue (view (s_w (k_s k)))).

(** The messages in the order of service: taken, then queued. *)
Definition line s : list message := s_taken s ++ requests s.

(** ** The parts of the invariant *)

Record sys_ok s : Prop := {
  sy_inv : inv me B0 s;
  sy_seq : sequential s;
  sy_service : in_service s;
  sy_wf : taken_wf s
}.

Definition counts (sm : sem) (inside : Z -> bool) : Prop :=
  exclusive sm /\ forall t, nest sm t = if inside t then 1%nat else O.

Record locks_ok k : Prop := {
  lo_init : both_init (k_c k);
  lo_eng : counts (sems (s_w (k_s k)) g_engine_port_sem) (fun t => in_eng (k_pc k t));
  lo_rep : counts (sems (s_w (k_s k)) g_reply_sem) (fun t => in_rep (k_pc k t))
}.

Record tasks_ok k : Prop := {
  to_slots : slots_ok me (k_c k) (k_s k);
  to_call : forall t, calling (k_pc k t) = true ->
    caller me t (k_s k) /\ wf_req (snd (k_arg k t)) /\ op (snd (k_arg k t)) <> NETSTACK_OP_SHUTDOWN /\
    (k_from k t <= length (s_taken (k_s k)))%nat;
  to_pc : forall t, pc_ok (k_c k) t (k_pc k t)
}.

(** The request a task posts from port [p]. *)
Definition request_of k (t p : Z) : message := stamped os p (k_arg k t).

(** The message of a task that waits is at its place, answered or not; or it was
    queued when the engine freed its port. *)
Definition awaits k (t p : Z) : Prop :=
  (line (k_s k) !! k_pos k t = Some (request_of k t p) /\
   kq k p = option_list (s_replied (k_s k) !! k_pos k t) /\
   k_pos k t ∉ d_pos <$> k_log k /\ (k_from k t <= k_pos k t)%nat) \/
  (request_of k t p ∈ s_lost (k_s k) /\ kq k p = [] /\
   line (k_s k) !! k_pos k t <> Some (request_of k t p)).

Definition done_ok s (d : kdone) : Prop :=
  (d_from d <= d_pos d < d_to d)%nat /\ (d_to d <= length (s_replied s))%nat /\
  s_taken s !! d_pos d = Some (d_sent d) /\
  s_replied s !! d_pos d = Some (fst (d_sent d), d_reply d).

Record messages_ok k : Prop := {
  me_quiet : forall t p, t <> 0 -> slot (k_c k) t p -> wait_at (k_pc k t) = None -> kq k p = [];
  me_wait : forall t p, wait_at (k_pc k t) = Some p -> awaits k t p;
  me_get : forall t p, k_pc k t = KGet p -> kq k p <> [];
  (** who asked for what is not answered yet *)
  me_pending : forall i y, (length (s_replied (k_s k)) <= i)%nat -> line (k_s k) !! i = Some y ->
    op (snd y) = NETSTACK_OP_SHUTDOWN \/
    exists t p, wait_at (k_pc k t) = Some p /\ k_pos k t = i /\ y = request_of k t p;
  me_log : NoDup (d_pos <$> k_log k) /\ Forall (done_ok (k_s k)) (k_log k)
}.

Record kinv k : Prop := {
  ki_sys : sys_ok (k_s k);
  ki_locks : locks_ok k;
  ki_tasks : tasks_ok k;
  ki_messages : messages_ok k
}.

(** Without the locks. *)
Record kcore k : Prop := {
  kc_sys : sys_ok (k_s k);
  kc_tasks : tasks_ok k;
  kc_messages : messages_ok k
}.

Lemma kinv_core k : kinv k -> kcore k.
Proof. by intros [? _ ? ?]. Qed.

Lemma calling_wait pc p : wait_at pc = Some p -> calling pc = true.
Proof. by destruct pc. Qed.

Lemma calling_eng pc : in_eng pc = true -> calling pc = true.
Proof. by destruct pc. Qed.
Lemma calling_rep pc : in_rep pc = true -> calling pc = true.
Proof. by destruct pc. Qed.

(** A waiting task has its slot. *)
Lemma wait_slot k t p :
  tasks_ok k -> wait_at (k_pc k t) = Some p ->
  slot (k_c k) t p /\ caller me t (k_s k) /\ p <> 0 /\ p ∈ k_ports (vw (k_s k)) /\
  fst (k_owner (vw (k_s k)) p) = t.
Proof.
  intros Ht Hw. destruct (to_call _ Ht t) as (Hc & _); [by eapply calling_wait|].
  assert (Hs : slot (k_c k) t p).
  { pose proof (to_pc _ Ht t) as Hp. by destruct (k_pc k t); simplify_eq/=. }
  split; [done|]. split; [done|]. pose proof Hc as [Ht0 _].
  by destruct (slot_owner me _ _ t p (to_slots _ Ht) Hs Ht0) as (_ & ?).
Qed.

(** Tasks that wait at one place of the line are one. *)
Lemma place_unique k t u p q i :
  tasks_ok k -> wait_at (k_pc k t) = Some p -> wait_at (k_pc k u) = Some q ->
  line (k_s k) !! i = Some (request_of k t p) -> line (k_s k) !! i = Some (request_of k u q) ->
  t = u /\ p = q.
Proof.
  intros Ht Hp Hq H1' H2'. assert (Hm : request_of k t p = request_of k u q) by congruence.
  apply (f_equal (fun x => mn_ReplyPort (msg (snd x)))) in Hm. cbn in Hm. subst q.
  destruct (wait_slot k t p Ht Hp) as (_ & _ & _ & _ & <-).
  by destruct (wait_slot k u p Ht Hq) as (_ & _ & _ & _ & <-).
Qed.

(** ** Locks *)

Lemma counts_step t o sm sm' inside inside' :
  counts sm inside -> sem_did t o sm sm' -> (forall u, u <> t -> inside' u = inside u) ->
  (if inside' t then 1%nat else O) = apply_op o (if inside t then 1%nat else O) ->
  counts sm' inside'.
Proof.
  intros [_ Hn] (Hx & Ht & Hu) Hin Hop. split; [done|]. intros u.
  destruct (decide (u = t)) as [->|Hne]; [by rewrite Ht, Hn, Hop|by rewrite Hu, Hn, Hin].
Qed.

Lemma counts_same sm inside inside' :
  counts sm inside -> (forall u, inside' u = inside u) -> counts sm inside'.
Proof. intros [Hx Hn] Hin. split; [done|]. intros u. by rewrite Hn, Hin. Qed.

Lemma counts_inside sm inside t : counts sm inside -> inside t = true -> (0 < nest sm t)%nat.
Proof. intros [_ Hn] Ht. rewrite Hn, Ht. lia. Qed.

(** At most one task is in a section. *)
Lemma counts_alone sm inside t u : counts sm inside -> inside t = true -> inside u = true -> t = u.
Proof. intros Hc Ht Hu. eapply nest_one; by eapply counts_inside. Qed.

(** ** Tasks *)

Lemma slots_frame c c' s s' :
  slots_ok me c s -> g_reply_slots c' = g_reply_slots c ->
  (forall t, caller me t s -> caller me t s') ->
  (forall p, p ∈ k_ports (vw s) -> caller me (fst (k_owner (vw s) p)) s -> p <> 0 ->
     p ∈ k_ports (vw s') /\ k_owner (vw s') p = k_owner (vw s) p) ->
  slots_ok me c' s'.
Proof.
  intros [Hl Hs Ho] Heq Hcl Hp. split; rewrite ?Heq; try done.
  intros t p Htp. unfold slot in *. rewrite Heq in Htp.
  destruct (Hs t p Htp) as [?|(Hc & Hp0 & Hpp & Hpo)]; [by left|]. right.
  destruct (Hp p Hpp) as [? Heqo]; [by rewrite Hpo|done|]. rewrite Heqo. auto.
Qed.

(** Only the slots matter to what a task knows. *)
Lemma pc_ok_slots c c' t pc : g_reply_slots c' = g_reply_slots c -> pc_ok c t pc -> pc_ok c' t pc.
Proof. intros Heq. unfold pc_ok, slot. by rewrite Heq. Qed.

Lemma caller_outside t s : caller me t s -> outside me t s /\ t <> 0 /\ t ∈ k_tasks (vw s).
Proof. intros (? & ? & ? & ?). by split_and!. Qed.

Lemma slots_insert c s w j t p b :
  slots_ok me c s -> caller me t s -> p <> 0 -> p ∉ k_ports (vw s) ->
  g_reply_slots c !! j = Some (mk_reply_slot 0 0) -> (forall q, ~ slot c t q) ->
  view w = kv_open t false p b (vw s) ->
  slots_ok me (set_slots (<[j := mk_reply_slot t p]> (g_reply_slots c)) c) (set_world w s).
Proof.
  intros [Hl Hs Ho] Hc Hp0 Hfr Hj Hno Hv.
  destruct (slot_insert c j t p Hj) as (_ & _ & Hinv). pose proof (lookup_lt_Some _ _ _ Hj) as Hlt.
  assert (Hcl : forall u, caller me u s -> caller me u (set_world w s)).
  { intros u. unfold caller. cbn. by rewrite Hv. }
  split.
  - cbn. by rewrite length_insert.
  - intros u q [[-> ->]|Hq]%Hinv; cbn; rewrite Hv; kv.
    + right. split_and!; [by apply Hcl|done|set_solver|done].
    + destruct (Hs u q Hq) as [?|(Hcu & Hq0 & Hqp & Hqo)]; [by left|right].
      assert (p <> q) by (by intros ->). kv. split_and!; [by apply Hcl|done|set_solver|done].
  - assert (Hnew : forall i x, g_reply_slots c !! i = Some x -> owner x <> t).
    { intros i [o q] Hi Heq. cbn in Heq. subst o. apply (Hno q). by eapply list_elem_of_lookup_2. }
    intros i i' x y Hx Hy Heq Hn. cbn in Hx, Hy.
    destruct (decide (j = i)) as [<-|Hi], (decide (j = i')) as [<-|Hi']; [done|..];
      rewrite ?list_lookup_insert_eq in Hx by done; rewrite ?list_lookup_insert_eq in Hy by done;
      rewrite ?list_lookup_insert_ne in Hx by done; rewrite ?list_lookup_insert_ne in Hy by done;
      simplify_eq; cbn in *.
    + by destruct (Hnew _ _ Hy).
    + by destruct (Hnew _ _ Hx).
    + by eapply Ho.
Qed.

(** The state after a step of task [t]. *)
Definition moved k t pc c w log : ksys W :=
  mk_ksys (set_world w (k_s k)) c (<[t := pc]> (k_pc k)) (k_arg k) (k_from k) (k_pos k) log.

Lemma caller_framed t u s w : framed t (vw s) (view w) -> caller me u s -> caller me u (set_world w s).
Proof. intros Hf. unfold caller. cbn. by rewrite (fr_tasks _ _ _ Hf). Qed.

Lemma pc_ok_insert c j t p u pc :
  g_reply_slots c !! j = Some (mk_reply_slot 0 0) -> u <> 0 -> in_rep pc = false ->
  pc_ok c u pc -> pc_ok (set_slots (<[j := mk_reply_slot t p]> (g_reply_slots c)) c) u pc.
Proof.
  intros Hj Hu Hr. destruct (slot_insert c j t p Hj) as (_ & Hkeep & _).
  destruct pc; cbn [pc_ok in_rep] in *; try done; by apply Hkeep || (intros; by apply Hkeep; auto).
Qed.

Lemma tasks_moved k t pc' c' w' log :
  tasks_ok k -> calling (k_pc k t) = true -> framed t (vw (k_s k)) (view w') ->
  slots_ok me c' (set_world w' (k_s k)) -> pc_ok c' t pc' ->
  (forall u, u <> t -> pc_ok c' u (k_pc k u)) -> tasks_ok (moved k t pc' c' w' log).
Proof.
  intros Ht Hcal Hf Hs Hpt Hpu. split; [done|..]; intros u; cbn.
  - intros Hu. destruct (to_call _ Ht u) as (Hc & ?).
    { destruct (decide (u = t)) as [->|Hne]; [done|]. by rewrite fn_lookup_insert_ne in Hu. }
    split; [by eapply caller_framed|done].
  - destruct (decide (u = t)) as [->|Hne]; fn_simpl; auto.
Qed.

Lemma tasks_step k t pc' c' w' log :
  tasks_ok k -> locks_ok k -> calling (k_pc k t) = true ->
  effect t (k_c k) (vw (k_s k)) (k_pc k t) pc' c' (view w') -> framed t (vw (k_s k)) (view w') ->
  tasks_ok (moved k t pc' c' w' log).
Proof.
  intros Ht Hlo Hcal He Hf. destruct (to_call _ Ht t Hcal) as (Hc & _).
  pose proof (to_pc _ Ht t) as Hpt. pose proof (to_slots _ Ht) as Hs.
  assert (Hsame : g_reply_slots c' = g_reply_slots (k_c k) -> pc_ok c' t pc' ->
    tasks_ok (moved k t pc' c' w' log)).
  { intros Hsl Hok. apply tasks_moved; try done.
    - apply (slots_frame (k_c k) _ (k_s k)); try done.
      + intros u. by apply (caller_framed t).
      + intros p Hp _ _. cbn. split; [by apply (fr_ports _ _ _ Hf)|by apply (fr_owner _ _ _ Hf)].
    - intros u _. apply (pc_ok_slots (k_c k)); [done|]. apply (to_pc _ Ht). }
  inversion He as [? ? ? Hsl _ _ _ _ Hok _|e j p b Hpc Hp0 Hfr Heq1 Heq2 Heq3|p y q Hpc Hq]; subst.
  - by apply Hsame.
  - rewrite Hpc in Hpt. destruct Hpt as (Hj & Hfree & Hno).
    destruct (slot_insert (k_c k) (Z.to_nat j) t p Hfree) as (Hnew & _ & _).
    apply tasks_moved; try done; [by eapply slots_insert|by intros _|].
    intros u Hu. destruct (calling (k_pc k u)) eqn:Hcu; [|by destruct (k_pc k u)].
    destruct (to_call _ Ht u Hcu) as ([Hu0 _] & _).
    apply pc_ok_insert; [done|done| |apply (to_pc _ Ht)].
    destruct (in_rep (k_pc k u)) eqn:Hr; [|done]. destruct Hu.
    eapply counts_alone; [apply (lo_rep _ Hlo)|done|cbn; by rewrite Hpc].
  - by apply Hsame.
Qed.

Lemma locks_step k t pc' c' w' log :
  locks_ok k -> both_init c' -> stepped t (k_c k) (k_s k) (k_pc k t) pc' c' w' ->
  locks_ok (moved k t pc' c' w' log).
Proof.
  intros [Hi He Hr] Hi' [_ _ Se Sr Ss].
  destruct (Ss (proj1 He) (proj1 Hr) (counts_inside _ _ _ He) (counts_inside _ _ _ Hr)) as [De Dr].
  split; [done|..]; cbn.
  - eapply counts_step; [exact He|exact De| |]; cbn; intros; by fn_simpl.
  - eapply counts_step; [exact Hr|exact Dr| |]; cbn; intros; by fn_simpl.
Qed.

Lemma sys_step t s w :
  sys_ok s -> caller me t s -> framed t (vw s) (view w) ->
  sys_ok (set_world w s) /\ requests (set_world w s) = requests s.
Proof.
  intros [Hi Hq Hs Hw] [Hout _]%caller_outside Hf.
  split; [split|]; [by eapply framed_inv|done..|by eapply framed_requests].
Qed.

(** ** Messages *)

(** A step that moves no message of a client. *)
Lemma messages_keep k k' :
  messages_ok k -> tasks_ok k ->
  s_taken (k_s k') = s_taken (k_s k) -> requests (k_s k') = requests (k_s k) ->
  s_replied (k_s k') = s_replied (k_s k) -> s_lost (k_s k') = s_lost (k_s k) ->
  k_log k' = k_log k -> (forall u, wait_at (k_pc k' u) = wait_at (k_pc k u)) ->
  (forall u, wait_at (k_pc k u) <> None -> k_arg k' u = k_arg k u /\ k_pos k' u = k_pos k u /\
    k_from k' u = k_from k u) ->
  (forall u p, u <> 0 -> slot (k_c k') u p -> slot (k_c k) u p \/ kq k' p = []) ->
  (forall u p, u <> 0 -> slot (k_c k) u p -> kq k' p = kq k p) ->
  (forall u p, k_pc k' u = KGet p -> kq k' p <> []) ->
  messages_ok k'.
Proof.
  intros [Mq Mw Mg Mp Ml] Ht Etk Erq Erp Els Elg Hwt Harg Hslot Hkq Hget.
  assert (El : line (k_s k') = line (k_s k)) by (unfold line; by rewrite Etk, Erq).
  split; rewrite ?El, ?Erp, ?Elg; try done.
  - intros u p Hu Hs Hn. rewrite Hwt in Hn. destruct (Hslot u p Hu Hs) as [Hs'|?]; [|done].
    rewrite (Hkq u p) by done. eauto.
  - intros u p Hw. rewrite Hwt in Hw. destruct (wait_slot k u p Ht Hw) as (Hs & [Hu _] & _).
    destruct (Harg u) as (Ha & Hp & Hf); [by rewrite Hw|].
    unfold awaits, request_of. rewrite El, Erp, Els, Elg, Ha, Hp, Hf, (Hkq u p) by done.
    by apply Mw.
  - intros i y Hi Hy. destruct (Mp i y Hi Hy) as [?|(u & p & Hw & Hpos & Hr)]; [by left|right].
    destruct (Harg u) as (Ha & Hp & _); [by rewrite Hw|]. exists u, p. unfold request_of.
    by rewrite Hwt, Ha, Hp.
  - destruct Ml as [Hnd Hall]. split; [done|]. eapply Forall_impl; [exact Hall|].
    intros d. unfold done_ok. by rewrite Etk, Erp.
Qed.

(** A task takes its reply. *)
Lemma messages_got k t p y q w' :
  sys_ok (k_s k) -> messages_ok k -> tasks_ok k -> k_pc k t = KGet p -> kq k p = y :: q ->
  view w' = kv_queue p q (vw (k_s k)) -> requests (set_world w' (k_s k)) = requests (k_s k) ->
  messages_ok (moved k t (KIdle (Some (0, snd y))) (k_c k) w'
    (k_log k ++ [mk_kdone t (request_of k t p) (snd y) (k_from k t) (k_pos k t)
      (length (s_replied (k_s k)))])).
Proof.
  intros [_ Sq Ss _] [Mq Mw Mg Mp [Mn Ml]] Ht Hpc Hq Hv Hreq.
  assert (Hwt : wait_at (k_pc k t) = Some p) by (by rewrite Hpc).
  destruct (wait_slot k t p Ht Hwt) as (Hs & [Ht0 _] & _).
  destruct (Mw t p Hwt) as [(Hl & Hr & Hfresh & Hfrom)|(_ & Hr & _)]; [|congruence].
  rewrite Hq in Hr. destruct (s_replied (k_s k) !! k_pos k t) as [x|] eqn:Hx; [|done].
  cbn in Hr. injection Hr as <- ->.
  pose proof (lookup_lt_Some _ _ _ Hx) as Hlt.
  destruct (sequential_reply _ _ _ Sq Hx) as (z & Hz & Hfst).
  assert (z = request_of k t p) as ->.
  { unfold line in Hl. rewrite lookup_app_l in Hl by (by eapply lookup_lt_Some). congruence. }
  set (k' := moved _ _ _ _ _ _).
  assert (El : line (k_s k') = line (k_s k)) by (unfold line; cbn; by rewrite Hreq).
  assert (Hwait : forall u r, wait_at (k_pc k' u) = Some r -> u <> t /\ wait_at (k_pc k u) = Some r).
  { intros u r. cbn. destruct (decide (u = t)) as [->|Hu]; fn_simpl; done. }
  assert (Hkq : forall r, r <> p -> kq k' r = kq k r) by (intros r Hr; cbn; rewrite Hv; by kv).
  split.
  - intros u r Hu Hsl Hn. destruct (decide (r = p)) as [->|Hr]; [cbn; rewrite Hv; by kv|].
    rewrite Hkq by done. apply (Mq u r); [done..|]. revert Hn. cbn.
    destruct (decide (u = t)) as [->|Hne]; fn_simpl; [|done]. intros _. destruct Hr.
    by eapply (slot_port_unique me (k_c k) (k_s k) t); [apply (to_slots _ Ht)|..].
  - intros u r [Hne Hw]%Hwait. destruct (wait_slot k u r Ht Hw) as (Hsu & [Hu0 _] & _).
    assert (Hrp : r <> p).
    { intros ->. destruct Hne. by eapply (slot_task_unique me (k_c k) (k_s k)); [apply (to_slots _ Ht)|..]. }
    unfold awaits. rewrite El, Hkq by done.
    destruct (Mw u r Hw) as [(Hlu & Hru & Hfu & Hf)|?]; [left|by right].
    split_and!; try done. cbn. rewrite fmap_app, elem_of_app. intros [?|Hin]; [done|].
    apply list_elem_of_singleton in Hin. cbn in Hin. destruct Hne. rewrite <- Hin in Hl.
    by destruct (place_unique k u t r p _ Ht Hw Hwt Hlu Hl).
  - intros u r. cbn. destruct (decide (u = t)) as [->|Hne]; fn_simpl; [done|]. intros Hg.
    assert (Hw : wait_at (k_pc k u) = Some r) by (by rewrite Hg).
    destruct (wait_slot k u r Ht Hw) as (Hsu & [Hu0 _] & _).
    rewrite Hv. kv. rewrite fn_lookup_insert_ne; [by eapply Mg|]. intros <-. destruct Hne.
    by eapply (slot_task_unique me (k_c k) (k_s k)); [apply (to_slots _ Ht)|..].
  - rewrite El. intros i z Hi Hy. destruct (Mp i z Hi Hy) as [?|(u & r & Hw & Hpos & Hr)]; [by left|right].
    exists u, r. split_and!; try done. cbn. rewrite fn_lookup_insert_ne; [done|]. intros <-.
    subst i. cbn in Hi. lia.
  - cbn. rewrite fmap_app. split.
    + apply NoDup_app. split_and!; [done| |apply NoDup_singleton].
      intros d Hd [= ->]%list_elem_of_singleton. done.
    + apply Forall_app. split; [exact Ml|]. apply Forall_singleton. unfold done_ok. cbn.
      split_and!; try done. rewrite Hx. destruct y as [a r]. cbn in Hfst. by subst a.
Qed.

(** ** Every action keeps the invariant *)

Lemma may_step_running k t : kinv k -> calling (k_pc k t) = true ->
  may_step me t (k_c k) (k_pc k t) (k_s k).
Proof.
  intros [_ Hlo Ht Hm] Hcal. destruct (to_call _ Ht t Hcal) as (Hc & _).
  split_and!; [apply (to_slots _ Ht)|apply Hlo..|done|apply (to_pc _ Ht)|].
  intros p Hp. by apply (me_get _ Hm t).
Qed.

Lemma running_stepped k t pc c w :
  kinv k -> calling (k_pc k t) = true -> putting (k_pc k t) = false ->
  ipc_step os t (k_arg k t) (k_pc k t) (k_c k) (s_w (k_s k)) = KGo pc c w ->
  stepped t (k_c k) (k_s k) (k_pc k t) pc c w.
Proof.
  intros Hk Hcal Hput Hgo. pose proof (ki_locks _ Hk) as [_ Le Lr].
  eapply step_stepped; [by apply may_step_running|done|apply Le|apply Lr| | |exact Hgo].
  - exact (counts_inside _ _ t Le).
  - exact (counts_inside _ _ t Lr).
Qed.

Lemma kinv_step k t pc c w :
  kinv k -> putting (k_pc k t) = false ->
  ipc_step os t (k_arg k t) (k_pc k t) (k_c k) (s_w (k_s k)) = KGo pc c w ->
  kinv (moved k t pc c w (k_log k ++ returned os k t pc)).
Proof.
  intros Hk Hput Hgo.
  assert (Hcal : calling (k_pc k t) = true) by (destruct (k_pc k t); done).
  pose proof (running_stepped k t pc c w Hk Hcal Hput Hgo) as Hst.
  pose proof Hk as [Hsys Hlo Ht Hm]. destruct (to_call _ Ht t Hcal) as (Hc & _).
  destruct (sys_step t (k_s k) w Hsys Hc (sd_framed _ _ _ _ _ _ _ Hst)) as [Hsys' Hreq].
  split; [done|eapply locks_step; try done; by eapply step_flags, Hlo| |].
  { apply tasks_step; try done; apply Hst. }
  pose proof (sd_effect _ _ _ _ _ _ _ Hst) as He. pose proof (to_pc _ Ht t) as Hpt.
  inversion He as [? ? ? Hsl Eq Ep Eo Hwt Hok Hget|e j p b Hpc Hp0 Hfr Heq1 Heq2 Hv|p y q Hpc Hq]; subst.
  - assert (returned os k t pc = []) as ->.
    { unfold returned. destruct (k_pc k t); try done. by destruct pc. }
    rewrite app_nil_r. apply (messages_keep k); try done; cbn; rewrite ?Eq; try done.
    + intros u. by destruct (decide (u = t)) as [->|Hu]; fn_simpl.
    + intros u p _ Hs. left. unfold slot in *. by rewrite <- Hsl.
    + intros u p. destruct (decide (u = t)) as [->|Hu]; fn_simpl; [apply Hget|apply Hm].
  - assert (returned os k t (KRepRel e p) = []) as -> by (unfold returned; by rewrite Hpc).
    rewrite Hpc in Hpt. destruct Hpt as (Hj & Hfree & Hno).
    destruct (slot_insert (k_c k) (Z.to_nat j) t p Hfree) as (_ & _ & Hinv).
    assert (Hnew : kq (moved k t (KRepRel e p) (set_slots (<[Z.to_nat j := mk_reply_slot t p]>
        (g_reply_slots (k_c k))) (k_c k)) w (k_log k)) p = []) by (cbn; rewrite <- Hv; by kv).
    assert (Hold : forall u q, u <> 0 -> slot (k_c k) u q -> k_queue (view w) q = kq k q).
    { intros u q Hu Hs. destruct (slot_owner me _ (k_s k) u q (to_slots _ Ht) Hs Hu) as (_ & _ & Hq & _).
      assert (p <> q) by (by intros ->). rewrite <- Hv. by kv. }
    rewrite app_nil_r. apply (messages_keep k); try done; cbn.
    + intros u. destruct (decide (u = t)) as [->|Hu]; fn_simpl; [by rewrite Hpc|done].
    + intros u q Hu [[-> ->]|Hs]%Hinv; [by right|by left].
    + intros u q. destruct (decide (u = t)) as [->|Hu]; fn_simpl; [done|]. intros Hg.
      destruct (wait_slot k u q Ht) as (Hs & [Hu0 _] & _); [by rewrite Hg|].
      rewrite (Hold u q) by done. by apply (me_get _ Hm u).
  - unfold returned. rewrite Hpc. by eapply messages_got.
Qed.

Lemma kinv_call k t rv x :
  kinv k -> k_pc k t = KIdle rv -> caller me t (k_s k) ->
  wf_req (snd x) -> op (snd x) <> NETSTACK_OP_SHUTDOWN ->
  kinv (mk_ksys (k_s k) (k_c k) (<[t := KEngChk]> (k_pc k)) (<[t := x]> (k_arg k))
    (<[t := length (s_taken (k_s k))]> (k_from k)) (k_pos k) (k_log k)).
Proof.
  intros [Hsys Hlo Ht Hm] Hpc Hc Hwf Hop.
  assert (Hin : forall (f : kpc -> bool), f (KIdle rv) = false -> f KEngChk = false ->
    forall u, f (<[t := KEngChk]> (k_pc k) u) = f (k_pc k u)).
  { intros f Hf1 Hf2 u. destruct (decide (u = t)) as [->|Hu]; fn_simpl; by rewrite ?Hpc, ?Hf1, ?Hf2. }
  split; [done|..].
  - split; [apply Hlo|..]; cbn; (eapply counts_same; [apply Hlo|]); intros u; by apply Hin.
  - split; [apply Ht|..]; intros u; cbn.
    + destruct (decide (u = t)) as [->|Hu]; fn_simpl; [intros _; by split_and!|]. apply (to_call _ Ht).
    + destruct (decide (u = t)) as [->|Hu]; fn_simpl; [done|apply (to_pc _ Ht)].
  - assert (Hnw : forall u, wait_at (k_pc k u) <> None -> t <> u) by (intros u Hu <-; by rewrite Hpc in Hu).
    apply (messages_keep k); try done; cbn.
    + intros u. destruct (decide (u = t)) as [->|Hu]; fn_simpl; by rewrite ?Hpc.
    + intros u Hu. specialize (Hnw u Hu). by fn_simpl.
    + intros u p _ Hs. by left.
    + intros u p. destruct (decide (u = t)) as [->|Hu]; fn_simpl; [done|apply (me_get _ Hm)].
Qed.

(** The message of a caller is one the engine can serve. *)
Lemma request_client k t p :
  tasks_ok k -> calling (k_pc k t) = true -> slot (k_c k) t p -> dead (s_e (k_s k)) = false ->
  client_msg me (s_t (k_s k)) (vw (k_s k)) (request_of k t p).
Proof.
  intros Ht Hcal Hs Hd. destruct (to_call _ Ht t Hcal) as ((Ht0 & Htm & _ & Hts) & Hwf & Hop & _).
  destruct (slot_owner me _ _ t p (to_slots _ Ht) Hs Ht0) as (_ & Hp0 & Hp & Ho).
  unfold client_msg, request_of, stamped. cbn. rewrite Ho.
  split; [destruct Hwf; by split|]. split_and!; auto.
Qed.

Lemma sys_post s x :
  sys_ok s -> open (s_e s) = true -> client_msg me (s_t s) (vw s) x ->
  let s' := posted x (PutMsg (g_request_port (s_g s)) x (s_w s)) s in
  sys_ok s' /\ requests s' = requests s ++ [x].
Proof.
  intros [Hi Hq Hs Hw] Ho Hx. cbv zeta. split; [split; [by apply inv_post|done..]|].
  unfold requests. cbn. rewrite Ho, put_law. by kv.
Qed.

Section put.
Context (k : ksys W) (t p : Z).
Context (Hk : kinv k) (Hpc : k_pc k t = KPut (g_request_port (s_g (k_s k))) p).
Context (Ho : open (s_e (k_s k)) = true).

Let x : message := request_of k t p.
Let w' : W := PutMsg (g_request_port (s_g (k_s k))) x (s_w (k_s k)).
Let s' : sys W := posted x w' (k_s k).
Let k' : ksys W := mk_ksys s' (k_c k) (<[t := KWait p]> (k_pc k)) (k_arg k) (k_from k)
  (<[t := length (line (k_s k))]> (k_pos k)) (k_log k).

Lemma put_slot : slot (k_c k) t p /\ caller me t (k_s k) /\ wait_at (k_pc k t) = None.
Proof.
  destruct Hk as [_ _ Ht _]. pose proof (to_pc _ Ht t) as Hs. rewrite Hpc in Hs. split; [done|].
  split; [|by rewrite Hpc]. apply (to_call _ Ht t). by rewrite Hpc.
Qed.

Lemma put_sys : sys_ok s' /\ line s' = line (k_s k) ++ [x].
Proof.
  destruct put_slot as (Hs & _). destruct Hk as [Hsys _ Ht _].
  destruct (sys_post (k_s k) x Hsys Ho) as [Hsys' Hreq].
  { apply request_client; [done|by rewrite Hpc|done|]. by destruct (s_e (k_s k)). }
  split; [done|]. unfold line, s', w'. rewrite Hreq. cbn. by rewrite app_assoc.
Qed.

(** The request port is no client's. *)
Lemma put_queue u q : u <> 0 -> slot (k_c k) u q -> kq k' q = kq k q.
Proof.
  intros Hu Hsu. destruct Hk as [[[He _] _ _ _] _ Ht _].
  destruct (request_port_other me (k_s k) He Ho) as (_ & Hpt & _).
  destruct (slot_owner me _ _ u q (to_slots _ Ht) Hsu Hu) as (Hc & _ & _ & Hoq).
  cbn. unfold w'. rewrite put_law. kv. rewrite fn_lookup_insert_ne; [done|]. intros <-.
  rewrite Hpt in Hoq. destruct Hc as (_ & _ & _ & Hne). destruct Hne; [by destruct (s_e (k_s k))|done].
Qed.

Lemma put_tasks : tasks_ok k'.
Proof.
  destruct put_slot as (Hs & _). destruct Hk as [_ _ Ht _].
  assert (Hv : view w' = kv_put (g_request_port (s_g (k_s k))) x (vw (k_s k))) by apply put_law.
  split; [|intros u; cbn..].
  - apply (slots_frame (k_c k) _ (k_s k)); [apply Ht|done|..]; unfold caller; cbn; by rewrite Hv.
  - unfold caller. cbn. rewrite Hv. intros Hu. apply (to_call _ Ht u).
    destruct (decide (u = t)) as [->|Hut]; [by rewrite Hpc|]. by rewrite fn_lookup_insert_ne in Hu.
  - destruct (decide (u = t)) as [->|Hu]; fn_simpl; [done|apply (to_pc _ Ht)].
Qed.

Lemma put_awaits u q : wait_at (k_pc k' u) = Some q -> awaits k' u q.
Proof.
  destruct put_slot as (Hs & [Ht0 _] & Hnw). destruct put_sys as [_ El].
  destruct Hk as [[_ _ Hser _] _ Ht [Mq Mw _ _ [_ Ml]]]. apply in_service_length in Hser.
  intros Hw. unfold awaits, request_of. cbn [k_s k_pos k_log k_arg k_from k'] in *. rewrite El.
  destruct (decide (u = t)) as [->|Hut].
  - change (wait_at (<[t := KWait p]> (k_pc k) t) = Some q) in Hw.
    rewrite fn_lookup_insert in Hw. injection Hw as <-. left. fn_simpl.
    destruct (to_call _ Ht t) as (_ & _ & _ & Hfrom); [by rewrite Hpc|].
    split_and!; [by apply list_lookup_middle| | |].
    + change (view (s_w s')) with (view (s_w (k_s k'))). rewrite (put_queue t p Ht0 Hs), (Mq t p) by done.
      cbn. rewrite lookup_ge_None_2; [done|]. unfold line. rewrite length_app. lia.
    + intros (d & Hd1 & Hd2)%list_elem_of_fmap. rewrite Forall_forall in Ml.
      destruct (Ml d Hd2) as (Hb1 & Hb2 & _). unfold line in Hd1. rewrite length_app in Hd1. lia.
    + unfold line. rewrite length_app. lia.
  - change (wait_at (<[t := KWait p]> (k_pc k) u) = Some q) in Hw.
    rewrite fn_lookup_insert_ne in Hw by done. fn_simpl.
    destruct (wait_slot k u q Ht Hw) as (Hsu & [Hu0 _] & _).
    change (view (s_w s')) with (view (s_w (k_s k'))). rewrite (put_queue u q Hu0 Hsu).
    destruct (Mw u q Hw) as [(Hl & ? & ? & ?)|(? & ? & Hl)]; [left|right]; split_and!; try done.
    + by apply lookup_app_l_Some.
    + rewrite lookup_app. destruct (line (k_s k) !! k_pos k u) as [z|] eqn:Hz; [done|].
      intros Heq%list_lookup_singleton_Some. destruct Heq as [_ Heq].
      apply (f_equal (fun z => mn_ReplyPort (msg (snd z)))) in Heq. cbn in Heq. subst q.
      destruct Hut. by apply (slot_task_unique me (k_c k) (k_s k) u t p (to_slots _ Ht)).
Qed.

Lemma put_messages : messages_ok k'.
Proof.
  destruct put_slot as (Hs & [Ht0 _] & Hnw). destruct put_sys as [_ El].
  pose proof Hk as [_ _ Ht [Mq Mw Mg Mp [Mn Ml]]]. split; [|apply put_awaits|..|done].
  - intros u q Hu Hsu Hn. rewrite (put_queue u q Hu Hsu). apply (Mq u q Hu Hsu). cbn in Hn.
    destruct (decide (u = t)) as [->|Hut]; [done|]. by rewrite fn_lookup_insert_ne in Hn.
  - intros u q. cbn [k_pc k']. destruct (decide (u = t)) as [->|Hut]; fn_simpl; [done|]. intros Hg.
    destruct (wait_slot k u q Ht) as (Hsu & [Hu0 _] & _); [by rewrite Hg|].
    rewrite (put_queue u q) by done. by apply (Mg u).
  - cbn [k_s k_pc k_pos k']. rewrite El. intros i y Hi [Hy|[Hge Hy]]%lookup_app_Some.
    + destruct (Mp i y Hi Hy) as [?|(u & q & Hw & Hpos & Hr)]; [by left|right].
      exists u, q. assert (u <> t) by (intros ->; congruence). by fn_simpl.
    + apply list_lookup_singleton_Some in Hy as [Hz <-]. right. exists t, p. fn_simpl.
      split_and!; [done|lia|done].
Qed.

Lemma kinv_put : kinv k'.
Proof.
  split; [apply put_sys| |apply put_tasks|apply put_messages].
  pose proof Hk as [_ Hlo _ _].
  assert (Hsem : sems w' = sems (s_w (k_s k))) by apply (port_sems _ _ (pc_put _ _)).
  split; [apply Hlo|..]; cbn; rewrite Hsem; (eapply counts_same; [apply Hlo|]); intros u; cbn;
    (destruct (decide (u = t)) as [->|Hu]; fn_simpl; by rewrite ?Hpc).
Qed.
End put.

(** ** Steps of the engine and the launcher *)

(** The task whose message is the next to be answered. *)
Definition next_up k (t p : Z) : Prop :=
  wait_at (k_pc k t) = Some p /\ k_pos k t = length (s_replied (k_s k)) /\
  line (k_s k) !! k_pos k t = Some (request_of k t p).

(** A reply goes to the port of the task that asked. *)
Lemma reply_lands k s' t p :
  kcore k -> own_step os me buf (k_s k) s' -> t <> 0 -> slot (k_c k) t p ->
  let r := new_replies (k_s k) s' in
  let here := filter (fun y => mn_ReplyPort (msg (snd y)) = p) r in
  (here = r /\ length r = 1%nat /\ next_up k t p) \/ (here = [] /\ (r = [] \/ ~ next_up k t p)).
Proof.
  intros [[Hi Hq Hser _] Ht Hm] Hs Ht0 Hsl. cbv zeta.
  destruct (own_replies os me buf _ _ Hs) as [_ [->|(x & Hpc & ->)]]; [right; auto|].
  unfold in_service in Hser. rewrite Hpc in Hser. destruct Hser as (l & y & Hl & Hlen & _ & Hop & Hmsg).
  assert (Hy : line (k_s k) !! length (s_replied (k_s k)) = Some y).
  { unfold line. rewrite Hl, <- app_assoc, <- Hlen. by apply list_lookup_middle. }
  destruct (slot_owner me _ _ t p (to_slots _ Ht) Hsl Ht0) as ((_ & Htm & _) & _ & _ & Ho).
  rewrite filter_cons, filter_nil, Hmsg.
  assert (Hnext : next_up k t p -> y = request_of k t p).
  { intros (_ & Hpos & Hlt). rewrite Hpos in Hlt. congruence. }
  destruct (me_pending _ Hm _ y (le_n _) Hy) as [Hsd|(u & q & Hw & Hpos & ->)].
  - right. rewrite decide_False.
    + split; [done|]. right. intros Hn. pose proof Hn as (Hw & _). rewrite (Hnext Hn) in Hsd.
      destruct (to_call _ Ht t) as (_ & _ & Hno & _); [by eapply calling_wait|]. done.
    + rewrite <- Hmsg. intros Heq. rewrite <- Hop in Hsd.
      pose proof (reply_owner me B0 _ x Hi Hpc Hsd) as Hme. rewrite Heq in Hme. congruence.
  - destruct (wait_slot k u q Ht Hw) as (Hsu & [Hu0 _] & _). cbn. case_decide as Heq; [subst q|].
    + left. assert (u = t) as -> by (by eapply (slot_task_unique me); [apply (to_slots _ Ht)|..]).
      split; [done|]. split; [done|]. unfold next_up. by rewrite Hpos.
    + right. split; [done|]. right. intros Hn. destruct Heq.
      pose proof (f_equal (fun z => mn_ReplyPort (msg (snd z))) (Hnext Hn)) as Hp. done.
Qed.

(** The line grows by messages of the launcher, or ends at the last that was taken. *)
Lemma line_own s s' :
  sys_ok s -> own_step os me buf s s' ->
  (exists a, line s' = line s ++ a /\ s_lost s' = s_lost s /\
     Forall (fun x => op (snd x) = NETSTACK_OP_SHUTDOWN) a) \/
  (exists d, line s = line s' ++ d /\ s_lost s' = s_lost s ++ d /\ new_replies s s' = [] /\
     (length (s_replied s) <= length (line s'))%nat /\
     length (s_replied s) = length (s_taken s)).
Proof.
  intros [Hi _ Hser _] Hs.
  destruct (own_messages os me buf B0 s s' Hi Hs) as (d & a & Hl & Hline & Ha & Hd & Hmono).
  unfold line. destruct Hd as [->|(Hr & -> & Hpc)].
  - left. exists a. rewrite <- app_assoc, Hline, Hl, app_nil_r. done.
  - right. exists d. rewrite Hr, !app_nil_r in *. unfold in_service in Hser. rewrite Hpc in Hser.
    split_and!; [done|done| |lia|lia].
    destruct (own_replies os me buf _ _ Hs) as [_ [?|(x & Hx & _)]]; [done|congruence].
Qed.

Lemma line_taken s i : (i < length (s_taken s))%nat -> line s !! i = s_taken s !! i.
Proof. intros Hi. unfold line. by apply lookup_app_l. Qed.

Lemma done_own s s' d : sys_ok s -> own_step os me buf s s' -> done_ok s d -> done_ok s' d.
Proof.
  intros Hsys Hs (Hp & Hto & Ht & Hr). pose proof Hsys as [Hi _ Hser _].
  destruct (own_messages os me buf B0 s s' Hi Hs) as (dd & a & _ & Hline & _ & _ & Hmono).
  destruct (own_replies os me buf _ _ Hs) as [Hrep _]. pose proof (lookup_lt_Some _ _ _ Ht) as Hlt.
  unfold done_ok. rewrite Hrep. split_and!; try lia; [rewrite length_app; lia| |by apply lookup_app_l_Some].
  apply (f_equal (fun l => l !! d_pos d)) in Hline. rewrite !lookup_app_l in Hline by lia. congruence.
Qed.

Section own.
Context (k : ksys W) (s' : sys W) (Hk : kcore k) (Hs : own_step os me buf (k_s k) s').

Let k' : ksys W := mk_ksys s' (k_c k) (k_pc k) (k_arg k) (k_from k) (k_pos k) (k_log k).

Lemma own_queue t p :
  t <> 0 -> slot (k_c k) t p ->
  kq k' p = kq k p ++ filter (fun y => mn_ReplyPort (msg (snd y)) = p) (new_replies (k_s k) s').
Proof.
  intros Ht0 Hsl. destruct Hk as [[Hi _ _ _] Ht _].
  destruct (slot_owner me _ _ t p (to_slots _ Ht) Hsl Ht0) as (Hc & Hp0 & Hp & Ho).
  destruct (caller_outside _ _ Hc) as [Hout _].
  pose proof (own_spares os me buf B0 t _ _ Hi Hout Hs) as Hsp.
  by destruct (sp_port _ _ _ _ Hsp p Hp0 Hp Ho) as (_ & _ & Hq).
Qed.

Lemma own_caller t : caller me t (k_s k) -> caller me t s'.
Proof.
  intros Hc. destruct (caller_outside _ _ Hc) as (Hout & Ht0 & Htk). destruct Hk as [[Hi _ _ _] _ _].
  pose proof (own_spares os me buf B0 t _ _ Hi Hout Hs) as Hsp.
  destruct (sp_task _ _ _ _ Hsp Htk) as [? [? ?]]. by split_and!.
Qed.

Lemma tasks_own : tasks_ok k'.
Proof.
  pose proof Hk as [Hsys Ht _]. split; [|intros t Htc|apply Ht].
  - apply (slots_frame (k_c k) _ (k_s k)); [apply Ht|done|apply own_caller|].
    intros p Hp Hc Hp0. destruct (caller_outside _ _ Hc) as [Hout _].
    pose proof (own_spares os me buf B0 _ _ _ (sy_inv _ Hsys) Hout Hs) as Hsp.
    by destruct (sp_port _ _ _ _ Hsp p Hp0 Hp eq_refl) as (? & ? & _).
  - destruct (to_call _ Ht t Htc) as (Hc & ? & ? & ?). split_and!; [by apply own_caller|done..|].
    destruct (own_messages os me buf B0 _ _ (sy_inv _ Hsys) Hs) as (_ & _ & _ & _ & _ & _ & ?). cbn. lia.
Qed.

Lemma awaits_own t p : wait_at (k_pc k t) = Some p -> awaits k' t p.
Proof.
  intros Hw. pose proof Hk as [Hsys Ht Hm].
  destruct (wait_slot k t p Ht Hw) as (Hsl & [Ht0 _] & _).
  pose proof (own_queue t p Ht0 Hsl) as Hq. pose proof (reply_lands k s' t p Hk Hs Ht0 Hsl) as Hr.
  pose proof (me_wait _ Hm t p Hw) as Ha.
  destruct (own_replies os me buf _ _ Hs) as [Hrep _]. set (r := new_replies _ _) in *.
  destruct (to_call _ Ht t) as (_ & _ & Hno & _); [by eapply calling_wait|].
  unfold awaits. change (request_of k' t p) with (request_of k t p). rewrite Hq.
  cbn [k_s k_pos k_from k_log k']. rewrite Hrep.
  destruct (line_own _ _ Hsys Hs) as [(a & -> & -> & Hsd)|(d & Hd & -> & Hrn & Hlen & Hrt)].
  - destruct Ha as [(Hl & -> & Hf & Hfr)|(Hlo & -> & Hl)].
    + left. split_and!; [by apply lookup_app_l_Some| |done|done].
      destruct Hr as [(-> & Hr1 & _ & Hpos & _)|(-> & Hr)].
      * rewrite Hpos, lookup_ge_None_2, lookup_app_r, Nat.sub_diag by lia.
        by destruct r as [|x [|]].
      * rewrite app_nil_r. destruct Hr as [->|Hn]; [by rewrite app_nil_r|]. f_equal.
        assert (Hpos : k_pos k t <> length (s_replied (k_s k))) by (intros ?; by apply Hn).
        destruct (decide (k_pos k t < length (s_replied (k_s k)))%nat) as [|Hge]; [by rewrite lookup_app_l|].
        assert (length r <= 1)%nat.
        { destruct (own_replies os me buf _ _ Hs) as [_ [Hz|(x & _ & Hz)]]; fold r in Hz; rewrite Hz; cbn; lia. }
        by rewrite !lookup_ge_None_2 by (rewrite ?length_app; lia).
    + right. split_and!; [done| |].
      * destruct Hr as [(_ & _ & _ & _ & Hn)|(-> & _)]; [|done]. congruence.
      * rewrite lookup_app. destruct (_ !! _) eqn:Hz; [congruence|]. intros Hy.
        apply list_elem_of_lookup_2 in Hy. rewrite Forall_forall in Hsd. by apply Hsd in Hy.
  - change (r = []) in Hrn. rewrite Hrn, filter_nil, !app_nil_r. destruct Ha as [(Hl & -> & Hf & Hfr)|(Hlo & -> & Hl)].
    + rewrite Hd in Hl. apply lookup_app_Some in Hl as [Hl|[Hge Hl]]; [left; by split_and!|right].
      split_and!; [apply elem_of_app; right; by eapply list_elem_of_lookup_2| |].
      * by rewrite lookup_ge_None_2 by lia.
      * by rewrite lookup_ge_None_2 by lia.
    + right. split_and!; [apply elem_of_app; by left|done|]. intros Hy. apply Hl. rewrite Hd.
      by apply lookup_app_l_Some.
Qed.

Lemma messages_own : messages_ok k'.
Proof.
  pose proof Hk as [Hsys Ht Hm]. split.
  - intros t p Ht0 Hsl Hn. rewrite (own_queue t p Ht0 Hsl), (me_quiet _ Hm t p) by done.
    destruct (reply_lands k s' t p Hk Hs Ht0 Hsl) as [(_ & _ & Hw & _)|(-> & _)]; [|done].
    cbn in Hn. congruence.
  - apply awaits_own.
  - intros t p Hp. cbn in Hp. assert (Hw : wait_at (k_pc k t) = Some p) by (by rewrite Hp).
    destruct (wait_slot k t p Ht Hw) as (Hsl & [Ht0 _] & _). rewrite (own_queue t p Ht0 Hsl).
    pose proof (me_get _ Hm t p Hp). by destruct (kq k p).
  - destruct (own_replies os me buf _ _ Hs) as [Hrep _]. cbn. rewrite Hrep, length_app. intros i y Hi Hy.
    change (line (k_s k') !! i = Some y) in Hy. cbn in Hy.
    destruct (line_own _ _ Hsys Hs) as [(a & Hl & _ & Hsd)|(d & Hl & _)].
    + rewrite Hl in Hy. apply lookup_app_Some in Hy as [Hy|[_ Hy]].
      * apply (me_pending _ Hm i y); [lia|done].
      * left. rewrite Forall_forall in Hsd. apply Hsd. by eapply list_elem_of_lookup_2.
    + apply (me_pending _ Hm i y); [lia|]. rewrite Hl. by apply lookup_app_l_Some.
  - destruct (me_log _ Hm) as [? Hall]. split; [done|]. eapply Forall_impl; [exact Hall|].
    intros d. by apply done_own.
Qed.

Lemma core_own : kcore k'.
Proof.
  pose proof Hk as [[Hi Hq Hser Hw] _ _]. split; [|apply tasks_own|apply messages_own]. split.
  - eapply inv_step; [exact Hi|by apply own_step_sys].
  - eapply sequential_step; [exact Hi|done|by apply own_step_sys].
  - by eapply own_service.
  - by eapply own_wf.
Qed.
End own.

Lemma kinv_own k s' :
  kinv k -> own_step os me buf (k_s k) s' ->
  kinv (mk_ksys s' (k_c k) (k_pc k) (k_arg k) (k_from k) (k_pos k) (k_log k)).
Proof.
  intros Hk Hs. destruct (core_own k s' (kinv_core k Hk) Hs) as [? ? ?]. split; try done.
  destruct (ki_locks _ Hk) as [? He Hr]. pose proof (own_sems os me buf _ _ Hs) as Hse.
  split; cbn; rewrite ?Hse; done.
Qed.
End invariant.
