(* ===== verification/ClientDown.v ===== *)
(** * Shutting the library down

    The invariant while one task is in [netstack_client_shutdown] and nobody calls:
    the ports it frees belong to no message that the engine has still to answer. *)

From S2P Require Import Prelude Ipc FdTable FdSpec FdRefine Engine Tasks EngineTasks EngineInv.
From S2P Require Import EngineMoves EngineLaunch EngineProc OsalLock Client.
From S2P Require Import ClientTasks ClientFrame ClientInv ClientKeep.

(** Between obtaining and releasing [g_reply_sem]; the slots that are done. *)
Definition in_down (d : dpc) : bool := match d with DFree _ | DRel => true | _ => false end.
Definition freed (d : dpc) : nat := match d with DFree i => i | DRel | DClear => 16%nat | _ => O end.

Section down.
Context {W : Type} `{TaskLaws W, !Sems W, !SemView W, !SemLaws W, !SemFrame W}.
Context (os : sdk) (me buf : Z) (B0 : gset Z).
Implicit Types (s : sys W) (k : ksys W) (c : client) (w : W).

Abbreviation vw s := (view (s_w s)).
Abbreviation kq k := (k_queue (view (s_w (k_s k)))).
Abbreviation kcore := (kcore os me B0).
Abbreviation kinv := (kinv os me B0).

Definition idle k : Prop := forall u, calling (k_pc k u) = false.

Record kdown (t : Z) (d : dpc) k : Prop := {
  kd_core : kcore k;
  kd_idle : idle k;
  kd_caller : caller me t (k_s k);
  kd_init : both_init (k_c k);
  kd_eng : counts (sems (s_w (k_s k)) g_engine_port_sem) (fun u => in_eng (k_pc k u));
  kd_rep : counts (sems (s_w (k_s k)) g_reply_sem) (fun u => bool_decide (u = t) && in_down d);
  kd_freed : forall i x, g_reply_slots (k_c k) !! i = Some x -> (i < freed d)%nat ->
    x = mk_reply_slot 0 0
}.

(** ** Nothing in flight needs a client's port *)

Lemma flight_line s x :
  in_service s -> x ∈ flight s ->
  exists i y, (length (s_replied s) <= i)%nat /\ line s !! i = Some y /\ op (snd y) = op (snd x).
Proof.
  intros Hs. pose proof (in_service_length _ Hs) as Hle. unfold flight, line.
  rewrite elem_of_app. intros [Hx|[j Hj]%list_elem_of_lookup].
  - unfold in_service in Hs. destruct (s_e s); try by apply not_elem_of_nil in Hx.
    + apply list_elem_of_singleton in Hx as <-. destruct Hs as (l & -> & <-). exists (length l), x.
      rewrite <- app_assoc. cbn [app]. by rewrite list_lookup_middle.
    + apply list_elem_of_singleton in Hx as <-. destruct Hs as (l & y & -> & <- & _ & Ho & _).
      exists (length l), y. rewrite <- app_assoc. cbn [app]. by rewrite list_lookup_middle.
  - exists (length (s_taken s) + j)%nat, x. split; [lia|]. split; [|done].
    rewrite lookup_app_r by lia. by rewrite Nat.add_comm, Nat.add_sub.
Qed.

Lemma idle_unneeded k p :
  kcore k -> idle k -> outside me (fst (k_owner (vw (k_s k)) p)) (k_s k) -> ~ needed me p (k_s k).
Proof.
  intros [[[He _] _ Hser _] _ Hm] Hidle [Hom Hot] [[Ho ->]|(x & Hx & (_ & Hop & _) & _)].
  - destruct (request_port_other me _ He Ho) as (_ & Heq & _). apply Hot; [|done].
    by destruct (s_e (k_s k)).
  - destruct (flight_line _ _ Hser Hx) as (i & y & Hi & Hy & Heq).
    destruct (me_pending _ _ Hm i y Hi Hy) as [?|(u & q & Hw & _)]; [congruence|].
    apply calling_wait in Hw. by rewrite Hidle in Hw.
Qed.

(** ** Steps *)

(** The state with another world and other globals. *)
Definition set_cw c w k : ksys W :=
  mk_ksys (set_world w (k_s k)) c (k_pc k) (k_arg k) (k_from k) (k_pos k) (k_log k).

Lemma core_down k c w :
  kcore k -> idle k -> inv me B0 (set_world w (k_s k)) ->
  requests (set_world w (k_s k)) = requests (k_s k) ->
  slots_ok me c (set_world w (k_s k)) ->
  (forall u p, u <> 0 -> slot c u p -> slot (k_c k) u p) ->
  k_queue (view w) = kq k -> kcore (set_cw c w k).
Proof.
  intros [[Hi Hq Hs Hw] Ht Hm] Hidle Hi' Hreq Hsl Hsub Hkq. split; [done| |].
  - split; cbn; [done|..].
    + intros u Hu. by rewrite Hidle in Hu.
    + intros u. specialize (Hidle u). by destruct (k_pc k u).
  - apply (messages_keep os me k); try done; cbn; rewrite ?Hkq; try done.
    + intros u p Hu Hs'. left. by apply Hsub.
    + intros u p Hg. specialize (Hidle u). by rewrite Hg in Hidle.
Qed.

(** A call on the semaphore. *)
Lemma core_sem t k c w :
  kcore k -> idle k -> caller me t (k_s k) -> view w = vw (k_s k) ->
  g_reply_slots c = g_reply_slots (k_c k) -> kcore (set_cw c w k).
Proof.
  intros Hc Hidle Hcl Hv Hsl. pose proof Hc as [Hsys Ht _].
  destruct (sys_step me B0 t (k_s k) w Hsys Hcl) as [[Hi' _ _ _] Hreq]; [by rewrite Hv|].
  apply core_down; try done; [| |by rewrite Hv].
  - apply (slots_frame me (k_c k) _ (k_s k)); [apply Ht|done|..]; unfold caller; cbn; by rewrite Hv.
  - intros u p _. unfold slot. by rewrite Hsl.
Qed.

(** A slot given up, and its port freed. *)
Lemma core_free k i o p :
  kcore k -> idle k -> g_reply_slots (k_c k) !! i = Some (mk_reply_slot o p) -> p <> 0 ->
  kcore (set_cw (set_slots (<[i := mk_reply_slot 0 0]> (g_reply_slots (k_c k))) (k_c k))
    (FreeSysPort p (s_w (k_s k))) k).
Proof.
  intros Hc Hidle Hl Hp0. pose proof Hc as [[Hi _ _ _] [[Hlen Hso Hon] _ _] _].
  pose proof (free_port_law p (s_w (k_s k))) as Hv.
  assert (Hlt : (i < length (g_reply_slots (k_c k)))%nat) by by eapply lookup_lt_Some.
  assert (Ho : o <> 0 /\ caller me o (k_s k) /\ fst (k_owner (vw (k_s k)) p) = o).
  { destruct (Hso o p) as [[_ ?]|(Hcl & _ & _ & ?)]; [by eapply list_elem_of_lookup_2|done|].
    split; [apply Hcl|done]. }
  destruct Ho as (Ho0 & Hcl & Hown). destruct (caller_outside _ _ _ Hcl) as [Hout _].
  rewrite <- Hown in Hout.
  destruct (closed_inv me B0 p (k_s k) (FreeSysPort p (s_w (k_s k))) Hi Hv Hout) as [Hi' Hreq];
    [by apply idle_unneeded|].
  assert (Hat : forall j x, <[i := mk_reply_slot 0 0]> (g_reply_slots (k_c k)) !! j = Some x ->
    x = mk_reply_slot 0 0 \/ (j <> i /\ g_reply_slots (k_c k) !! j = Some x)).
  { intros j x. destruct (decide (j = i)) as [->|Hne].
    - rewrite list_lookup_insert_eq by done. intros [= <-]. by left.
    - rewrite list_lookup_insert_ne by done. by right. }
  apply core_down; try done.
  - split; cbn.
    + by rewrite length_insert.
    + intros u q [j Hj]%list_elem_of_lookup. destruct (Hat j _ Hj) as [[= -> ->]|[Hne Hq]]; [by left|].
      destruct (Hso u q) as [?|(Hcu & Hq0 & Hqp & Hqo)]; [by eapply list_elem_of_lookup_2|by left|right].
      rewrite Hv. kv. split_and!; [by unfold caller; cbn; rewrite Hv|done| |done].
      apply elem_of_difference. split; [done|]. rewrite elem_of_singleton. intros ->. apply Hne.
      eapply Hon; [exact Hq|exact Hl|cbn; congruence|cbn; congruence].
    + intros j j' x y [->|[_ Hx]]%Hat; [done|]. intros [->|[_ Hy]]%Hat; [done|]. by eapply Hon.
  - intros u q Hu [j Hj]%list_elem_of_lookup. destruct (Hat j _ Hj) as [[= -> _]|[_ Hq]]; [done|].
    by eapply list_elem_of_lookup_2.
  - by rewrite Hv.
Qed.
Lemma idle_in_rep k u : idle k -> in_rep (k_pc k u) = false.
Proof. intros Hi. specialize (Hi u). by destruct (k_pc k u). Qed.

Lemma kdown_start k t :
  kinv k -> caller me t (k_s k) -> (forall u, exists rv, k_pc k u = KIdle rv) -> kdown t DChk k.
Proof.
  intros Hk Hc Hn. assert (Hidle : idle k) by (intros u; destruct (Hn u) as [rv Hu]; by rewrite Hu).
  pose proof Hk as [_ [Hb He Hr] _ _]. split; try done; [by apply kinv_core| |].
  - eapply counts_same; [exact Hr|]. intros u. cbn. rewrite idle_in_rep by done. apply andb_false_r.
  - cbn. lia.
Qed.

Lemma kdown_own k t d s' :
  kdown t d k -> own_step os me buf (k_s k) s' ->
  kdown t d (mk_ksys s' (k_c k) (k_pc k) (k_arg k) (k_from k) (k_pos k) (k_log k)).
Proof.
  intros [Hc Hidle Hcl Hb He Hr Hf] Hs. pose proof (own_sems os me buf _ _ Hs) as Hse.
  split; cbn; rewrite ?Hse; try done.
  - by apply (core_own os me buf B0).
  - by apply (own_caller os me buf B0 k).
Qed.

(** The library's globals and the world after a step that leaves the tasks alone. *)
Lemma kdown_next k t d d' c w o :
  kdown t d k -> kcore (set_cw c w k) -> both_init c -> k_tasks (view w) = k_tasks (vw (k_s k)) ->
  sems w g_engine_port_sem = sems (s_w (k_s k)) g_engine_port_sem ->
  sem_did t o (sems (s_w (k_s k)) g_reply_sem) (sems w g_reply_sem) ->
  (if in_down d' then 1 else 0)%nat = apply_op o (if in_down d then 1 else 0)%nat ->
  (forall i x, g_reply_slots c !! i = Some x -> (i < freed d')%nat -> x = mk_reply_slot 0 0) ->
  kdown t d' (set_cw c w k).
Proof.
  intros [Hc Hidle Hcl Hb He Hr Hf] Hc' Hb' Hv Hse Hd Ho Hf'. split; cbn; rewrite ?Hse; try done.
  - unfold caller. cbn. by rewrite Hv.
  - eapply counts_step; [exact Hr|exact Hd|..].
    + intros u Hu. cbn. by rewrite bool_decide_false by done.
    + cbn. by rewrite bool_decide_true by done.
Qed.

Lemma kdown_end k t d c w :
  kdown t d (set_cw c w k) -> in_down d = false -> kinv (set_cw c w k).
Proof.
  intros [[? ? ?] Hidle _ Hb He Hr _] Hd. split; try done. split; [done..|].
  eapply counts_same; [exact Hr|]. intros u. cbn. rewrite Hd, andb_false_r. by apply idle_in_rep.
Qed.

Lemma set_cw_id k : set_cw (k_c k) (s_w (k_s k)) k = k.
Proof. by destruct k as [[] ? ? ? ? ? ?]. Qed.

(** *** The step *)

Lemma down_defined k t d : kdown t d k -> down_step t d (k_c k) (s_w (k_s k)) <> DUndefined.
Proof.
  intros [[_ Ht _] _ _ _ _ _ _]. destruct d; cbn [down_step]; try done.
  - by destruct (ObtainSemaphore _ _ _).
  - destruct (Nat.ltb_spec i 16) as [Hi|]; [|done]. rewrite <- (so_len _ _ _ (to_slots _ _ Ht)) in Hi.
    apply lookup_lt_is_Some in Hi as [x ->]. by destruct (port x =? 0).
Qed.

Lemma kdown_free k t i d' c w :
  kdown t (DFree i) k -> down_step t (DFree i) (k_c k) (s_w (k_s k)) = DGo d' c w ->
  exists d1, d' = Some d1 /\ kdown t d1 (set_cw c w k).
Proof.
  intros Hk Hgo. pose proof Hk as [Hc Hidle Hcl Hb He Hr Hf]. cbn [down_step] in Hgo.
  pose proof (kc_tasks _ _ _ _ Hc) as Ht. pose proof (so_len _ _ _ (to_slots _ _ Ht)) as Hlen.
  destruct (Nat.ltb_spec i 16) as [Hi|Hi].
  - destruct (g_reply_slots (k_c k) !! i) as [[o p]|] eqn:Hl; [|done]. cbn [port] in Hgo.
    destruct (Z.eqb_spec p 0) as [->|Hp]; injection Hgo as <- <- <-; exists (DFree (S i)); (split; [done|]).
    + rewrite set_cw_id. split; try done. intros j x Hx Hj. cbn in Hj.
      destruct (decide (j = i)) as [->|Hne]; [|apply (Hf j); [done|cbn; lia]].
      rewrite Hl in Hx. injection Hx as <-.
      destruct (so_slot _ _ _ (to_slots _ _ Ht) o 0) as [[-> _]|(_ & ? & _)]; [|done..].
      by eapply list_elem_of_lookup_2.
    + pose proof (port_sems _ (s_w (k_s k)) (pc_free_port p)) as Hse. cbv beta in Hse.
      apply (kdown_next k t (DFree i) _ _ _ Keep); rewrite ?Hse; try done.
      * by eapply core_free.
      * rewrite free_port_law. done.
      * apply did_keep. apply Hr.
      * intros j x Hx Hj. cbn in Hx, Hj. destruct (decide (j = i)) as [->|Hne].
        -- rewrite list_lookup_insert_eq in Hx by (by eapply lookup_lt_Some). by injection Hx as <-.
        -- rewrite list_lookup_insert_ne in Hx by done. apply (Hf j); [done|cbn; lia].
  - injection Hgo as <- <- <-. exists DRel. split; [done|]. rewrite set_cw_id.
    split; try done. intros j x Hx Hj. apply (Hf j); [done|]. cbn in *. lia.
Qed.

Lemma kdown_step k t d d' c w :
  kdown t d k -> down_step t d (k_c k) (s_w (k_s k)) = DGo d' c w ->
  match d' with
  | Some d' => kdown t d' (set_cw c w k)
  | None => kinv (set_cw c w k) /\ g_reply_slots c = replicate 16 (mk_reply_slot 0 0)
  end.
Proof.
  intros Hk Hgo. destruct d as [| |i| |]; [| |by destruct (kdown_free _ _ _ _ _ _ Hk Hgo) as (? & -> & ?)| |];
    pose proof Hk as [Hc Hidle Hcl Hb He Hr Hf]; cbn [down_step] in Hgo.
  - rewrite (proj2 Hb) in Hgo. injection Hgo as <- <- <-. rewrite set_cw_id. by split.
  - destruct (ObtainSemaphore _ _ _) as [w1|] eqn:Ho; [|done]. injection Hgo as <- <- <-.
    destruct (sem_obtain_law _ _ _ _ Ho) as (st & Hst & Hse & Hv).
    apply (kdown_next k t DObt _ _ _ Take); try done.
    + by apply (core_sem t).
    + by rewrite Hv.
    + rewrite Hse. by fn_simpl.
    + rewrite Hse. fn_simpl. apply did_take; [apply Hr|done].
  - injection Hgo as <- <- <-.
    destruct (did_drop t (sems (s_w (k_s k)) g_reply_sem)) as (st & Hst & Hd); [apply Hr| |].
    { eapply counts_inside; [exact Hr|]. cbn. by rewrite bool_decide_true. }
    destruct (sem_release_law _ _ _ _ Hst) as [Hse Hv].
    apply (kdown_next k t DRel _ _ _ Drop); try done.
    + by apply (core_sem t).
    + by rewrite Hv.
    + rewrite Hse. by fn_simpl.
    + rewrite Hse. by fn_simpl.
  - injection Hgo as <- <- <-. split.
    + apply (kdown_end _ t DClear); [|done].
      apply (kdown_next k t DClear _ _ _ Keep); try done.
      * by apply (core_sem t).
      * apply did_keep. apply Hr.
    + change (g_reply_slots (set_engine_port 0 (k_c k))) with (g_reply_slots (k_c k)).
      apply list_eq. intros j. pose proof (so_len _ _ _ (to_slots _ _ (kc_tasks _ _ _ _ Hc))) as Hlen.
      destruct (decide (j < 16)%nat) as [Hj|Hj].
      * rewrite lookup_replicate_2 by done. pose proof Hj as Hj'. rewrite <- Hlen in Hj'.
        apply lookup_lt_is_Some in Hj' as [x Hx]. rewrite Hx. f_equal. by apply (Hf j).
      * rewrite !lookup_ge_None_2; [done|by rewrite length_replicate; lia|lia].
Qed.

(** ** Both together *)

Definition qinv (q : qsys (W := W)) : Prop :=
  match q with (k, None) => kinv k | (k, Some (t, d)) => kdown t d k end.
End down.
