(* ===== verification/ClientLin.v ===== *)
(** * The calls of the clients are served one after another

    Every call that returns had its request served at a place of its own in the
    order of service, between its beginning and its end, and returns the reply of
    that place; at most one task is in each section, no step is undefined, no reply
    goes to another task; and every posted call returns unless its message was in
    the queue when the engine freed its port. *)

From S2P Require Import Prelude Ipc FdTable FdSpec FdRefine Engine Tasks EngineTasks EngineInv.
From S2P Require Import FdLinks FdStream EngineProps EngineMoves EngineLaunch EngineProc.
From S2P Require Import OsalLock Client ClientTasks ClientFrame ClientInv ClientKeep ClientDown.

Section linear.
Context {W : Type} `{TaskLaws W, !Sems W, !SemView W, !SemLaws W, !SemFrame W}.
Context (os : sdk) (me buf : Z).
Implicit Types (s : sys W) (k : ksys W) (c : client) (w : W).

Abbreviation vw s := (view (s_w s)).
Abbreviation kinv0 w := (kinv os me (k_bits (view w) me)).
Abbreviation qinv0 w := (qinv os me (k_bits (view w) me)).

Lemma kinv_act B0 k k' : kinv os me B0 k -> kact os me buf k k' -> kinv os me B0 k'.
Proof.
  intros Hk Hs. revert Hk.
  destruct Hs as [k s' Hs|k t rv x Hpc Hc Hwf Hop|k t pc c w Hput Hgo|k t e p pc c w Hpc Ho -> Hgo]; intros Hk.
  - by apply (kinv_own os me buf).
  - by eapply kinv_call.
  - by apply kinv_step.
  - cbn [ipc_step] in Hgo. injection Hgo as <- <- <-. by apply kinv_put.
Qed.

(** ** From boot *)

Lemma kinv_boot c w : me ∈ k_tasks (view w) -> inited c w -> kinv0 w (kboot c w).
Proof.
  intros Hme (Hi1 & Hi2 & Hsl & Hs1 & Hs2).
  assert (Hslot : forall t p, slot c t p -> t = 0 /\ p = 0).
  { intros t p. unfold slot. rewrite Hsl. cbn [client_init g_reply_slots].
    intros [Heq _]%elem_of_replicate. by injection Heq. }
  split.
  - split; [by apply boot_inv| |done|by constructor]. by exists [], [], engine_init.
  - split; [done|..]; cbn; rewrite ?Hs1, ?Hs2; done.
  - split; try done. split; cbn.
    + rewrite Hsl. done.
    + intros t p Htp. left. by apply Hslot.
    + intros i j x y Hx _ _ Hn. rewrite Hsl in Hx. apply lookup_replicate in Hx as [-> _]. done.
  - split; try done.
    + intros t p Ht Htp. by apply Hslot in Htp as [? _].
    + cbn. split; constructor.
Qed.

Lemma qinv_act B0 q q' : qinv os me B0 q -> qact os me buf q q' -> qinv os me B0 q'.
Proof.
  intros Hq Hs. revert Hq.
  destruct Hs as [k k' Hs|k s' [[t d]|] Hs|k t Hc Hn|k t d d' c w Hgo]; cbn [qinv]; intros Hk.
  - by eapply kinv_act.
  - by eapply kdown_own.
  - by eapply kinv_own.
  - by apply kdown_start.
  - pose proof (kdown_step os me B0 k t d d' c w Hk Hgo) as Hn. destruct d'; [exact Hn|apply Hn].
Qed.

Lemma qinv_reach c w q :
  me ∈ k_tasks (view w) -> inited c w -> rtc (qact os me buf) (qboot c w) q -> qinv0 w q.
Proof.
  intros Hme Hi Hr. apply (rtc_ind_r (R := qact os me buf) (qinv0 w) (qboot c w)); [| |exact Hr].
  - by apply kinv_boot.
  - intros q1 q2 _ Hs Hq. by eapply qinv_act.
Qed.

Lemma qinv_core B0 k d : qinv os me B0 (k, d) -> kcore os me B0 k.
Proof. destruct d as [[t d]|]; cbn; [apply kd_core|apply kinv_core]. Qed.

(** Nobody calls while the library is shut down. *)
Lemma qinv_calling B0 k d t :
  qinv os me B0 (k, d) -> calling (k_pc k t) = true -> d = None /\ kinv os me B0 k.
Proof. destruct d as [[u d]|]; [|done]. intros Hk Hc. by rewrite (kd_idle _ _ _ _ _ _ Hk t) in Hc. Qed.

(** ** One after another *)

Lemma served_at s d ms rs :
  done_ok s d -> s_taken s = ms ++ to_dispatch (s_e s) ->
  zip (fst <$> ms) rs = s_replied s ++ to_reply (s_e s) ->
  ms !! d_pos d = Some (d_sent d) /\ rs !! d_pos d = Some (d_reply d).
Proof.
  intros (Hp & Hto & Ht & Hr) Htk Hz.
  assert (Hi : zip (fst <$> ms) rs !! d_pos d = Some (fst (d_sent d), d_reply d))
    by (rewrite Hz; by apply lookup_app_l_Some).
  apply lookup_zip_Some in Hi as [Hm Hrs]. split; [|done]. rewrite list_lookup_fmap in Hm.
  destruct (ms !! d_pos d) as [y|] eqn:Hy; [|done]. rewrite <- Ht, Htk. symmetry.
  by apply lookup_app_l_Some.
Qed.

(** The served messages are well formed, and the specification answers them so. *)
Lemma served_spec s ms rs g0 l :
  taken_wf s -> dispatch_all (snd <$> ms) engine_init = Some (rs, g0) -> s_taken s = ms ++ l ->
  spec_run (sockops (snd <$> ms)) (abs g_fdtable_init) =
    (answers (snd <$> ms) rs, abs (g_fdtable g0)).
Proof.
  unfold taken_wf. intros Hwf Hd Ht. rewrite Ht, Forall_app in Hwf. destruct Hwf as [Hwf _].
  destruct (serve_all (snd <$> ms) engine_init) as (rs2 & g2 & Hd2 & _ & _ & Hspec);
    [apply wf_init|by apply Forall_fmap|]. rewrite Hd in Hd2. injection Hd2 as <- <-. exact Hspec.
Qed.

(** C12. The calls of any number of tasks are linearizable.  From an initialised
    library, in every interleaving
    of the tasks inside [netstack_ipc_call], call into the system by call, with the
    engine, with Start and Stop (by a task that does not call itself), and with
    [netstack_client_shutdown] at times when
    nobody calls, as long as no message is put to a port that is gone, there is one sequence of requests, a prefix of the messages the
    engine has taken, that the socket specification serves from boot one after
    another; every call that returned a reply has a place of its own
    in it, where its message and its reply are, taken after the call began and
    answered before it returned. *)
Theorem client_calls_linearize c w k down :
  me ∈ k_tasks (view w) -> inited c w -> rtc (qact os me buf) (qboot c w) (k, down) ->
  exists ms rs g0,
    ms `prefix_of` s_taken (k_s k) /\
    dispatch_all (snd <$> ms) engine_init = Some (rs, g0) /\
    spec_run (sockops (snd <$> ms)) (abs g_fdtable_init) =
      (answers (snd <$> ms) rs, abs (g_fdtable g0)) /\
    NoDup (d_pos <$> k_log k) /\
    forall d, d ∈ k_log k ->
      (d_from d <= d_pos d < d_to d)%nat /\
      ms !! d_pos d = Some (d_sent d) /\ rs !! d_pos d = Some (d_reply d).
Proof.
  intros Hme Hi Hr. destruct (qinv_core _ _ _ (qinv_reach c w _ Hme Hi Hr)) as [[_ Hseq _ Hwf] _ Hm].
  destruct Hseq as (ms & rs & g0 & Hd & Hlen & Hf & Ht & Hz). exists ms, rs, g0.
  split; [rewrite Ht; by apply prefix_app_r|]. split; [done|]. split; [by eapply served_spec|].
  destruct (me_log _ _ Hm) as [Hnd Hall]. split; [done|]. intros d Hd'.
  rewrite Forall_forall in Hall. specialize (Hall d Hd'). split; [apply Hall|].
  by apply (served_at (k_s k)).
Qed.

(** ** Streams *)

Lemma spec_run_app os1 os2 a :
  spec_run (os1 ++ os2) a =
  (fst (spec_run os1 a) ++ fst (spec_run os2 (snd (spec_run os1 a))),
   snd (spec_run os2 (snd (spec_run os1 a)))).
Proof.
  revert a. induction os1 as [|o os1 IH]; intros a; [cbn [app spec_run fst snd]; by destruct (spec_run os2 a)|].
  cbn [app spec_run]. destruct (spec_step o a) as [x a1]. rewrite IH.
  by destruct (spec_run os1 a1).
Qed.

Lemma answers_app rs1 rs2 rs1' rs2' :
  length rs1 = length rs1' -> answers (rs1 ++ rs2) (rs1' ++ rs2') = answers rs1 rs1' ++ answers rs2 rs2'.
Proof.
  revert rs1'. induction rs1 as [|r rs1 IH]; intros [|r' rs1']; cbn; try done. intros [= Hl].
  rewrite IH by done. by destruct (decode_op r).
Qed.

Lemma length_spec_run l a : length (fst (spec_run l a)) = length l.
Proof.
  revert a. induction l as [|o l IH]; intros a; [done|]. cbn [spec_run].
  destruct (spec_step o a) as [x a1]. specialize (IH a1). destruct (spec_run l a1). cbn in *. lia.
Qed.

Lemma length_answers rs rs' : length rs = length rs' -> length (answers rs rs') = length (sockops rs).
Proof.
  revert rs'. induction rs as [|r rs IH]; intros [|r' rs']; cbn; try done. intros [= Hl].
  destruct (decode_op r); cbn; by rewrite IH.
Qed.

(** A served sequence, cut anywhere. *)
Lemma stream_cut rs1 rs2 rs1' rs2' a' (s p : Z) :
  spec_run (sockops (rs1 ++ rs2)) (abs g_fdtable_init) = (answers (rs1 ++ rs2) (rs1' ++ rs2'), a') ->
  length rs1 = length rs1' ->
  connection (booted rs1) s p ->
  Forall (fun o => o <> OpClose s /\ o <> OpClose p) (sockops rs2) ->
  connection a' s p /\
  inflight (booted rs1) p ++ sent_bytes s (sockops rs2) (answers rs2 rs2') =
    recv_bytes p (sockops rs2) (answers rs2 rs2') ++ inflight a' p.
Proof.
  rewrite sockops_app, spec_run_app. intros Hrun Hl Hp Hnc.
  fold (booted rs1) in Hrun. rewrite answers_app in Hrun by done. injection Hrun as Hans <-.
  apply app_inj_1 in Hans as [_ <-]; [|by rewrite length_spec_run, length_answers].
  pose proof (stream_run _ _ s p Hp Hnc) as Hst.
  by destruct (spec_run (sockops rs2) (booted rs1)) as [xs a2].
Qed.

(** C15. Streams are intact under concurrency.  From an initialised library, in every
    interleaving of any number
    of tasks, the engine, Start, Stop and shutdowns of the library there is a
    sequence of requests with a place for each call that returned, such that at every point of
    it where two sockets are a connection (paired, with no backlog and no third
    socket that refers to them, [FdStream.connection]), and as long as the requests after it close neither, the
    bytes that the sends on one end were told
    to be accepted, after those in flight, are those that the receives on the other
    end were given, followed by those in the engine's buffer now. *)
Theorem client_stream c w k down :
  me ∈ k_tasks (view w) -> inited c w -> rtc (qact os me buf) (qboot c w) (k, down) ->
  exists ms rs, s_taken (k_s k) = ms ++ to_dispatch (s_e (k_s k)) /\
    (forall d, d ∈ k_log k -> ms !! d_pos d = Some (d_sent d) /\ rs !! d_pos d = Some (d_reply d)) /\
    forall n (s p : Z), let rs1 := snd <$> take n ms in let rs2 := snd <$> drop n ms in
      connection (booted rs1) s p ->
      Forall (fun o => o <> OpClose s /\ o <> OpClose p) (sockops rs2) ->
      let now := abs (g_fdtable (s_g (k_s k))) in let xs := answers rs2 (drop n rs) in
      connection now s p /\
      inflight (booted rs1) p ++ sent_bytes s (sockops rs2) xs =
        recv_bytes p (sockops rs2) xs ++ inflight now p.
Proof.
  intros Hme Hi Hr. destruct (qinv_core _ _ _ (qinv_reach c w _ Hme Hi Hr)) as [[_ Hseq _ Hwf] _ Hm].
  pose proof Hseq as (ms & rs & g0 & Hd & Hlen & Hf & Ht & Hz).
  pose proof (served_spec _ _ _ _ _ Hwf Hd Ht) as Hspec. rewrite Hf in Hspec.
  exists ms, rs. split; [done|]. split.
  - intros d Hd'. destruct (me_log _ _ Hm) as [_ Hall]. rewrite Forall_forall in Hall.
    by apply (served_at (k_s k)); [apply Hall|..].
  - intros n s p. cbv zeta. intros Hp Hnc. apply (stream_cut _ _ (take n rs)); [|..|done|done].
    + by rewrite <- fmap_app, !take_drop.
    + by rewrite length_fmap, !length_take, Hlen.
Qed.

(** ** Sections and ports *)

(** A step of a call blocks, or is one of the relation, unless it puts a message to a
    port that is gone. *)
Lemma call_goes B0 k t :
  kinv os me B0 k -> calling (k_pc k t) = true -> ~ dangling k t ->
  ipc_step os t (k_arg k t) (k_pc k t) (k_c k) (s_w (k_s k)) = KBlocked \/
  exists pc c' w' k', ipc_step os t (k_arg k t) (k_pc k t) (k_c k) (s_w (k_s k)) = KGo pc c' w' /\
    kact os me buf k k' /\ k_c k' = c' /\ s_w (k_s k') = w' /\ k_pc k' t = pc.
Proof.
  intros Hk Hc Hn. pose proof (step_defined os me t (k_arg k t) (k_pc k t) (k_c k) (k_s k)) as Hdef.
  specialize (Hdef (may_step_running os me B0 k t Hk Hc)).
  destruct (ipc_step os t (k_arg k t) (k_pc k t) (k_c k) (s_w (k_s k))) as [| |pc c' w'] eqn:Hs;
    [by left|by destruct Hdef|right]. destruct (putting (k_pc k t)) eqn:Hput.
  - destruct (k_pc k t) as [| | | | | | | | | | | | | | |e p| |] eqn:Hpc; try done.
    destruct (decide (open (s_e (k_s k)) = true /\ e = g_request_port (s_g (k_s k)))) as [[Ho He]|Hd].
    + exists pc, c', w'. eexists. split; [done|].
      split; [exact (kact_put os me buf k t e p pc c' w' Hpc Ho He Hs)|]. cbn. by rewrite fn_lookup_insert.
    + destruct Hn. by exists e, p.
  - do 4 eexists. split; [done|]. split; [by apply kact_step|]. cbn. by rewrite fn_lookup_insert.
Qed.

(** C13. Client calls do not disturb each other.  From a library that
    [netstack_client_init] has initialised (without that, the first calls can race:
    [ClientSim.lazy_init_races]), in every such interleaving a step of a call blocks or goes on as
    the relation says, with one exception: the message is put to a port that the engine no longer
    has, which Stop can bring about ([ClientSim.stale_engine_port]; while nobody stops the engine it does
    not happen, see ClientLive.v) and is not defined.
    At most one task is between obtaining and releasing each of the library's
    semaphores; a reply port is live, of one task only, and in its owner's slot; no
    message waits at the port of a task that does not wait; and at the port of one
    that waits there is nothing or the one reply to its request.  And while a task
    shuts the library down no step of it is undefined, nobody is in a call, and when
    it returns all sixteen slots are free. *)
Theorem client_calls_safe c w k down :
  me ∈ k_tasks (view w) -> inited c w -> rtc (qact os me buf) (qboot c w) (k, down) ->
  (forall t, calling (k_pc k t) = true -> ~ dangling k t ->
     ipc_step os t (k_arg k t) (k_pc k t) (k_c k) (s_w (k_s k)) = KBlocked \/
     exists pc c' w' k', ipc_step os t (k_arg k t) (k_pc k t) (k_c k) (s_w (k_s k)) = KGo pc c' w' /\
       kact os me buf k k' /\ k_c k' = c' /\ s_w (k_s k') = w' /\ k_pc k' t = pc) /\
  (forall t u, in_eng (k_pc k t) = true -> in_eng (k_pc k u) = true -> t = u) /\
  (forall t u, in_rep (k_pc k t) = true -> in_rep (k_pc k u) = true -> t = u) /\
  (forall t p, t <> 0 -> slot (k_c k) t p ->
     p <> 0 /\ p ∈ k_ports (vw (k_s k)) /\ fst (k_owner (vw (k_s k)) p) = t /\
     (forall u, u <> 0 -> slot (k_c k) u p -> u = t) /\
     (wait_at (k_pc k t) = None -> k_queue (vw (k_s k)) p = [])) /\
  (forall t p, wait_at (k_pc k t) = Some p ->
     slot (k_c k) t p /\
     (k_queue (vw (k_s k)) p = [] \/
      exists y, k_queue (vw (k_s k)) p = [y] /\
        s_replied (k_s k) !! k_pos k t = Some y /\
        s_taken (k_s k) !! k_pos k t = Some (request_of os k t p))) /\
  (forall t d, down = Some (t, d) ->
     down_step t d (k_c k) (s_w (k_s k)) <> DUndefined /\
     (forall u, calling (k_pc k u) = false) /\
     forall c' w', down_step t d (k_c k) (s_w (k_s k)) = DGo None c' w' ->
       g_reply_slots c' = replicate 16 (mk_reply_slot 0 0)).
Proof.
  intros Hme Hi Hr. pose proof (qinv_reach c w _ Hme Hi Hr) as Hqi.
  pose proof (qinv_core _ _ _ Hqi) as [[_ _ Hser _] Ht Hm]. split_and!.
  - intros t Hc Hd. destruct (qinv_calling _ _ _ _ Hqi Hc) as [_ Hk]. by eapply call_goes.
  - intros t u Htc Huc. destruct (qinv_calling _ _ _ t Hqi (calling_eng _ Htc)) as [_ Hk].
    eapply (counts_alone _ (fun t => in_eng (k_pc k t))); [apply (lo_eng _ (ki_locks _ _ _ _ Hk))|done..].
  - intros t u Htc Huc. destruct (qinv_calling _ _ _ t Hqi (calling_rep _ Htc)) as [_ Hk].
    eapply (counts_alone _ (fun t => in_rep (k_pc k t))); [apply (lo_rep _ (ki_locks _ _ _ _ Hk))|done..].
  - intros t p Ht0 Hs. destruct (slot_owner me _ _ t p (to_slots _ _ Ht) Hs Ht0) as (_ & ? & ? & ?).
    split_and!; try done.
    + intros u Hu Hsu. by eapply (slot_task_unique me); [apply (to_slots _ _ Ht)|..].
    + by apply (me_quiet _ _ Hm).
  - intros t p Hw. destruct (wait_slot me k t p Ht Hw) as (Hs & _). split; [done|].
    destruct (me_wait _ _ Hm t p Hw) as [(Hl & Hq & _)|(_ & Hq & _)]; [|by left].
    destruct (s_replied (k_s k) !! k_pos k t) as [y|] eqn:Hy; [right|by left].
    exists y. split_and!; try done. rewrite <- Hl. symmetry. apply line_taken.
    apply lookup_lt_Some in Hy. apply in_service_length in Hser. lia.
  - intros t d ->. cbn [qinv] in Hqi. split; [by eapply down_defined|]. split; [apply Hqi|].
    intros c' w' Hgo. by apply (kdown_step os me _ k t d None c' w' Hqi Hgo).
Qed.

(** ** Posted calls return *)

(** Steps of the engine, of the launcher and of task [t]. *)
Inductive kprog (t : Z) : ksys W -> ksys W -> Prop :=
  | kprog_own k s' :
      task_step os me buf (k_s k) s' ->
      kprog t k (mk_ksys s' (k_c k) (k_pc k) (k_arg k) (k_from k) (k_pos k) (k_log k))
  | kprog_self k pc c w :
      putting (k_pc k t) = false ->
      ipc_step os t (k_arg k t) (k_pc k t) (k_c k) (s_w (k_s k)) = KGo pc c w ->
      kprog t k (moved k t pc c w (k_log k ++ returned os k t pc)).

Definition replied k (t : Z) : Prop := exists r, k_pc k t = KIdle (Some (0, r)).
Definition lost k (x : message) : Prop := x ∈ s_lost (k_s k).

Lemma kprog_act t k k' : kprog t k k' -> kact os me buf k k'.
Proof. intros []; [by apply kact_own, own_task|by apply kact_step]. Qed.

(** Task [t] waits at [p] for the answer to [x], or the call is over. *)
Definition underway B0 (t p : Z) (x : message) k : Prop :=
  kinv os me B0 k /\ request_of os k t p = x /\
  (wait_at (k_pc k t) = Some p \/ replied k t \/ lost k x).

Lemma underway_step B0 t p x k k' : underway B0 t p x k -> kprog t k k' -> underway B0 t p x k'.
Proof.
  intros (Hk & Hx & Hw) Hs. pose proof (kinv_act _ _ _ Hk (kprog_act _ _ _ Hs)) as Hk'.
  split; [done|]. revert Hk Hx Hw Hk'.
  destruct Hs as [k s' Hs|k pc c w Hput Hgo]; intros Hk Hx Hw _; (split; [done|]).
  - destruct Hw as [?|[?|?]]; [by left|by right; left|]. right. right. unfold lost in *. cbn.
    destruct (own_messages os me buf B0 _ _ (sy_inv _ _ _ (ki_sys _ _ _ _ Hk)) (own_task _ _ _ _ _ Hs))
      as (d & a & -> & _). apply elem_of_app. by left.
  - assert (Hcal : calling (k_pc k t) = true) by (by destruct (k_pc k t)).
    destruct Hw as [Hw|[[r Hr]|?]]; [|by rewrite Hr in Hcal|by right; right].
    pose proof (sd_effect _ _ _ _ _ _ _ (running_stepped os me B0 k t pc c w Hk Hcal Hput Hgo)) as He.
    unfold replied. cbn. fn_simpl.
    inversion He as [? ? ? _ _ _ _ Hwt|? ? ? ? Hpc|q y l Hpc Hq]; subst.
    + left. by rewrite Hwt.
    + by rewrite Hpc in Hw.
    + right. left. eauto.
Qed.

Lemma framed_steps B0 t s w :
  inv me B0 s -> outside me t s -> framed t (vw s) (view w) ->
  steps_left (set_world w s) = steps_left s.
Proof.
  intros Hi Hout Hf. unfold steps_left. rewrite (framed_requests me B0 t s w Hi Hout Hf).
  assert (Hwk : woken (set_world w s) = woken s); [|by rewrite Hwk].
  unfold woken. cbn. destruct (open (s_e s)) eqn:Ho; [|done].
  destruct (request_port_other me s (proj1 Hi) Ho) as (Hp & _). destruct Hout as [_ Hn].
  rewrite (fr_owner _ _ _ Hf _ Hp), (fr_sig _ _ _ Hf); [done|].
  intros Heq. destruct Hn; [by destruct (s_e s)|done].
Qed.

Definition wait_rank (pc : kpc) : nat := match pc with KWait _ => 2 | KGet _ => 1 | _ => 0 end.
Definition call_left (t : Z) k : nat := steps_left (k_s k) + wait_rank (k_pc k t).

Lemma kprog_decreases B0 t p x k k' :
  underway B0 t p x k -> wait_at (k_pc k t) = Some p -> kprog t k k' ->
  (call_left t k' < call_left t k)%nat.
Proof.
  intros (Hk & _) Hw Hs. revert Hk Hw. unfold call_left.
  destruct Hs as [k s' Hs|k pc c w Hput Hgo]; intros Hk Hw; cbn [k_s k_pc moved].
  - pose proof (steps_decrease os me buf B0 _ _ (sy_inv _ _ _ (ki_sys _ _ _ _ Hk)) Hs). lia.
  - assert (Hcal : calling (k_pc k t) = true) by (by eapply calling_wait).
    pose proof (running_stepped os me B0 k t pc c w Hk Hcal Hput Hgo) as Hst.
    destruct (to_call _ _ (ki_tasks _ _ _ _ Hk) t Hcal) as (Hc & _).
    destruct (caller_outside me t _ Hc) as [Hout _].
    rewrite (framed_steps B0 t _ w (sy_inv _ _ _ (ki_sys _ _ _ _ Hk)) Hout (sd_framed _ _ _ _ _ _ _ Hst)).
    fn_simpl. destruct (k_pc k t); try done; cbn [ipc_step] in Hgo.
    + destruct (WaitPort _ _); [|done]. injection Hgo as <- <- <-. cbn. lia.
    + destruct (GetMsg _ _) as [[y|] w1]; [|done]. injection Hgo as <- <- <-. cbn. lia.
Qed.

Lemma kprog_goes B0 t p x k :
  underway B0 t p x k -> wait_at (k_pc k t) = Some p -> ~ lost k x -> exists k', kprog t k k'.
Proof.
  intros (Hk & Hx & _) Hw Hnl. pose proof Hk as [[Hi _ Hser _] _ Ht Hm].
  destruct (me_wait _ _ Hm t p Hw) as [(Hl & Hq & _)|(Hlo & _)]; [|by rewrite Hx in Hlo].
  assert (Hself : k_queue (vw (k_s k)) p <> [] -> exists k', kprog t k k').
  { intros Hne. assert (Hput : putting (k_pc k t) = false) by (by destruct (k_pc k t)).
    assert (Hgo : exists pc c w, ipc_step os t (k_arg k t) (k_pc k t) (k_c k) (s_w (k_s k)) = KGo pc c w).
    { destruct (k_pc k t); try done; cbn in Hw; injection Hw as ->; cbn [ipc_step].
      - pose proof (wait_port_blocked p (s_w (k_s k))) as Hb. destruct (WaitPort _ _); [by eauto|].
        destruct Hne. by apply Hb.
      - pose proof (get_law p (s_w (k_s k))) as Hg. destruct (GetMsg _ _) as [o w1].
        destruct Hg as [-> _]. destruct (k_queue _ p); [done|]. by eauto. }
    destruct Hgo as (pc & c & w & Hgo). eexists. by eapply kprog_self. }
  destruct (s_replied (k_s k) !! k_pos k t) as [y|] eqn:Hy.
  { apply Hself. by rewrite Hq. }
  apply lookup_ge_None_1 in Hy. apply lookup_lt_Some in Hl. unfold line in Hl. rewrite length_app in Hl.
  unfold in_service in Hser.
  assert (Hd : dead (s_e (k_s k)) = false).
  { destruct (s_e (k_s k)) eqn:Hpc; try done; unfold requests in Hl; rewrite Hpc in Hl; cbn in Hl; lia. }
  destruct (engine_defined os me buf _ _ Hi Hd) as [s' Hs].
  - intros Hpc. right. rewrite Hpc in Hser. intros Hr. rewrite Hr in Hl. cbn in Hl. lia.
  - eexists. by eapply kprog_own.
Qed.

(** With the launcher idle the engine does not leave. *)
Lemma idle_keeps B0 t p x rv k k' :
  underway B0 t p x k -> s_l (k_s k) = LIdle rv -> kprog t k k' ->
  s_l (k_s k') = LIdle rv /\ s_lost (k_s k') = s_lost (k_s k).
Proof.
  intros (Hk & _) Hl Hs. pose proof Hk as [[Hi _ _ _] _ _ _]. revert Hi Hl. clear Hk.
  destruct Hs as [k s' Hs|k pc c w Hput Hgo]; [|done]. intros Hi Hl. cbn.
  destruct Hs as [s e' g' w' a Hs|s l' g' w' o Hs]; [|by rewrite Hl in Hs]. cbn. split; [done|].
  destruct (idle_states _ _ _ _ Hi Hl) as [[(_ & _ & Hd & _) _]|[(_ & _ & Hlp & _) _]]; unfold dropped;
    destruct (s_e s); try done; apply app_nil_r.
Qed.

Lemma replied_dec k t : replied k t \/ ~ replied k t.
Proof.
  unfold replied. destruct (k_pc k t); try (right; by intros [? ?]).
  destruct rv as [[v r]|]; [|right; by intros [? ?]]. destruct (decide (v = 0)) as [->|]; [eauto|].
  right. intros [? ?]. congruence.
Qed.

Lemma lost_dec k x : lost k x \/ ~ lost k x.
Proof. unfold lost. destruct (decide (x ∈ s_lost (k_s k))); auto. Qed.

(** With the launcher idle a call that waits returns, if its message is not lost. *)
Lemma posted_returns B0 k t p rv :
  kinv os me B0 k -> wait_at (k_pc k t) = Some p -> s_l (k_s k) = LIdle rv ->
  ~ lost k (request_of os k t p) -> must_reach (kprog t) (fun k' => replied k' t) k.
Proof.
  intros Hk Hw Hidle Hnl. set (x := request_of os k t p) in *.
  assert (Hu : underway B0 t p x k) by (split_and!; auto).
  apply (must_reach_measure _ _ (fun k => underway B0 t p x k /\ s_l (k_s k) = LIdle rv /\ ~ lost k x)
    (call_left t)); [| | | |done].
  - intros k1. apply replied_dec.
  - intros k1 k2 (Hu1 & Hl1 & Hn1) Hs. destruct (idle_keeps _ _ _ _ _ _ _ Hu1 Hl1 Hs) as [? Hlo].
    split; [by eapply underway_step|]. split; [done|]. unfold lost. by rewrite Hlo.
  - intros k1 (Hu1 & Hl1 & Hn1) Hn. eapply kprog_goes; [done| |done].
    destruct Hu1 as (_ & _ & [?|?]); [done|tauto].
  - intros k1 k2 (Hu1 & Hl1 & Hn1) Hn. eapply kprog_decreases; [done|].
    destruct Hu1 as (_ & _ & [?|?]); [done|tauto].
Qed.

(** C14. A posted call returns.  From any state reachable from an initialised
    library in which a task waits for
    its reply, every schedule of the engine's, the launcher's and that task's steps
    reaches the return of the call or finds its message among those that were
    queued when the engine freed its port; and if it is not among them yet, while
    nobody is in Start or Stop every schedule reaches the return. *)
Theorem client_call_returns c w k down t p :
  me ∈ k_tasks (view w) -> inited c w -> rtc (qact os me buf) (qboot c w) (k, down) ->
  wait_at (k_pc k t) = Some p ->
  must_reach (kprog t) (fun k' => replied k' t \/ lost k' (request_of os k t p)) k /\
  (forall rv, s_l (k_s k) = LIdle rv -> ~ lost k (request_of os k t p) ->
     must_reach (kprog t) (fun k' => replied k' t) k).
Proof.
  intros Hme Hi Hr Hw.
  destruct (qinv_calling _ _ _ t (qinv_reach c w _ Hme Hi Hr) (calling_wait _ _ Hw)) as [_ Hk].
  set (B0 := k_bits (view w) me). set (x := request_of os k t p). split.
  - apply (must_reach_measure _ _ (underway B0 t p x) (call_left t)); [| | | |by split_and!; auto].
    + intros k1. destruct (replied_dec k1 t), (lost_dec k1 x); tauto.
    + intros k1 k2. apply underway_step.
    + intros k1 Hu1 Hn. eapply kprog_goes; [done| |tauto]. destruct Hu1 as (_ & _ & [?|?]); [done|tauto].
    + intros k1 k2 Hu1 Hn. eapply kprog_decreases; [done|]. destruct Hu1 as (_ & _ & [?|?]); [done|tauto].
  - intros rv. by apply (posted_returns B0).
Qed.
End linear.
