(* ===== verification/ClientLive.v ===== *)
(** * Messages go to a live engine

    The library keeps the engine's port in [g_engine_port] and never looks again.
    While nobody stops the engine that is sound: the port that the tasks, the library
    and the system's list know is the one the engine has, so that every message is
    put to a live port, no step of a call is undefined and no message is lost. *)

From S2P Require Import Prelude Ipc FdTable FdSpec FdRefine Engine Tasks EngineTasks EngineInv.
From S2P Require Import EngineMoves EngineLaunch EngineProc OsalLock Client.
From S2P Require Import ClientTasks ClientFrame ClientInv ClientKeep ClientDown ClientLin.

(** Is the launcher in Stop, with an engine to stop? *)
Definition stopping (l : lpc) : bool :=
  match l with TAlloc | TPut _ | TReply _ | TBreak | TWait => true | _ => false end.

Section live.
Context {W : Type} `{TaskLaws W, !Sems W, !SemView W, !SemLaws W, !SemFrame W}.
Context (os : sdk) (me buf : Z).
Implicit Types (s : sys W) (k : ksys W) (c : client) (w : W).

Abbreviation vw s := (view (s_w s)).

(** A step after which nobody is in Stop. *)
Definition qact_up (x y : qsys (W := W)) : Prop :=
  qact os me buf x y /\ stopping (s_l (k_s (fst y))) = false.

(** [e] is the port of the running engine; or null. *)
Definition live s (e : Z) : Prop := open (s_e s) = true /\ e = g_request_port (s_g s).
Definition current s (e : Z) : Prop := e = 0 \/ live s e.

(** What a task has read is the engine's port. *)
Definition holds s (pc : kpc) : Prop :=
  match pc with
  | KEngRel e => current s e
  | KRepChk e | KRepInit e | KRepSet e | KRepObt e | KRepScan e | KRepAlloc e _
  | KRepRel e _ | KPut e _ => live s e
  | _ => True
  end.

Record known k : Prop := mk_known {
  kn_up : stopping (s_l (k_s k)) = false;
  kn_lost : s_lost (k_s k) = [];
  kn_public : current (k_s k) (k_public (vw (k_s k)));
  kn_cached : current (k_s k) (g_engine_port (k_c k));
  kn_task : forall t, holds (k_s k) (k_pc k t)
}.

(** The engine keeps its port. *)
Definition keeps s s' : Prop :=
  open (s_e s) = true -> open (s_e s') = true /\ g_request_port (s_g s') = g_request_port (s_g s).

Lemma live_keeps s s' e : keeps s s' -> live s e -> live s' e.
Proof. intros Hk [Ho ->]. destruct (Hk Ho) as [? Hp]. by split. Qed.

Lemma current_keeps s s' e : keeps s s' -> current s e -> current s' e.
Proof. intros Hk [?|?]; [by left|right; by eapply live_keeps]. Qed.

Lemma holds_keeps s s' pc : keeps s s' -> holds s pc -> holds s' pc.
Proof. intros Hk. destruct pc; cbn; try done; [by apply current_keeps|by apply live_keeps..]. Qed.

(** ** The engine and its launcher *)

Lemma not_freeing (B0 : gset Z) s : inv me B0 s -> stopping (s_l s) = false -> s_e s <> EFree.
Proof.
  intros (_ & ph & Hph & Hl) Hs He. unfold launch_ok, in_phase in *. rewrite He in Hph.
  destruct (s_l s); try discriminate Hs; naive_solver.
Qed.

Lemma dispatch_port r g r' g' :
  dispatch_request r g = Some (r', g') -> g_request_port g' = g_request_port g.
Proof.
  unfold dispatch_request, dispatch_ping, dispatch_shutdown, on_fds,
    mbind, M_bind, mret, M_ret, getM, putM. cbv zeta.
  repeat match goal with |- context [if ?b then _ else _] => destruct b end;
    cbv beta; repeat case_match; intros; simplify_eq; done.
Qed.

Lemma engine_keeps (B0 : gset Z) s e' g' w' a :
  inv me B0 s -> s_e s <> EFree -> current s (k_public (vw s)) ->
  engine_step (s_t s) (s_e s) (s_g s) (s_w s) = Some (e', g', w', a) ->
  keeps s (after s e' g' w' a) /\ current (after s e' g' w' a) (k_public (view w')).
Proof.
  intros [He _] Hf Hp Hs. unfold current, live, keeps in *. cbn [s_e s_g after].
  destruct (s_e s) as [| | | | | | |[ad r]|x| | |] eqn:Hpc; cbn [engine_step] in Hs; try done.
  - pose proof (alloc_port_law (s_t s) true (s_w s)) as Hv. destruct (AllocSysPort _ _ _) as [p w1].
    assert (Hz : k_public (vw s) = 0) by (by destruct Hp as [|[? _]]).
    destruct (Z.eqb_spec p 0) as [->|Hp0]; injection Hs as <- <- <- <-;
      (destruct Hv as [[? ->]|(? & _ & b & _ & ->)]; [|try done]); [by split; [|left]|done|].
    split; [done|right]. kv. by rewrite Hz.
  - injection Hs as <- <- <- <-. rewrite exit_law, signal_law. by split.
  - injection Hs as <- <- <- <-. rewrite signal_law. by split.
  - injection Hs as <- <- <- <-. by destruct (g_engine_shutdown _).
  - destruct (Wait _ _ _) as [[got w1]|] eqn:Hw; [|done]. cbn in Hs. injection Hs as <- <- <- <-.
    apply wait_law in Hw as [_ ->]. by repeat case_match.
  - pose proof (get_law (g_request_port (s_g s)) (s_w s)) as Hg. destruct (GetMsg _ _) as [o w1].
    destruct Hg as [_ Hg]. destruct o; injection Hs as <- <- <- <-; by rewrite Hg.
  - destruct (dispatch_request r (s_g s)) as [[r' g1]|] eqn:Hd; [|done]. cbn in Hs.
    injection Hs as <- <- <- <-. by rewrite (dispatch_port _ _ _ _ Hd).
  - injection Hs as <- <- <- <-. rewrite reply_law. by case_match.
  - injection Hs as <- <- <- <-. rewrite exit_law, signal_law. by split.
Qed.

Lemma launcher_keeps_port (B0 : gset Z) s l' g' w' o :
  inv me B0 s -> stopping (s_l s) = false ->
  launcher_step os me buf (s_l s) (s_g s) (s_w s) = Some (l', g', w', o) ->
  let s' := launched os buf s l' g' w' o in
  keeps s s' /\ k_public (view w') = k_public (vw s) /\ s_lost s' = s_lost s.
Proof.
  intros (He & ph & Hph & Hl) Hu Hs. cbv zeta. unfold keeps, launch_ok in *.
  destruct (s_l s) eqn:Hpc; cbn [launcher_step] in Hs; try done.
  - pose proof (alloc_signal_law me (s_w s)) as Hv. destruct (AllocSignal _ _) as [b w1].
    injection Hs as <- <- <- <-. by destruct Hv as [[_ ->]|[_ ->]].
  - pose proof (alloc_signal_law me (s_w s)) as Hv. destruct (AllocSignal _ _) as [b w1].
    assert (Hw1 : k_public (view w1) = k_public (vw s)) by (by destruct Hv as [[_ ->]|[_ ->]]).
    destruct (_ || _); injection Hs as <- <- <- <-; [|done]. split; [done|]. split; [|done].
    destruct (0 <=? rb), (0 <=? b); by rewrite ?free_signal_law.
  - pose proof (create_law (priority cfg) (s_w s)) as Hv. destruct (CreateTask _ _) as [u w1].
    destruct Hl as (-> & _). cbn [in_phase] in Hph.
    assert (Ho : open (s_e s) = false) by (by destruct (s_e s)). rewrite Ho.
    assert (Hw1 : k_public (view w1) = k_public (vw s)) by (by destruct Hv as [[_ ->]|(_ & _ & ->)]).
    destruct (u =? 0); injection Hs as <- <- <- <-; by rewrite ?free_signal_law.
  - destruct (Wait _ _ _) as [[got w1]|] eqn:Hw; [|done]. cbn in Hs. apply wait_law in Hw as [_ Hv].
    destruct (negb _); injection Hs as <- <- <- <-; by rewrite ?free_signal_law, Hv.
Qed.

Lemma own_keeps (B0 : gset Z) s s' :
  inv me B0 s -> stopping (s_l s) = false -> current s (k_public (vw s)) ->
  own_step os me buf s s' ->
  keeps s s' /\ current s' (k_public (vw s')) /\ s_lost s' = s_lost s.
Proof.
  intros Hi Hu Hp Hs. pose proof (not_freeing _ _ Hi Hu) as Hf. revert Hi Hu Hp Hf.
  destruct Hs as [s s' Hs|s rv cfg Hpc|s rv Hpc].
  - destruct Hs as [s e' g' w' a Hs|s l' g' w' o Hs]; intros Hi Hu Hp Hf.
    + destruct (engine_keeps _ _ _ _ _ _ Hi Hf Hp Hs) as [Hk Hc]. split_and!; [done..|].
      cbn. unfold dropped. destruct (s_e s); try done; apply app_nil_r.
    + destruct (launcher_keeps_port _ _ _ _ _ _ Hi Hu Hs) as (Hk & Hw & Hl). split; [done|].
      split; [|done]. eapply current_keeps; [exact Hk|]. cbn. by rewrite Hw.
  - intros _ _ Hp _. unfold keeps, current, live, start_call in *. cbn. by destruct (negb _).
  - intros _ _ Hp _. by unfold keeps, current, live in *.
Qed.

Lemma known_own (B0 : gset Z) k s' :
  known k -> inv me B0 (k_s k) -> own_step os me buf (k_s k) s' -> stopping (s_l s') = false ->
  known (mk_ksys s' (k_c k) (k_pc k) (k_arg k) (k_from k) (k_pos k) (k_log k)).
Proof.
  intros [K1 K2 K3 K4 K5] Hi Hs Hu. destruct (own_keeps _ _ _ Hi K1 K3 Hs) as (Hk & Hp & Hl).
  split; cbn; [done|by rewrite Hl|done|by eapply current_keeps|].
  intros t. eapply holds_keeps; [exact Hk|apply K5].
Qed.

(** ** The clients *)

Lemma find_slot_holds t e c pc s : find_slot t e c = Some pc -> live s e -> holds s pc.
Proof.
  unfold find_slot. destruct (scan t c) as [i|]; [|done]. cbn [mbind option_bind].
  destruct (0 <=? i).
  - destruct (lookupZ _ _); [|done]. by intros [= <-].
  - destruct (scan 0 c) as [j|]; [|done]. cbn [mbind option_bind]. intros [= <-]. by destruct (0 <=? j).
Qed.

(** A step of a call takes the engine's port from the list or from the library. *)
Lemma step_holds t x pc c s pc' c' w' :
  ipc_step os t x pc c (s_w s) = KGo pc' c' w' ->
  holds s pc -> current s (g_engine_port c) -> current s (k_public (vw s)) ->
  holds s pc' /\ current s (g_engine_port c').
Proof.
  intros Hgo Hh Hc Hp. destruct pc; cbn [ipc_step] in Hgo; unfold obtain in Hgo; cbn [holds] in Hh.
  - done.
  - injection Hgo as <- <- <-. by destruct (g_engine_port_sem_init c).
  - by injection Hgo as <- <- <-.
  - by injection Hgo as <- <- <-.
  - destruct (ObtainSemaphore _ _ _); [|done]. by injection Hgo as <- <- <-.
  - injection Hgo as <- <- <-. by destruct (g_engine_port c =? 0).
  - injection Hgo as <- <- <-. by rewrite find_named_law.
  - injection Hgo as <- <- <-. split; [|done].
    destruct (Z.eqb_spec e 0); [done|]. by destruct Hh.
  - injection Hgo as <- <- <-. by destruct (g_reply_sem_init c).
  - by injection Hgo as <- <- <-.
  - by injection Hgo as <- <- <-.
  - destruct (ObtainSemaphore _ _ _); [|done]. by injection Hgo as <- <- <-.
  - destruct (find_slot t e c) as [pc1|] eqn:Hf; [|done]. injection Hgo as <- <- <-.
    split; [|done]. by apply (find_slot_holds t e c).
  - destruct (AllocSysPort _ _ _) as [p w1]. destruct (p =? 0); [by injection Hgo as <- <- <-|].
    destruct (storeZ _ _ _); [|done]. by injection Hgo as <- <- <-.
  - injection Hgo as <- <- <-. split; [|done]. by destruct (p =? 0).
  - by injection Hgo as <- <- <-.
  - destruct (WaitPort _ _); [|done]. by injection Hgo as <- <- <-.
  - destruct (GetMsg _ _) as [[y|] w1]; [|done]. by injection Hgo as <- <- <-.
Qed.

(** A step that changes the world and the library, and where one task is. *)
Lemma known_moved k s' t pc c a f q l :
  known k -> s_e s' = s_e (k_s k) -> s_g s' = s_g (k_s k) -> s_l s' = s_l (k_s k) ->
  s_lost s' = s_lost (k_s k) ->
  (k_public (vw s') = k_public (vw (k_s k)) \/ k_public (vw s') = 0) ->
  holds (k_s k) pc -> current (k_s k) (g_engine_port c) ->
  known (mk_ksys s' c (<[t := pc]> (k_pc k)) a f q l).
Proof.
  intros [K1 K2 K3 K4 K5] He Hg Hl Hlo Hp Hh Hc.
  assert (Hk : keeps (k_s k) s') by (unfold keeps; by rewrite He, Hg).
  split; cbn; rewrite ?Hl, ?Hlo; [done..| |by eapply current_keeps|].
  - destruct Hp as [-> | ->]; [by eapply current_keeps|by left].
  - intros u. eapply holds_keeps; [exact Hk|]. destruct (decide (u = t)) as [->|]; by fn_simpl.
Qed.

Lemma known_kact (B0 : gset Z) k k' :
  kinv os me B0 k -> known k -> kact os me buf k k' -> stopping (s_l (k_s k')) = false -> known k'.
Proof.
  intros Hk Hn Hs. revert Hk Hn.
  destruct Hs as [k s' Hs|k t rv x Hpc Hc Hwf Hop|k t pc c w Hput Hgo|k t e p pc c w Hpc Ho -> Hgo];
    intros Hk Hn Hu; pose proof (kn_cached _ Hn) as Hcc; pose proof (kn_public _ Hn) as Hpu.
  - by apply (known_own B0); [|apply (sy_inv _ _ _ (ki_sys _ _ _ _ Hk))|..].
  - apply known_moved; try done. by left.
  - assert (Hcal : calling (k_pc k t) = true) by (by destruct (k_pc k t)).
    pose proof (sd_framed _ _ _ _ _ _ _ (running_stepped os me B0 k t pc c w Hk Hcal Hput Hgo)) as Hf.
    destruct (step_holds _ _ _ _ _ _ _ _ Hgo (kn_task _ Hn t) Hcc Hpu) as [? ?].
    apply known_moved; try done. left. apply (fr_public _ _ _ Hf).
  - cbn [ipc_step] in Hgo. injection Hgo as <- <- <-. apply known_moved; try done.
    left. cbn. by rewrite put_law.
Qed.

(** ** Shutting the library down *)

Lemma down_public (B0 : gset Z) t d k d' c w :
  kdown os me B0 t d k -> down_step t d (k_c k) (s_w (k_s k)) = DGo d' c w ->
  (k_public (view w) = k_public (vw (k_s k)) \/ k_public (view w) = 0) /\
  (g_engine_port c = g_engine_port (k_c k) \/ g_engine_port c = 0).
Proof.
  intros Hk Hgo. destruct d as [| |i| |]; cbn [down_step] in Hgo.
  - injection Hgo as <- <- <-. by split; left.
  - destruct (ObtainSemaphore _ _ _) as [w1|] eqn:Ho; [|done]. injection Hgo as <- <- <-.
    destruct (sem_obtain_law _ _ _ _ Ho) as (st & _ & _ & ->). by split; left.
  - repeat case_match; simplify_eq; (split; [|by left]); try by left.
    rewrite free_port_law. cbn. case_match; [by right|by left].
  - injection Hgo as <- <- <-. destruct Hk as [_ _ _ _ _ Hr _].
    destruct (did_drop t (sems (s_w (k_s k)) g_reply_sem)) as (st & Hst & _); [apply Hr| |].
    { eapply counts_inside; [exact Hr|]. cbn. by rewrite bool_decide_true. }
    destruct (sem_release_law _ _ _ _ Hst) as [_ ->]. by split; left.
  - injection Hgo as <- <- <-. split; [by left|by right].
Qed.

Lemma known_down (B0 : gset Z) t d k d' c w :
  kdown os me B0 t d k -> known k -> down_step t d (k_c k) (s_w (k_s k)) = DGo d' c w ->
  known (mk_ksys (set_world w (k_s k)) c (k_pc k) (k_arg k) (k_from k) (k_pos k) (k_log k)).
Proof.
  intros Hk [K1 K2 K3 K4 K5] Hgo. destruct (down_public _ _ _ _ _ _ _ Hk Hgo) as [Hp Hc].
  split; cbn; try done.
  - destruct Hp as [-> | ->]; [done|by left].
  - destruct Hc as [-> | ->]; [done|by left].
Qed.

(** ** From boot *)

Lemma known_boot c w : k_public (view w) = 0 -> g_engine_port c = 0 -> known (kboot c w).
Proof. intros Hp Hc. split; try done; by left. Qed.

Lemma known_qact (B0 : gset Z) q q' :
  qinv os me B0 q -> known (fst q) -> qact_up q q' -> known (fst q').
Proof.
  intros Hq Hn [Hs Hu]. revert Hq Hn Hu.
  destruct Hs as [k k' Hs|k s' d Hs|k t Hc Hi|k t d d' c w Hgo]; cbn [fst qinv]; intros Hk Hn Hu.
  - by eapply known_kact.
  - apply (known_own B0); try done. apply (qinv_core _ _ _ _ _ Hk).
  - done.
  - by eapply known_down.
Qed.

Lemma known_reach c w q :
  me ∈ k_tasks (view w) -> inited c w -> k_public (view w) = 0 -> g_engine_port c = 0 ->
  rtc qact_up (qboot c w) q -> qinv os me (k_bits (view w) me) q /\ known (fst q).
Proof.
  intros Hme Hi Hp Hc Hr.
  apply (rtc_ind_r (R := qact_up) (fun q => qinv os me (k_bits (view w) me) q /\ known (fst q))
    (qboot c w)); [| |exact Hr].
  - split; [by apply kinv_boot|by apply known_boot].
  - intros q1 q2 _ Hs [Hq Hn]. split; [by eapply qinv_act, Hs|by eapply known_qact].
Qed.

Lemma known_solid k t : known k -> ~ dangling k t.
Proof. intros Hn (e & p & Hpc & Hd). pose proof (kn_task _ Hn t) as Hh. by rewrite Hpc in Hh. Qed.

(** C32. While nobody stops the engine every message goes to a live engine.  From an
    initialised library that has not met an engine yet, in every interleaving of the
    tasks inside [netstack_ipc_call] with the engine, with Start, and with
    shutdowns of the library when nobody calls (no client asks for a SHUTDOWN of the engine), in which no Stop of a running engine begins: a task
    about to put its message puts it to the port of the running engine, which is
    live; hence every step of a call blocks or goes on as the relation says, without
    exception; the engine's port that the library and the system know is null or that
    port; no message is lost; and with the launcher outside Start every posted call
    returns, under every schedule of the engine and that task. *)
Theorem client_puts_live c w k down :
  me ∈ k_tasks (view w) -> inited c w -> k_public (view w) = 0 -> g_engine_port c = 0 ->
  rtc qact_up (qboot c w) (k, down) ->
  (forall t e p, k_pc k t = KPut e p ->
     open (s_e (k_s k)) = true /\ e = g_request_port (s_g (k_s k)) /\ e ∈ k_ports (vw (k_s k))) /\
  (forall t, calling (k_pc k t) = true ->
     ipc_step os t (k_arg k t) (k_pc k t) (k_c k) (s_w (k_s k)) = KBlocked \/
     exists pc c' w' k', ipc_step os t (k_arg k t) (k_pc k t) (k_c k) (s_w (k_s k)) = KGo pc c' w' /\
       kact os me buf k k' /\ k_c k' = c' /\ s_w (k_s k') = w' /\ k_pc k' t = pc) /\
  current (k_s k) (g_engine_port (k_c k)) /\ current (k_s k) (k_public (vw (k_s k))) /\
  s_lost (k_s k) = [] /\
  (forall t p rv, wait_at (k_pc k t) = Some p -> s_l (k_s k) = LIdle rv ->
     must_reach (kprog os me buf t) (fun k' => replied k' t) k).
Proof.
  intros Hme Hi Hp Hc Hr. destruct (known_reach c w _ Hme Hi Hp Hc Hr) as [Hq Hn]. cbn [fst] in Hn.
  pose proof (qinv_core _ _ _ _ _ Hq) as [[[He _] _ _ _] _ _]. split_and!.
  - intros t e p Hpc. pose proof (kn_task _ Hn t) as Hh. rewrite Hpc in Hh. destruct Hh as [Ho ->].
    split_and!; [done..|]. by apply (eo_port _ _ He).
  - intros t Ht. destruct (qinv_calling _ _ _ _ _ _ Hq Ht) as [_ Hk]. eapply call_goes; try done.
    by apply known_solid.
  - apply Hn.
  - apply Hn.
  - apply Hn.
  - intros t p rv Hw Hl. eapply posted_returns; try done.
    + by destruct (qinv_calling _ _ _ _ _ _ Hq (calling_wait _ _ Hw)).
    + unfold lost. rewrite (kn_lost _ Hn). apply not_elem_of_nil.
Qed.
End live.
