(* ===== verification/ClientSim.v ===== *)
(** * Runs of clients and engine

    A scheduler for the system of ClientTasks.v in the world of SemSim.v: the
    witnesses of ClientLin.v, and two runs that show what the library asks of its
    callers without checking it. *)

From S2P Require Import Prelude Ipc FdTable FdSpec Engine Tasks EngineTasks EngineInv EngineProc.
From S2P Require Import FdRefine FdLinks FdStream EngineProps TaskSim OsalLock SemSim Client.
From S2P Require Import ClientTasks ClientFrame ClientInv ClientKeep ClientDown ClientLin ClientLive.

(** One step of the engine or launcher; a call of task [t]; [n] steps of task [t]. *)
Inductive ktick := Own (a : action) | Call (t : Z) (x : message) | Run (t : Z) (n : nat).

Abbreviation kst := (ksys lworld).

Definition run_one (t : Z) (k : kst) : option kst :=
  match k_pc k t, ipc_step os0 t (k_arg k t) (k_pc k t) (k_c k) (s_w (k_s k)) with
  | KPut e p, KGo pc c w =>
    if open (s_e (k_s k)) && (e =? g_request_port (s_g (k_s k))) then
      Some (mk_ksys (posted (stamped os0 p (k_arg k t)) w (k_s k)) c (<[t := pc]> (k_pc k)) (k_arg k)
        (k_from k) (<[t := length (s_taken (k_s k) ++ requests (k_s k))]> (k_pos k)) (k_log k))
    else None
  | _, KGo pc c w =>
    Some (mk_ksys (set_world w (k_s k)) c (<[t := pc]> (k_pc k)) (k_arg k) (k_from k) (k_pos k)
      (k_log k ++ returned os0 k t pc))
  | _, _ => None
  end.

Fixpoint run_n (t : Z) (n : nat) (k : kst) : option kst :=
  match n with O => Some k | S n' => k' ← run_one t k; run_n t n' k' end.

Definition may_call (t : Z) (x : message) (k : kst) : bool :=
  bool_decide (t <> 0 /\ t <> 1 /\ t ∈ k_tasks (view (s_w (k_s k)))) &&
  (dead (s_e (k_s k)) || negb (t =? s_t (k_s k))) && negb (op (snd x) =? NETSTACK_OP_SHUTDOWN).

Definition tick_step (a : ktick) (k : kst) : option kst :=
  match a with
  | Own a =>
    s ← act os0 1 900 a (k_s k);
    Some (mk_ksys s (k_c k) (k_pc k) (k_arg k) (k_from k) (k_pos k) (k_log k))
  | Call t x =>
    match k_pc k t with
    | KIdle _ =>
      if may_call t x k then
        Some (mk_ksys (k_s k) (k_c k) (<[t := KEngChk]> (k_pc k)) (<[t := x]> (k_arg k))
          (<[t := length (s_taken (k_s k))]> (k_from k)) (k_pos k) (k_log k))
      else None
    | _ => None
    end
  | Run t n => run_n t n k
  end.

Fixpoint krun (l : list ktick) (k : kst) : option kst :=
  match l with [] => Some k | a :: l' => k' ← tick_step a k; krun l' k' end.

Abbreviation kacts := (rtc (kact os0 1 900)).

Lemma act_own a (s s' : sys lworld) : act os0 1 900 a s = Some s' -> own_step os0 1 900 s s'.
Proof.
  destruct a; cbn [act].
  - destruct (engine_step _ _ _ _) as [[[[e' g'] w'] x]|] eqn:Hs; [|done].
    intros [= <-]. apply own_task. by apply step_engine.
  - destruct (launcher_step _ _ _ _ _ _) as [[[[l' g'] w'] o]|] eqn:Hs; [|done].
    intros [= <-]. apply own_task. by apply (step_launcher _ _ _ s).
  - destruct (s_l s) eqn:Hl; try done. intros [= <-]. by eapply own_start.
  - destruct (s_l s) eqn:Hl; try done. intros [= <-]. by eapply own_stop.
Qed.

Lemma run_one_act t k k' : run_one t k = Some k' -> kact os0 1 900 k k'.
Proof.
  unfold run_one. destruct (k_pc k t) as [| | | | | | | | | | | | | | |e p| |] eqn:Hpc;
    destruct (ipc_step _ _ _ _ _ _) as [| |pc c w] eqn:Hs; try done.
  all: try (intros [= <-]; apply kact_step; rewrite Hpc; done).
  destruct (open _) eqn:Ho; [|done]. destruct (Z.eqb_spec e (g_request_port (s_g (k_s k)))) as [He|]; [|done].
  intros [= <-]. by eapply kact_put.
Qed.

(** Steps that leave the launcher where it will be. *)
Abbreviation kacts_to l := (rtc (fun k k' : kst => kact os0 1 900 k k' /\ s_l (k_s k') = l)).

Lemma run_one_launcher t k k' : run_one t k = Some k' -> s_l (k_s k') = s_l (k_s k).
Proof. unfold run_one. intros Hs. by repeat case_match; simplify_eq. Qed.

Lemma krun_n_acts t n k k' :
  run_n t n k = Some k' -> s_l (k_s k') = s_l (k_s k) /\ kacts_to (s_l (k_s k)) k k'.
Proof.
  revert k. induction n as [|n IH]; intros k; cbn; [by intros [= ->]|].
  destruct (run_one t k) as [k1|] eqn:Hs; [|done]. cbn. intros Hr.
  destruct (IH k1 Hr) as [Hl Ha]. rewrite <- (run_one_launcher t k k1 Hs). split; [done|].
  eapply rtc_l; [|exact Ha]. split; [by eapply run_one_act|done].
Qed.

(** The requests of the runs are those of the client API. *)
Definition tick_wf (a : ktick) : Prop := match a with Call _ x => wf_req (snd x) | _ => True end.
Definition ticks_wf (l : list ktick) : Prop := Forall tick_wf l.

Lemma ktick_acts a k k' :
  tick_wf a -> tick_step a k = Some k' -> kacts_to (s_l (k_s k')) k k'.
Proof.
  intros Ha Hk. destruct a as [a|t x|t n]; cbn in Hk.
  - destruct (act _ _ _ _ _) as [s|] eqn:Hs; [|done]. injection Hk as <-.
    apply rtc_once. split; [|done]. by apply kact_own, (act_own a).
  - destruct (k_pc k t) eqn:Hpc; try done. unfold may_call in Hk. case_bool_decide as Hc; [|done].
    destruct (dead _ || _) eqn:Hd; [|done]. destruct (Z.eqb_spec (op (snd x)) NETSTACK_OP_SHUTDOWN); [done|].
    injection Hk as <-. apply rtc_once. split; [|done].
    eapply kact_call; [done| |done..]. destruct Hc as (? & ? & ?).
    split_and!; try done. intros Hdd. rewrite Hdd in Hd. by destruct (Z.eqb_spec t (s_t (k_s k))).
  - destruct (krun_n_acts t n k k' Hk) as [-> ?]. done.
Qed.

Lemma krun_acts l k k' : ticks_wf l -> krun l k = Some k' -> kacts k k'.
Proof.
  revert k. induction l as [|a l IH]; intros k Hwf; cbn; [by intros [= ->]|].
  apply Forall_cons in Hwf as [Ha Hl].
  destruct (tick_step a k) as [k1|] eqn:Hk; [|done]. cbn. intros Hr. etrans; [|by apply IH].
  eapply rtc_subrel; [|by apply (ktick_acts a)]. by intros ? ? [? _].
Qed.

(** Is nobody in Stop after any of the ticks? *)
Fixpoint stays_up (l : list ktick) (k : kst) : bool :=
  match l with
  | [] => true
  | a :: l' =>
    match tick_step a k with
    | Some k' => negb (stopping (s_l (k_s k'))) && stays_up l' k'
    | None => false
    end
  end.

Lemma krun_up l k k' :
  ticks_wf l -> stays_up l k = true -> krun l k = Some k' ->
  rtc (qact_up os0 1 900) (k, None) (k', None).
Proof.
  revert k. induction l as [|a l IH]; intros k Hwf; cbn; [by intros _ [= ->]|].
  apply Forall_cons in Hwf as [Ha Hl].
  destruct (tick_step a k) as [k1|] eqn:Hk; [|done]. cbn. intros [Hup Hst]%andb_true_iff Hr.
  etrans; [|by apply IH]. apply negb_true_iff in Hup.
  assert (Hacts : kacts_to (s_l (k_s k1)) k k1) by (by apply (ktick_acts a)).
  revert Hacts Hup. generalize (s_l (k_s k1)). clear. intros l Hacts Hup.
  induction Hacts as [|k1 k2 k3 [Hs Heq] _ IH]; [done|]. eapply rtc_l; [|exact IH].
  split; [by apply qact_call|]. cbn. by rewrite Heq.
Qed.

Lemma default_up l k :
  ticks_wf l -> stays_up l k = true -> rtc (qact_up os0 1 900) (k, None) (default k (krun l k), None).
Proof. intros Hl Hu. destruct (krun l k) as [k'|] eqn:Hr; [by apply (krun_up l)|done]. Qed.

(** [n] steps of the task that shuts the library down. *)
Abbreviation qst := (qsys (W := lworld)).
Abbreviation qacts := (rtc (qact os0 1 900)).

Fixpoint down_n (n : nat) (q : qst) : option qst :=
  match n with
  | O => Some q
  | S n' =>
    match q with
    | (k, Some (t, d)) =>
      match down_step t d (k_c k) (s_w (k_s k)) with
      | DGo d' c w => down_n n'
          (mk_ksys (set_world w (k_s k)) c (k_pc k) (k_arg k) (k_from k) (k_pos k) (k_log k), (t,.) <$> d')
      | _ => None
      end
    | _ => None
    end
  end.

Lemma kacts_qacts k k' : kacts k k' -> qacts (k, None) (k', None).
Proof.
  induction 1 as [|k1 k2 k3 Hs _ IH]; [done|]. eapply rtc_l; [by apply qact_call|done].
Qed.

Lemma down_n_acts n q q' : down_n n q = Some q' -> qacts q q'.
Proof.
  revert q. induction n as [|n IH]; intros q; cbn; [by intros [= ->]|].
  destruct q as [k [[t d]|]]; [|done]. destruct (down_step _ _ _ _) as [| |d' c w] eqn:Hs; try done.
  intros Hr. eapply rtc_l; [by apply (qact_step _ _ _ k t d)|by apply IH].
Qed.

Lemma default_down n q : qacts q (default q (down_n n q)).
Proof. destruct (down_n n q) as [q'|] eqn:Hr; [by eapply down_n_acts|done]. Qed.

(** A run moves no task but those it names. *)
Definition named (a : ktick) : list Z :=
  match a with Own _ => [] | Call t _ | Run t _ => [t] end.

Lemma run_n_other t n k k' u : run_n t n k = Some k' -> u <> t -> k_pc k' u = k_pc k u.
Proof.
  revert k. induction n as [|n IH]; intros k; cbn; [by intros [= ->]|].
  destruct (run_one t k) as [k1|] eqn:Hs; [|done]. cbn. intros Hr Hu. rewrite (IH k1 Hr Hu).
  unfold run_one in Hs. repeat case_match; simplify_eq; cbn; by fn_simpl.
Qed.

Lemma krun_other l k k' u : krun l k = Some k' -> u ∉ mjoin (named <$> l) -> k_pc k' u = k_pc k u.
Proof.
  revert k. induction l as [|a l IH]; intros k; cbn; [by intros [= ->]|].
  destruct (tick_step a k) as [k1|] eqn:Hk; [|done]. cbn. intros Hr [Ha Hl]%not_elem_of_app.
  rewrite (IH k1 Hr Hl). destruct a as [a|t x|t n]; cbn in Hk, Ha.
  - destruct (act _ _ _ _ _); [|done]. by injection Hk as <-.
  - destruct (k_pc k t); try done. destruct (may_call t x k); [|done]. injection Hk as <-. cbn.
    by rewrite fn_lookup_insert_ne by (intros ->; by apply Ha, list_elem_of_singleton).
  - eapply run_n_other; [exact Hk|]. intros ->. by apply Ha, list_elem_of_singleton.
Qed.

Definition resting (k : kst) (t : Z) : bool := negb (calling (k_pc k t)).

Lemma all_resting l k u :
  (forall v, exists rv, k_pc k v = KIdle rv) ->
  let k' := default k (krun l k) in
  forallb (resting k') (mjoin (named <$> l)) = true -> exists rv, k_pc k' u = KIdle rv.
Proof.
  intros Hk. cbv zeta. destruct (krun l k) as [k'|] eqn:Hr; cbn; [|done]. intros Hall.
  destruct (decide (u ∈ mjoin (named <$> l))) as [Hu|Hu].
  - apply list_elem_of_In in Hu. pose proof (proj1 (forallb_forall _ _) Hall u Hu) as Hn.
    unfold resting in Hn. destruct (k_pc k' u); try done. eauto.
  - rewrite (krun_other l k k' u Hr Hu). apply Hk.
Qed.

(** ** One session

    Task 1 launches; tasks 2 and 3 are clients. *)

Definition kw0 : lworld :=
  (mk_kview (fun _ => 0) (fun _ => ∅) (fun _ => []) ∅ (fun _ => (0, 0)) {[1; 2; 3]} 0, fun _ => Free).

(** After [netstack_client_init] with no engine. *)
Definition kc0 : client := mk_client true 0 true (g_reply_slots client_init).

Lemma kc0_inited : inited kc0 kw0.
Proof. done. Qed.

Lemma one_kw0 : 1 ∈ k_tasks (view kw0).
Proof. apply (bool_decide_unpack _). vm_compute. exact I. Qed.

(** Start returns; the engine serves [n] steps. *)
Definition up : list ktick :=
  Own (DoStart None) :: (Own <$> [DoLauncher; DoLauncher; DoLauncher; DoEngine; DoEngine; DoLauncher]).
Definition engine (n : nat) : list ktick := replicate n (Own DoEngine).

Definition a_ping : message := (800, ping_req 3 41).
Definition a_socket : message := (700, socket_req 2 1 0).

Ltac ticks := unfold ticks_wf; repeat (apply Forall_cons; split;
    [first [done | cbn; by eauto with words | cbn; apply wf_send_req; repeat constructor; word]|]);
  apply Forall_nil_2.

(** Both clients call at once; task 3 is first in the queue, task 2 returns first. *)
Definition asking : list ktick :=
  up ++ [Call 2 a_ping; Call 3 a_socket; Run 3 2; Run 2 1; Run 3 9; Run 2 9].
Definition answering : list ktick := asking ++ engine 8 ++ [Run 2 2; Run 3 2].

Definition k_asking : kst := default (kboot kc0 kw0) (krun asking (kboot kc0 kw0)).
Definition k_answered : kst := default (kboot kc0 kw0) (krun answering (kboot kc0 kw0)).

Lemma default_acts l k : ticks_wf l -> kacts k (default k (krun l k)).
Proof. intros Hl. destruct (krun l k) as [k'|] eqn:Hr; [by eapply krun_acts|done]. Qed.

Lemma asking_reached : qacts (qboot kc0 kw0) (k_asking, None).
Proof. apply kacts_qacts, default_acts. ticks. Qed.

Lemma answered_reached : qacts (qboot kc0 kw0) (k_answered, None).
Proof. apply kacts_qacts, default_acts. ticks. Qed.

Lemma client_calls_linearize_witness :
  d_task <$> k_log k_answered = [2; 3] /\ d_pos <$> k_log k_answered = [1; 0]%nat /\
  exists (ms : list message) (rs : list NetstackReq), ms `prefix_of` s_taken (k_s k_answered) /\
    forall d, d ∈ k_log k_answered -> ms !! d_pos d = Some (d_sent d) /\ rs !! d_pos d = Some (d_reply d).
Proof.
  split; [vm_compute; reflexivity|]. split; [vm_compute; reflexivity|].
  destruct (client_calls_linearize os0 1 900 kc0 kw0 k_answered None one_kw0 kc0_inited answered_reached)
    as (ms & rs & g0 & Hp & _ & _ & _ & Hall).
  exists ms, rs. split; [exact Hp|]. intros d Hd. apply (Hall d Hd).
Defined.

Lemma client_calls_safe_witness :
  k_pc k_asking 3 = KWait 2 /\ slot (k_c k_asking) 3 2 /\
  (forall u, u <> 0 -> slot (k_c k_asking) u 2 -> u = 3).
Proof.
  destruct (client_calls_safe os0 1 900 kc0 kw0 k_asking None one_kw0 kc0_inited asking_reached)
    as (_ & _ & _ & Hport & Hwait & _).
  assert (Hs : slot (k_c k_asking) 3 2) by (apply (Hwait 3 2); vm_compute; reflexivity).
  split; [vm_compute; reflexivity|]. split; [exact Hs|]. apply (Hport 3 2); [lia|exact Hs].
Defined.

Lemma client_call_returns_witness :
  k_pc k_asking 2 = KWait 3 /\ must_reach (kprog os0 1 900 2) (fun k => replied k 2) k_asking.
Proof.
  split; [vm_compute; reflexivity|].
  apply (client_call_returns os0 1 900 kc0 kw0 k_asking None 2 3 one_kw0 kc0_inited asking_reached
    ltac:(vm_compute; reflexivity)) with (rv := 0); [vm_compute; reflexivity|].
  unfold lost. assert (Hl : s_lost (k_s k_asking) = []) by (vm_compute; reflexivity). rewrite Hl.
  apply not_elem_of_nil.
Defined.

(** Task 2 is about to put its message while task 3 waits. *)
Definition putting_run : list ktick :=
  up ++ [Call 2 a_ping; Call 3 a_socket; Run 3 2; Run 2 1; Run 3 9; Run 2 8].
Definition k_putting : kst := default (kboot kc0 kw0) (krun putting_run (kboot kc0 kw0)).

Lemma putting_reached : rtc (qact_up os0 1 900) (qboot kc0 kw0) (k_putting, None).
Proof.
  apply default_up; [ticks|vm_compute; reflexivity].
Qed.

Lemma client_puts_live_witness :
  k_pc k_putting 2 = KPut 1 3 /\ 1 ∈ k_ports (view (s_w (k_s k_putting))) /\
  k_pc k_putting 3 = KWait 2 /\ must_reach (kprog os0 1 900 3) (fun k => replied k 3) k_putting.
Proof.
  destruct (client_puts_live os0 1 900 kc0 kw0 k_putting None one_kw0 kc0_inited eq_refl eq_refl
    putting_reached) as (Hput & _ & _ & _ & _ & Hret).
  split; [vm_compute; reflexivity|]. split; [|split; [vm_compute; reflexivity|]].
  - apply (Hput 2 1 3). vm_compute. reflexivity.
  - apply (Hret 3 2 0); vm_compute; reflexivity.
Defined.

(** Task 2 listens on port 80, task 3 connects and sends two bytes while task 2 asks
    for them: the receive is served first, and again after the send. *)
Definition call_on (t : Z) (x : message) (n : nat) : list ktick :=
  [Call t x; Run t n] ++ engine 6 ++ [Run t 2].

Definition pairing : list ktick :=
  up ++ call_on 2 (700, socket_req 2 1 0) 11 ++ call_on 2 (700, bind_req 3 80) 9 ++
  call_on 2 (700, listen_req 3 5) 9 ++ call_on 3 (800, socket_req 2 1 0) 10 ++
  call_on 3 (800, connect_req 4 80) 9 ++ call_on 2 (700, accept_req 3) 9.

Definition streaming : list ktick :=
  pairing ++ [Call 2 (700, recv_req 5 9); Call 3 (800, send_req 4 2 [7; 8]); Run 3 5; Run 2 9; Run 3 4] ++
  engine 9 ++ [Run 3 2; Run 2 2] ++ call_on 2 (700, recv_req 5 1) 9.

Definition k_streamed : kst := default (kboot kc0 kw0) (krun streaming (kboot kc0 kw0)).
Lemma streamed_reached : qacts (qboot kc0 kw0) (k_streamed, None).
Proof.
  apply kacts_qacts, default_acts. unfold streaming, pairing, call_on.
  repeat (apply Forall_app; split); ticks.
Qed.

(** What the engine has served. *)
Definition served : list NetstackReq := snd <$> s_taken (k_s k_streamed).

Lemma served_paired : paired (booted (take 6 served)) 4 5.
Proof.
  exists (mk_asock FD_SOCKET_CONNECTED (2, 1, 0) 0 [] 5 80 []),
         (mk_asock FD_SOCKET_CONNECTED (2, 1, 0) 80 [] 4 0 []).
  split; [vm_compute; reflexivity|]. split; [vm_compute; reflexivity|].
  repeat split.
Qed.

Lemma client_stream_witness :
  d_task <$> k_log k_streamed = [2; 2; 2; 3; 3; 2; 3; 2; 2] /\
  exists rs : list NetstackReq,
    sent_bytes 4 (sockops (drop 6 served)) (answers (drop 6 served) (drop 6 rs)) =
    recv_bytes 5 (sockops (drop 6 served)) (answers (drop 6 served) (drop 6 rs)) ++
      inflight (abs (g_fdtable (s_g (k_s k_streamed)))) 5.
Proof.
  split; [vm_compute; reflexivity|].
  destruct (client_stream os0 1 900 kc0 kw0 k_streamed None one_kw0 kc0_inited streamed_reached)
    as (ms & rs & Ht & _ & Hst).
  assert (He : to_dispatch (s_e (k_s k_streamed)) = []) by (vm_compute; reflexivity).
  rewrite He, app_nil_r in Ht. subst ms. exists rs.
  specialize (Hst 6%nat 4 5). cbv zeta in Hst. rewrite fmap_take, fmap_drop in Hst.
  fold served in Hst. destruct Hst as [_ Hb].
  - apply connection_booted; [|exact served_paired].
    apply disciplined_no_close, no_close_Forall. vm_compute. reflexivity.
  - eapply Forall_impl; [apply no_close_Forall; vm_compute; reflexivity|]. intros o Ho. by split; apply Ho.
  - assert (Hn : inflight (booted (take 6 served)) 5 = []) by (vm_compute; reflexivity).
    rewrite Hn in Hb. exact Hb.
Defined.

(** ** What the library asks of its callers *)

Definition stop_down : list ktick :=
  (Own <$> [DoStop; DoLauncher; DoLauncher]) ++ engine 8 ++ (Own <$> [DoLauncher; DoEngine; DoLauncher]).

(** A client that has made a call keeps the engine's port in [g_engine_port].  After
    Stop has returned, its next call puts the message to a port that is gone. *)
Theorem stale_engine_port :
  exists k e p, kacts (kboot kc0 kw0) k /\ s_l (k_s k) = LIdle 0 /\ s_e (k_s k) = EExited /\
    k_pc k 2 = KPut e p /\ e <> 0 /\ e ∉ k_ports (view (s_w (k_s k))).
Proof.
  set (l := up ++ [Call 2 a_ping; Run 2 11] ++ engine 6 ++ [Run 2 2] ++ stop_down ++
    [Call 2 a_ping; Run 2 8]).
  exists (default (kboot kc0 kw0) (krun l (kboot kc0 kw0))), 1, 2.
  split; [apply default_acts; ticks|]. split_and!; try (vm_compute; reflexivity); [done|].
  apply (bool_decide_unpack _). vm_compute. exact I.
Qed.

(** Without [netstack_client_init] two first calls can both initialise the
    semaphore: both tasks are then in the section it guards and take the same slot;
    the port of one of them stays allocated and is in no slot. *)
Theorem lazy_init_races :
  exists k k', kacts (kboot client_init kw0) k /\
    in_rep (k_pc k 2) = true /\ in_rep (k_pc k 3) = true /\
    kacts k k' /\ calling (k_pc k' 2) = false /\ calling (k_pc k' 3) = false /\
    2 ∈ k_ports (view (s_w (k_s k'))) /\ fst (k_owner (view (s_w (k_s k'))) 2) = 2 /\
    forall t, ~ slot (k_c k') t 2.
Proof.
  set (l1 := up ++ [Call 2 a_ping; Call 3 a_socket; Run 2 8; Run 3 5; Run 2 4; Run 3 4]).
  set (l2 := [Run 2 3; Run 3 3] ++ engine 8 ++ [Run 2 2; Run 3 2]).
  set (k := default (kboot client_init kw0) (krun l1 (kboot client_init kw0))).
  exists k, (default k (krun l2 k)).
  split; [apply default_acts; ticks|]. do 2 (split; [vm_compute; reflexivity|]).
  split; [apply default_acts; ticks|]. do 2 (split; [vm_compute; reflexivity|]).
  split; [apply (bool_decide_unpack _); vm_compute; exact I|]. split; [vm_compute; reflexivity|].
  intros t Ht. apply list_elem_of_fmap_2 with (f := port) in Ht. revert Ht.
  apply (bool_decide_unpack _). vm_compute. exact I.
Qed.


(** ** Shutting down *)

Lemma boot_idle v : exists rv, k_pc (kboot (W := lworld) kc0 kw0) v = KIdle rv.
Proof. by exists None. Qed.

Lemma snd_is {A B} (q : A * B) b : snd q = b -> q = (fst q, b).
Proof. destruct q; cbn. by intros ->. Qed.

(** Both calls of [answering] have returned; task 2 shuts the library down. *)
Definition q_down : qst :=
  default (k_answered, Some (2, DChk)) (down_n 21 (k_answered, Some (2, DChk))).
Definition k_down : kst := fst q_down.

Lemma down_reached : qacts (qboot kc0 kw0) (k_down, None).
Proof.
  assert (Hq : snd q_down = None) by (vm_compute; reflexivity).
  assert (Hd : q_down = (k_down, None)) by exact (snd_is q_down None Hq). clear Hq.
  rewrite <-Hd. etrans; [apply answered_reached|]. eapply rtc_l; [|apply default_down].
  apply qact_down.
  - split; [|split; [|split]]; [lia|vm_compute; lia| |intros _].
    + apply (bool_decide_unpack _). vm_compute. exact I.
    + apply (bool_decide_unpack (2 <> _)). vm_compute. exact I.
  - intros u. apply (all_resting answering (kboot kc0 kw0) u boot_idle). vm_compute. reflexivity.
Qed.

(** The engine is stopped and started again; task 2 calls once more. *)
Definition restarting : list ktick :=
  (Own <$> [DoStop; DoLauncher; DoLauncher]) ++ engine 7 ++ (Own <$> [DoLauncher; DoLauncher]) ++
  up ++ [Call 2 a_ping; Run 2 11] ++ engine 5 ++ [Run 2 2].
Definition k_restarted : kst := default k_down (krun restarting k_down).

(** After a shutdown the slots are free and only the engine's port is left; after Stop
    and another Start the next call, the third to return, finds the new port. *)
Theorem shutdown_then_restart :
  qacts (qboot kc0 kw0) (k_down, None) /\ qacts (k_down, None) (k_restarted, None) /\
  g_reply_slots (k_c k_down) = g_reply_slots client_init /\
  elements (k_ports (view (s_w (k_s k_down)))) = [g_request_port (s_g (k_s k_down))] /\
  length (k_log k_down) = 2%nat /\ length (k_log k_restarted) = 3%nat /\
  g_engine_port (k_c k_restarted) = g_request_port (s_g (k_s k_restarted)).
Proof.
  split; [apply down_reached|]. split; [apply kacts_qacts, default_acts; ticks|].
  repeat split; vm_compute; reflexivity.
Qed.

(** Task 3 waits for its reply when task 2 shuts the library down. *)
Definition k_waiting : kst :=
  default (kboot kc0 kw0) (krun (up ++ [Call 3 a_socket; Run 3 11]) (kboot kc0 kw0)).
Definition q_freed : qst :=
  default (k_waiting, Some (2, DChk)) (down_n 21 (k_waiting, Some (2, DChk))).
Definition k_freed : kst := fst q_freed.

(** The ports of all tasks are freed, also of one that waits: its message is still in
    the engine's queue, with the address of a port that is gone. *)
Theorem shutdown_under_call :
  kacts (kboot kc0 kw0) k_waiting /\ qacts (k_waiting, Some (2, DChk)) (k_freed, None) /\
  k_pc k_waiting 3 = KWait 2 /\ 2 ∈ k_ports (view (s_w (k_s k_waiting))) /\
  k_pc k_freed 3 = KWait 2 /\ 2 ∉ k_ports (view (s_w (k_s k_freed))) /\
  (fun x => mn_ReplyPort (msg (snd x))) <$> requests (k_s k_freed) = [2].
Proof.
  split; [apply default_acts; ticks|]. split.
  { assert (Hq : snd q_freed = None) by (vm_compute; reflexivity).
    rewrite <-(snd_is q_freed None Hq : q_freed = (k_freed, None)). apply default_down. }
  split; [vm_compute; reflexivity|]. split; [apply (bool_decide_unpack _); vm_compute; exact I|].
  split; [vm_compute; reflexivity|]. split; [apply (bool_decide_unpack _); vm_compute; exact I|].
  vm_compute. reflexivity.
Qed.
